(** * D* incremental grid planner: a shallow embedding of [d_star.cpp]

    The planner of [src/planner/graph_planner/src/d_star.cpp] is embedded as
    pure functions over an explicit planner state.  A node pointer
    ([DNodePtr]) is the grid cell that owns the node, so that two pointers
    alias exactly when they name the same cell, and every read of a field
    goes through the node grid of the current state.

    What C++ leaves undefined is made explicit.  Reading [map_] or [path_]
    at an index outside of it is a fault ([OutOfBounds]).  Reading
    [open_list_.begin()->first] of an empty list gives [Indeterminate]; a
    caller may drop that value, and branching on it is a fault
    ([IndeterminateRead]).  Each [while (1)] loop runs on fuel: the code
    returns a result when some amount of fuel gives one, and loops forever
    when every amount of fuel runs out ([OutOfFuel]).

    Arithmetic on [double] is taken through the interface [DoubleOps]; it is
    instantiated with IEEE binary64 ([F64], on primitive floats).  The
    invariants are proved for every instance that satisfies the laws
    [OrderLaws] and [DistanceLaw], which binary64 is shown to satisfy. *)

From Stdlib Require Import ZArith List Bool Lia Sorting.Sorted.
From Stdlib Require Import Floats.PrimFloat Floats.FloatOps Floats.SpecFloat.
From Stdlib Require Import Floats.FloatAxioms.
From Stdlib Require Import Numbers.Cyclic.Int63.Uint63.
From stdpp Require Import base option list gmap.

Local Open Scope Z_scope.

(** ** Doubles *)

(** The operations the planner performs on [double] values. *)
Class DoubleOps (D : Type) := {
  d_of_int : Z -> D;            (* conversion int -> double *)
  d_to_int : D -> Z;            (* conversion double -> int (truncation) *)
  d_add : D -> D -> D;          (* a + b *)
  d_mul : D -> D -> D;          (* a * b *)
  d_lt : D -> D -> bool;        (* a < b *)
  d_le : D -> D -> bool;        (* a <= b *)
  d_eq : D -> D -> bool;        (* a == b *)
  d_hypot : Z -> Z -> D         (* std::hypot on two int arguments *)
}.

(** [std::min(a, b)] is [(b < a) ? b : a]. *)
Definition d_min {D} `{DoubleOps D} (a b : D) : D := if d_lt b a then b else a.

(** ** Nodes *)

(** enum Tag { NEW, OPEN, CLOSED } *)
Inductive Tag := NEW | OPEN | CLOSED.

Definition Tag_eqb (a b : Tag) : bool :=
  match a, b with
  | NEW, NEW | OPEN, OPEN | CLOSED, CLOSED => true
  | _, _ => false
  end.

(** [Node]: the base record of the planning framework, as [d_star.cpp] uses
    it (fields x, y, cost, h_cost, id, pid). *)
Module Node.
Record t (D : Type) := mk {
    x : Z; y : Z; cost : D; h_cost : D; id : Z; pid : Z
  }.
Arguments mk {D}.
Arguments x {D}.
Arguments y {D}.
Arguments cost {D}.
Arguments h_cost {D}.
Arguments id {D}.
Arguments pid {D}.
End Node.

(** [DNode]: a [Node] with the D* tag and key. *)
Module DNode.
Record t (D : Type) := mk {
    x : Z; y : Z; cost : D; h_cost : D; id : Z; pid : Z; tag : Tag; k : D
  }.
Arguments mk {D}.
Arguments x {D}.
Arguments y {D}.
Arguments cost {D}.
Arguments h_cost {D}.
Arguments id {D}.
Arguments pid {D}.
Arguments tag {D}.
Arguments k {D}.

Definition set_cost {D} (c : D) (n : t D) : t D :=
    mk (x n) (y n) c (h_cost n) (id n) (pid n) (tag n) (k n).
Definition set_pid {D} (p : Z) (n : t D) : t D :=
    mk (x n) (y n) (cost n) (h_cost n) (id n) p (tag n) (k n).
Definition set_tag {D} (g : Tag) (n : t D) : t D :=
    mk (x n) (y n) (cost n) (h_cost n) (id n) (pid n) g (k n).
Definition set_k {D} (v : D) (n : t D) : t D :=
    mk (x n) (y n) (cost n) (h_cost n) (id n) (pid n) (tag n) v.

(** Copying a [DNode] into a [Node] (as [path_.push_back( *node_ptr)]
      does) keeps the base fields. *)
Definition slice {D} (n : t D) : Node.t D :=
    Node.mk (x n) (y n) (cost n) (h_cost n) (id n) (pid n).
End DNode.

(** A [DNodePtr] is the cell [(x, y)] of [map_] that owns the node. *)
Abbreviation DNodePtr := (Z * Z)%type.

(** ** What the planner takes from declarations outside [d_star.cpp]

    The base class [GlobalPlanner] supplies the grid size, the lethal cost
    and its factor, and the conversions between cells and linear indices;
    the header supplies the macros [INF] and [SIM_DISTANCE].  They are
    parameters of the embedding. *)
Record Params (D : Type) := mkParams {
  nx_ : Z;
  ny_ : Z;
  ns_ : Z;
  lethal_cost_ : D;
  factor_ : D;
  grid2Index : Z -> Z -> Z;
  index2Grid : Z -> Z * Z;
  INF : Z;
  SIM_DISTANCE : nat
}.
Arguments nx_ {D}.
Arguments ny_ {D}.
Arguments ns_ {D}.
Arguments lethal_cost_ {D}.
Arguments factor_ {D}.
Arguments grid2Index {D}.
Arguments index2Grid {D}.
Arguments INF {D}.
Arguments SIM_DISTANCE {D}.

(** ** Results of running planner code *)

(** What stops a run short of a result. *)
Inductive fault :=
  | OutOfBounds          (* an index outside [map_] or [path_] *)
  | IndeterminateRead.   (* a branch on the key read from an empty open list *)

Inductive result (A : Type) :=
  | Ok (a : A)
  | Fault (f : fault)
  | OutOfFuel.
Arguments Ok {A}.
Arguments Fault {A}.
Arguments OutOfFuel {A}.

Definition bind {A B} (f : A -> result B) (m : result A) : result B :=
  match m with
  | Ok a => f a
  | Fault e => Fault e
  | OutOfFuel => OutOfFuel
  end.

#[global] Instance result_bind : MBind result := @bind.
#[global] Instance result_ret : MRet result := @Ok.

(** The value [processState] returns: a key, or the value it reads through
    [open_list_.begin()] when the list is empty, which no code may use. *)
Inductive retval (D : Type) :=
  | Key (k : D)
  | Indeterminate.
Arguments Key {D}.
Arguments Indeterminate {D}.

(** ** The planner state *)

Record DStar (D : Type) := mkDStar {
  global_costmap_ : list Z;
  goal_ : Z * Z;
  map_ : gmap (Z * Z) (DNode.t D);
  open_list_ : list (D * DNodePtr);
  path_ : list (Node.t D)
}.
Arguments mkDStar {D}.
Arguments global_costmap_ {D}.
Arguments goal_ {D}.
Arguments map_ {D}.
Arguments open_list_ {D}.
Arguments path_ {D}.

Definition set_map {D} (m : gmap (Z * Z) (DNode.t D)) (s : DStar D) : DStar D :=
  mkDStar (global_costmap_ s) (goal_ s) m (open_list_ s) (path_ s).
Definition set_open_list {D} (l : list (D * DNodePtr)) (s : DStar D) : DStar D :=
  mkDStar (global_costmap_ s) (goal_ s) (map_ s) l (path_ s).
Definition set_path {D} (p : list (Node.t D)) (s : DStar D) : DStar D :=
  mkDStar (global_costmap_ s) (goal_ s) (map_ s) (open_list_ s) p.
Definition set_goal {D} (g : Z * Z) (s : DStar D) : DStar D :=
  mkDStar (global_costmap_ s) g (map_ s) (open_list_ s) (path_ s).
Definition set_costmap {D} (c : list Z) (s : DStar D) : DStar D :=
  mkDStar c (goal_ s) (map_ s) (open_list_ s) (path_ s).

(** [std::multimap::insert]: the new entry goes before the first entry whose
    key is greater, hence after every entry with an equal key. *)
Fixpoint multimap_insert {D} `{DoubleOps D} (key : D) (v : DNodePtr)
    (l : list (D * DNodePtr)) : list (D * DNodePtr) :=
  match l with
  | [] => [(key, v)]
  | e :: t => if d_lt key (fst e) then (key, v) :: l
              else e :: multimap_insert key v t
  end.

(** ** The planner *)

Section Planner.

Context {D : Type} `{DoubleOps D}.
Variable P : Params D.

(** The value of a read through a pointer that is not in the grid; no
    invariant depends on it. *)
Definition blank : DNode.t D :=
  DNode.mk 0 0 (d_of_int 0) (d_of_int 0) 0 (-1) NEW (d_of_int 0).

(** Reading through a node pointer.  Pointers are only ever taken from
    [map_] by an index that was found inside it, so the default is never
    the value read. *)
Definition deref (s : DStar D) (p : DNodePtr) : DNode.t D :=
  default blank (map_ s !! p).

(** Writing through a node pointer. *)
Definition store (p : DNodePtr) (n : DNode.t D) (s : DStar D) : DStar D :=
  set_map (<[p := n]> (map_ s)) s.

(** [initMap]: node [(i, j)] is
    [DNode(i, j, INF, INF, grid2Index(i, j), -1, NEW, INF)]. *)
Definition fresh_node (i j : Z) : DNode.t D :=
  DNode.mk i j (d_of_int (INF P)) (d_of_int (INF P)) (grid2Index P i j) (-1)
           NEW (d_of_int (INF P)).

Definition initMap_cells : list ((Z * Z) * DNode.t D) :=
  i ← seqZ 0 (nx_ P); j ← seqZ 0 (ny_ P); [((i, j), fresh_node i j)].

Definition initMap (s : DStar D) : DStar D :=
  set_map (list_to_map initMap_cells) s.

(** The constructor: [goal_.x = goal_.y = INF; initMap()], with a cost map
    of [ns_] bytes whose content is not yet written. *)
Definition DStar_new (costmap : list Z) : DStar D :=
  initMap (mkDStar costmap (INF P, INF P) ∅ [] []).

(** [reset]: clear the open list and rebuild every node. *)
Definition reset (s : DStar D) : DStar D :=
  initMap (set_open_list [] s).

(** [insert(node_ptr, h_new)] *)
Definition insert (node_ptr : DNodePtr) (h_new : D) (s : DStar D) : DStar D :=
  let n := deref s node_ptr in
  let n :=
    match DNode.tag n with
    | NEW => DNode.set_k h_new n
    | OPEN => DNode.set_k (d_min (DNode.k n) h_new) n
    | CLOSED => DNode.set_k (d_min (DNode.cost n) h_new) n
    end in
  let n := DNode.set_cost h_new n in
  let n := DNode.set_tag OPEN n in
  set_open_list (multimap_insert (DNode.k n) node_ptr (open_list_ s))
                (store node_ptr n s).

(** [global_costmap_[i]]; the ids stored in grid nodes index the cost map
    inside its [ns_] bytes, and the model reads 0 anywhere else. *)
Definition costmap_at (s : DStar D) (i : Z) : Z :=
  if i <? 0 then 0 else default 0 (global_costmap_ s !! Z.to_nat i).

Definition lethal (s : DStar D) (i : Z) : bool :=
  d_lt (d_mul (lethal_cost_ P) (factor_ P)) (d_of_int (costmap_at s i)).

(** [isCollision(n1, n2)] *)
Definition isCollision (s : DStar D) (n1 n2 : DNodePtr) : bool :=
  lethal s (DNode.id (deref s n1)) || lethal s (DNode.id (deref s n2)).

(** The pairs [(i, j)] of the two nested loops of [getNeighbours]. *)
Definition offsets : list (Z * Z) :=
  i ← [-1; 0; 1]; j ← [-1; 0; 1]; [(i, j)].

(** One iteration of the inner loop of [getNeighbours]: the bounds test is
    the source's [x_n < 0 || x_n > nx_ || y_n < 0 || y_n > ny_], and the
    read [map_[x_n][y_n]] is a fault when the cell is not in the grid. *)
Definition getNeighbours_step (s : DStar D) (node_ptr : DNodePtr)
    (neighbours : list DNodePtr) (ij : Z * Z) : result (list DNodePtr) :=
  let '(i, j) := ij in
  if (i =? 0) && (j =? 0) then Ok neighbours
  else
    let x_n := DNode.x (deref s node_ptr) + i in
    let y_n := DNode.y (deref s node_ptr) + j in
    if (x_n <? 0) || (x_n >? nx_ P) || (y_n <? 0) || (y_n >? ny_ P)
    then Ok neighbours
    else
      match map_ s !! (x_n, y_n) with
      | None => Fault OutOfBounds
      | Some _ =>
          if isCollision s node_ptr (x_n, y_n) then Ok neighbours
          else Ok (neighbours ++ [(x_n, y_n)])
      end.

Fixpoint getNeighbours_loop (s : DStar D) (node_ptr : DNodePtr)
    (ijs : list (Z * Z)) (neighbours : list DNodePtr)
    : result (list DNodePtr) :=
  match ijs with
  | [] => Ok neighbours
  | ij :: rest =>
      neighbours ← getNeighbours_step s node_ptr neighbours ij;
      getNeighbours_loop s node_ptr rest neighbours
  end.

(** [getNeighbours(node_ptr, neighbours)] on an empty vector. *)
Definition getNeighbours (s : DStar D) (node_ptr : DNodePtr)
    : result (list DNodePtr) :=
  getNeighbours_loop s node_ptr offsets [].

(** [getCost(n1, n2)] *)
Definition getCost (s : DStar D) (n1 n2 : DNodePtr) : D :=
  if isCollision s n1 n2 then d_of_int (INF P)
  else d_hypot (DNode.x (deref s n1) - DNode.x (deref s n2))
               (DNode.y (deref s n1) - DNode.y (deref s n2)).

(** Body of the first loop of [processState] (lines 147-155). *)
Definition raise_step (k_old : D) (x : DNodePtr) (s : DStar D) (y : DNodePtr)
    : DStar D :=
  if d_le (DNode.cost (deref s y)) k_old
     && d_lt (d_add (DNode.cost (deref s y)) (getCost s y x))
             (DNode.cost (deref s x))
  then
    let s := store x (DNode.set_pid (DNode.id (deref s y)) (deref s x)) s in
    store x (DNode.set_cost (d_add (DNode.cost (deref s y)) (getCost s y x))
                            (deref s x)) s
  else s.

(** [y->pid = x->id; insert(y, x->cost + getCost(x, y))], the body shared by
    the LOWER branch (lines 167-168) and the else branch (lines 180-181). *)
Definition relink (x y : DNodePtr) (s : DStar D) : DStar D :=
  let s := store y (DNode.set_pid (DNode.id (deref s x)) (deref s y)) s in
  insert y (d_add (DNode.cost (deref s x)) (getCost s x y)) s.

(** [x->cost + getCost(x, y)] *)
Definition via (x y : DNodePtr) (s : DStar D) : D :=
  d_add (DNode.cost (deref s x)) (getCost s x y).

(** The test of line 164:
    [y->tag == NEW || (y->pid == x->id && y->cost != x->cost + getCost(x, y))]. *)
Definition stale_child (x y : DNodePtr) (s : DStar D) : bool :=
  Tag_eqb (DNode.tag (deref s y)) NEW
  || ((DNode.pid (deref s y) =? DNode.id (deref s x))
      && negb (d_eq (DNode.cost (deref s y)) (via x y s))).

(** The test of line 165:
    [y->pid != x->id && y->cost > x->cost + getCost(x, y)]. *)
Definition improvable (x y : DNodePtr) (s : DStar D) : bool :=
  negb (DNode.pid (deref s y) =? DNode.id (deref s x))
  && d_lt (via x y s) (DNode.cost (deref s y)).

(** The test of line 187:
    [y->pid != x->id && x->cost > y->cost + getCost(x, y) && y->tag == CLOSED
     && y->cost > k_old]. *)
Definition raised_closed (k_old : D) (x y : DNodePtr) (s : DStar D) : bool :=
  negb (DNode.pid (deref s y) =? DNode.id (deref s x))
  && d_lt (d_add (DNode.cost (deref s y)) (getCost s x y)) (DNode.cost (deref s x))
  && Tag_eqb (DNode.tag (deref s y)) CLOSED
  && d_lt k_old (DNode.cost (deref s y)).

(** Body of the loop of the LOWER branch (lines 161-170). *)
Definition lower_step (x : DNodePtr) (s : DStar D) (y : DNodePtr) : DStar D :=
  if stale_child x y s || improvable x y s then relink x y s else s.

(** Body of the loop of the else branch (lines 175-191). *)
Definition raise_state_step (k_old : D) (x : DNodePtr) (s : DStar D)
    (y : DNodePtr) : DStar D :=
  if stale_child x y s then relink x y s
  else if improvable x y s then insert x (DNode.cost (deref s x)) s
  else if raised_closed k_old x y s then insert y (DNode.cost (deref s y)) s
  else s.

(** [return open_list_.begin()->first]: on an empty list the read goes
    through the end iterator and yields no defined value. *)
Definition front_key (s : DStar D) : retval D :=
  match open_list_ s with
  | [] => Indeterminate
  | e :: _ => Key (fst e)
  end.

(** The RAISE-propagation step of [processState] (lines 145-156). *)
Definition raise_phase (k_old : D) (x : DNodePtr) (neigbours : list DNodePtr)
    (s : DStar D) : DStar D :=
  if d_lt k_old (DNode.cost (deref s x))
  then fold_left (raise_step k_old x) neigbours s
  else s.

(** The LOWER / RAISE branches of [processState] (lines 159-192). *)
Definition spread_phase (k_old : D) (x : DNodePtr) (neigbours : list DNodePtr)
    (s : DStar D) : DStar D :=
  if d_eq k_old (DNode.cost (deref s x))
  then fold_left (lower_step x) neigbours s
  else fold_left (raise_state_step k_old x) neigbours s.

(** [processState()] *)
Definition processState (s : DStar D) : result (retval D * DStar D) :=
  match open_list_ s with
  | [] => Ok (Key (d_of_int (-1)), s)
  | (k_old, x) :: rest =>
      let s := set_open_list rest s in
      let s := store x (DNode.set_tag CLOSED (deref s x)) s in
      neigbours ← getNeighbours s x;
      let s := raise_phase k_old x neigbours s in
      let s := spread_phase k_old x neigbours s in
      Ok (front_key s, s)
  end.

(** [extractExpand(expand)]: the nodes tagged CLOSED, [i] outer, [j] inner. *)
Definition extractExpand (s : DStar D) : list (Node.t D) :=
  i ← seqZ 0 (nx_ P); j ← seqZ 0 (ny_ P);
  (if Tag_eqb (DNode.tag (deref s (i, j))) CLOSED
   then [DNode.slice (deref s (i, j))] else []).

(** The loop of [extractPath]; [fuel] bounds its iterations. *)
Fixpoint extractPath_loop (fuel : nat) (s : DStar D) (node_ptr : DNodePtr)
    (goal : Z * Z) (path : list (Node.t D)) : result (list (Node.t D)) :=
  match fuel with
  | O => OutOfFuel
  | S fuel =>
      let n := deref s node_ptr in
      if negb (DNode.x n =? fst goal) || negb (DNode.y n =? snd goal) then
        let path := path ++ [DNode.slice n] in
        let '(x, y) := index2Grid P (DNode.pid n) in
        match map_ s !! (x, y) with
        | None => Fault OutOfBounds
        | Some _ => extractPath_loop fuel s (x, y) goal path
        end
      else Ok path
  end.

(** [extractPath(start, goal)]: appends to [path_], then reverses it. *)
Definition extractPath (fuel : nat) (s : DStar D) (start goal : Z * Z)
    : result (DStar D) :=
  match map_ s !! start with
  | None => Fault OutOfBounds
  | Some _ =>
      path ← extractPath_loop fuel s start goal (path_ s);
      Ok (set_path (reverse path) s)
  end.

(** The distance of [getState]: [int dis = std::hypot(...)]. *)
Definition int_dist (p : Node.t D) (current : Z * Z) : Z :=
  d_to_int (d_hypot (Node.x p - fst current) (Node.y p - snd current)).

(** The loop of [getState], from index [i] on. *)
Fixpoint getState_loop (rest : list (Node.t D)) (i : nat) (current : Z * Z)
    (dis_min : Z) (idx_min : nat) : nat :=
  match rest with
  | [] => idx_min
  | p :: rest =>
      let dis := int_dist p current in
      if dis <? dis_min then getState_loop rest (S i) current dis i
      else getState_loop rest (S i) current dis_min idx_min
  end.

(** [getState(current)]: reading [path_[0]] of an empty path is a fault. *)
Definition getState (s : DStar D) (current : Z * Z) : result (Z * Z) :=
  match path_ s with
  | [] => Fault OutOfBounds
  | p0 :: rest =>
      let idx_min := getState_loop rest 1 current (int_dist p0 current) 0 in
      match path_ s !! idx_min with
      | None => Fault OutOfBounds
      | Some p => Ok (Node.x p, Node.y p)
      end
  end.

(** The loop of [modify]: it branches on the value [processState] returned. *)
Fixpoint modify_loop (fuel : nat) (s : DStar D) (x : DNodePtr)
    : result (DStar D) :=
  match fuel with
  | O => OutOfFuel
  | S fuel =>
      '(r, s) ← processState s;
      match r with
      | Indeterminate => Fault IndeterminateRead
      | Key k_min =>
          if d_le (DNode.cost (deref s x)) k_min then Ok s
          else modify_loop fuel s x
      end
  end.

(** [modify(x, y)] *)
Definition modify (fuel : nat) (s : DStar D) (x y : DNodePtr)
    : result (DStar D) :=
  let s :=
    if Tag_eqb (DNode.tag (deref s x)) CLOSED
    then insert x (d_add (DNode.cost (deref s y)) (getCost s x y)) s
    else s in
  modify_loop fuel s x.

(** The search loop of a fresh goal (lines 303-308); the value of
    [processState] is dropped. *)
Fixpoint search_loop (fuel : nat) (s : DStar D) (start_ptr : DNodePtr)
    : result (DStar D) :=
  match fuel with
  | O => OutOfFuel
  | S fuel =>
      '(_, s) ← processState s;
      if Tag_eqb (DNode.tag (deref s start_ptr)) CLOSED then Ok s
      else search_loop fuel s start_ptr
  end.

(** The forward walk of the same-goal branch (lines 325-341), with [n]
    iterations left. *)
Fixpoint walk (fuel : nat) (n : nat) (s : DStar D) (x : DNodePtr)
    : result (DStar D) :=
  match n with
  | O => Ok s
  | S n =>
      if DNode.pid (deref s x) =? -1 then Ok s
      else
        let y := index2Grid P (DNode.pid (deref s x)) in
        match map_ s !! y with
        | None => Fault OutOfBounds
        | Some _ =>
            if isCollision s x y then
              s ← modify fuel s x y;
              walk fuel n s x
            else walk fuel n s y
        end
  end.

(** [memcpy(global_costmap_, costs, ns_)] *)
Definition update_costmap (costs : list Z) (s : DStar D) : DStar D :=
  set_costmap (take (Z.to_nat (ns_ P)) costs) s.

(** What [plan] hands back: the flag and the path of its tuple, and the
    vector [expand]. *)
Record plan_result := mkPlanResult {
  found : bool;
  path : list (Node.t D);
  expand : list (Node.t D)
}.

(** [plan(costs, start, goal, expand)]; [start] and [goal] are given by
    their coordinates, the only fields of the two nodes that [plan] reads,
    and [fuel] bounds the iterations of each [while (1)] loop. *)
Definition plan (fuel : nat) (s : DStar D) (costs : list Z)
    (start goal : Z * Z) : result (plan_result * DStar D) :=
  let s := update_costmap costs s in
  if negb (fst (goal_ s) =? fst goal) || negb (snd (goal_ s) =? snd goal) then
    let s := reset s in
    let s := set_goal goal s in
    match map_ s !! start, map_ s !! goal with
    | Some _, Some _ =>
        let s := insert goal (d_of_int 0) s in
        s ← search_loop fuel s start;
        let s := set_path [] s in
        s ← extractPath fuel s start goal;
        Ok (mkPlanResult true (path_ s) (extractExpand s), s)
    | _, _ => Fault OutOfBounds
    end
  else
    state ← getState s start;
    match map_ s !! state with
    | None => Fault OutOfBounds
    | Some _ =>
        s ← walk fuel (SIM_DISTANCE P) s state;
        let s := set_path [] s in
        s ← extractPath fuel s state goal;
        Ok (mkPlanResult true (path_ s) (extractExpand s), s)
    end.

End Planner.

(** ** IEEE binary64 *)

Module F64.

(** [int -> double]; exact for the magnitudes a grid holds. *)
Definition of_int (z : Z) : float :=
  if z <? 0 then PrimFloat.opp (PrimFloat.of_uint63 (Uint63.of_Z (- z)))
  else PrimFloat.of_uint63 (Uint63.of_Z z).

(** [double -> int]: truncation toward zero. *)
Definition to_int (f : float) : Z :=
  match Prim2SF f with
  | S754_finite sgn m e =>
      let v := if 0 <=? e then Z.pos m * 2 ^ e else Z.pos m / 2 ^ (- e) in
      if sgn then - v else v
  | _ => 0
  end.

(** [std::hypot] on two int arguments: the sum of the squares is exact and
    the square root is correctly rounded. *)
Definition hypot (dx dy : Z) : float :=
  PrimFloat.sqrt (of_int (dx * dx + dy * dy)).

#[global] Instance ops : DoubleOps float := {
  d_of_int := of_int;
  d_to_int := to_int;
  d_add := PrimFloat.add;
  d_mul := PrimFloat.mul;
  d_lt := PrimFloat.ltb;
  d_le := PrimFloat.leb;
  d_eq := PrimFloat.eqb;
  d_hypot := hypot
}.

(** An instance of the parameters, with the values of the framework the
    planner belongs to: row-major indices, with the truncating [%] and [/]
    of C++; lethal cost 253 scaled by 0.5; [INF = 10000] and
    [SIM_DISTANCE = 2]. *)
Definition params (nx ny : Z) : Params float := {|
  nx_ := nx;
  ny_ := ny;
  ns_ := nx * ny;
  lethal_cost_ := of_int 253;
  factor_ := 0.5%float;
  grid2Index := fun x y => x + nx * y;
  index2Grid := fun i => (Z.rem i nx, Z.quot i nx);
  INF := 10000;
  SIM_DISTANCE := 2
|}.

End F64.

(** ** The laws of double arithmetic

    The laws the invariants rest on, stated for non-negative values, which
    leaves NaN out: comparison is a total preorder, addition of non-negative
    values is non-negative and not below its first argument (rounding is
    monotone), [hypot] is non-negative, and the integer part of
    [hypot(dx, dy)] is 0 only for [dx = dy = 0].

    [DoubleLaws] states the last law for all integers, which exact
    arithmetic satisfies; the binary64 instance [F64.ops] satisfies it for
    arguments in the range of a 32-bit [int] only.  The classes [OrderLaws]
    and [DistanceLaw] below are the laws that binary64 satisfies. *)

Definition nonneg {D} `{DoubleOps D} (a : D) : Prop := d_le (d_of_int 0) a = true.

Class DoubleLaws (D : Type) `{DoubleOps D} := {
  d_le_trans : forall a b c : D,
    d_le a b = true -> d_le b c = true -> d_le a c = true;
  d_le_refl : forall a : D, nonneg a -> d_le a a = true;
  d_le_total : forall a b : D, nonneg a -> nonneg b ->
    d_le a b = true \/ d_le b a = true;
  d_lt_le : forall a b : D, nonneg a -> nonneg b -> d_lt a b = negb (d_le b a);
  d_eq_le : forall a b : D, nonneg a -> nonneg b ->
    d_eq a b = d_le a b && d_le b a;
  d_of_int_nonneg : forall z : Z, 0 <= z -> nonneg (d_of_int z);
  d_add_nonneg : forall a b : D, nonneg a -> nonneg b -> nonneg (d_add a b);
  d_add_le : forall a b : D, nonneg a -> nonneg b -> d_le a (d_add a b) = true;
  d_hypot_nonneg : forall dx dy : Z, nonneg (d_hypot dx dy);
  d_to_int_hypot : forall dx dy : Z,
    0 <= d_to_int (d_hypot dx dy) /\
    (d_to_int (d_hypot dx dy) = 0 <-> dx = 0 /\ dy = 0)
}.

(** The laws of [DoubleLaws] on order, sign and addition: all but the last.
    IEEE binary64 satisfies them on every value, NaN and the infinities
    included (instance [F64Facts.order_laws]). *)
Class OrderLaws (D : Type) `{DoubleOps D} := {
  ord_le_trans : forall a b c : D,
    d_le a b = true -> d_le b c = true -> d_le a c = true;
  ord_le_refl : forall a : D, nonneg a -> d_le a a = true;
  ord_le_total : forall a b : D, nonneg a -> nonneg b ->
    d_le a b = true \/ d_le b a = true;
  ord_lt_le : forall a b : D, nonneg a -> nonneg b -> d_lt a b = negb (d_le b a);
  ord_eq_le : forall a b : D, nonneg a -> nonneg b ->
    d_eq a b = d_le a b && d_le b a;
  ord_of_int_nonneg : forall z : Z, 0 <= z -> nonneg (d_of_int z);
  ord_add_nonneg : forall a b : D, nonneg a -> nonneg b -> nonneg (d_add a b);
  ord_add_le : forall a b : D, nonneg a -> nonneg b -> d_le a (d_add a b) = true;
  ord_hypot_nonneg : forall dx dy : Z, nonneg (d_hypot dx dy)
}.

(** The last law of [DoubleLaws] for arguments in the range of a 32-bit
    [int], which is what the differences of two cell coordinates are: the
    integer part of [hypot(dx, dy)] is 0 only for [dx = dy = 0].  IEEE
    binary64 satisfies it (instance [F64Facts.distance_law]). *)
Class DistanceLaw (D : Type) `{DoubleOps D} := {
  dist_to_int_hypot : forall dx dy : Z,
    Z.abs dx < 2 ^ 31 -> Z.abs dy < 2 ^ 31 ->
    0 <= d_to_int (d_hypot dx dy) /\
    (d_to_int (d_hypot dx dy) = 0 <-> dx = 0 /\ dy = 0)
}.

(** The parameters [P] with the lookahead [SIM_DISTANCE] set to [n]. *)
Definition lookahead {D} (n : nat) (P : Params D) : Params D :=
  mkParams D (nx_ P) (ny_ P) (ns_ P) (lethal_cost_ P) (factor_ P)
           (grid2Index P) (index2Grid P) (INF P) n.

(** Costs in millionths, as integers: an instance of the laws with exact
    arithmetic. *)
Module Fixed.

Definition unit : Z := 1000000.

#[global] Instance ops : DoubleOps Z := {
  d_of_int := fun z => z * unit;
  d_to_int := fun v => Z.quot v unit;
  d_add := Z.add;
  d_mul := fun a b => Z.quot (a * b) unit;
  d_lt := Z.ltb;
  d_le := Z.leb;
  d_eq := Z.eqb;
  d_hypot := fun dx dy => Z.sqrt (unit * unit * (dx * dx + dy * dy))
}.

(** Row-major indices; lethal cost 253 scaled by one half; [INF = 10000],
    [SIM_DISTANCE = 2]. *)
Definition params (nx ny : Z) : Params Z := {|
  nx_ := nx;
  ny_ := ny;
  ns_ := nx * ny;
  lethal_cost_ := 253 * unit;
  factor_ := unit / 2;
  grid2Index := fun x y => x + nx * y;
  index2Grid := fun i => (Z.rem i nx, Z.quot i nx);
  INF := 10000;
  SIM_DISTANCE := 2
|}.

End Fixed.

(** ** Specifications in the words of the design document *)

Section Specs.

Context {D : Type} `{DoubleOps D}.
Variable P : Params D.

(** The key [insert] gives a node, by the node's tag. *)
Definition insert_key (n : DNode.t D) (h_new : D) : D :=
  match DNode.tag n with
  | NEW => h_new
  | OPEN => d_min (DNode.k n) h_new
  | CLOSED => d_min (DNode.cost n) h_new
  end.

(** RAISE propagation: neighbour [y] offers [x] a cheaper parent when
    [y.cost <= k_old] and [x.cost > y.cost + edgeCost(y, x)]. *)
Definition offers (k_old : D) (x y : DNodePtr) (s : DStar D) : bool :=
  d_le (DNode.cost (deref s y)) k_old
  && d_lt (d_add (DNode.cost (deref s y)) (getCost P s y x))
          (DNode.cost (deref s x)).

(** [x.predecessor := y; x.cost := y.cost + edgeCost(y, x)] *)
Definition adopt (x y : DNodePtr) (s : DStar D) : DStar D :=
  store x (DNode.set_cost (d_add (DNode.cost (deref s y)) (getCost P s y x))
             (DNode.set_pid (DNode.id (deref s y)) (deref s x))) s.

(** The RAISE-propagation step over the enumerated neighbours: each
    neighbour that offers a cheaper parent is adopted, the others leave the
    state as it is. *)
Inductive raise_propagation (k_old : D) (x : DNodePtr)
    : list DNodePtr -> DStar D -> DStar D -> Prop :=
  | rp_done s : raise_propagation k_old x [] s s
  | rp_adopt y ys s s' :
      offers k_old x y s = true ->
      raise_propagation k_old x ys (adopt x y s) s' ->
      raise_propagation k_old x (y :: ys) s s'
  | rp_skip y ys s s' :
      offers k_old x y s = false ->
      raise_propagation k_old x ys s s' ->
      raise_propagation k_old x (y :: ys) s s'.

(** The state of [processState] after the minimum is popped and its node
    tagged CLOSED. *)
Definition popped (x : DNodePtr) (rest : list (D * DNodePtr)) (s : DStar D)
    : DStar D :=
  store x (DNode.set_tag CLOSED (deref s x)) (set_open_list rest s).

(** The fields of a node that locate it: its coordinates and its index. *)
Definition geo (n : DNode.t D) : Z * Z * Z :=
  (DNode.x n, DNode.y n, DNode.id n).

(** [s'] has the cost map of [s], the same cells in its grid, and in every
    cell a node located as in [s]. *)
Definition geom_eq (s s' : DStar D) : Prop :=
  global_costmap_ s' = global_costmap_ s /\
  forall q, geo (deref s' q) = geo (deref s q) /\
            (is_Some (map_ s' !! q) <-> is_Some (map_ s !! q)).

(** A pointer into the grid. *)
Definition valid (s : DStar D) (p : DNodePtr) : Prop := is_Some (map_ s !! p).

(** What [getNeighbours] guarantees of a pointer [q] it enumerates for
    [x]: it was read from the grid, it is not in collision with [x], it is
    one of the eight cells around the coordinates stored in [x], and it
    passed the bounds test of the source. *)
Definition enumerated (s : DStar D) (x q : DNodePtr) : Prop :=
  valid s q /\
  isCollision P s x q = false /\
  (exists i j, (-1 <= i <= 1) /\ (-1 <= j <= 1) /\ (i, j) <> (0, 0) /\
     q = (DNode.x (deref s x) + i, DNode.y (deref s x) + j)) /\
  (0 <= fst q <= nx_ P /\ 0 <= snd q <= ny_ P).

(** Every node sits in a cell of the grid and carries the coordinates and
    the index of its cell. *)
Definition cells_ok (s : DStar D) : Prop :=
  forall p n, map_ s !! p = Some n ->
    geo n = (fst p, snd p, grid2Index P (fst p) (snd p)) /\
    (0 <= fst p < nx_ P /\ 0 <= snd p < ny_ P).

(** Every entry of the open list points into the grid. *)
Definition ptrs_ok (s : DStar D) : Prop :=
  Forall (fun e => valid s (snd e)) (open_list_ s).

(** [s'] keeps the geometry and the validity of the open list. *)
Definition steady (s s' : DStar D) : Prop :=
  geom_eq s s' /\ (ptrs_ok s -> ptrs_ok s') /\
  goal_ s' = goal_ s /\ path_ s' = path_ s.

(** Cell [q] is one of the eight cells around [p]. *)
Definition adjacent8 (p q : Z * Z) : Prop :=
  Z.abs (fst q - fst p) <= 1 /\ Z.abs (snd q - snd p) <= 1 /\ p <> q.

(** Cell [p] lies in the grid. *)
Definition in_grid (p : Z * Z) : Prop :=
  0 <= fst p < nx_ P /\ 0 <= snd p < ny_ P.

(** The start of a fresh-goal search: what [plan] has built when it enters
    its search loop. *)
Definition search_start (s : DStar D) (costs : list Z) (goal : Z * Z)
    : DStar D :=
  insert goal (d_of_int 0) (set_goal goal (reset P (update_costmap P costs s))).

(** The nodes met by following predecessor links from [p] until the goal
    cell, the goal excluded. *)
Inductive pred_chain (s : DStar D) (goal : Z * Z)
    : DNodePtr -> list (Node.t D) -> Prop :=
  | pc_goal : pred_chain s goal goal []
  | pc_step p chain :
      p <> goal ->
      valid s (index2Grid P (DNode.pid (deref s p))) ->
      pred_chain s goal (index2Grid P (DNode.pid (deref s p))) chain ->
      pred_chain s goal p (DNode.slice (deref s p) :: chain).

(** The test of [plan] for a fresh goal. *)
Definition fresh_goal (s : DStar D) (goal : Z * Z) : bool :=
  negb (fst (goal_ s) =? fst goal) || negb (snd (goal_ s) =? snd goal).

(** The coordinates of a path element. *)
Definition coords (n : Node.t D) : Z * Z := (Node.x n, Node.y n).

(** "The returned path is an ordered sequence from start to goal": the
    first element of the path of a fresh-goal [plan] is the start, the last
    is the goal. *)
Definition path_runs_start_to_goal : Prop :=
  forall fuel (s : DStar D) costs start goal r s',
    fresh_goal s goal = true ->
    plan P fuel s costs start goal = Ok (r, s') ->
    head (map coords (path r)) = Some start /\
    last (map coords (path r)) = Some goal.

(** The cost read through any pointer is non-negative. *)
Definition costs_nonneg (s : DStar D) : Prop :=
  forall p, nonneg (DNode.cost (deref s p)).

(** The goal node as the search leaves it: queued at least once, at cost 0,
    with no predecessor. *)
Definition goal_settled (goal : Z * Z) (s : DStar D) : Prop :=
  DNode.cost (deref s goal) = d_of_int 0 /\
  DNode.pid (deref s goal) = -1 /\
  DNode.tag (deref s goal) <> NEW.

(** The invariant of the backward search that keeps the goal settled. *)
Definition goal_inv (goal : Z * Z) (s : DStar D) : Prop :=
  cells_ok s /\ valid s goal /\ costs_nonneg s /\ goal_settled goal s.

(** No cell of the grid has the index -1, which marks "no predecessor". *)
Definition index_not_sentinel : Prop :=
  forall x y, 0 <= x < nx_ P -> 0 <= y < ny_ P -> grid2Index P x y <> -1.

(** The conversions between cells and indices are inverse on the grid. *)
Definition index_roundtrip : Prop :=
  forall x y, 0 <= x < nx_ P -> 0 <= y < ny_ P ->
    index2Grid P (grid2Index P x y) = (x, y).

(** The predecessor link of [p], when there is one, leads to a cell of the
    grid that is not in collision with [p]. *)
Definition edge_ok (s : DStar D) (p : DNodePtr) : Prop :=
  DNode.pid (deref s p) = -1 \/
  (valid s (index2Grid P (DNode.pid (deref s p))) /\
   isCollision P s p (index2Grid P (DNode.pid (deref s p))) = false).

Definition edges_ok (s : DStar D) : Prop :=
  cells_ok s /\ forall p, edge_ok s p.

(** *** The invariant of the backward search of a fresh goal

    [b] is the key popped last. *)

(** The open list is ordered by key. *)
Definition keys_sorted (s : DStar D) : Prop :=
  StronglySorted (fun e1 e2 : D * DNodePtr => d_le (fst e1) (fst e2) = true)
                 (open_list_ s).

(** No key of the open list is below [b]. *)
Definition keys_above (b : D) (s : DStar D) : Prop :=
  Forall (fun e : D * DNodePtr => d_le b (fst e) = true) (open_list_ s).

(** Every entry names a node that has been queued, at a key that is not
    below the node's cost. *)
Definition entries_ok (s : DStar D) : Prop :=
  Forall (fun e : D * DNodePtr =>
            DNode.tag (deref s (snd e)) <> NEW /\
            d_le (DNode.cost (deref s (snd e))) (fst e) = true)
         (open_list_ s).

(** An OPEN node has its cost as key and an entry at that key. *)
Definition open_ok (s : DStar D) : Prop :=
  forall p, DNode.tag (deref s p) = OPEN ->
    DNode.k (deref s p) = DNode.cost (deref s p) /\
    (DNode.k (deref s p), p) ∈ open_list_ s.

(** The cost of a CLOSED node is at most [b]. *)
Definition closed_below (b : D) (s : DStar D) : Prop :=
  forall p, DNode.tag (deref s p) = CLOSED ->
    d_le (DNode.cost (deref s p)) b = true.

(** Neighbour [q] has been served by the expansion of [p]: it has been
    queued, it costs no more than the way through [p], and costs exactly
    that if [p] is its predecessor. *)
Definition served (p : DNodePtr) (s : DStar D) (q : DNodePtr) : Prop :=
  DNode.tag (deref s q) <> NEW /\
  d_le (DNode.cost (deref s q)) (via P p q s) = true /\
  (DNode.pid (deref s q) = DNode.id (deref s p) ->
   DNode.cost (deref s q) = via P p q s).

(** Every CLOSED node other than [x] has served all its neighbours. *)
Definition expanded_but (x : option DNodePtr) (s : DStar D) : Prop :=
  forall p nbrs, Some p <> x -> valid s p ->
    DNode.tag (deref s p) = CLOSED ->
    getNeighbours P s p = Ok nbrs -> Forall (served p s) nbrs.

(** Predecessors are CLOSED nodes. *)
Definition parents_closed (s : DStar D) : Prop :=
  forall p q, valid s p ->
    DNode.pid (deref s q) = DNode.id (deref s p) ->
    DNode.tag (deref s p) = CLOSED.

(** What holds throughout, whether or not a node is being expanded. *)
Definition search_frame (b : D) (s : DStar D) : Prop :=
  cells_ok s /\ ptrs_ok s /\ costs_nonneg s /\ nonneg b /\
  keys_sorted s /\ keys_above b s /\ entries_ok s /\ open_ok s /\
  closed_below b s /\ parents_closed s.

(** Between two calls of [processState]. *)
Definition search_inv (b : D) (s : DStar D) : Prop :=
  search_frame b s /\ expanded_but None s.

(** While the neighbours of [x], popped at key [b], are being served. *)
Definition expanding (b : D) (x : DNodePtr) (s : DStar D) : Prop :=
  search_frame b s /\ expanded_but (Some x) s /\
  valid s x /\ DNode.tag (deref s x) = CLOSED /\
  d_le b (DNode.cost (deref s x)) = true /\
  (forall q, DNode.pid (deref s q) = DNode.id (deref s x) ->
     DNode.cost (deref s q) = via P x q s).

(** The state [s'] differs from [s] by node [y], which is now OPEN at cost
    and key [v] with predecessor [x], and by the entry [(v, y)]. *)
Definition requeued (x y : DNodePtr) (v : D) (s s' : DStar D) : Prop :=
  geom_eq s s' /\
  (forall p, p <> y -> deref s' p = deref s p) /\
  DNode.tag (deref s' y) = OPEN /\
  DNode.cost (deref s' y) = v /\
  DNode.k (deref s' y) = v /\
  DNode.pid (deref s' y) = DNode.id (deref s x) /\
  open_list_ s' = multimap_insert v y (open_list_ s).

(** [n] calls of [processState] in a row, dropping the returned keys. *)
Fixpoint processState_n (n : nat) (s : DStar D) : result (DStar D) :=
  match n with
  | O => Ok s
  | S n => '(_, s) ← processState P s; processState_n n s
  end.

(** The keys [k_old] popped by [n] successive calls of [processState]. *)
Fixpoint popped_keys (n : nat) (s : DStar D) : list D :=
  match n with
  | O => []
  | S n =>
      match open_list_ s with
      | [] => []
      | e :: _ =>
          fst e :: match processState P s with
                   | Ok (_, s') => popped_keys n s'
                   | _ => []
                   end
      end
  end.

(** The keys [k_old] popped by the calls of [processState] that the loop of
    [modify] makes. *)
Fixpoint modify_keys (fuel : nat) (s : DStar D) (x : DNodePtr) : list D :=
  match fuel with
  | O => []
  | S fuel =>
      match open_list_ s with
      | [] => []
      | e :: _ =>
          fst e :: match processState P s with
                   | Ok (Key k_min, s') =>
                       if d_le (DNode.cost (deref s' x)) k_min then []
                       else modify_keys fuel s' x
                   | _ => []
                   end
      end
  end.

(** A sequence of keys that never decreases. *)
Definition nondecreasing (l : list D) : Prop :=
  Sorted (fun a b => d_le a b = true) l.

(** [m] is the smaller of [a] and [b]: it is one of the two and it is not
    above either. *)
Definition least_of (m a b : D) : Prop :=
  (m = a \/ m = b) /\ d_le m a = true /\ d_le m b = true.

(** The grid dimensions are values of a 32-bit [int]. *)
Definition int_sized : Prop := nx_ P <= 2 ^ 31 /\ ny_ P <= 2 ^ 31.

(** One call of [plan]: the cost map, the start and the goal. *)
Definition call : Type := list Z * (Z * Z) * (Z * Z).

(** The results of a sequence of calls of [plan] on one planner (its call
    history): every call runs on the state the call before it left, and a
    call that does not return ends the run. *)
Fixpoint run (fuel : nat) (s : DStar D) (calls : list call)
    : list (result (plan_result (D := D))) :=
  match calls with
  | [] => []
  | (costs, start, goal) :: rest =>
      match plan P fuel s costs start goal with
      | Ok (r, s') => Ok r :: run fuel s' rest
      | Fault f => [Fault f]
      | OutOfFuel => [OutOfFuel]
      end
  end.

(** The cells of the paths a run returned. *)
Definition paths_of (rs : list (result (plan_result (D := D))))
    : list (option (list (Z * Z))) :=
  map (fun r => match r with
                | Ok r => Some (map coords (path r))
                | _ => None
                end) rs.

(** Following predecessor links from [x] for at most [n] links leads to the
    node without predecessor, and no link on the way is in collision. *)
Fixpoint reaches_goal (n : nat) (s : DStar D) (x : DNodePtr) : bool :=
  match n with
  | O => false
  | S n =>
      if DNode.pid (deref s x) =? -1 then true
      else
        let y := index2Grid P (DNode.pid (deref s x)) in
        match map_ s !! y with
        | None => false
        | Some _ => if isCollision P s x y then false else reaches_goal n s y
        end
  end.

End Specs.

(** ** Scenarios *)

Module Scenario.

(** A 3 x 3 grid whose corner cell (0,0) is walled in by lethal cells. *)
Definition P3 : Params float := F64.params 3 3.
Definition walled_corner : list Z := [0; 254; 0; 254; 254; 0; 0; 0; 0].
Definition planner3 : DStar float := DStar_new P3 (repeat 0 9).

(** The 10 x 10 grid with every cost 0. *)
Definition P10 : Params float := F64.params 10 10.
Definition open10 : list Z := repeat 0 100.
Definition planner10 : DStar float := DStar_new P10 open10.


(** A 5 x 3 grid: the cells (0,0), (2,0), (1,1), (2,1), (3,1) are free in
    [detour0]; [detour1] closes (1,1) and (2,1); [detour2] opens (1,1)
    again and keeps (2,1) closed. *)
Definition P53 : Params float := F64.params 5 3.
Definition detour0 : list Z :=
  [0; 254; 0; 254; 254;  254; 0; 0; 0; 254;  254; 254; 254; 254; 254].
Definition detour1 : list Z :=
  [0; 254; 0; 254; 254;  254; 254; 254; 0; 254;  254; 254; 254; 254; 254].
Definition detour2 : list Z :=
  [0; 254; 0; 254; 254;  254; 0; 254; 0; 254;  254; 254; 254; 254; 254].
Definition planner53 : DStar float := DStar_new P53 (repeat 0 15).


(** A 4 x 4 grid whose only free cells are the corridor (0,0), (1,0),
    (2,0); [corridor1] closes its middle cell. *)
Definition P44 : Params float := F64.params 4 4.
Definition corridor0 : list Z := [0; 0; 0; 254] ++ repeat 254 12.
Definition corridor1 : list Z := [0; 254; 0; 254] ++ repeat 254 12.
Definition planner44 : DStar float := DStar_new P44 (repeat 0 16).

(** Cost maps of the 4 x 4 grid, rows [y = 0 .. 3].  In [turn0] the free
    cells are (0,1), (1,1), (2,1), (0,2), (1,2); [turn1] closes (1,1) and
    opens (1,0); [turn2] closes (1,2) as well. *)
Definition turn0 : list Z :=
  [254; 254; 254; 254;  0; 0; 0; 254;  0; 0; 254; 254;  254; 254; 254; 254].
Definition turn1 : list Z :=
  [254; 0; 254; 254;  0; 254; 0; 254;  0; 0; 254; 254;  254; 254; 254; 254].
Definition turn2 : list Z :=
  [254; 0; 254; 254;  0; 254; 0; 254;  0; 254; 254; 254;  254; 254; 254; 254].

(** Cost maps of the 4 x 4 grid: [ledge0] has the free cells (0,0), (1,0),
    (0,1), (0,2), (2,2); [ledge1] closes (0,1) and opens (2,0); [ledge2]
    closes (1,0) and opens (1,1). *)
Definition ledge0 : list Z :=
  [0; 0; 254; 254;  0; 254; 254; 254;  0; 254; 0; 254;  254; 254; 254; 254].
Definition ledge1 : list Z :=
  [0; 0; 0; 254;  254; 254; 254; 254;  0; 254; 0; 254;  254; 254; 254; 254].
Definition ledge2 : list Z :=
  [0; 254; 0; 254;  254; 0; 254; 254;  0; 254; 0; 254;  254; 254; 254; 254].

(** Cost maps of the 5 x 4 grid: [fork0] has the free cells (0,0), (2,0),
    (0,1), (1,1), (2,1), (3,1), (1,2), (3,2); [fork1] closes (2,1). *)
Definition P54 : Params float := F64.params 5 4.
Definition fork0 : list Z :=
  [0; 254; 0; 254; 254;  0; 0; 0; 0; 254;  254; 0; 254; 0; 254;
   254; 254; 254; 254; 254].
Definition fork1 : list Z :=
  [0; 254; 0; 254; 254;  0; 0; 254; 0; 254;  254; 0; 254; 0; 254;
   254; 254; 254; 254; 254].
Definition planner54 : DStar float := DStar_new P54 (repeat 0 20).

End Scenario.

(** The search for the walled-in corner (0,0): the state on entry to the
    search loop, and the state after the first [processState]. *)
Module WalledCorner.
Import Scenario.

Definition s0 : DStar float := search_start P3 planner3 walled_corner (0, 0).

Definition s1 : DStar float :=
  match processState P3 s0 with
  | Ok (_, s) => s
  | _ => s0
  end.

End WalledCorner.

(** Three calls of [plan] from (2,0) to (0,0) on the 5 x 3 grid, with the
    cost maps [detour0], [detour1], [detour2]. *)
Module Detour.
Import Scenario.

Definition no_result : plan_result (D := float) := mkPlanResult false [] [].

Definition call (s : DStar float) (costs : list Z)
    : plan_result (D := float) * DStar float :=
  match plan P53 10 s costs (2, 0) (0, 0) with
  | Ok rs => rs
  | _ => (no_result, s)
  end.

Definition r1 : plan_result := fst (call planner53 detour0).
Definition after1 : DStar float := snd (call planner53 detour0).
Definition r2 : plan_result := fst (call after1 detour1).
Definition after2 : DStar float := snd (call after1 detour1).
Definition r3 : plan_result := fst (call after2 detour2).
Definition after3 : DStar float := snd (call after2 detour2).

(** The third call walks from (2,0) to (3,1), finds the predecessor (2,1)
    of (3,1) lethal and calls [modify((3,1), (2,1))]; [m0] is the state in
    which the loop of [modify] starts, [m1], [m2], [m3] the states after its
    first three calls of [processState]. *)
Definition m0 : DStar float :=
  let s := update_costmap P53 detour2 after2 in
  insert (3, 1)
    (d_add (DNode.cost (deref s (2, 1))) (getCost P53 s (3, 1) (2, 1))) s.

Definition next (s : DStar float) : DStar float :=
  match processState P53 s with
  | Ok (_, s') => s'
  | _ => s
  end.

Definition m1 : DStar float := next m0.
Definition m2 : DStar float := next m1.
Definition m3 : DStar float := next m2.

(** The key at the front of the open list. *)
Definition front (s : DStar float) : float :=
  match open_list_ s with
  | [] => F64.of_int (-1)
  | e :: _ => fst e
  end.

(** The second [processState] of that loop pops (2,0) from [m1]: what is
    left of the open list, and the neighbours it enumerates. *)
Definition m1_rest : list (float * (Z * Z)) := tail (open_list_ m1).

Definition m1_nbrs : list (Z * Z) :=
  match getNeighbours P53 (popped (2, 0) m1_rest m1) (2, 0) with
  | Ok l => l
  | _ => []
  end.

End Detour.

(** Two calls of [plan] from (2,0) to (0,0) along the corridor; the second
    finds the middle cell closed. *)
Module Corridor.
Import Scenario.

Definition after1 : DStar float :=
  match plan P44 10 planner44 corridor0 (2, 0) (0, 0) with
  | Ok (_, s) => s
  | _ => planner44
  end.

(** The state in which the loop of [modify((2,0), (1,0))] starts, and the
    state after its first [processState]. *)
Definition m0 : DStar float :=
  let s := update_costmap P44 corridor1 after1 in
  insert (2, 0)
    (d_add (DNode.cost (deref s (1, 0))) (getCost P44 s (2, 0) (1, 0))) s.

Definition m1 : DStar float :=
  match processState P44 m0 with
  | Ok (_, s) => s
  | _ => m0
  end.

End Corridor.

(** The exact instance on the 5 x 3 grid of [detour0]. *)
Module FixedRun.

Definition P : Params Z := Fixed.params 5 3.
Definition planner : DStar Z := DStar_new P (repeat 0 15).

Definition first : result (plan_result (D := Z) * DStar Z) :=
  plan P 10 planner Scenario.detour0 (2, 0) (0, 0).

Definition r1 : plan_result (D := Z) :=
  match first with
  | Ok (r, _) => r
  | _ => mkPlanResult false [] []
  end.

Definition after1 : DStar Z :=
  match first with
  | Ok (_, s) => s
  | _ => planner
  end.

Definition three_steps : DStar Z :=
  match processState_n P 3 (search_start P planner Scenario.detour0 (0, 0)) with
  | Ok s => s
  | _ => planner
  end.

End FixedRun.

(** The state a call of [plan] leaves, and the result it returns. *)
Module Call.

Definition state_of {D} (s : DStar D)
    (c : result (plan_result (D := D) * DStar D)) : DStar D :=
  match c with
  | Ok (_, s') => s'
  | _ => s
  end.

Definition result_of {D} (c : result (plan_result (D := D) * DStar D))
    : plan_result (D := D) :=
  match c with
  | Ok (r, _) => r
  | _ => mkPlanResult false [] []
  end.

End Call.

(** The backward search from (0,0) on the 5 x 3 grid [detour0], in binary64:
    the state on entry to the search loop and the state after three calls
    of [processState]. *)
Module DetourSearch.
Import Scenario.

Definition s0 : DStar float := search_start P53 planner53 detour0 (0, 0).

Definition three_steps : DStar float :=
  match processState_n P53 3 s0 with
  | Ok s => s
  | _ => s0
  end.

End DetourSearch.

(** Three calls of [plan] from (2,1) to (0,1) on the 4 x 4 grid, with the
    cost maps [turn0], [turn1], [turn2].  The second and the third call
    each find the first link of the path in collision. *)
Module Turn.
Import Scenario.

Definition P (n : nat) : Params float := lookahead n P44.

Definition first := plan (P 1) 10 planner44 turn0 (2, 1) (0, 1).
Definition r1 := Call.result_of first.
Definition after1 := Call.state_of planner44 first.

Definition second := plan (P 1) 10 after1 turn1 (2, 1) (0, 1).
Definition r2 := Call.result_of second.
Definition after2 := Call.state_of after1 second.

Definition third := plan (P 1) 10 after2 turn2 (2, 1) (0, 1).
Definition r3 := Call.result_of third.
Definition after3 := Call.state_of after2 third.

(** The state the second call's [modify((2,1), (1,1))] leaves. *)
Definition mid2 : DStar float :=
  match modify P44 10 (update_costmap P44 turn1 after1) (2, 1) (1, 1) with
  | Ok s => s
  | _ => after1
  end.

(** The third call finds the link from (2,1) to (1,2) in collision and
    calls [modify((2,1), (1,2))]: [m0] is the state in which the loop of
    [modify] starts, [mid3] the state in which it ends. *)
Definition m0 : DStar float :=
  let s := update_costmap P44 turn2 after2 in
  insert (2, 1)
    (d_add (DNode.cost (deref s (1, 2))) (getCost P44 s (2, 1) (1, 2))) s.

Definition mid3 : DStar float :=
  match modify_loop P44 10 m0 (2, 1) with
  | Ok s => s
  | _ => m0
  end.

End Turn.

(** Four calls of [plan] from (0,0) to (0,2) on the 4 x 4 grid: on
    [ledge0], on [ledge1], and twice on [ledge2]. *)
Module Ledge.
Import Scenario.

Definition calls : list call :=
  [ (ledge0, (0, 0), (0, 2)); (ledge1, (0, 0), (0, 2));
    (ledge2, (0, 0), (0, 2)); (ledge2, (0, 0), (0, 2)) ].

End Ledge.

(** Three calls of [plan] from (0,1) to (3,2) on the 5 x 4 grid: on
    [fork0], then twice on [fork1]. *)
Module Fork.
Import Scenario.

Definition P (n : nat) : Params float := lookahead n P54.

Definition calls : list call :=
  [ (fork0, (0, 1), (3, 2)); (fork1, (0, 1), (3, 2));
    (fork1, (0, 1), (3, 2)) ].

Definition first := plan (P 2) 10 planner54 fork0 (0, 1) (3, 2).
Definition r1 := Call.result_of first.
Definition after1 := Call.state_of planner54 first.

Definition second := plan (P 2) 10 after1 fork1 (0, 1) (3, 2).
Definition r2 := Call.result_of second.
Definition after2 := Call.state_of after1 second.

Definition third := plan (P 2) 10 after2 fork1 (0, 1) (3, 2).
Definition r3 := Call.result_of third.
Definition after3 := Call.state_of after2 third.

(** The states the repairs of the second and of the third call leave:
    [modify((1,1), (2,1))] and [modify((1,2), (2,1))]. *)
Definition mid2 : DStar float :=
  match modify P54 10 (update_costmap P54 fork1 after1) (1, 1) (2, 1) with
  | Ok s => s
  | _ => after1
  end.

Definition mid3 : DStar float :=
  match modify P54 10 (update_costmap P54 fork1 after2) (1, 2) (2, 1) with
  | Ok s => s
  | _ => after2
  end.

End Fork.
(** ** Well-formed planner states *)

Section StateSpecs.

Context {D : Type} `{DoubleOps D}.
Variable P : Params D.

(** Every cell of the grid holds a node. *)
Definition grid_full (s : DStar D) : Prop :=
  forall p, in_grid P p -> valid s p.

(** The state of a planner between two calls of [plan]: the grid is the
    one [initMap] builds, as far as the location of its nodes goes, and the
    open list points into it. *)
Definition well_formed (s : DStar D) : Prop :=
  cells_ok P s /\ grid_full s /\ ptrs_ok s.

(** The cell the loops of [getNeighbours] reach from [x] with the offsets
    [ij]; the coordinates of [x] are the ones stored in its node. *)
Definition cell_at (s : DStar D) (x : DNodePtr) (ij : Z * Z) : DNodePtr :=
  (DNode.x (deref s x) + fst ij, DNode.y (deref s x) + snd ij).

(** The offsets that pass the two tests of lines 97 and 101. *)
Definition in_range (s : DStar D) (x : DNodePtr) (ij : Z * Z) : bool :=
  negb ((fst ij =? 0) && (snd ij =? 0))
  && negb ((fst (cell_at s x ij) <? 0) || (fst (cell_at s x ij) >? nx_ P)
           || (snd (cell_at s x ij) <? 0) || (snd (cell_at s x ij) >? ny_ P)).

(** The offsets for which [getNeighbours] pushes a neighbour. *)
Definition kept (s : DStar D) (x : DNodePtr) (ij : Z * Z) : bool :=
  in_range s x ij && negb (isCollision P s x (cell_at s x ij)).

(** The offsets for which the read [map_[x_n][y_n]] of line 103 falls
    outside the grid. *)
Definition reads_outside (s : DStar D) (x : DNodePtr) (ij : Z * Z) : bool :=
  in_range s x ij && bool_decide (map_ s !! cell_at s x ij = None).

(** The tags agree with the open list: a node tagged OPEN has an entry,
    and no entry names a node tagged NEW. *)
Definition queue_ok (s : DStar D) : Prop :=
  (forall p, DNode.tag (deref s p) = OPEN ->
     exists k, (k, p) ∈ open_list_ s) /\
  Forall (fun e : D * DNodePtr => DNode.tag (deref s (snd e)) <> NEW)
         (open_list_ s).

(** The cells of the grid in the order in which [extractExpand] visits
    them. *)
Definition grid_cells : list (Z * Z) :=
  i ← seqZ 0 (nx_ P); j ← seqZ 0 (ny_ P); [(i, j)].

(** Every node that has been queued, the goal apart, hangs on a parent:
    a node of the grid that enumerates it as a neighbour, whose index is
    its predecessor index, and through which it has its cost. *)
Definition links_ok (goal : Z * Z) (s : DStar D) : Prop :=
  forall q, valid s q -> DNode.tag (deref s q) <> NEW -> q <> goal ->
    exists p, valid s p /\ enumerated P s p q /\
              DNode.pid (deref s q) = DNode.id (deref s p) /\
              DNode.cost (deref s q) = via P p q s.

(** The nodes [l] descend to the goal: the predecessor index of each names
    the cell of the next one, and that of the last names the goal cell;
    each step joins two cells of the grid that are among the eight around
    each other and not in collision; and the cost of each node is the cost
    of the next one (0 for the goal) plus the length of the step. *)
Fixpoint descends (s : DStar D) (goal : Z * Z) (l : list (Node.t D)) : Prop :=
  match l with
  | [] => True
  | n :: rest =>
      let next := match rest with
                  | [] => (goal, d_of_int 0)
                  | m :: _ => (coords m, Node.cost m)
                  end in
      in_grid P (coords n) /\
      index2Grid P (Node.pid n) = fst next /\
      adjacent8 (fst next) (coords n) /\
      isCollision P s (fst next) (coords n) = false /\
      Node.cost n = d_add (snd next)
                          (d_hypot (fst (fst next) - Node.x n)
                                   (snd (fst next) - Node.y n)) /\
      descends s goal rest
  end.

(** Neighbour [y] has been lowered by [x]: it has been queued, it costs
    no more than the way through [x], and costs just that (as [==] has
    it) when [x] is its predecessor. *)
Definition lowered (x : DNodePtr) (s : DStar D) (y : DNodePtr) : Prop :=
  DNode.tag (deref s y) <> NEW /\
  d_le (DNode.cost (deref s y)) (via P x y s) = true /\
  (DNode.pid (deref s y) = DNode.id (deref s x) ->
   d_eq (DNode.cost (deref s y)) (via P x y s) = true).

(** A cell that has a cell of the grid to its right and one above it:
    it lies neither in the last column nor in the last row. *)
Definition off_upper_edge (p : Z * Z) : Prop :=
  fst p < nx_ P - 1 /\ snd p < ny_ P - 1.

(** Every node tagged CLOSED lies off the last column and the last row. *)
Definition closed_inside (s : DStar D) : Prop :=
  forall p, valid s p -> DNode.tag (deref s p) = CLOSED -> off_upper_edge p.

End StateSpecs.

(** The exact instance on the 5 x 3 grid, further: the first step of the
    search for (0,0) on [detour0]; the second call of [plan], on
    [detour1], which finds (1,1) closed and calls [modify((2,0), (1,1))];
    a call with the start on the goal; and a call for the goal (1,1). *)
Module FixedDetour.

Definition s0 : DStar Z :=
  search_start FixedRun.P FixedRun.planner Scenario.detour0 (0, 0).

Definition s1 : DStar Z :=
  match processState FixedRun.P s0 with
  | Ok (_, s) => s
  | _ => s0
  end.

Definition second : result (plan_result (D := Z) * DStar Z) :=
  plan FixedRun.P 10 FixedRun.after1 Scenario.detour1 (2, 0) (0, 0).

Definition r2 : plan_result (D := Z) :=
  match second with
  | Ok (r, _) => r
  | _ => mkPlanResult false [] []
  end.

Definition after2 : DStar Z :=
  match second with
  | Ok (_, s) => s
  | _ => FixedRun.after1
  end.

Definition u2 : DStar Z :=
  update_costmap FixedRun.P Scenario.detour1 FixedRun.after1.

Definition m2 : DStar Z :=
  match modify FixedRun.P 10 u2 (2, 0) (1, 1) with
  | Ok s => s
  | _ => u2
  end.

Definition on_goal : result (plan_result (D := Z) * DStar Z) :=
  plan FixedRun.P 10 FixedRun.planner Scenario.detour0 (0, 0) (0, 0).

Definition on_goal_r : plan_result (D := Z) :=
  match on_goal with
  | Ok (r, _) => r
  | _ => mkPlanResult false [] []
  end.

Definition on_goal_after : DStar Z :=
  match on_goal with
  | Ok (_, s) => s
  | _ => FixedRun.planner
  end.

Definition other : result (plan_result (D := Z) * DStar Z) :=
  plan FixedRun.P 10 FixedRun.planner Scenario.detour0 (2, 0) (1, 1).

Definition other_r : plan_result (D := Z) :=
  match other with
  | Ok (r, _) => r
  | _ => mkPlanResult false [] []
  end.

Definition other_after : DStar Z :=
  match other with
  | Ok (_, s) => s
  | _ => FixedRun.planner
  end.

End FixedDetour.

(** ** Binary64 values as specified by [SpecFloat] *)

Module SF.

(** A float that is not NaN, placed in the lexicographic order of triples
    of integers. *)
Definition rank (f : spec_float) : Z * Z * Z :=
  match f with
  | S754_nan => (0, 0, 0)
  | S754_zero _ => (0, 0, 0)
  | S754_infinity s => (if s then -2 else 2, 0, 0)
  | S754_finite s m e => if s then (-1, - e, Z.neg m) else (1, e, Z.pos m)
  end.

Definition lex (a b : Z * Z * Z) : comparison :=
  match fst (fst a) ?= fst (fst b) with
  | Eq => match snd (fst a) ?= snd (fst b) with
          | Eq => snd a ?= snd b
          | c => c
          end
  | c => c
  end.

Definition lex_le (a b : Z * Z * Z) : Prop :=
  fst (fst a) < fst (fst b) \/
  (fst (fst a) = fst (fst b) /\
   (snd (fst a) < snd (fst b) \/
    (snd (fst a) = snd (fst b) /\ snd a <= snd b))).

Definition is_nan (f : spec_float) : bool :=
  match f with S754_nan => true | _ => false end.

(** Zero of either sign, a positive finite float or plus infinity. *)
Definition nonnegative (f : spec_float) : bool :=
  match f with
  | S754_zero _ => true
  | S754_infinity s => negb s
  | S754_finite s _ _ => negb s
  | S754_nan => false
  end.

(** A positive finite float with [digits + exponent >= 1], that is, a value
    not below 1, with [digits + exponent <= hi]. *)
Definition at_least_one (hi : Z) (f : spec_float) : Prop :=
  exists m e, f = S754_finite false m e /\
    1 <= Z.pos (digits2_pos m) + e <= hi /\ -52 <= e.

End SF.

(** * Properties *)

Section Facts.

Context {D : Type} `{DoubleOps D}.
Variable P : Params D.

(** ** Reading and writing through node pointers *)

Lemma deref_store_eq (s : DStar D) p n : deref (store p n s) p = n.
Proof. unfold deref, store; simpl. by rewrite lookup_insert_eq. Qed.

Lemma deref_store_ne (s : DStar D) p q n :
  p <> q -> deref (store p n s) q = deref s q.
Proof. intros Hne. unfold deref, store; simpl. by rewrite lookup_insert_ne. Qed.

Lemma deref_set_open_list (s : DStar D) l p :
  deref (set_open_list l s) p = deref s p.
Proof. reflexivity. Qed.

Lemma deref_insert_ne (s : DStar D) p q h :
  p <> q -> deref (insert p h s) q = deref s q.
Proof. intros Hne. unfold insert. rewrite deref_set_open_list. by apply deref_store_ne. Qed.

Lemma multimap_insert_split (key : D) (v : DNodePtr) (l : list (D * DNodePtr)) :
  exists l1 l2,
    l = l1 ++ l2 /\
    multimap_insert key v l = l1 ++ (key, v) :: l2 /\
    Forall (fun e => d_lt key (fst e) = false) l1 /\
    match l2 with [] => True | e :: _ => d_lt key (fst e) = true end.
Proof.
  induction l as [|e t IH]; simpl.
  - exists [], []. repeat split; auto.
  - destruct (d_lt key (fst e)) eqn:Hlt.
    + exists [], (e :: t). repeat split; auto.
    + destruct IH as (l1 & l2 & -> & Heq & Hall & Hhd).
      exists (e :: l1), l2. rewrite Heq. repeat split; auto.
Qed.

Lemma insert_key_cases (n : DNode.t D) (h_new : D) :
  match DNode.tag n with
  | NEW => insert_key n h_new = h_new
  | OPEN =>
      insert_key n h_new = if d_lt h_new (DNode.k n) then h_new else DNode.k n
  | CLOSED =>
      insert_key n h_new
      = if d_lt h_new (DNode.cost n) then h_new else DNode.cost n
  end.
Proof. unfold insert_key, d_min. by destruct (DNode.tag n). Qed.

(** Under the order laws, what [std::min] returns for two non-negative
    values is the smaller of the two. *)
Lemma least_of_min (L : OrderLaws D) (a b : D) :
  nonneg a -> nonneg b -> least_of (if d_lt b a then b else a) a b.
Proof.
  intros Ha Hb. unfold least_of.
  rewrite (ord_lt_le b a Hb Ha).
  destruct (d_le a b) eqn:Hab; simpl.
  - split; [by left|]. split; [by apply ord_le_refl|done].
  - split; [by right|]. split; [|by apply ord_le_refl].
    destruct (ord_le_total a b Ha Hb) as [E|E]; [congruence|done].
Qed.

(** C7.  [insert(node, h_new)] sets the key by the tag the node has: to
    [h_new] for NEW; for OPEN to [h_new] when [h_new] is less than the
    current key and to the current key otherwise; for CLOSED to [h_new]
    when [h_new] is less than the current cost and to that cost otherwise.
    So the key of an OPEN (CLOSED) node is the smaller of its key (cost) and
    [h_new]: one of the two and, for non-negative values under the order
    laws, not above either.  Then [insert] sets the cost to [h_new] and the
    tag to OPEN, leaves every other field and every other node as they
    were, and adds the entry [(key, node)] to the open list at the position
    of that key: after every entry whose key is not greater, before the
    first whose key is greater. *)
Theorem insert_sets_key_cost_tag (s : DStar D) (node_ptr : DNodePtr) (h_new : D) :
  let n := deref s node_ptr in
  let s' := insert node_ptr h_new s in
  let n' := deref s' node_ptr in
  match DNode.tag n with
  | NEW => DNode.k n' = h_new
  | OPEN =>
      DNode.k n' = (if d_lt h_new (DNode.k n) then h_new else DNode.k n) /\
      (OrderLaws D -> nonneg (DNode.k n) -> nonneg h_new ->
       least_of (DNode.k n') (DNode.k n) h_new)
  | CLOSED =>
      DNode.k n' = (if d_lt h_new (DNode.cost n) then h_new else DNode.cost n) /\
      (OrderLaws D -> nonneg (DNode.cost n) -> nonneg h_new ->
       least_of (DNode.k n') (DNode.cost n) h_new)
  end /\
  DNode.cost n' = h_new /\
  DNode.tag n' = OPEN /\
  (DNode.x n', DNode.y n', DNode.id n', DNode.pid n', DNode.h_cost n')
    = (DNode.x n, DNode.y n, DNode.id n, DNode.pid n, DNode.h_cost n) /\
  (forall q, q <> node_ptr -> map_ s' !! q = map_ s !! q) /\
  (exists l1 l2,
      open_list_ s = l1 ++ l2 /\
      open_list_ s' = l1 ++ (DNode.k n', node_ptr) :: l2 /\
      Forall (fun e => d_lt (DNode.k n') (fst e) = false) l1 /\
      match l2 with
      | [] => True
      | e :: _ => d_lt (DNode.k n') (fst e) = true
      end) /\
  (global_costmap_ s', goal_ s', path_ s') = (global_costmap_ s, goal_ s, path_ s).
Proof.
  intros n s' n'.
  assert (Hn' : n' = DNode.set_tag OPEN (DNode.set_cost h_new
                       (DNode.set_k (insert_key n h_new) n))).
  { subst n' s'. unfold insert. rewrite deref_set_open_list, deref_store_eq.
    fold n. unfold insert_key. by destruct (DNode.tag n). }
  assert (Hk : DNode.k n' = insert_key n h_new) by (by rewrite Hn').
  split.
  { rewrite Hk. pose proof (insert_key_cases n h_new) as Hc.
    destruct (DNode.tag n); [done| |].
    - split; [done|]. intros L Ha Hb. rewrite Hc. by apply least_of_min.
    - split; [done|]. intros L Ha Hb. rewrite Hc. by apply least_of_min. }
  rewrite Hk.
  repeat split; try (by rewrite Hn').
  - intros q Hq. subst s'. unfold insert, store; simpl.
    by rewrite lookup_insert_ne.
  - assert (Hol : open_list_ s'
                  = multimap_insert (insert_key n h_new) node_ptr (open_list_ s)).
    { subst s'. unfold insert; simpl. fold n. f_equal.
      unfold insert_key. by destruct (DNode.tag n). }
    rewrite Hol. apply multimap_insert_split.
Qed.

(** ** Geometry is never rewritten *)

Lemma geom_eq_refl (s : DStar D) : geom_eq s s.
Proof. split; [done|]. intros q. split; done. Qed.

Lemma geom_eq_trans (s1 s2 s3 : DStar D) :
  geom_eq s1 s2 -> geom_eq s2 s3 -> geom_eq s1 s3.
Proof.
  intros [Hc1 H1] [Hc2 H2]. split; [congruence|].
  intros q. destruct (H1 q) as [Ha Hb], (H2 q) as [Hc Hd].
  split; [congruence|tauto].
Qed.

Lemma geom_eq_valid (s s' : DStar D) p : geom_eq s s' -> valid s p -> valid s' p.
Proof. intros [_ Hg] Hv. by apply (Hg p). Qed.

Lemma geom_eq_store (s : DStar D) p n :
  valid s p -> geo n = geo (deref s p) -> geom_eq s (store p n s).
Proof.
  intros Hv Hn. split; [done|]. intros q.
  destruct (decide (p = q)) as [<-|Hne].
  - rewrite deref_store_eq. split; [done|].
    unfold store; simpl. rewrite lookup_insert_eq. split; [done|by eexists].
  - rewrite deref_store_ne by done. split; [done|].
    unfold store; simpl. by rewrite lookup_insert_ne.
Qed.

Lemma geom_eq_set_open_list (s : DStar D) l : geom_eq s (set_open_list l s).
Proof. split; [done|]. intros q. split; done. Qed.

Lemma geom_eq_insert (s : DStar D) p h : valid s p -> geom_eq s (insert p h s).
Proof.
  intros Hv. unfold insert.
  eapply geom_eq_trans; [|apply geom_eq_set_open_list].
  apply geom_eq_store; [done|]. by destruct (DNode.tag (deref s p)).
Qed.

Lemma geom_eq_costmap_at (s s' : DStar D) i :
  geom_eq s s' -> costmap_at s' i = costmap_at s i.
Proof. intros [Hc _]. unfold costmap_at. by rewrite Hc. Qed.

Lemma geom_eq_lethal (s s' : DStar D) i :
  geom_eq s s' -> lethal P s' i = lethal P s i.
Proof. intros Hg. unfold lethal. by rewrite (geom_eq_costmap_at s s'). Qed.

Lemma geom_eq_id (s s' : DStar D) q :
  geom_eq s s' -> DNode.id (deref s' q) = DNode.id (deref s q).
Proof. intros [_ Hg]. destruct (Hg q) as [E _]. unfold geo in E. congruence. Qed.

Lemma geom_eq_x (s s' : DStar D) q :
  geom_eq s s' -> DNode.x (deref s' q) = DNode.x (deref s q).
Proof. intros [_ Hg]. destruct (Hg q) as [E _]. unfold geo in E. congruence. Qed.

Lemma geom_eq_y (s s' : DStar D) q :
  geom_eq s s' -> DNode.y (deref s' q) = DNode.y (deref s q).
Proof. intros [_ Hg]. destruct (Hg q) as [E _]. unfold geo in E. congruence. Qed.

Lemma geom_eq_isCollision (s s' : DStar D) a b :
  geom_eq s s' -> isCollision P s' a b = isCollision P s a b.
Proof.
  intros Hg. unfold isCollision.
  by rewrite !(geom_eq_id s s'), !(geom_eq_lethal s s').
Qed.

Lemma geom_eq_getCost (s s' : DStar D) a b :
  geom_eq s s' -> getCost P s' a b = getCost P s a b.
Proof.
  intros Hg. unfold getCost.
  by rewrite (geom_eq_isCollision s s'), !(geom_eq_x s s'), !(geom_eq_y s s').
Qed.

Lemma geom_eq_lookup (s s' : DStar D) q :
  geom_eq s s' -> (map_ s' !! q = None <-> map_ s !! q = None).
Proof.
  intros [_ Hg]. destruct (Hg q) as [_ Hv].
  rewrite !eq_None_not_Some. tauto.
Qed.

(** ** Neighbour enumeration *)

Lemma geom_eq_getNeighbours_step (s s' : DStar D) x acc ij :
  geom_eq s s' ->
  getNeighbours_step P s' x acc ij = getNeighbours_step P s x acc ij.
Proof.
  intros Hg. unfold getNeighbours_step. destruct ij as [i j].
  rewrite (geom_eq_x s s'), (geom_eq_y s s') by done.
  destruct ((i =? 0) && (j =? 0)); [done|].
  destruct (_ || _); [done|].
  rewrite (geom_eq_isCollision s s') by done.
  destruct (map_ s !! _) eqn:E1, (map_ s' !! _) eqn:E2; try done.
  - apply (geom_eq_lookup s s') in E2; [congruence|done].
  - apply (geom_eq_lookup s s') in E1; [congruence|done].
Qed.

Lemma geom_eq_getNeighbours (s s' : DStar D) x :
  geom_eq s s' -> getNeighbours P s' x = getNeighbours P s x.
Proof.
  intros Hg. unfold getNeighbours. generalize (@nil DNodePtr).
  induction offsets as [|ij rest IH]; intros acc; simpl; [done|].
  rewrite (geom_eq_getNeighbours_step s s') by done.
  destruct (getNeighbours_step P s x acc ij); simpl; auto.
Qed.

Lemma offsets_range (i j : Z) :
  (i, j) ∈ offsets -> -1 <= i <= 1 /\ -1 <= j <= 1.
Proof.
  unfold offsets. cbn. rewrite !elem_of_cons, elem_of_nil.
  intros Hin. repeat destruct Hin as [Hin|Hin]; try done;
    injection Hin as -> ->; lia.
Qed.

Lemma getNeighbours_step_enumerated (s : DStar D) x acc ij acc' :
  (fst ij, snd ij) ∈ offsets ->
  Forall (enumerated P s x) acc ->
  getNeighbours_step P s x acc ij = Ok acc' ->
  Forall (enumerated P s x) acc'.
Proof.
  destruct ij as [i j]. simpl. intros Hin Hacc. unfold getNeighbours_step.
  destruct ((i =? 0) && (j =? 0)) eqn:E0; [by intros [= <-]|].
  destruct (_ || _) eqn:Eb; [by intros [= <-]|].
  destruct (map_ s !! _) eqn:El; [|done].
  destruct (isCollision _ _ _ _) eqn:Ec; intros [= <-]; [done|].
  apply Forall_app. split; [done|]. apply Forall_singleton.
  apply offsets_range in Hin.
  repeat split; try done.
  - by eexists.
  - exists i, j. repeat split; try lia.
    intros [= -> ->]. simpl in E0. done.
  - simpl. lia.
  - simpl. lia.
  - simpl. lia.
  - simpl. lia.
Qed.

Lemma getNeighbours_enumerated (s : DStar D) x nbrs :
  getNeighbours P s x = Ok nbrs -> Forall (enumerated P s x) nbrs.
Proof.
  unfold getNeighbours.
  assert (Hall : Forall (fun ij => (fst ij, snd ij) ∈ offsets) offsets).
  { apply Forall_forall. by intros [i j] Hin. }
  revert Hall. generalize (Forall_nil_2 (enumerated P s x)).
  generalize (@nil DNodePtr). generalize offsets at 2 3.
  intros l. induction l as [|ij rest IH]; intros acc Hacc Hall; simpl.
  - by intros [= <-].
  - destruct (getNeighbours_step P s x acc ij) as [acc'| |] eqn:Es; simpl; try done.
    apply IH.
    + eapply getNeighbours_step_enumerated; [|done|done].
      by apply Forall_cons_1 in Hall as [? _].
    + by apply Forall_cons_1 in Hall as [_ ?].
Qed.

(** ** The RAISE-propagation step *)

Lemma store_store (s : DStar D) p n1 n2 :
  store p n2 (store p n1 s) = store p n2 s.
Proof. unfold store, set_map; simpl. by rewrite insert_insert_eq. Qed.

Lemma raise_step_offers (s : DStar D) k_old x y :
  valid s x ->
  raise_step P k_old x s y = if offers P k_old x y s then adopt P x y s else s.
Proof.
  intros Hv. unfold raise_step, offers.
  destruct (_ && _); [|done]. unfold adopt.
  set (s1 := store x (DNode.set_pid (DNode.id (deref s y)) (deref s x)) s).
  assert (Hg : geom_eq s s1) by (by apply geom_eq_store).
  rewrite (geom_eq_getCost s s1) by done.
  assert (Hy : DNode.cost (deref s1 y) = DNode.cost (deref s y)).
  { subst s1. destruct (decide (x = y)) as [<-|Hne].
    - by rewrite deref_store_eq.
    - by rewrite deref_store_ne. }
  rewrite Hy. subst s1. by rewrite deref_store_eq, store_store.
Qed.

Lemma geom_eq_adopt (s : DStar D) x y : valid s x -> geom_eq s (adopt P x y s).
Proof. intros Hv. unfold adopt. by apply geom_eq_store. Qed.

Lemma raise_fold_propagation (k_old : D) x nbrs (s : DStar D) :
  valid s x ->
  raise_propagation P k_old x nbrs s (fold_left (raise_step P k_old x) nbrs s).
Proof.
  revert s. induction nbrs as [|y ys IH]; intros s Hv; simpl.
  - constructor.
  - rewrite raise_step_offers by done.
    destruct (offers P k_old x y s) eqn:Eo.
    + apply rp_adopt; [done|]. apply IH.
      eapply geom_eq_valid; [by apply geom_eq_adopt|done].
    + apply rp_skip; [done|]. by apply IH.
Qed.

Lemma adopt_adopt (s : DStar D) x y z :
  valid s x -> z <> x -> adopt P x z (adopt P x y s) = adopt P x z s.
Proof.
  intros Hv Hz. unfold adopt at 1.
  rewrite (geom_eq_getCost s (adopt P x y s)) by (by apply geom_eq_adopt).
  unfold adopt. rewrite deref_store_eq, deref_store_ne by done.
  by rewrite store_store.
Qed.

(** A run of RAISE propagation either leaves the state as it was or ends in
    the adoption of one enumerated neighbour whose cost is at most [k_old]. *)
Lemma raise_propagation_result (k_old : D) x nbrs (s s' : DStar D) :
  valid s x ->
  x ∉ nbrs ->
  raise_propagation P k_old x nbrs s s' ->
  s' = s \/
  exists y, y ∈ nbrs /\ d_le (DNode.cost (deref s y)) k_old = true /\
            s' = adopt P x y s.
Proof.
  intros Hv Hx Hrun. revert Hv Hx.
  induction Hrun as [s|y ys s s' Ho Hrun IH|y ys s s' Ho Hrun IH]; intros Hv Hx.
  - by left.
  - apply not_elem_of_cons in Hx as [Hxy Hx]. right.
    assert (Hle : d_le (DNode.cost (deref s y)) k_old = true).
    { unfold offers in Ho. by apply andb_true_iff in Ho as [? _]. }
    destruct IH as [->|(z & Hz & Hlz & ->)]; [|done|..].
    + eapply geom_eq_valid; [by apply geom_eq_adopt|done].
    + exists y. split; [by left|done].
    + assert (Hzx : z <> x) by (by intros ->).
      exists z. split; [by right|]. split.
      * unfold adopt in Hlz. by rewrite deref_store_ne in Hlz.
      * by apply adopt_adopt.
  - apply not_elem_of_cons in Hx as [Hxy Hx].
    destruct (IH Hv Hx) as [->|(z & Hz & Hlz & ->)]; [by left|right].
    exists z. split; [by right|done].
Qed.

(** The branches that follow leave the cost and the predecessor of [x]. *)
Lemma lower_step_keeps (s : DStar D) x y :
  y <> x ->
  (DNode.cost (deref (lower_step P x s y) x), DNode.pid (deref (lower_step P x s y) x))
  = (DNode.cost (deref s x), DNode.pid (deref s x)).
Proof.
  intros Hne. unfold lower_step. destruct (_ || _); [|done].
  unfold relink. by rewrite deref_insert_ne, deref_store_ne.
Qed.

Lemma insert_self_keeps (s : DStar D) x :
  (DNode.cost (deref (insert x (DNode.cost (deref s x)) s) x),
   DNode.pid (deref (insert x (DNode.cost (deref s x)) s) x))
  = (DNode.cost (deref s x), DNode.pid (deref s x)).
Proof.
  unfold insert. rewrite deref_set_open_list, deref_store_eq.
  by destruct (DNode.tag (deref s x)).
Qed.

Lemma raise_state_step_keeps (k_old : D) (s : DStar D) x y :
  y <> x ->
  (DNode.cost (deref (raise_state_step P k_old x s y) x),
   DNode.pid (deref (raise_state_step P k_old x s y) x))
  = (DNode.cost (deref s x), DNode.pid (deref s x)).
Proof.
  intros Hne. unfold raise_state_step.
  destruct (stale_child _ _ _ _);
    [unfold relink; by rewrite deref_insert_ne, deref_store_ne|].
  destruct (improvable _ _ _ _); [apply insert_self_keeps|].
  destruct (raised_closed _ _ _ _ _); [by rewrite deref_insert_ne|done].
Qed.

Lemma spread_phase_keeps (k_old : D) (s : DStar D) x nbrs :
  x ∉ nbrs ->
  (DNode.cost (deref (spread_phase P k_old x nbrs s) x),
   DNode.pid (deref (spread_phase P k_old x nbrs s) x))
  = (DNode.cost (deref s x), DNode.pid (deref s x)).
Proof.
  intros Hx. unfold spread_phase.
  (* the test reads [x] once, before either loop *)
  destruct (d_eq k_old (DNode.cost (deref s x))).
  - revert s. induction nbrs as [|y ys IH]; intros s; simpl; [done|].
    apply not_elem_of_cons in Hx as [Hxy Hx].
    rewrite IH by done. by apply lower_step_keeps.
  - revert s. induction nbrs as [|y ys IH]; intros s; simpl; [done|].
    apply not_elem_of_cons in Hx as [Hxy Hx].
    rewrite IH by done. by apply raise_state_step_keeps.
Qed.

Lemma enumerated_not_self (s : DStar D) x nbrs :
  (DNode.x (deref s x), DNode.y (deref s x)) = x ->
  Forall (enumerated P s x) nbrs -> x ∉ nbrs.
Proof.
  intros Hx Hall Hin. rewrite Forall_forall in Hall.
  destruct (Hall x Hin) as (_ & _ & (i & j & Hi & Hj & Hij & Heq) & _).
  rewrite <- Hx in Heq at 1. injection Heq as E1 E2.
  apply Hij. f_equal; lia.
Qed.

Lemma processState_unfold (s : DStar D) k_old x rest nbrs :
  open_list_ s = (k_old, x) :: rest ->
  getNeighbours P (popped x rest s) x = Ok nbrs ->
  processState P s =
    Ok (front_key (spread_phase P k_old x nbrs
                     (raise_phase P k_old x nbrs (popped x rest s))),
        spread_phase P k_old x nbrs
          (raise_phase P k_old x nbrs (popped x rest s))).
Proof.
  intros Hol Hn. unfold processState. rewrite Hol.
  change (store x (DNode.set_tag CLOSED (deref (set_open_list rest s) x))
            (set_open_list rest s)) with (popped x rest s).
  by rewrite Hn.
Qed.

Lemma valid_popped (s : DStar D) x rest q : valid s q -> valid (popped x rest s) q.
Proof.
  intros Hq. unfold valid, popped, store; simpl.
  destruct (decide (x = q)) as [->|Hne].
  - rewrite lookup_insert_eq. by eexists.
  - by rewrite lookup_insert_ne.
Qed.

(** C8.  One [processState] invocation that pops [(k_old, x)] and
    enumerates the neighbours [nbrs].  When [k_old < x.cost], the first loop
    is RAISE propagation as the design states it: going through the
    neighbours in order, each [y] with [y.cost <= k_old] and
    [x.cost > y.cost + edgeCost(y, x)] is adopted ([x.pid := y.id],
    [x.cost := y.cost + edgeCost(y, x)]); when [k_old < x.cost] does not
    hold the step changes nothing.  The step leaves the state as it was or
    as one such adoption makes it, so that nothing but the cost and the
    predecessor of [x] changes; and the rest of the invocation leaves both
    as the step set them. *)
Theorem raise_step_adopts_cheaper_parent (s : DStar D) k_old x rest nbrs :
  open_list_ s = (k_old, x) :: rest ->
  valid s x ->
  (DNode.x (deref s x), DNode.y (deref s x)) = x ->
  getNeighbours P (popped x rest s) x = Ok nbrs ->
  let s1 := popped x rest s in
  let s2 := raise_phase P k_old x nbrs s1 in
  let s3 := spread_phase P k_old x nbrs s2 in
  processState P s = Ok (front_key s3, s3) /\
  (d_lt k_old (DNode.cost (deref s1 x)) = true ->
     raise_propagation P k_old x nbrs s1 s2) /\
  (d_lt k_old (DNode.cost (deref s1 x)) = false -> s2 = s1) /\
  (s2 = s1 \/
   exists y, y ∈ nbrs /\ d_le (DNode.cost (deref s1 y)) k_old = true /\
     s2 = store x (DNode.set_cost
                     (d_add (DNode.cost (deref s1 y)) (getCost P s1 y x))
                     (DNode.set_pid (DNode.id (deref s1 y)) (deref s1 x))) s1) /\
  (DNode.cost (deref s3 x), DNode.pid (deref s3 x))
    = (DNode.cost (deref s2 x), DNode.pid (deref s2 x)).
Proof.
  intros Hol Hv Hxy Hn s1 s2 s3.
  assert (Hv1 : valid s1 x) by (by apply valid_popped).
  assert (Hself : x ∉ nbrs).
  { apply (enumerated_not_self s1); [|by apply getNeighbours_enumerated].
    subst s1. unfold popped. by rewrite deref_store_eq. }
  assert (Hrun : d_lt k_old (DNode.cost (deref s1 x)) = true ->
                 raise_propagation P k_old x nbrs s1 s2).
  { intros Hlt. subst s2. unfold raise_phase. rewrite Hlt.
    by apply raise_fold_propagation. }
  assert (Hidle : d_lt k_old (DNode.cost (deref s1 x)) = false -> s2 = s1).
  { intros Hlt. subst s2. unfold raise_phase. by rewrite Hlt. }
  split; [by apply processState_unfold|].
  split; [done|]. split; [done|]. split.
  - destruct (d_lt k_old (DNode.cost (deref s1 x))) eqn:Hlt; [|by left; auto].
    destruct (raise_propagation_result k_old x nbrs s1 s2 Hv1 Hself (Hrun eq_refl))
      as [E|(y & Hy & Hle & E)]; [by left|right].
    exists y. by rewrite E.
  - by apply spread_phase_keeps.
Qed.

(** ** What every step of the planner preserves *)

Lemma cells_ok_geom (s s' : DStar D) : geom_eq s s' -> cells_ok P s -> cells_ok P s'.
Proof.
  intros [Hc Hg] Hok p n' Hp. destruct (Hg p) as [Hgeo Hv].
  assert (Hs : is_Some (map_ s !! p)) by (apply Hv; by eexists).
  destruct Hs as [n Hn]. destruct (Hok p n Hn) as [Hgn Hin].
  split; [|done]. unfold deref in Hgeo. rewrite Hp, Hn in Hgeo. simpl in Hgeo.
  congruence.
Qed.

Lemma cells_ok_deref (s : DStar D) p :
  cells_ok P s -> valid s p ->
  DNode.x (deref s p) = fst p /\ DNode.y (deref s p) = snd p /\
  DNode.id (deref s p) = grid2Index P (fst p) (snd p).
Proof.
  intros Hok [n Hn]. destruct (Hok p n Hn) as [Hg _].
  unfold deref. rewrite Hn. simpl. unfold geo in Hg.
  by injection Hg as -> -> ->.
Qed.

Lemma elem_of_multimap_insert (key : D) v (l : list (D * DNodePtr)) e :
  e ∈ multimap_insert key v l <-> e = (key, v) \/ e ∈ l.
Proof.
  destruct (multimap_insert_split key v l) as (l1 & l2 & -> & -> & _).
  rewrite !elem_of_app, elem_of_cons. tauto.
Qed.

Lemma ptrs_ok_geom (s s' : DStar D) :
  geom_eq s s' -> open_list_ s' = open_list_ s -> ptrs_ok s -> ptrs_ok s'.
Proof.
  intros Hg Hol. unfold ptrs_ok. rewrite Hol. intros Hok.
  eapply Forall_impl; [exact Hok|]. intros e. by apply geom_eq_valid.
Qed.

Lemma ptrs_ok_insert (s : DStar D) p h :
  valid s p -> ptrs_ok s -> ptrs_ok (insert p h s).
Proof.
  intros Hv Hok. pose proof (geom_eq_insert s p h Hv) as Hg.
  unfold ptrs_ok. apply Forall_forall. intros e He.
  unfold insert in He. simpl in He. apply elem_of_multimap_insert in He.
  destruct He as [->|He]; simpl.
  - by apply (geom_eq_valid s).
  - apply (geom_eq_valid s); [done|].
    unfold ptrs_ok in Hok. rewrite Forall_forall in Hok. by apply Hok.
Qed.

Lemma ptrs_ok_store (s : DStar D) p n :
  valid s p -> geo n = geo (deref s p) -> ptrs_ok s -> ptrs_ok (store p n s).
Proof.
  intros Hv Hn. apply ptrs_ok_geom; [by apply geom_eq_store|done].
Qed.

Lemma steady_refl (s : DStar D) : steady s s.
Proof. split; [apply geom_eq_refl|done]. Qed.

Lemma steady_trans (s1 s2 s3 : DStar D) :
  steady s1 s2 -> steady s2 s3 -> steady s1 s3.
Proof.
  intros (Hg1 & Hp1 & Ha1 & Hb1) (Hg2 & Hp2 & Ha2 & Hb2).
  split; [by eapply geom_eq_trans|]. split; [auto|]. split; congruence.
Qed.

Lemma steady_store (s : DStar D) p n :
  valid s p -> geo n = geo (deref s p) -> steady s (store p n s).
Proof.
  intros Hv Hn. split; [by apply geom_eq_store|].
  split; [by apply ptrs_ok_store|done].
Qed.

Lemma steady_insert (s : DStar D) p h : valid s p -> steady s (insert p h s).
Proof.
  intros Hv. split; [by apply geom_eq_insert|].
  split; [by apply ptrs_ok_insert|done].
Qed.

Lemma steady_valid (s s' : DStar D) p : steady s s' -> valid s p -> valid s' p.
Proof. intros [Hg _]. by apply geom_eq_valid. Qed.

Lemma steady_raise_step (k_old : D) (s : DStar D) x y :
  valid s x -> steady s (raise_step P k_old x s y).
Proof.
  intros Hx. rewrite raise_step_offers by done.
  destruct (offers P k_old x y s); [|apply steady_refl].
  unfold adopt. by apply steady_store.
Qed.

Lemma steady_relink (s : DStar D) x y : valid s y -> steady s (relink P x y s).
Proof.
  intros Hy. unfold relink.
  assert (Hst : steady s (store y (DNode.set_pid (DNode.id (deref s x)) (deref s y)) s))
    by (by apply steady_store).
  eapply steady_trans; [exact Hst|].
  apply steady_insert. by apply (steady_valid s).
Qed.

Lemma steady_lower_step (s : DStar D) x y :
  valid s y -> steady s (lower_step P x s y).
Proof.
  intros Hy. unfold lower_step. destruct (_ || _); [|apply steady_refl].
  by apply steady_relink.
Qed.

Lemma steady_raise_state_step (k_old : D) (s : DStar D) x y :
  valid s x -> valid s y -> steady s (raise_state_step P k_old x s y).
Proof.
  intros Hx Hy. unfold raise_state_step.
  destruct (stale_child _ _ _ _); [by apply steady_relink|].
  destruct (improvable _ _ _ _); [by apply steady_insert|].
  destruct (raised_closed _ _ _ _ _); [by apply steady_insert|apply steady_refl].
Qed.

Lemma steady_fold (step : DStar D -> DNodePtr -> DStar D) nbrs (s : DStar D) :
  (forall s0 y, steady s s0 -> y ∈ nbrs -> steady s0 (step s0 y)) ->
  steady s (fold_left step nbrs s).
Proof.
  intros Hstep.
  assert (Hgen : forall s0, steady s s0 -> steady s (fold_left step nbrs s0)).
  { induction nbrs as [|y ys IH]; intros s0 H0; simpl; [done|].
    apply IH.
    - intros s1 z H1 Hz. apply Hstep; [done|by right].
    - eapply steady_trans; [done|]. apply Hstep; [done|by left]. }
  apply Hgen, steady_refl.
Qed.

Lemma steady_popped (s : DStar D) k_old x rest :
  open_list_ s = (k_old, x) :: rest -> ptrs_ok s -> 
  geom_eq s (popped x rest s) /\ ptrs_ok (popped x rest s) /\ valid s x.
Proof.
  intros Hol Hok. unfold ptrs_ok in Hok. rewrite Hol in Hok.
  apply Forall_cons_1 in Hok as [Hx Hrest]. simpl in Hx.
  assert (Hg : geom_eq s (popped x rest s)).
  { unfold popped. eapply geom_eq_trans; [apply (geom_eq_set_open_list s rest)|].
    by apply geom_eq_store. }
  split; [done|]. split; [|done].
  unfold ptrs_ok, popped. simpl.
  eapply Forall_impl; [exact Hrest|]. intros e. by apply geom_eq_valid.
Qed.

(** [processState] keeps the geometry of the grid, the validity of the open
    list, the goal and the path. *)
Lemma processState_steady (s s' : DStar D) r :
  ptrs_ok s -> processState P s = Ok (r, s') ->
  geom_eq s s' /\ ptrs_ok s' /\ goal_ s' = goal_ s /\ path_ s' = path_ s.
Proof.
  intros Hok. unfold processState.
  destruct (open_list_ s) as [|[k_old x] rest] eqn:Hol.
  { intros [= <- <-]. split; [apply geom_eq_refl|done]. }
  destruct (steady_popped s k_old x rest Hol Hok) as (Hg1 & Hp1 & Hx).
  change (store x (DNode.set_tag CLOSED (deref (set_open_list rest s) x))
            (set_open_list rest s)) with (popped x rest s).
  set (s1 := popped x rest s) in *.
  destruct (getNeighbours P s1 x) as [nbrs| |] eqn:Hn; simpl; try done.
  intros [= <- <-].
  assert (Hx1 : valid s1 x) by (by apply (geom_eq_valid s)).
  pose proof (getNeighbours_enumerated s1 x nbrs Hn) as Hen.
  rewrite Forall_forall in Hen.
  assert (H2 : steady s1 (raise_phase P k_old x nbrs s1)).
  { unfold raise_phase. destruct (d_lt _ _); [|apply steady_refl].
    apply steady_fold. intros s0 y H0 _. apply steady_raise_step.
    by apply (steady_valid s1). }
  set (s2 := raise_phase P k_old x nbrs s1) in *.
  assert (H3 : steady s2 (spread_phase P k_old x nbrs s2)).
  { unfold spread_phase. destruct (d_eq _ _); apply steady_fold; intros s0 y H0 Hy.
    - apply steady_lower_step. apply (steady_valid s2); [done|].
      apply (steady_valid s1); [done|]. by destruct (Hen y Hy).
    - apply steady_raise_state_step.
      + apply (steady_valid s2); [done|]. by apply (steady_valid s1).
      + apply (steady_valid s2); [done|].
        apply (steady_valid s1); [done|]. by destruct (Hen y Hy). }
  destruct (steady_trans _ _ _ H2 H3) as (Hg & Hp & Hgo & Hpa).
  split; [by eapply geom_eq_trans|]. split; [auto|]. split; [by rewrite Hgo|by rewrite Hpa].
Qed.

(** ** A proof rule for invariants of [processState] *)

Lemma enumerated_geom (s s' : DStar D) x y :
  geom_eq s s' -> enumerated P s x y -> enumerated P s' x y.
Proof.
  intros Hg (Hv & Hc & (i & j & Hi & Hj & Hij & Hq) & Hb).
  split; [by apply (geom_eq_valid s)|].
  split; [by rewrite (geom_eq_isCollision s s')|].
  split; [|done]. exists i, j.
  by rewrite (geom_eq_x s s'), (geom_eq_y s s').
Qed.

Lemma fold_left_inv {A B} (J : A -> Prop) (step : A -> B -> A) (l : list B) (a : A) :
  (forall a0 b, J a0 -> b ∈ l -> J (step a0 b)) -> J a -> J (fold_left step l a).
Proof.
  revert a. induction l as [|b l IH]; intros a Hstep Ha; simpl; [done|].
  apply IH.
  - intros a0 b0 H0 Hb0. apply Hstep; [done|by right].
  - apply Hstep; [done|by left].
Qed.

Section Preservation.

Variable I : DStar D -> Prop.

Hypothesis I_popped : forall s k_old x rest,
  I s -> open_list_ s = (k_old, x) :: rest -> valid s x -> I (popped x rest s).
Hypothesis I_adopt : forall s k_old x y,
  I s -> valid s x -> enumerated P s x y -> offers P k_old x y s = true ->
  I (adopt P x y s).
Hypothesis I_relink : forall s x y,
  I s -> valid s x -> enumerated P s x y ->
  stale_child P x y s || improvable P x y s = true ->
  I (relink P x y s).
Hypothesis I_reinsert : forall s x,
  I s -> valid s x -> I (insert x (DNode.cost (deref s x)) s).

Lemma processState_preserves (s s' : DStar D) r :
  ptrs_ok s -> I s -> processState P s = Ok (r, s') -> I s'.
Proof.
  intros Hok HI. unfold processState.
  destruct (open_list_ s) as [|[k_old x] rest] eqn:Hol.
  { by intros [= <- <-]. }
  destruct (steady_popped s k_old x rest Hol Hok) as (Hg1 & Hp1 & Hx).
  change (store x (DNode.set_tag CLOSED (deref (set_open_list rest s) x))
            (set_open_list rest s)) with (popped x rest s).
  pose proof (I_popped s k_old x rest HI Hol Hx) as HI1.
  set (s1 := popped x rest s) in *.
  destruct (getNeighbours P s1 x) as [nbrs| |] eqn:Hn; simpl; try done.
  intros [= <- <-].
  assert (Hx1 : valid s1 x) by (by apply (geom_eq_valid s)).
  pose proof (getNeighbours_enumerated s1 x nbrs Hn) as Hen.
  rewrite Forall_forall in Hen.
  set (J := fun s0 => I s0 /\ geom_eq s1 s0).
  assert (H2 : J (raise_phase P k_old x nbrs s1)).
  { unfold raise_phase. destruct (d_lt _ _); [|split; [done|apply geom_eq_refl]].
    apply fold_left_inv; [|split; [done|apply geom_eq_refl]].
    intros s0 y [H0 Hg0] Hy.
    assert (Hx0 : valid s0 x) by (by apply (geom_eq_valid s1)).
    rewrite raise_step_offers by done.
    destruct (offers P k_old x y s0) eqn:Ho; [|done]. split.
    - apply (I_adopt s0 k_old); try done. apply (enumerated_geom s1); auto.
    - eapply geom_eq_trans; [done|]. by apply geom_eq_adopt. }
  set (s2 := raise_phase P k_old x nbrs s1) in *.
  assert (H3 : J (spread_phase P k_old x nbrs s2)); [|by destruct H3].
  unfold spread_phase. destruct (d_eq _ _); apply fold_left_inv; try done.
  - intros s0 y [H0 Hg0] Hy.
    assert (Hx0 : valid s0 x) by (by apply (geom_eq_valid s1)).
    assert (He0 : enumerated P s0 x y) by (apply (enumerated_geom s1); auto).
    unfold lower_step. destruct (_ || _) eqn:Ec; [|done]. split.
    + by apply I_relink.
    + eapply geom_eq_trans; [done|]. apply steady_relink. by destruct He0.
  - intros s0 y [H0 Hg0] Hy.
    assert (Hx0 : valid s0 x) by (by apply (geom_eq_valid s1)).
    assert (He0 : enumerated P s0 x y) by (apply (enumerated_geom s1); auto).
    assert (Hy0 : valid s0 y) by (by destruct He0).
    unfold raise_state_step.
    destruct (stale_child P x y s0) eqn:Ec1.
    { split; [apply I_relink; try done; by rewrite Ec1|].
      eapply geom_eq_trans; [done|]. by apply steady_relink. }
    destruct (improvable P x y s0) eqn:Ec2.
    { split; [by apply I_reinsert|].
      eapply geom_eq_trans; [done|]. by apply geom_eq_insert. }
    destruct (raised_closed P k_old x y s0) eqn:Ec3; [|done].
    split; [by apply I_reinsert|].
    eapply geom_eq_trans; [done|]. by apply geom_eq_insert.
Qed.

End Preservation.

(** When [getNeighbours] returns, every neighbour it has enumerated is a
    cell of the grid, one of the eight around [x], and not in collision
    with [x]: the reads outside the grid are all it can do wrong. *)
Lemma getNeighbours_in_grid (s : DStar D) x nbrs :
  cells_ok P s -> valid s x ->
  getNeighbours P s x = Ok nbrs ->
  Forall (fun q => in_grid P q /\ adjacent8 x q /\ isCollision P s x q = false)
         nbrs.
Proof.
  intros Hc Hx Hn.
  eapply Forall_impl; [exact (getNeighbours_enumerated s x nbrs Hn)|].
  intros q ([n Hq] & Hcol & (i & j & Hi & Hj & Hij & Eq) & _).
  destruct (Hc q n Hq) as [_ Hin].
  destruct (cells_ok_deref s x Hc Hx) as (Ex & Ey & _).
  rewrite Ex, Ey in Eq. subst q. simpl in *.
  split; [done|]. split; [|done].
  unfold adjacent8. simpl. split; [lia|]. split; [lia|].
  intros E. apply Hij. rewrite (surjective_pairing x) in E.
  injection E as E1 E2. f_equal; lia.
Qed.

(** ** The loops on an exhausted open list *)

Lemma processState_empty (s : DStar D) :
  open_list_ s = [] -> processState P s = Ok (Key (d_of_int (-1)), s).
Proof. intros E. unfold processState. by rewrite E. Qed.

(** Once the open list is empty and the start node is not CLOSED, the search
    loop of a fresh goal makes no progress: it runs out of any fuel. *)
Lemma search_loop_stuck (s : DStar D) (start_ptr : DNodePtr) :
  open_list_ s = [] ->
  Tag_eqb (DNode.tag (deref s start_ptr)) CLOSED = false ->
  forall fuel, search_loop P fuel s start_ptr = OutOfFuel.
Proof.
  intros E Ht fuel. induction fuel as [|fuel IH]; simpl; [done|].
  rewrite (processState_empty s E). simpl. by rewrite Ht.
Qed.

(** Likewise the loop of [modify], unless the cost of [x] is at most -1. *)
Lemma modify_loop_stuck (s : DStar D) (x : DNodePtr) :
  open_list_ s = [] ->
  d_le (DNode.cost (deref s x)) (d_of_int (-1)) = false ->
  forall fuel, modify_loop P fuel s x = OutOfFuel.
Proof.
  intros E Hc fuel. induction fuel as [|fuel IH]; simpl; [done|].
  rewrite (processState_empty s E). simpl. by rewrite Hc.
Qed.

(** When [processState] pops the last entry and inserts none, the value it
    returns is the one read from the empty list. *)
Lemma processState_emptied (s s' : DStar D) (r : retval D) :
  open_list_ s <> [] ->
  processState P s = Ok (r, s') ->
  open_list_ s' = [] ->
  r = Indeterminate.
Proof.
  unfold processState. destruct (open_list_ s) as [|[k_old x] rest]; [done|].
  intros _. destruct (getNeighbours _ _ _) as [nb| |]; simpl; try done.
  intros [= <- <-] E. unfold front_key. by rewrite E.
Qed.

(** The fresh-goal branch of [plan], once the goal differs from the stored
    one and both cells are in the rebuilt grid. *)
Lemma plan_fresh (fuel : nat) (s : DStar D) costs start goal :
  fresh_goal s goal = true ->
  is_Some (map_ (search_start P s costs goal) !! start) ->
  is_Some (map_ (reset P (update_costmap P costs s)) !! goal) ->
  plan P fuel s costs start goal =
    (s1 ← search_loop P fuel (search_start P s costs goal) start;
     s2 ← extractPath P fuel (set_path [] s1) start goal;
     Ok (mkPlanResult true (path_ s2) (extractExpand P s2), s2)).
Proof.
  intros Hg [n Hs] [m Hm]. unfold plan. unfold fresh_goal in Hg.
  change (goal_ (update_costmap P costs s)) with (goal_ s). rewrite Hg.
  change (map_ (set_goal goal (reset P (update_costmap P costs s))))
    with (map_ (reset P (update_costmap P costs s))).
  rewrite Hm.
  assert (Hs' : is_Some (map_ (reset P (update_costmap P costs s)) !! start)).
  { unfold search_start, insert, store in Hs. simpl in Hs.
    destruct (decide (goal = start)) as [->|Hne]; [by eexists|].
    rewrite lookup_insert_ne in Hs by done. by eexists. }
  destruct Hs' as [n' ->]. reflexivity.
Qed.

(** The same-goal branch of [plan], once the path point nearest to the
    start is known. *)
Lemma plan_same (fuel : nat) (s : DStar D) costs start goal state :
  fresh_goal s goal = false ->
  getState (update_costmap P costs s) start = Ok state ->
  valid (update_costmap P costs s) state ->
  plan P fuel s costs start goal =
    (s1 ← walk P fuel (SIM_DISTANCE P) (update_costmap P costs s) state;
     s2 ← extractPath P fuel (set_path [] s1) state goal;
     Ok (mkPlanResult true (path_ s2) (extractExpand P s2), s2)).
Proof.
  intros Hg Hst [n Hn]. unfold plan. unfold fresh_goal in Hg.
  change (goal_ (update_costmap P costs s)) with (goal_ s). rewrite Hg, Hst.
  simpl. simpl in Hn. by rewrite Hn.
Qed.

(** One iteration of the forward walk that finds its edge in collision. *)
Lemma walk_collision (fuel n : nat) (s : DStar D) x :
  (DNode.pid (deref s x) =? -1) = false ->
  valid s (index2Grid P (DNode.pid (deref s x))) ->
  isCollision P s x (index2Grid P (DNode.pid (deref s x))) = true ->
  walk P fuel (S n) s x =
    (s1 ← modify P fuel s x (index2Grid P (DNode.pid (deref s x)));
     walk P fuel n s1 x).
Proof. intros Hp [m Hm] Hc. simpl. by rewrite Hp, Hm, Hc. Qed.

Lemma modify_closed (fuel : nat) (s : DStar D) x y :
  DNode.tag (deref s x) = CLOSED ->
  modify P fuel s x y
  = modify_loop P fuel
      (insert x (d_add (DNode.cost (deref s y)) (getCost P s x y)) s) x.
Proof. intros Ht. unfold modify. by rewrite Ht. Qed.

(** The loop of [modify] branches on the value [processState] returns. *)
Lemma modify_loop_indeterminate (fuel : nat) (s s' : DStar D) x :
  processState P s = Ok (Indeterminate, s') ->
  modify_loop P (S fuel) s x = Fault IndeterminateRead.
Proof. intros Hps. simpl. by rewrite Hps. Qed.

(** ** The rebuilt grid and the search that starts from it *)

Lemma initMap_cells_ok (s : DStar D) : cells_ok P (initMap P s).
Proof.
  intros p n Hp. unfold initMap in Hp. simpl in Hp.
  apply elem_of_list_to_map_2 in Hp. unfold initMap_cells in Hp.
  apply list_elem_of_bind in Hp as (i & Hp & Hi).
  apply list_elem_of_bind in Hp as (j & Hp & Hj).
  apply list_elem_of_singleton in Hp. injection Hp as -> ->.
  apply elem_of_seqZ in Hi, Hj. simpl. split; [done|lia].
Qed.

Lemma search_start_ok (s : DStar D) costs goal :
  valid (reset P (update_costmap P costs s)) goal ->
  cells_ok P (search_start P s costs goal) /\
  ptrs_ok (search_start P s costs goal) /\
  goal_ (search_start P s costs goal) = goal /\
  global_costmap_ (search_start P s costs goal) = take (Z.to_nat (ns_ P)) costs.
Proof.
  intros Hv. unfold search_start.
  set (s0 := set_goal goal (reset P (update_costmap P costs s))).
  assert (Hv0 : valid s0 goal) by done.
  assert (Hc0 : cells_ok P s0) by apply initMap_cells_ok.
  assert (Hp0 : ptrs_ok s0) by apply Forall_nil_2.
  split; [by apply (cells_ok_geom s0), Hc0; apply geom_eq_insert|].
  split; [by apply ptrs_ok_insert|done].
Qed.

Lemma search_loop_steady (fuel : nat) (s s' : DStar D) start :
  ptrs_ok s -> search_loop P fuel s start = Ok s' ->
  geom_eq s s' /\ ptrs_ok s' /\ goal_ s' = goal_ s /\ path_ s' = path_ s.
Proof.
  revert s. induction fuel as [|fuel IH]; intros s Hok; simpl; [done|].
  destruct (processState P s) as [[r s1]| |] eqn:Hps; simpl; try done.
  destruct (processState_steady s s1 r Hok Hps) as (Hg1 & Hp1 & Ha1 & Hb1).
  destruct (Tag_eqb _ _).
  - intros [= <-]. done.
  - intros Hl. destruct (IH s1 Hp1 Hl) as (Hg2 & Hp2 & Ha2 & Hb2).
    split; [by eapply geom_eq_trans|]. split; [done|]. split; congruence.
Qed.

(** The search loop is a run of [processState] calls. *)
Lemma search_loop_processState_n (fuel : nat) (s s' : DStar D) start :
  search_loop P fuel s start = Ok s' ->
  exists n, (n <= fuel)%nat /\ processState_n P n s = Ok s'.
Proof.
  revert s. induction fuel as [|fuel IH]; intros s; simpl; [done|].
  destruct (processState P s) as [[r s1]| |] eqn:Hps; simpl; try done.
  destruct (Tag_eqb _ _).
  - intros [= <-]. exists 1%nat. split; [lia|]. simpl. by rewrite Hps.
  - intros Hl. destruct (IH s1 Hl) as (n & Hn & Hrun).
    exists (S n). split; [lia|]. simpl. by rewrite Hps.
Qed.

(** ** Path extraction *)

Lemma extractPath_loop_chain (fuel : nat) (s : DStar D) p goal acc path :
  cells_ok P s -> valid s p ->
  extractPath_loop P fuel s p goal acc = Ok path ->
  exists chain, path = acc ++ chain /\ pred_chain P s goal p chain.
Proof.
  intros Hc. revert p acc. induction fuel as [|fuel IH]; intros p acc Hv; simpl; [done|].
  destruct (cells_ok_deref s p Hc Hv) as (Hx & Hy & _).
  rewrite Hx, Hy.
  destruct (negb (fst p =? fst goal) || negb (snd p =? snd goal)) eqn:Ene.
  - destruct (index2Grid P (DNode.pid (deref s p))) as [x y] eqn:Ei.
    destruct (map_ s !! (x, y)) as [n|] eqn:El; [|done].
    intros Hl. apply IH in Hl as (chain & -> & Hch); [|by eexists].
    exists (DNode.slice (deref s p) :: chain). split; [by rewrite <- app_assoc|].
    apply pc_step.
    + intros ->. rewrite !Z.eqb_refl in Ene. done.
    + rewrite Ei. by eexists.
    + by rewrite Ei.
  - intros [= <-]. exists []. split; [by rewrite app_nil_r|].
    apply orb_false_iff in Ene as [E1 E2].
    apply negb_false_iff, Z.eqb_eq in E1, E2.
    assert (p = goal) as -> by (destruct p, goal; simpl in *; congruence).
    constructor.
Qed.

Lemma pred_chain_coords (s : DStar D) goal p chain :
  cells_ok P s -> valid s p ->
  pred_chain P s goal p chain ->
  Forall (fun n => coords n <> goal) chain /\
  (p = goal -> chain = []) /\
  (p <> goal ->
     exists n_first n_last,
       head chain = Some n_first /\ coords n_first = p /\
       last chain = Some n_last /\ index2Grid P (Node.pid n_last) = goal).
Proof.
  intros Hc Hv Hch. induction Hch as [|p chain Hne Hv' Hch IH].
  - split; [constructor|]. split; [done|]. by intros [].
  - destruct (cells_ok_deref s p Hc Hv) as (Hx & Hy & _).
    assert (Hcp : coords (DNode.slice (deref s p)) = p).
    { unfold coords. simpl. rewrite Hx, Hy. by destruct p. }
    destruct (IH Hv') as (Hall & Hnil & Hcons).
    split; [constructor; [by rewrite Hcp|done]|].
    split; [done|]. intros _.
    exists (DNode.slice (deref s p)).
    destruct (decide (index2Grid P (DNode.pid (deref s p)) = goal)) as [Eg|Eg].
    + rewrite (Hnil Eg). exists (DNode.slice (deref s p)). by repeat split.
    + destruct (Hcons Eg) as (nf & nl & Hh & _ & Hl & Hg).
      exists nl. simpl. repeat split; [done| |done].
      destruct chain; [done|]. by rewrite last_cons, Hl.
Qed.

Lemma extractPath_chain (fuel : nat) (s s' : DStar D) start goal :
  cells_ok P s -> path_ s = [] ->
  extractPath P fuel s start goal = Ok s' ->
  map_ s' = map_ s /\ valid s start /\
  exists chain, path_ s' = reverse chain /\ pred_chain P s goal start chain.
Proof.
  intros Hc Hp. unfold extractPath.
  destruct (map_ s !! start) as [n|] eqn:El; [|done].
  destruct (extractPath_loop P fuel s start goal (path_ s)) as [path| |] eqn:Hl;
    simpl; try done.
  intros [= <-]. split; [done|]. split; [by eexists|].
  apply extractPath_loop_chain in Hl as (chain & -> & Hch); [|done|by eexists].
  exists chain. by rewrite Hp.
Qed.

Lemma plan_fresh_inv (fuel : nat) (s s' : DStar D) costs start goal r :
  fresh_goal s goal = true ->
  plan P fuel s costs start goal = Ok (r, s') ->
  valid (reset P (update_costmap P costs s)) goal /\
  exists s1 s2,
    search_loop P fuel (search_start P s costs goal) start = Ok s1 /\
    extractPath P fuel (set_path [] s1) start goal = Ok s2 /\
    r = mkPlanResult true (path_ s2) (extractExpand P s2) /\ s' = s2.
Proof.
  intros Hf Hpl.
  assert (Hg : valid (reset P (update_costmap P costs s)) goal).
  { unfold plan in Hpl. unfold fresh_goal in Hf.
    change (goal_ (update_costmap P costs s)) with (goal_ s) in Hpl.
    rewrite Hf in Hpl. simpl in Hpl. unfold valid. simpl.
    destruct (list_to_map (initMap_cells P) !! start); [|done].
    destruct (list_to_map (initMap_cells P) !! goal); [by eexists|done]. }
  assert (Hs : valid (search_start P s costs goal) start).
  { unfold plan in Hpl. unfold fresh_goal in Hf.
    change (goal_ (update_costmap P costs s)) with (goal_ s) in Hpl.
    rewrite Hf in Hpl. simpl in Hpl.
    apply (geom_eq_valid (set_goal goal (reset P (update_costmap P costs s)))).
    - by apply geom_eq_insert.
    - unfold valid. simpl.
      destruct (list_to_map (initMap_cells P) !! start); [by eexists|done]. }
  split; [done|]. rewrite plan_fresh in Hpl; [|done|done|done].
  destruct (search_loop P fuel _ start) as [s1| |] eqn:E1; simpl in Hpl; try done.
  destruct (extractPath P fuel _ start goal) as [s2| |] eqn:E2; simpl in Hpl; try done.
  injection Hpl as <- <-. by exists s1, s2.
Qed.

(** C2 (amended).  A fresh-goal [plan] that returns has [found = true] and
    a path that runs from the goal side to the start: no element is the goal
    cell; when start and goal are the same cell the path is empty; otherwise
    its first element is a node whose predecessor index is the goal cell and
    its last element is the start cell. *)
Theorem plan_fresh_path_ends_at_start (fuel : nat) (s s' : DStar D) costs
    start goal r :
  fresh_goal s goal = true ->
  plan P fuel s costs start goal = Ok (r, s') ->
  found r = true /\
  Forall (fun n => coords n <> goal) (path r) /\
  (start = goal -> path r = []) /\
  (start <> goal ->
     exists n_first n_last,
       head (path r) = Some n_first /\
       index2Grid P (Node.pid n_first) = goal /\
       last (path r) = Some n_last /\
       coords n_last = start).
Proof.
  intros Hf Hpl.
  destruct (plan_fresh_inv fuel s s' costs start goal r Hf Hpl)
    as (Hg & s1 & s2 & Hl & He & -> & ->).
  destruct (search_start_ok s costs goal Hg) as (Hc0 & Hp0 & _).
  destruct (search_loop_steady fuel _ s1 start Hp0 Hl) as (Hg1 & _).
  assert (Hc1 : cells_ok P (set_path [] s1)) by (by apply (cells_ok_geom _ s1) in Hc0).
  destruct (extractPath_chain fuel _ s2 start goal Hc1 eq_refl He)
    as (Hm & Hv & chain & Hp & Hch).
  destruct (pred_chain_coords _ goal start chain Hc1 Hv Hch) as (Hall & Hnil & Hcons).
  simpl. rewrite Hp.
  split; [done|]. split; [by apply Forall_reverse|].
  split; [by intros ->%Hnil|].
  intros (nf & nl & Hh & Hcf & Hla & Hgl)%Hcons.
  exists nl, nf. by rewrite head_reverse, last_reverse.
Qed.

End Facts.

(** ** The walled-in goal *)

Module WalledCornerFacts.
Import Scenario WalledCorner.

Lemma walled_first_call : processState P3 s0 = Ok (Indeterminate, s1).
Proof. vm_compute. reflexivity. Qed.

Lemma walled_s0_open_list : open_list_ s0 = [(0%float, (0, 0))].
Proof. vm_compute. reflexivity. Qed.

Lemma walled_s1_open_list : open_list_ s1 = [].
Proof. vm_compute. reflexivity. Qed.

Lemma walled_s1_start_tag : DNode.tag (deref s1 (2, 2)) = NEW.
Proof. vm_compute. reflexivity. Qed.

End WalledCornerFacts.

(** C3.  On the 3 x 3 grid whose goal corner (0,0) is walled in, the first
    [processState] of the search pops the goal, which has no neighbour to
    insert: the open list is then empty, and the value returned is the one
    read through [open_list_.begin()] of the empty list, not the sentinel
    -1.  The sentinel is returned only when the list is empty on entry. *)
Theorem processState_reads_front_of_emptied_list :
  open_list_ WalledCorner.s0 = [(0%float, (0, 0))] /\
  processState Scenario.P3 WalledCorner.s0 = Ok (Indeterminate, WalledCorner.s1) /\
  open_list_ WalledCorner.s1 = [] /\
  processState Scenario.P3 WalledCorner.s1
    = Ok (Key (F64.of_int (-1)), WalledCorner.s1).
Proof.
  split; [apply WalledCornerFacts.walled_s0_open_list|].
  split; [apply WalledCornerFacts.walled_first_call|].
  split; [apply WalledCornerFacts.walled_s1_open_list|].
  exact (processState_empty Scenario.P3 _ WalledCornerFacts.walled_s1_open_list).
Qed.

(** C1.  With the goal (0,0) walled in and the start at (2,2), the backward
    search empties the open list at its first step and the start node is
    never tagged CLOSED; the loop of [plan] then runs forever: for no amount
    of fuel does [plan] return, so it reports neither [found = false] nor
    an empty path. *)
Theorem plan_disconnected_never_returns :
  forall fuel,
    plan Scenario.P3 fuel Scenario.planner3 Scenario.walled_corner (2, 2) (0, 0)
    = OutOfFuel.
Proof.
  intros fuel. rewrite plan_fresh.
  - fold WalledCorner.s0. destruct fuel as [|fuel]; [reflexivity|].
    cbn [search_loop]. rewrite WalledCornerFacts.walled_first_call.
    cbn [mbind result_bind bind].
    replace (Tag_eqb (DNode.tag (deref WalledCorner.s1 (2, 2))) CLOSED)
      with false by (by rewrite WalledCornerFacts.walled_s1_start_tag).
    rewrite search_loop_stuck; [reflexivity| |].
    + apply WalledCornerFacts.walled_s1_open_list.
    + by rewrite WalledCornerFacts.walled_s1_start_tag.
  - reflexivity.
  - vm_compute. eauto.
  - vm_compute. eauto.
Qed.

(** ** The open 10 x 10 grid *)

(** C5.  On the 10 x 10 grid with every cost 0, enumerating the neighbours
    of the corner node (9,9) passes the bounds test for [y_n = 10] and reads
    [map_[8][10]], a cell outside the grid; so does [plan] from (0,0) to
    (9,9), whose first [processState] expands (9,9). *)
Theorem getNeighbours_reads_outside_grid :
  getNeighbours Scenario.P10 Scenario.planner10 (9, 9) = Fault OutOfBounds /\
  forall fuel,
    plan Scenario.P10 (S fuel) Scenario.planner10 Scenario.open10 (0, 0) (9, 9)
    = Fault OutOfBounds.
Proof.
  split; [vm_compute; reflexivity|].
  intros fuel. rewrite plan_fresh.
  - cbn [search_loop].
    replace (processState Scenario.P10
               (search_start Scenario.P10 Scenario.planner10 Scenario.open10 (9, 9)))
      with (@Fault (retval float * DStar float) OutOfBounds)
      by (vm_compute; reflexivity).
    reflexivity.
  - reflexivity.
  - vm_compute. eauto.
  - vm_compute. eauto.
Qed.

(** ** Exact costs satisfy the laws *)

Module FixedFacts.

#[global] Instance laws : DoubleLaws Z.
Proof.
  split; unfold nonneg; simpl; unfold Fixed.unit.
  - intros a b c. rewrite !Z.leb_le. lia.
  - intros a _. apply Z.leb_refl.
  - intros a b _ _. rewrite !Z.leb_le. lia.
  - intros a b _ _. rewrite Z.ltb_antisym. done.
  - intros a b _ _. destruct (Z.eqb_spec a b), (Z.leb_spec a b), (Z.leb_spec b a);
      simpl; try done; lia.
  - intros z Hz. rewrite Z.leb_le. lia.
  - intros a b. rewrite !Z.leb_le. lia.
  - intros a b. rewrite !Z.leb_le. lia.
  - intros dx dy. rewrite Z.leb_le. apply Z.sqrt_nonneg.
  - intros dx dy.
    set (n := dx * dx + dy * dy).
    assert (Hn : 0 <= n) by (unfold n; nia).
    pose proof (Z.sqrt_nonneg (1000000 * 1000000 * n)) as Hs.
    split; [apply Z.quot_pos; lia|].
    rewrite Z.quot_small_iff by lia.
    rewrite (Z.abs_eq (Z.sqrt _)) by done. rewrite (Z.abs_eq 1000000) by lia.
    rewrite <- Z.sqrt_lt_square by lia.
    unfold n. split; intros; nia.
Qed.

End FixedFacts.

(** [DoubleLaws] holds the order laws and the distance law. *)
#[global] Instance DoubleLaws_order {D : Type} `{DoubleLaws D} : OrderLaws D.
Proof.
  split.
  - apply d_le_trans.
  - apply d_le_refl.
  - apply d_le_total.
  - apply d_lt_le.
  - apply d_eq_le.
  - apply d_of_int_nonneg.
  - apply d_add_nonneg.
  - apply d_add_le.
  - apply d_hypot_nonneg.
Qed.

#[global] Instance DoubleLaws_distance {D : Type} `{DoubleLaws D} : DistanceLaw D.
Proof. split. intros dx dy _ _. apply d_to_int_hypot. Qed.

(** * Invariants that rest on the order laws *)

Section LawfulFacts.

Context {D : Type} `{OrderLaws D}.
Variable P : Params D.

Lemma nonneg_zero : nonneg (d_of_int 0 : D).
Proof. by apply ord_of_int_nonneg. Qed.

Lemma nonneg_not_lt_zero (v : D) : nonneg v -> d_lt v (d_of_int 0) = false.
Proof.
  intros Hv. rewrite ord_lt_le by (done || apply nonneg_zero).
  unfold nonneg in Hv. by rewrite Hv.
Qed.

Lemma getCost_nonneg (s : DStar D) a b : 0 <= INF P -> nonneg (getCost P s a b).
Proof.
  intros HI. unfold getCost. destruct (isCollision P s a b).
  - by apply ord_of_int_nonneg.
  - apply ord_hypot_nonneg.
Qed.

Lemma deref_popped (s : DStar D) x rest p :
  deref (popped x rest s) p
  = if decide (x = p) then DNode.set_tag CLOSED (deref s x) else deref s p.
Proof.
  unfold popped. destruct (decide (x = p)) as [<-|Hne].
  - by rewrite deref_store_eq.
  - by rewrite deref_store_ne.
Qed.

Lemma deref_insert_eq (s : DStar D) p h :
  deref (insert p h s) p
  = DNode.set_tag OPEN (DNode.set_cost h
      (DNode.set_k (insert_key (deref s p) h) (deref s p))).
Proof.
  unfold insert. rewrite deref_set_open_list, deref_store_eq.
  unfold insert_key. by destruct (DNode.tag (deref s p)).
Qed.

Lemma deref_relink_ne (s : DStar D) x y p :
  p <> y -> deref (relink P x y s) p = deref s p.
Proof.
  intros Hne. unfold relink.
  rewrite deref_insert_ne, deref_store_ne; done.
Qed.

Lemma via_relink (s : DStar D) x y :
  valid s y -> x <> y ->
  via P x y (store y (DNode.set_pid (DNode.id (deref s x)) (deref s y)) s)
  = via P x y s.
Proof.
  intros Hy Hne. unfold via.
  rewrite (geom_eq_getCost P s) by (by apply geom_eq_store).
  by rewrite deref_store_ne.
Qed.

Lemma deref_relink_eq (s : DStar D) x y :
  valid s y -> x <> y ->
  deref (relink P x y s) y
  = DNode.set_tag OPEN (DNode.set_cost (via P x y s)
      (DNode.set_k (insert_key (deref s y) (via P x y s))
         (DNode.set_pid (DNode.id (deref s x)) (deref s y)))).
Proof.
  intros Hy Hne. unfold relink.
  fold (via P x y (store y (DNode.set_pid (DNode.id (deref s x)) (deref s y)) s)).
  rewrite via_relink by done.
  by rewrite deref_insert_eq, deref_store_eq.
Qed.

Lemma enumerated_ne (s : DStar D) x y :
  cells_ok P s -> valid s x -> enumerated P s x y -> x <> y.
Proof.
  intros Hc Hx (_ & _ & (i & j & Hi & Hj & Hij & Hq) & _) ->.
  destruct (cells_ok_deref P s y Hc Hx) as (Ex & Ey & _).
  rewrite Ex, Ey in Hq. destruct y as [a b]. simpl in Hq.
  injection Hq as E1 E2. apply Hij. f_equal; lia.
Qed.

Lemma via_nonneg (s : DStar D) x y :
  0 <= INF P -> costs_nonneg s -> nonneg (via P x y s).
Proof.
  intros HI Hc. unfold via. apply ord_add_nonneg; [apply Hc|].
  by apply getCost_nonneg.
Qed.

(** The four updates of [processState] keep the goal settled. *)
Lemma goal_inv_popped (goal : Z * Z) (s : DStar D) k_old x rest :
  goal_inv P goal s -> open_list_ s = (k_old, x) :: rest -> valid s x ->
  goal_inv P goal (popped x rest s).
Proof.
  intros (Hc & Hg & Hn & Hs) _ Hx.
  assert (Hge : geom_eq s (popped x rest s)).
  { unfold popped. eapply geom_eq_trans; [apply (geom_eq_set_open_list s rest)|].
    by apply geom_eq_store. }
  split; [by apply (cells_ok_geom P s)|].
  split; [by apply (geom_eq_valid s)|]. split.
  - intros p. rewrite deref_popped. destruct (decide (x = p)); simpl; apply Hn.
  - destruct Hs as (E1 & E2 & E3). unfold goal_settled.
    rewrite deref_popped. destruct (decide (x = goal)) as [->|]; simpl; done.
Qed.

Lemma goal_inv_adopt (goal : Z * Z) (s : DStar D) k_old x y :
  0 <= INF P ->
  goal_inv P goal s -> valid s x -> enumerated P s x y ->
  offers P k_old x y s = true -> goal_inv P goal (adopt P x y s).
Proof.
  intros HI (Hc & Hg & Hn & Hs) Hx Hen Ho.
  assert (Hge : geom_eq s (adopt P x y s)) by (by apply geom_eq_adopt).
  assert (Hnew : nonneg (d_add (DNode.cost (deref s y)) (getCost P s y x))).
  { apply ord_add_nonneg; [apply Hn|by apply getCost_nonneg]. }
  split; [by apply (cells_ok_geom P s)|].
  split; [by apply (geom_eq_valid s)|]. split.
  - intros p. unfold adopt. destruct (decide (x = p)) as [<-|Hne].
    + by rewrite deref_store_eq.
    + rewrite deref_store_ne by done. apply Hn.
  - destruct Hs as (E1 & E2 & E3).
    assert (Hxg : x <> goal).
    { intros ->. unfold offers in Ho. apply andb_true_iff in Ho as [_ Ho].
      rewrite E1, nonneg_not_lt_zero in Ho; done. }
    unfold goal_settled, adopt. by rewrite deref_store_ne.
Qed.

Lemma goal_inv_relink (goal : Z * Z) (s : DStar D) x y :
  0 <= INF P -> index_not_sentinel P ->
  goal_inv P goal s -> valid s x -> enumerated P s x y ->
  stale_child P x y s || improvable P x y s = true ->
  goal_inv P goal (relink P x y s).
Proof.
  intros HI Hidx (Hc & Hg & Hn & Hs) Hx Hen Hcond.
  assert (Hy : valid s y) by (by destruct Hen).
  assert (Hge : geom_eq s (relink P x y s)) by (by apply steady_relink).
  assert (Hxy : x <> y) by (by apply (enumerated_ne s)).
  split; [by apply (cells_ok_geom P s)|].
  split; [by apply (geom_eq_valid s)|]. split.
  - intros p. destruct (decide (p = y)) as [->|Hne].
    + rewrite deref_relink_eq by done. simpl. by apply via_nonneg.
    + rewrite deref_relink_ne by done. apply Hn.
  - destruct Hs as (E1 & E2 & E3).
    assert (Hyg : y <> goal).
    { intros ->. unfold stale_child, improvable in Hcond.
      destruct (cells_ok_deref P s x Hc Hx) as (_ & _ & Ei).
      destruct Hx as [n Hnx]. destruct (Hc x n Hnx) as [_ Hin].
      assert (Hid : DNode.id (deref s x) <> -1).
      { rewrite Ei. destruct Hin. by apply Hidx. }
      rewrite E2, E1 in Hcond.
      apply Z.eqb_neq in Hid. rewrite Z.eqb_sym in Hid. rewrite Hid in Hcond.
      rewrite (nonneg_not_lt_zero (via P x goal s)) in Hcond
        by (by apply via_nonneg).
      destruct (DNode.tag (deref s goal)); simpl in Hcond; done. }
    unfold goal_settled. by rewrite deref_relink_ne.
Qed.

Lemma goal_inv_reinsert (goal : Z * Z) (s : DStar D) x :
  goal_inv P goal s -> valid s x ->
  goal_inv P goal (insert x (DNode.cost (deref s x)) s).
Proof.
  intros (Hc & Hg & Hn & Hs) Hx.
  assert (Hge : geom_eq s (insert x (DNode.cost (deref s x)) s))
    by (by apply geom_eq_insert).
  split; [by apply (cells_ok_geom P s)|].
  split; [by apply (geom_eq_valid s)|]. split.
  - intros p. destruct (decide (x = p)) as [<-|Hne].
    + rewrite deref_insert_eq. simpl. apply Hn.
    + rewrite deref_insert_ne by done. apply Hn.
  - destruct Hs as (E1 & E2 & E3). unfold goal_settled.
    destruct (decide (x = goal)) as [->|Hne].
    + rewrite deref_insert_eq. simpl. done.
    + by rewrite deref_insert_ne.
Qed.

Lemma processState_goal_inv (goal : Z * Z) (s s' : DStar D) r :
  0 <= INF P -> index_not_sentinel P ->
  ptrs_ok s -> goal_inv P goal s -> processState P s = Ok (r, s') ->
  goal_inv P goal s'.
Proof.
  intros HI Hidx Hok Hinv Hps.
  apply (processState_preserves P (goal_inv P goal)) with (s := s) (r := r);
    try done.
  - apply goal_inv_popped.
  - intros. by eapply goal_inv_adopt.
  - intros. by apply goal_inv_relink.
  - intros. by apply goal_inv_reinsert.
Qed.

(** ** Predecessor links never cross a collision *)

Lemma edge_ok_carry (s s' : DStar D) p :
  geom_eq s s' ->
  DNode.pid (deref s' p) = DNode.pid (deref s p) ->
  edge_ok P s p -> edge_ok P s' p.
Proof.
  intros Hg Hp [E|[Hv Hc]]; unfold edge_ok; rewrite Hp; [by left|right].
  split; [by apply (geom_eq_valid s)|]. by rewrite (geom_eq_isCollision P s s').
Qed.

Lemma isCollision_sym (s : DStar D) a b :
  isCollision P s a b = isCollision P s b a.
Proof. unfold isCollision. apply orb_comm. Qed.

Lemma edge_ok_link (s s' : DStar D) p q :
  index_roundtrip P -> cells_ok P s ->
  geom_eq s s' -> valid s q -> isCollision P s p q = false ->
  DNode.pid (deref s' p) = DNode.id (deref s q) ->
  edge_ok P s' p.
Proof.
  intros Hrt Hc Hg Hq Hcol Hp. right. rewrite Hp.
  destruct (cells_ok_deref P s q Hc Hq) as (_ & _ & ->).
  destruct Hq as [n Hn]. destruct (Hc q n Hn) as [_ [Hx Hy]].
  rewrite Hrt by done. rewrite <- surjective_pairing.
  split; [apply (geom_eq_valid s); [done|by eexists]|].
  by rewrite (geom_eq_isCollision P s s').
Qed.

Lemma edges_ok_popped (s : DStar D) k_old x rest :
  edges_ok P s -> open_list_ s = (k_old, x) :: rest -> valid s x ->
  edges_ok P (popped x rest s).
Proof.
  intros [Hc He] _ Hx.
  assert (Hg : geom_eq s (popped x rest s)).
  { unfold popped. eapply geom_eq_trans; [apply (geom_eq_set_open_list s rest)|].
    by apply geom_eq_store. }
  split; [by apply (cells_ok_geom P s)|]. intros p.
  apply (edge_ok_carry s); [done| |done].
  unfold popped. destruct (decide (x = p)) as [<-|Hne].
  - by rewrite deref_store_eq.
  - by rewrite deref_store_ne.
Qed.

Lemma edges_ok_adopt (s : DStar D) k_old x y :
  index_roundtrip P ->
  edges_ok P s -> valid s x -> enumerated P s x y ->
  offers P k_old x y s = true -> edges_ok P (adopt P x y s).
Proof.
  intros Hrt [Hc He] Hx (Hy & Hcol & _) _.
  assert (Hg : geom_eq s (adopt P x y s)) by (by apply geom_eq_adopt).
  split; [by apply (cells_ok_geom P s)|]. intros p.
  destruct (decide (x = p)) as [<-|Hne].
  - apply (edge_ok_link s _ x y); try done.
    unfold adopt. by rewrite deref_store_eq.
  - apply (edge_ok_carry s); [done| |done].
    unfold adopt. by rewrite deref_store_ne.
Qed.

Lemma edges_ok_relink (s : DStar D) x y :
  index_roundtrip P ->
  edges_ok P s -> valid s x -> enumerated P s x y ->
  stale_child P x y s || improvable P x y s = true ->
  edges_ok P (relink P x y s).
Proof.
  intros Hrt [Hc He] Hx Hen _.
  assert (Hxy : x <> y) by (by apply (enumerated_ne s)).
  destruct Hen as (Hy & Hcol & _).
  assert (Hg : geom_eq s (relink P x y s)) by (by apply steady_relink).
  split; [by apply (cells_ok_geom P s)|]. intros p.
  destruct (decide (p = y)) as [->|Hne].
  - apply (edge_ok_link s _ y x); try done.
    + by rewrite isCollision_sym.
    + by rewrite deref_relink_eq.
  - apply (edge_ok_carry s); [done| |done]. by rewrite deref_relink_ne.
Qed.

Lemma edges_ok_reinsert (s : DStar D) x :
  edges_ok P s -> valid s x ->
  edges_ok P (insert x (DNode.cost (deref s x)) s).
Proof.
  intros [Hc He] Hx.
  assert (Hg : geom_eq s (insert x (DNode.cost (deref s x)) s))
    by (by apply geom_eq_insert).
  split; [by apply (cells_ok_geom P s)|]. intros p.
  apply (edge_ok_carry s); [done| |done].
  destruct (decide (x = p)) as [<-|Hne].
  - by rewrite deref_insert_eq.
  - by rewrite deref_insert_ne.
Qed.

Lemma processState_edges_ok (s s' : DStar D) r :
  index_roundtrip P ->
  ptrs_ok s -> edges_ok P s -> processState P s = Ok (r, s') -> edges_ok P s'.
Proof.
  intros Hrt Hok Hinv Hps.
  apply (processState_preserves P (edges_ok P)) with (s := s) (r := r);
    try done.
  - apply edges_ok_popped.
  - intros. by eapply edges_ok_adopt.
  - intros. by apply edges_ok_relink.
  - intros. by apply edges_ok_reinsert.
Qed.

Lemma deref_initMap (s : DStar D) p :
  valid (initMap P s) p -> deref (initMap P s) p = fresh_node P (fst p) (snd p).
Proof.
  intros [n Hn]. unfold deref. rewrite Hn. simpl.
  unfold initMap in Hn. simpl in Hn.
  apply elem_of_list_to_map_2 in Hn. unfold initMap_cells in Hn.
  apply list_elem_of_bind in Hn as (i & Hn & Hi).
  apply list_elem_of_bind in Hn as (j & Hn & Hj).
  apply list_elem_of_singleton in Hn. by injection Hn as -> ->.
Qed.

Lemma deref_initMap_cost (s : DStar D) p :
  0 <= INF P -> nonneg (DNode.cost (deref (initMap P s) p)).
Proof.
  intros HI. destruct (map_ (initMap P s) !! p) as [n|] eqn:E.
  - rewrite deref_initMap by (by eexists). simpl. by apply ord_of_int_nonneg.
  - unfold deref. rewrite E. simpl. apply nonneg_zero.
Qed.

Lemma search_start_goal_inv (s : DStar D) costs goal :
  0 <= INF P ->
  valid (reset P (update_costmap P costs s)) goal ->
  goal_inv P goal (search_start P s costs goal).
Proof.
  intros HI Hv. destruct (search_start_ok P s costs goal Hv) as (Hc & Hp & _).
  split; [done|]. unfold search_start.
  set (s0 := set_goal goal (reset P (update_costmap P costs s))).
  assert (Hv0 : valid s0 goal) by done.
  split; [by apply (geom_eq_valid s0); [apply geom_eq_insert|]|]. split.
  - intros p. destruct (decide (goal = p)) as [<-|Hne].
    + rewrite deref_insert_eq. simpl. apply nonneg_zero.
    + rewrite deref_insert_ne by done. by apply deref_initMap_cost.
  - unfold goal_settled. rewrite deref_insert_eq. simpl.
    split; [done|]. split; [|done].
    change (deref s0 goal) with (deref (initMap P (set_open_list [] (update_costmap P costs s))) goal).
    by rewrite deref_initMap.
Qed.

Lemma processState_n_goal_inv (goal : Z * Z) (n : nat) (s s' : DStar D) :
  0 <= INF P -> index_not_sentinel P ->
  ptrs_ok s -> goal_inv P goal s -> processState_n P n s = Ok s' ->
  goal_inv P goal s' /\ ptrs_ok s'.
Proof.
  intros HI Hidx. revert s. induction n as [|n IH]; intros s Hok Hinv; simpl.
  - by intros [= <-].
  - destruct (processState P s) as [[r s1]| |] eqn:Hps; simpl; try done.
    apply IH.
    + by destruct (processState_steady P s s1 r Hok Hps) as (_ & ? & _).
    + by apply (processState_goal_inv goal s s1 r).
Qed.

(** ** A second call after a fresh-goal call *)

Lemma search_start_edges_ok (s : DStar D) costs goal :
  valid (reset P (update_costmap P costs s)) goal ->
  edges_ok P (search_start P s costs goal).
Proof.
  intros Hv. destruct (search_start_ok P s costs goal Hv) as (Hc & _).
  split; [done|]. intros p. left. unfold search_start.
  set (s0 := set_goal goal (reset P (update_costmap P costs s))).
  assert (Hp0 : forall q, DNode.pid (deref s0 q) = -1).
  { intros q. destruct (map_ s0 !! q) as [n|] eqn:E.
    - change (deref s0 q)
        with (deref (initMap P (set_open_list [] (update_costmap P costs s))) q).
      rewrite deref_initMap; [done|by eexists].
    - unfold deref. by rewrite E. }
  destruct (decide (goal = p)) as [<-|Hne].
  - rewrite deref_insert_eq. simpl. apply Hp0.
  - rewrite deref_insert_ne by done. apply Hp0.
Qed.

Lemma search_loop_edges_ok (fuel : nat) (s s' : DStar D) start :
  index_roundtrip P ->
  ptrs_ok s -> edges_ok P s -> search_loop P fuel s start = Ok s' ->
  edges_ok P s'.
Proof.
  intros Hrt. revert s. induction fuel as [|fuel IH]; intros s Hok He; simpl; [done|].
  destruct (processState P s) as [[r s1]| |] eqn:Hps; simpl; try done.
  pose proof (processState_edges_ok s s1 r Hrt Hok He Hps) as He1.
  destruct (processState_steady P s s1 r Hok Hps) as (_ & Hp1 & _).
  destruct (Tag_eqb _ _); [by intros [= <-]|]. by apply IH.
Qed.

(** With every predecessor link free of collision the forward walk changes
    nothing, however long it is. *)
Lemma walk_idle (fuel n : nat) (s : DStar D) x :
  edges_ok P s -> walk P fuel n s x = Ok s.
Proof.
  intros [Hc He]. revert x. induction n as [|n IH]; intros x; simpl; [done|].
  destruct (DNode.pid (deref s x) =? -1) eqn:Ep; [done|].
  destruct (He x) as [E|[[m Hm] Hcol]].
  - rewrite E in Ep. done.
  - rewrite Hm, Hcol. apply IH.
Qed.

Lemma getState_loop_min (path : list (Node.t D)) (current : Z * Z) rest :
  forall pre dis_min idx_min,
    path = pre ++ rest ->
    (exists p, path !! idx_min = Some p /\ int_dist p current = dis_min) ->
    Forall (fun q => dis_min <= int_dist q current) pre ->
    exists p,
      path !! getState_loop rest (length pre) current dis_min idx_min = Some p /\
      Forall (fun q => int_dist p current <= int_dist q current) path.
Proof.
  induction rest as [|q rest IH]; intros pre dis_min idx_min Hpath Hidx Hpre; simpl.
  - destruct Hidx as (p & Hp & Hd). exists p. split; [done|].
    rewrite Hpath, app_nil_r, Hd. done.
  - assert (Hpath' : path = (pre ++ [q]) ++ rest) by (by rewrite <- app_assoc).
    replace (S (length pre)) with (length (pre ++ [q]))
      by (rewrite length_app; simpl; lia).
    destruct (int_dist q current <? dis_min) eqn:Elt.
    + apply Z.ltb_lt in Elt. apply IH; [done| |].
      * exists q. split; [|done]. rewrite Hpath.
        by rewrite lookup_app_r, Nat.sub_diag.
      * apply Forall_app. split; [|by apply Forall_singleton].
        eapply Forall_impl; [exact Hpre|]. simpl. intros; lia.
    + apply Z.ltb_ge in Elt. apply IH; [done|done|].
      apply Forall_app. split; [done|by apply Forall_singleton].
Qed.

(** [getState] returns the coordinates of a path element whose integer
    distance to [current] is least. *)
Lemma getState_min (s : DStar D) (current state : Z * Z) :
  getState s current = Ok state ->
  exists p, p ∈ path_ s /\ state = coords p /\
    Forall (fun q => int_dist p current <= int_dist q current) (path_ s).
Proof.
  unfold getState. destruct (path_ s) as [|p0 rest] eqn:Hp; [done|].
  destruct (getState_loop_min (p0 :: rest) current rest [p0]
              (int_dist p0 current) 0%nat eq_refl) as (p & Hl & Hmin).
  { by exists p0. }
  { by apply Forall_singleton. }
  simpl in Hl. rewrite Hl. intros [= <-]. exists p.
  split; [by apply list_elem_of_lookup_2 in Hl|done].
Qed.

Lemma getState_total (s : DStar D) (current : Z * Z) :
  path_ s <> [] -> exists state, getState s current = Ok state.
Proof.
  unfold getState. destruct (path_ s) as [|p0 rest] eqn:Hp; [done|]. intros _.
  destruct (getState_loop_min (p0 :: rest) current rest [p0]
              (int_dist p0 current) 0%nat eq_refl) as (p & Hl & Hmin).
  { by exists p0. }
  { by apply Forall_singleton. }
  simpl in Hl. rewrite Hl. by eexists.
Qed.

End LawfulFacts.

(** * The nearest path point *)

Section UnboundedDistance.

Context {D : Type} `{DoubleLaws D}.



End UnboundedDistance.

Lemma set_costmap_same {D : Type} (s : DStar D) :
  set_costmap (global_costmap_ s) s = s.
Proof. by destruct s. Qed.

(** * A call repeated after a fresh-goal call *)

Section RepeatedCall.

Context {D : Type} `{DistanceLaw D}.
Variable P : Params D.

Lemma in_grid_range (p q : Z * Z) :
  int_sized P -> in_grid P p -> in_grid P q ->
  Z.abs (fst p - fst q) < 2 ^ 31 /\ Z.abs (snd p - snd q) < 2 ^ 31.
Proof. unfold int_sized, in_grid. lia. Qed.

Lemma int_dist_zero_on_grid (p : Node.t D) (current : Z * Z) :
  int_sized P -> in_grid P (coords p) -> in_grid P current ->
  int_dist p current <= 0 -> coords p = current.
Proof.
  intros Hsz Hp Hc Hle.
  destruct (in_grid_range (coords p) current Hsz Hp Hc) as [Hx Hy].
  unfold int_dist, coords in *. simpl in Hx, Hy.
  destruct (dist_to_int_hypot (Node.x p - fst current) (Node.y p - snd current)
              Hx Hy) as [Hge Hz].
  assert (E : d_to_int (d_hypot (Node.x p - fst current) (Node.y p - snd current)) = 0)
    by lia.
  apply Hz in E as [E1 E2]. destruct current as [a b]. simpl in *.
  f_equal; lia.
Qed.

Lemma int_dist_at (p : Node.t D) : int_dist p (coords p) = 0.
Proof.
  unfold int_dist, coords. simpl. rewrite !Z.sub_diag.
  apply (dist_to_int_hypot 0 0); done.
Qed.

(** The nodes of a predecessor chain are cells of the grid. *)
Lemma pred_chain_in_grid (s : DStar D) goal p chain :
  cells_ok P s -> valid s p -> pred_chain P s goal p chain ->
  Forall (fun n => in_grid P (coords n)) chain.
Proof.
  intros Hc Hv Hch. induction Hch as [|p chain Hne Hv' Hch IH]; [constructor|].
  constructor; [|by apply IH].
  destruct (cells_ok_deref P s p Hc Hv) as (Hx & Hy & _).
  destruct Hv as [n Hn]. destruct (Hc p n Hn) as [_ Hin].
  unfold in_grid, coords. simpl. by rewrite Hx, Hy.
Qed.

(** When a fresh-goal call from a start other than the goal returns, the
    same call made again on the state it left returns the same result and
    leaves that state as it is. *)
Lemma plan_again_after_fresh (fuel : nat) (s s1 : DStar D) costs start goal r :
  index_roundtrip P -> int_sized P ->
  fresh_goal s goal = true ->
  start <> goal ->
  plan P fuel s costs start goal = Ok (r, s1) ->
  plan P fuel s1 costs start goal = Ok (r, s1).
Proof.
  intros Hrt Hsz Hf Hne Hpl.
  destruct (plan_fresh_inv P fuel s s1 costs start goal r Hf Hpl)
    as (Hg & s0 & s2 & Hl & He & -> & ->).
  destruct (search_start_ok P s costs goal Hg) as (Hc0 & Hp0 & Hgo0 & Hcm0).
  destruct (search_loop_steady P fuel _ s0 start Hp0 Hl) as (Hg0 & _ & Hgo & _).
  pose proof (search_loop_edges_ok P fuel _ s0 start Hrt Hp0
                (search_start_edges_ok P s costs goal Hg) Hl) as He0.
  assert (Hc1 : cells_ok P (set_path [] s0)) by (by destruct He0).
  destruct (extractPath_chain P fuel _ s2 start goal Hc1 eq_refl He)
    as (Hm & Hv & chain & Hp & Hch).
  (* the state the first call leaves *)
  assert (Es2 : s2 = set_path (reverse chain) s0).
  { unfold extractPath in He. destruct (map_ (set_path [] s0) !! start); [|done].
    destruct (extractPath_loop P fuel _ start goal _) as [pth| |]; simpl in He; try done.
    injection He as <-. simpl in Hp. rewrite Hp. by destruct s0. }
  assert (Hcm : global_costmap_ s2 = take (Z.to_nat (ns_ P)) costs).
  { rewrite Es2. simpl. destruct Hg0 as [-> _]. done. }
  assert (Hup : update_costmap P costs s2 = s2).
  { unfold update_costmap. rewrite <- Hcm. apply set_costmap_same. }
  assert (Hgoal : goal_ s2 = goal).
  { rewrite Es2. simpl. by rewrite Hgo. }
  assert (He2 : edges_ok P s2).
  { rewrite Es2. destruct He0 as [Hc He0]. split; [done|]. exact He0. }
  (* the path point nearest to the start is the start *)
  destruct (pred_chain_coords P _ goal start chain Hc1 Hv Hch) as (_ & _ & Hcons).
  destruct (Hcons Hne) as (nf & nl & Hhd & Hcf & _).
  pose proof (pred_chain_in_grid _ goal start chain Hc1 Hv Hch) as Hgrid.
  assert (Hstart : in_grid P start).
  { destruct Hv as [n Hn]. by destruct (Hc1 start n Hn) as [_ Hin]. }
  assert (Hin : nf ∈ path_ s2).
  { rewrite Hp. apply elem_of_reverse. destruct chain; [done|].
    injection Hhd as ->. by left. }
  destruct (getState_total s2 start) as [state Hst].
  { intros E. rewrite E in Hin. by apply elem_of_nil in Hin. }
  assert (Hstate : state = start).
  { destruct (getState_min s2 start state Hst) as (p & Hpin & -> & Hmin).
    rewrite Forall_forall in Hmin. specialize (Hmin nf Hin).
    rewrite <- Hcf in Hmin at 2. rewrite int_dist_at in Hmin.
    apply int_dist_zero_on_grid; try done.
    rewrite Forall_forall in Hgrid. apply Hgrid.
    rewrite Hp in Hpin. by apply elem_of_reverse. }
  subst state.
  assert (Hfalse : fresh_goal s2 goal = false).
  { unfold fresh_goal. rewrite Hgoal, !Z.eqb_refl. done. }
  rewrite (plan_same P fuel s2 costs start goal start Hfalse);
    rewrite ?Hup; try done.
  - rewrite (walk_idle P) by done. simpl.
    replace (set_path [] s2) with (set_path [] s0) by (by rewrite Es2).
    rewrite He. done.
  - unfold valid. by rewrite Hm.
Qed.

End RepeatedCall.

(** * Runs of calls *)

Section Runs.

Context {D : Type} `{DoubleOps D}.
Variable P : Params D.

Lemma run_cons (fuel : nat) (s : DStar D) costs start goal rest :
  run P fuel s ((costs, start, goal) :: rest)
  = match plan P fuel s costs start goal with
    | Ok (r, s') => Ok r :: run P fuel s' rest
    | Fault f => [Fault f]
    | OutOfFuel => [OutOfFuel]
    end.
Proof. reflexivity. Qed.

(** [plan] overwrites the cost map before it reads it. *)
Lemma plan_overwrites_costmap (fuel : nat) (s : DStar D) c costs start goal :
  plan P fuel (set_costmap c s) costs start goal = plan P fuel s costs start goal.
Proof. reflexivity. Qed.

Lemma DStar_new_costmap (c : list Z) : DStar_new P c = set_costmap c (DStar_new P []).
Proof. reflexivity. Qed.

(** The results of a run do not depend on the content of the cost map the
    planner was constructed over. *)
Lemma run_from_new (fuel : nat) (c1 c2 : list Z) (calls : list call) :
  run P fuel (DStar_new P c1) calls = run P fuel (DStar_new P c2) calls.
Proof.
  destruct calls as [|[[costs start] goal] rest]; [done|].
  by rewrite !run_cons, (DStar_new_costmap c1), (DStar_new_costmap c2),
    !plan_overwrites_costmap.
Qed.

(** A call that returns the state it started from returns the same result
    however often it is repeated. *)
Lemma run_repeat (fuel : nat) (s : DStar D) costs start goal r (k : nat) :
  plan P fuel s costs start goal = Ok (r, s) ->
  run P fuel s (repeat (costs, start, goal) k) = repeat (Ok r) k.
Proof.
  intros Hpl. induction k as [|k IH]; [done|].
  simpl repeat. by rewrite run_cons, Hpl, IH.
Qed.

(** One iteration of the forward walk along a link that is not in
    collision. *)
Lemma walk_step (fuel n : nat) (s : DStar D) x :
  (DNode.pid (deref s x) =? -1) = false ->
  valid s (index2Grid P (DNode.pid (deref s x))) ->
  isCollision P s x (index2Grid P (DNode.pid (deref s x))) = false ->
  walk P fuel (S n) s x = walk P fuel n s (index2Grid P (DNode.pid (deref s x))).
Proof. intros Hp [m Hm] Hc. simpl. by rewrite Hp, Hm, Hc. Qed.

(** A walk whose links are free of collision up to the goal changes
    nothing, however long it is. *)
Lemma walk_reaches_goal (n : nat) (s : DStar D) x :
  reaches_goal P n s x = true -> forall fuel k, walk P fuel k s x = Ok s.
Proof.
  revert x. induction n as [|n IH]; intros x Hr fuel k; simpl in Hr; [done|].
  destruct k as [|k]; [done|]. simpl.
  destruct (DNode.pid (deref s x) =? -1); [done|].
  destruct (map_ s !! index2Grid P (DNode.pid (deref s x))); [|done].
  destruct (isCollision P s x _); [done|]. by apply IH.
Qed.

(** The lookahead is read by [plan] alone, to bound its walk. *)
Lemma plan_same_lookahead (n fuel : nat) (s : DStar D) costs start goal state :
  fresh_goal s goal = false ->
  getState (update_costmap P costs s) start = Ok state ->
  valid (update_costmap P costs s) state ->
  plan (lookahead n P) fuel s costs start goal =
    (s1 ← walk P fuel n (update_costmap P costs s) state;
     s2 ← extractPath P fuel (set_path [] s1) state goal;
     Ok (mkPlanResult true (path_ s2) (extractExpand P s2), s2)).
Proof.
  intros Hg Hst Hv.
  by rewrite (plan_same (lookahead n P) fuel s costs start goal state).
Qed.

Lemma walk_lookahead (n fuel m : nat) (s : DStar D) x :
  walk (lookahead n P) fuel m s x = walk P fuel m s x.
Proof. reflexivity. Qed.

Lemma update_costmap_lookahead (n : nat) costs (s : DStar D) :
  update_costmap (lookahead n P) costs s = update_costmap P costs s.
Proof. reflexivity. Qed.

Lemma modify_keys_lookahead (n fuel : nat) (s : DStar D) x :
  modify_keys (lookahead n P) fuel s x = modify_keys P fuel s x.
Proof. reflexivity. Qed.

Lemma plan_fresh_lookahead (n fuel : nat) (s : DStar D) costs start goal :
  fresh_goal s goal = true ->
  plan (lookahead n P) fuel s costs start goal = plan P fuel s costs start goal.
Proof. intros Hg. unfold plan, fresh_goal in *. simpl. by rewrite Hg. Qed.

Lemma bind_Ok {A B : Type} (a : A) (f : A -> result B) : (Ok a ≫= f) = f a.
Proof. reflexivity. Qed.

(** ** A result does not depend on the bound of the loops

    A call that returns with some bound on its loops returns the same with
    every larger bound. *)

Lemma modify_loop_fuel (fuel k : nat) (s s' : DStar D) x :
  modify_loop P fuel s x = Ok s' -> modify_loop P (fuel + k) s x = Ok s'.
Proof.
  revert s. induction fuel as [|fuel IH]; intros s; simpl; [done|].
  destruct (processState P s) as [[r s1]| |]; simpl; try done.
  destruct r as [k_min|]; [|done].
  destruct (d_le (DNode.cost (deref s1 x)) k_min); [done|]. apply IH.
Qed.

Lemma modify_fuel (fuel k : nat) (s s' : DStar D) x y :
  modify P fuel s x y = Ok s' -> modify P (fuel + k) s x y = Ok s'.
Proof. unfold modify. apply modify_loop_fuel. Qed.

Lemma walk_fuel (fuel k n : nat) (s s' : DStar D) x :
  walk P fuel n s x = Ok s' -> walk P (fuel + k) n s x = Ok s'.
Proof.
  revert s x. induction n as [|n IH]; intros s x; simpl; [done|].
  destruct (DNode.pid (deref s x) =? -1); [done|].
  destruct (map_ s !! index2Grid P (DNode.pid (deref s x))); [|done].
  destruct (isCollision P s x _); [|apply IH].
  destruct (modify P fuel s x _) as [s1| |] eqn:Hm; simpl; try done.
  rewrite (modify_fuel fuel k s s1 x _ Hm). simpl. apply IH.
Qed.

Lemma search_loop_fuel (fuel k : nat) (s s' : DStar D) start :
  search_loop P fuel s start = Ok s' -> search_loop P (fuel + k) s start = Ok s'.
Proof.
  revert s. induction fuel as [|fuel IH]; intros s; simpl; [done|].
  destruct (processState P s) as [[r s1]| |]; simpl; try done.
  destruct (Tag_eqb _ _); [done|]. apply IH.
Qed.

Lemma extractPath_loop_fuel (fuel k : nat) (s : DStar D) p goal acc path :
  extractPath_loop P fuel s p goal acc = Ok path ->
  extractPath_loop P (fuel + k) s p goal acc = Ok path.
Proof.
  revert p acc. induction fuel as [|fuel IH]; intros p acc; simpl; [done|].
  destruct (negb _ || negb _); [|done].
  destruct (index2Grid P (DNode.pid (deref s p))) as [a b].
  destruct (map_ s !! (a, b)); [|done]. apply IH.
Qed.

Lemma extractPath_fuel (fuel k : nat) (s s' : DStar D) start goal :
  extractPath P fuel s start goal = Ok s' ->
  extractPath P (fuel + k) s start goal = Ok s'.
Proof.
  unfold extractPath. destruct (map_ s !! start); [|done].
  destruct (extractPath_loop P fuel s start goal (path_ s)) as [path| |] eqn:Hl;
    simpl; try done.
  by rewrite (extractPath_loop_fuel fuel k s start goal _ path Hl).
Qed.

Lemma plan_fuel (fuel k : nat) (s : DStar D) costs start goal x :
  plan P fuel s costs start goal = Ok x ->
  plan P (fuel + k) s costs start goal = Ok x.
Proof.
  unfold plan.
  destruct (negb _ || negb _).
  - destruct (map_ _ !! start); [|done]. destruct (map_ _ !! goal); [|done].
    destruct (search_loop P fuel _ start) as [s1| |] eqn:Hl; simpl; try done.
    rewrite (search_loop_fuel fuel k _ s1 start Hl). simpl.
    destruct (extractPath P fuel _ start goal) as [s2| |] eqn:He; simpl; try done.
    by rewrite (extractPath_fuel fuel k _ s2 start goal He).
  - destruct (getState _ start) as [state| |]; simpl; try done.
    destruct (map_ _ !! state); [|done].
    destruct (walk P fuel _ _ state) as [s1| |] eqn:Hw; simpl; try done.
    rewrite (walk_fuel fuel k _ _ s1 state Hw). simpl.
    destruct (extractPath P fuel _ state goal) as [s2| |] eqn:He; simpl; try done.
    by rewrite (extractPath_fuel fuel k _ s2 state goal He).
Qed.

Lemma run_fuel (fuel k : nat) (s : DStar D) (calls : list call) rs :
  run P fuel s calls = map Ok rs -> run P (fuel + k) s calls = map Ok rs.
Proof.
  revert s rs. induction calls as [|[[costs start] goal] rest IH]; intros s rs;
    [done|].
  rewrite !run_cons.
  destruct (plan P fuel s costs start goal) as [[r s1]|f|] eqn:Hpl.
  - rewrite (plan_fuel fuel k s costs start goal _ Hpl).
    destruct rs as [|r' rs]; [done|]. simpl. intros [= <- Hr].
    by rewrite (IH s1 rs Hr).
  - by destruct rs as [|r' [|r'' rs]].
  - by destruct rs as [|r' [|r'' rs]].
Qed.

(** Two runs of one sequence of calls that both return agree, whatever the
    bounds on their loops and the cost maps their planners were constructed
    over. *)
Lemma run_agrees (fuel_a fuel_b : nat) (c_a c_b : list Z) (calls : list call)
    rs_a rs_b :
  run P fuel_a (DStar_new P c_a) calls = map Ok rs_a ->
  run P fuel_b (DStar_new P c_b) calls = map Ok rs_b ->
  rs_a = rs_b.
Proof.
  intros Ha Hb.
  apply (run_fuel fuel_a fuel_b) in Ha. apply (run_fuel fuel_b fuel_a) in Hb.
  rewrite (Nat.add_comm fuel_b fuel_a), (run_from_new _ c_b c_a), Ha in Hb.
  clear Ha. revert rs_b Hb.
  induction rs_a as [|r rs IH]; intros [|r' rs']; simpl; try done.
  intros [= -> Hr]. f_equal. by apply IH.
Qed.

End Runs.

(** * The order of the keys popped by the search of a fresh goal *)

Section SearchOrder.

Context {D : Type} `{OrderLaws D}.
Variable P : Params D.

(** ** Consequences of the order laws *)

Lemma nonneg_le (a b : D) : nonneg a -> d_le a b = true -> nonneg b.
Proof. intros Ha Hab. unfold nonneg in *. by apply (ord_le_trans _ a). Qed.

Lemma lt_false_le (a b : D) :
  nonneg a -> nonneg b -> d_lt a b = false -> d_le b a = true.
Proof.
  intros Ha Hb Hlt. rewrite ord_lt_le in Hlt by done.
  by apply negb_false_iff in Hlt.
Qed.

Lemma le_lt_false (a b : D) :
  nonneg a -> nonneg b -> d_le a b = true -> d_lt b a = false.
Proof. intros Ha Hb Hle. rewrite ord_lt_le by done. by rewrite Hle. Qed.

Lemma lt_true_le (a b : D) :
  nonneg a -> nonneg b -> d_lt a b = true -> d_le a b = true.
Proof.
  intros Ha Hb Hlt. rewrite ord_lt_le in Hlt by done.
  apply negb_true_iff in Hlt.
  destruct (ord_le_total a b Ha Hb) as [E|E]; [done|congruence].
Qed.

Lemma d_eq_refl (a : D) : nonneg a -> d_eq a a = true.
Proof. intros Ha. rewrite ord_eq_le by done. by rewrite ord_le_refl. Qed.

Lemma d_min_lt (a b : D) : d_lt b a = true -> d_min a b = b.
Proof. intros Hlt. unfold d_min. by rewrite Hlt. Qed.

(** ** The multimap stays ordered *)

Lemma multimap_insert_sorted (key : D) v (l : list (D * DNodePtr)) :
  nonneg key ->
  Forall (fun e => nonneg (fst e)) l ->
  StronglySorted (fun e1 e2 : D * DNodePtr => d_le (fst e1) (fst e2) = true) l ->
  StronglySorted (fun e1 e2 : D * DNodePtr => d_le (fst e1) (fst e2) = true)
                 (multimap_insert key v l).
Proof.
  intros Hk Hnn Hs. induction Hs as [|e t Hs IH Hhd]; simpl.
  - repeat constructor.
  - apply Forall_cons_1 in Hnn as [He Hnn].
    destruct (d_lt key (fst e)) eqn:Hlt.
    + assert (Hle : d_le key (fst e) = true) by (by apply lt_true_le).
      constructor; [by constructor|]. constructor; [done|].
      eapply Forall_impl; [exact Hhd|]. simpl. intros e' He'.
      by apply (ord_le_trans _ (fst e)).
    + constructor; [by apply IH|].
      apply Forall_forall. intros e' He'.
      apply elem_of_multimap_insert in He' as [->|He']; simpl.
      * by apply lt_false_le.
      * rewrite Forall_forall in Hhd. by apply Hhd.
Qed.

(** ** How the states of one call differ *)

Lemma via_carry (s s' : DStar D) x q :
  geom_eq s s' -> DNode.cost (deref s' x) = DNode.cost (deref s x) ->
  via P x q s' = via P x q s.
Proof. intros Hg Hc. unfold via. by rewrite Hc, (geom_eq_getCost P s s'). Qed.

Lemma insert_open_list (s : DStar D) p h :
  open_list_ (insert p h s)
  = multimap_insert (insert_key (deref s p) h) p (open_list_ s).
Proof.
  unfold insert. simpl. f_equal. unfold insert_key.
  by destruct (DNode.tag (deref s p)).
Qed.

Lemma relink_open_list (s : DStar D) x y :
  valid s y -> x <> y ->
  open_list_ (relink P x y s)
  = multimap_insert (insert_key (deref s y) (via P x y s)) y (open_list_ s).
Proof.
  intros Hy Hne. unfold relink. rewrite insert_open_list.
  fold (via P x y (store y (DNode.set_pid (DNode.id (deref s x)) (deref s y)) s)).
  rewrite via_relink, deref_store_eq by done. done.
Qed.

Lemma index_injective (s : DStar D) p q :
  index_roundtrip P -> cells_ok P s -> valid s p -> valid s q ->
  DNode.id (deref s p) = DNode.id (deref s q) -> p = q.
Proof.
  intros Hrt Hc Hp Hq E.
  destruct (cells_ok_deref P s p Hc Hp) as (_ & _ & Ep).
  destruct (cells_ok_deref P s q Hc Hq) as (_ & _ & Eq).
  destruct Hp as [n Hn], Hq as [m Hm].
  destruct (Hc p n Hn) as [_ [Hpx Hpy]], (Hc q m Hm) as [_ [Hqx Hqy]].
  rewrite Ep, Eq in E.
  pose proof (Hrt _ _ Hpx Hpy) as E1. pose proof (Hrt _ _ Hqx Hqy) as E2.
  rewrite E in E1. rewrite E1 in E2.
  rewrite (surjective_pairing p), (surjective_pairing q). done.
Qed.

Lemma id_not_sentinel (s : DStar D) p :
  index_not_sentinel P -> cells_ok P s -> valid s p ->
  DNode.id (deref s p) <> -1.
Proof.
  intros Hns Hc Hp. destruct (cells_ok_deref P s p Hc Hp) as (_ & _ & ->).
  destruct Hp as [n Hn]. destruct (Hc p n Hn) as [_ [Hx Hy]]. by apply Hns.
Qed.

Lemma pid_valid (s : DStar D) p q :
  index_not_sentinel P -> cells_ok P s -> valid s p ->
  DNode.pid (deref s q) = DNode.id (deref s p) -> valid s q.
Proof.
  intros Hns Hc Hp E. destruct (map_ s !! q) as [n|] eqn:El; [by eexists|].
  exfalso. apply (id_not_sentinel s p Hns Hc Hp).
  rewrite <- E. unfold deref. by rewrite El.
Qed.

Lemma fold_left_idle (step : DStar D -> DNodePtr -> DStar D) nbrs (s : DStar D) :
  Forall (fun y => step s y = s) nbrs -> fold_left step nbrs s = s.
Proof.
  induction 1 as [|y ys Hy _ IH]; simpl; [done|]. by rewrite Hy.
Qed.

(** ** A node that has served its neighbours is expanded without effect *)

Lemma served_not_stale (s : DStar D) x y :
  0 <= INF P -> costs_nonneg s -> served P x s y -> stale_child P x y s = false.
Proof.
  intros HI Hn (Ht & Hle & Hpid). unfold stale_child.
  destruct (DNode.tag (deref s y)) eqn:Et; try done; simpl.
  - destruct (Z.eqb_spec (DNode.pid (deref s y)) (DNode.id (deref s x))) as [E|E];
      [|done].
    rewrite (Hpid E), d_eq_refl; [done|]. apply via_nonneg; done.
  - destruct (Z.eqb_spec (DNode.pid (deref s y)) (DNode.id (deref s x))) as [E|E];
      [|done].
    rewrite (Hpid E), d_eq_refl; [done|]. apply via_nonneg; done.
Qed.

Lemma served_not_improvable (s : DStar D) x y :
  0 <= INF P -> costs_nonneg s -> served P x s y -> improvable P x y s = false.
Proof.
  intros HI Hn (Ht & Hle & Hpid). unfold improvable.
  rewrite (le_lt_false (DNode.cost (deref s y)) (via P x y s)); try done.
  - apply andb_false_r.
  - apply via_nonneg; done.
Qed.

Lemma lower_step_idle (s : DStar D) x y :
  0 <= INF P -> costs_nonneg s -> served P x s y -> lower_step P x s y = s.
Proof.
  intros HI Hn Hs. unfold lower_step.
  by rewrite served_not_stale, served_not_improvable.
Qed.

Lemma raise_state_step_idle (k_old : D) (s : DStar D) x y :
  0 <= INF P -> costs_nonneg s -> nonneg k_old ->
  closed_below k_old s -> served P x s y ->
  raise_state_step P k_old x s y = s.
Proof.
  intros HI Hn Hk Hcb Hs. unfold raise_state_step.
  rewrite served_not_stale, served_not_improvable by done.
  unfold raised_closed.
  destruct (DNode.tag (deref s y)) eqn:Et; simpl;
    rewrite ?andb_false_r; try done.
  rewrite (le_lt_false (DNode.cost (deref s y)) k_old); try done.
  - by rewrite andb_false_r.
  - by apply Hcb.
Qed.

(** ** Serving one neighbour of the node being expanded *)

Lemma keys_nonneg (b : D) (s : DStar D) :
  nonneg b -> keys_above b s ->
  Forall (fun e : D * DNodePtr => nonneg (fst e)) (open_list_ s).
Proof.
  intros Hb Hab. eapply Forall_impl; [exact Hab|]. simpl.
  intros e He. by apply (nonneg_le b).
Qed.

Lemma requeued_expanding (b : D) (x y : DNodePtr) (s s' : DStar D) :
  0 <= INF P -> index_roundtrip P -> index_not_sentinel P ->
  expanding P b x s ->
  x <> y -> valid s y ->
  DNode.tag (deref s y) <> CLOSED ->
  (DNode.tag (deref s y) = OPEN ->
     d_lt (via P x y s) (DNode.cost (deref s y)) = true) ->
  requeued x y (via P x y s) s s' ->
  expanding P b x s' /\ served P x s' y /\
  (forall y', served P x s y' -> served P x s' y').
Proof.
  intros HI Hrt Hns (Hfr & Hex & Hx & Htx & Hbx & Hm2) Hxy Hy Hncl Hopen
         (Hg & Hoth & Ht' & Hc' & Hk' & Hp' & Hol').
  destruct Hfr as (Hc & Hp & Hn & Hb & Hso & Hab & Hen & Hop & Hcb & Hpc).
  set (v := via P x y s) in *.
  assert (Hv : nonneg v) by (by apply via_nonneg).
  assert (Hxs' : deref s' x = deref s x) by (by apply Hoth).
  assert (Hvia : forall p q, p <> y -> via P p q s' = via P p q s).
  { intros p q Hpy. apply via_carry; [done|]. by rewrite Hoth. }
  assert (Hbv : d_le b v = true).
  { apply (ord_le_trans _ (DNode.cost (deref s x))); [done|].
    apply ord_add_le; [apply Hn|by apply getCost_nonneg]. }
  assert (Hn' : costs_nonneg s').
  { intros p. destruct (decide (p = y)) as [->|Hne].
    - by rewrite Hc'.
    - rewrite Hoth by done. apply Hn. }
  assert (Hsv : served P x s' y).
  { unfold served. rewrite Hvia by done. fold v. rewrite Hc', Ht'.
    split; [done|]. split; [by apply ord_le_refl|done]. }
  assert (Hlow : DNode.tag (deref s y) <> NEW ->
                 d_le v (DNode.cost (deref s y)) = true).
  { intros Hnew. apply lt_true_le; [done|apply Hn|]. apply Hopen.
    destruct (DNode.tag (deref s y)); done. }
  split; [|split; [done|]].
  - split; [|split; [|split; [|split; [|split]]]].
    + (* the frame *)
      split; [by apply (cells_ok_geom P s)|].
      split.
      { unfold ptrs_ok. rewrite Hol'. apply Forall_forall. intros e He.
        apply elem_of_multimap_insert in He as [->|He]; simpl.
        - by apply (geom_eq_valid s).
        - apply (geom_eq_valid s); [done|].
          unfold ptrs_ok in Hp. rewrite Forall_forall in Hp. by apply Hp. }
      split; [done|]. split; [done|].
      split.
      { unfold keys_sorted. rewrite Hol'.
        apply multimap_insert_sorted; [done|by apply (keys_nonneg b)|done]. }
      split.
      { unfold keys_above. rewrite Hol'. apply Forall_forall. intros e He.
        apply elem_of_multimap_insert in He as [->|He]; simpl; [done|].
        unfold keys_above in Hab. rewrite Forall_forall in Hab. by apply Hab. }
      split.
      { unfold entries_ok. rewrite Hol'. apply Forall_forall. intros e He.
        apply elem_of_multimap_insert in He as [->|He]; simpl.
        - rewrite Ht', Hc'. split; [done|by apply ord_le_refl].
        - unfold entries_ok in Hen. rewrite Forall_forall in Hen.
          destruct (Hen e He) as [Hte Hce].
          destruct (decide (snd e = y)) as [Ey|Ey].
          + rewrite Ey in *. rewrite Ht', Hc'. split; [done|].
            apply (ord_le_trans _ (DNode.cost (deref s y))); [by apply Hlow|done].
          + by rewrite Hoth. }
      split.
      { intros p Htp. rewrite Hol'. destruct (decide (p = y)) as [->|Hne].
        - rewrite Hk', Hc'. split; [done|].
          apply elem_of_multimap_insert. by left.
        - rewrite Hoth in * by done. destruct (Hop p Htp) as [E Hin].
          split; [done|]. apply elem_of_multimap_insert. by right. }
      split.
      { intros p Htp. destruct (decide (p = y)) as [->|Hne].
        - rewrite Ht' in Htp. done.
        - rewrite Hoth in * by done. by apply Hcb. }
      { intros p q Hvp Hpq.
        assert (Hvps : valid s p) by (by apply Hg).
        destruct (decide (q = y)) as [->|Hq].
        - rewrite Hp' in Hpq.
          assert (p = x) as ->.
          { apply (index_injective s); try done.
            destruct (decide (p = y)) as [->|Hpy].
            - destruct Hg as [_ Hg]. destruct (Hg y) as [Eg _].
              unfold geo in Eg. congruence.
            - rewrite Hoth in Hpq by done. done. }
          by rewrite Hxs'.
        - rewrite (Hoth q) in Hpq by done.
          assert (Hids : DNode.id (deref s' p) = DNode.id (deref s p))
            by (by apply geom_eq_id).
          rewrite Hids in Hpq. pose proof (Hpc p q Hvps Hpq) as Hcl.
          destruct (decide (p = y)) as [->|Hpy]; [done|]. by rewrite Hoth. }
    + (* the nodes expanded before *)
      intros p nbrs Hpx Hvp Htp Hnb.
      assert (Hpy : p <> y) by (intros ->; rewrite Ht' in Htp; done).
      rewrite Hoth in Htp by done.
      rewrite (geom_eq_getNeighbours P s s') in Hnb by done.
      assert (Hvps : valid s p) by (by apply Hg).
      pose proof (Hex p nbrs Hpx Hvps Htp Hnb) as Hall.
      eapply Forall_impl; [exact Hall|]. simpl.
      intros q (Htq & Hcq & Hpq). unfold served.
      rewrite Hvia by done. rewrite (Hoth p) by done.
      destruct (decide (q = y)) as [->|Hqy].
      * rewrite Ht', Hc', Hp'. split; [done|]. split.
        { apply (ord_le_trans _ (DNode.cost (deref s y))); [by apply Hlow|done]. }
        { intros E. exfalso. apply Hpx. f_equal.
          symmetry. by apply (index_injective s). }
      * by rewrite Hoth.
    + by apply (geom_eq_valid s).
    + by rewrite Hxs'.
    + by rewrite Hxs'.
    + intros q Hq. rewrite Hxs' in Hq. rewrite Hvia by done.
      destruct (decide (q = y)) as [->|Hqy]; [by rewrite Hc'|].
      rewrite Hoth in * by done. by apply Hm2.
  - intros y' (Ht1 & Hc1 & Hp1). destruct (decide (y' = y)) as [->|Hne]; [done|].
    unfold served. rewrite Hvia by done. rewrite Hxs', (Hoth y') by done. done.
Qed.

Lemma relink_requeued (s : DStar D) x y :
  valid s y -> x <> y ->
  insert_key (deref s y) (via P x y s) = via P x y s ->
  requeued x y (via P x y s) s (relink P x y s).
Proof.
  intros Hy Hne Hk.
  split; [by apply steady_relink|].
  split; [intros p Hp; by apply deref_relink_ne|].
  rewrite deref_relink_eq, relink_open_list, Hk by done. done.
Qed.

Lemma pid_eqb_via (b : D) (s : DStar D) x y :
  0 <= INF P -> expanding P b x s ->
  (DNode.pid (deref s y) =? DNode.id (deref s x))
  && negb (d_eq (DNode.cost (deref s y)) (via P x y s)) = false.
Proof.
  intros HI (Hfr & _ & _ & _ & _ & Hm2).
  destruct Hfr as (_ & _ & Hn & _).
  destruct (Z.eqb_spec (DNode.pid (deref s y)) (DNode.id (deref s x))) as [E|E];
    [|done].
  rewrite (Hm2 y E), d_eq_refl; [done|]. by apply via_nonneg.
Qed.

Lemma lower_step_expanding (b : D) (x y : DNodePtr) (s : DStar D) :
  0 <= INF P -> index_roundtrip P -> index_not_sentinel P ->
  expanding P b x s -> enumerated P s x y ->
  expanding P b x (lower_step P x s y) /\
  served P x (lower_step P x s y) y /\
  (forall y', served P x s y' -> served P x (lower_step P x s y) y') /\
  geom_eq s (lower_step P x s y).
Proof.
  intros HI Hrt Hns Hexp Hen.
  pose proof Hexp as (Hfr & Hex & Hx & Htx & Hbx & Hm2).
  destruct Hfr as (Hc & Hp & Hn & Hb & Hso & Hab & Hent & Hop & Hcb & Hpc).
  assert (Hxy : x <> y) by (by apply (enumerated_ne P s)).
  assert (Hy : valid s y) by (by destruct Hen).
  assert (Hvn : nonneg (via P x y s)) by (by apply via_nonneg).
  pose proof (pid_eqb_via b s x y HI Hexp) as Hpe.
  unfold lower_step.
  destruct (stale_child P x y s || improvable P x y s) eqn:Ec.
  - assert (Hcases :
      DNode.tag (deref s y) <> CLOSED /\
      (DNode.tag (deref s y) = OPEN ->
         d_lt (via P x y s) (DNode.cost (deref s y)) = true)).
    { unfold stale_child, improvable in Ec. rewrite Hpe in Ec.
      destruct (DNode.tag (deref s y)) eqn:Et; simpl in Ec.
      - split; done.
      - apply andb_true_iff in Ec as [_ Ec]. split; done.
      - apply andb_true_iff in Ec as [_ Ec]. exfalso.
        rewrite (le_lt_false (DNode.cost (deref s y)) (via P x y s)) in Ec;
          [done|apply Hn|done|].
        apply (ord_le_trans _ b); [by apply Hcb|].
        apply (ord_le_trans _ (DNode.cost (deref s x))); [done|].
        apply ord_add_le; [apply Hn|by apply getCost_nonneg]. }
    destruct Hcases as [Hncl Hopen].
    assert (Hk : insert_key (deref s y) (via P x y s) = via P x y s).
    { unfold insert_key. destruct (DNode.tag (deref s y)) eqn:Et; [done| |done].
      destruct (Hop y Et) as [-> _]. apply d_min_lt. by apply Hopen. }
    pose proof (relink_requeued s x y Hy Hxy Hk) as Hrq.
    destruct (requeued_expanding b x y s _ HI Hrt Hns Hexp Hxy Hy Hncl Hopen Hrq)
      as (H1 & H2 & H3).
    split; [done|]. split; [done|]. split; [done|]. by apply steady_relink.
  - apply orb_false_iff in Ec as [Es Ei].
    split; [done|]. split; [|split; [done|apply geom_eq_refl]].
    unfold stale_child in Es. apply orb_false_iff in Es as [Enew _].
    split; [by destruct (DNode.tag (deref s y))|].
    split; [|by apply Hm2].
    unfold improvable in Ei.
    destruct (Z.eqb_spec (DNode.pid (deref s y)) (DNode.id (deref s x))) as [E|E].
    + rewrite (Hm2 y E). by apply ord_le_refl.
    + simpl in Ei. apply lt_false_le; [done|apply Hn|done].
Qed.

(** The whole LOWER loop over the neighbours of [x]. *)
Lemma lower_fold_expanding (b : D) (x : DNodePtr) nbrs (s : DStar D) :
  0 <= INF P -> index_roundtrip P -> index_not_sentinel P ->
  expanding P b x s -> Forall (enumerated P s x) nbrs ->
  expanding P b x (fold_left (lower_step P x) nbrs s) /\
  Forall (served P x (fold_left (lower_step P x) nbrs s)) nbrs /\
  geom_eq s (fold_left (lower_step P x) nbrs s).
Proof.
  intros HI Hrt Hns. revert s.
  assert (Hgen : forall done_ s,
    expanding P b x s -> Forall (enumerated P s x) nbrs ->
    Forall (served P x s) done_ ->
    expanding P b x (fold_left (lower_step P x) nbrs s) /\
    Forall (served P x (fold_left (lower_step P x) nbrs s)) (done_ ++ nbrs) /\
    geom_eq s (fold_left (lower_step P x) nbrs s)).
  { induction nbrs as [|y ys IH]; intros done_ s Hexp Hen Hdone; simpl.
    - rewrite app_nil_r. split; [done|]. split; [done|apply geom_eq_refl].
    - apply Forall_cons_1 in Hen as [Hy Hys].
      destruct (lower_step_expanding b x y s HI Hrt Hns Hexp Hy)
        as (H1 & H2 & H3 & H4).
      destruct (IH (done_ ++ [y]) (lower_step P x s y)) as (G1 & G2 & G3).
      + done.
      + eapply Forall_impl; [exact Hys|]. intros q. by apply enumerated_geom.
      + apply Forall_app. split; [|by apply Forall_singleton].
        eapply Forall_impl; [exact Hdone|]. done.
      + split; [done|]. split; [by rewrite <- app_assoc in G2|].
        by eapply geom_eq_trans. }
  intros s Hexp Hen. by apply (Hgen [] s).
Qed.

(** ** Popping the minimum *)

Lemma geom_eq_popped (s : DStar D) x rest :
  valid s x -> geom_eq s (popped x rest s).
Proof.
  intros Hx. unfold popped.
  eapply geom_eq_trans; [apply (geom_eq_set_open_list s rest)|].
  by apply geom_eq_store.
Qed.

Lemma popped_fields (s : DStar D) x rest p :
  DNode.cost (deref (popped x rest s) p) = DNode.cost (deref s p) /\
  DNode.pid (deref (popped x rest s) p) = DNode.pid (deref s p) /\
  DNode.id (deref (popped x rest s) p) = DNode.id (deref s p) /\
  DNode.k (deref (popped x rest s) p) = DNode.k (deref s p) /\
  DNode.tag (deref (popped x rest s) p)
    = (if decide (x = p) then CLOSED else DNode.tag (deref s p)).
Proof.
  rewrite deref_popped. by destruct (decide (x = p)) as [<-|].
Qed.

Lemma via_popped (s : DStar D) x rest p q :
  valid s x -> via P p q (popped x rest s) = via P p q s.
Proof.
  intros Hx. apply via_carry; [by apply geom_eq_popped|].
  by destruct (popped_fields s x rest p) as (-> & _).
Qed.

Lemma served_popped (s : DStar D) x rest p q :
  valid s x -> served P p s q -> served P p (popped x rest s) q.
Proof.
  intros Hx (Ht & Hc & Hp). unfold served. rewrite via_popped by done.
  destruct (popped_fields s x rest q) as (-> & -> & _ & _ & ->).
  destruct (popped_fields s x rest p) as (_ & _ & -> & _).
  split; [by destruct (decide (x = q))|done].
Qed.

(** What the pop gives, whatever the tag of the popped node was. *)
Lemma pop_frame (b k_old : D) (s : DStar D) x rest :
  search_inv P b s -> open_list_ s = (k_old, x) :: rest ->
  search_frame P k_old (popped x rest s) /\
  expanded_but P (Some x) (popped x rest s) /\
  valid s x /\ nonneg k_old /\
  DNode.tag (deref s x) <> NEW /\
  d_le (DNode.cost (deref s x)) k_old = true /\
  Forall (fun e : D * DNodePtr => d_le k_old (fst e) = true) rest.
Proof.
  intros [Hfr Hex] Hol.
  destruct Hfr as (Hc & Hp & Hn & Hb & Hso & Hab & Hent & Hop & Hcb & Hpc).
  unfold keys_sorted, keys_above, entries_ok, ptrs_ok in *. rewrite Hol in *.
  apply StronglySorted_inv in Hso as [Hso Hhd].
  apply Forall_cons_1 in Hab as [Hbk Hab].
  apply Forall_cons_1 in Hent as [[Htx Hcx] Hent].
  apply Forall_cons_1 in Hp as [Hx Hp]. simpl in *.
  assert (Hk : nonneg k_old) by (by apply (nonneg_le b)).
  assert (Hg : geom_eq s (popped x rest s)) by (by apply geom_eq_popped).
  split; [|split; [|by repeat split]].
  - split; [by apply (cells_ok_geom P s)|].
    split.
    { unfold ptrs_ok. change (open_list_ (popped x rest s)) with rest.
      eapply Forall_impl; [exact Hp|]. intros e. by apply geom_eq_valid. }
    split.
    { intros p. destruct (popped_fields s x rest p) as (-> & _). apply Hn. }
    split; [done|]. split; [done|]. split; [done|].
    split.
    { unfold entries_ok. change (open_list_ (popped x rest s)) with rest.
      eapply Forall_impl; [exact Hent|]. simpl. intros e [Hte Hce].
      destruct (popped_fields s x rest (snd e)) as (-> & _ & _ & _ & ->).
      split; [by destruct (decide (x = snd e))|done]. }
    split.
    { intros p Htp.
      destruct (popped_fields s x rest p) as (-> & _ & _ & -> & Et).
      rewrite Et in Htp. destruct (decide (x = p)) as [->|Hne]; [done|].
      destruct (Hop p Htp) as [E Hin]. split; [done|].
      rewrite Hol in Hin. apply elem_of_cons in Hin as [Hin|Hin]; [|done].
      injection Hin as _ ->. done. }
    split.
    { intros p Htp.
      destruct (popped_fields s x rest p) as (-> & _ & _ & _ & Et).
      rewrite Et in Htp. destruct (decide (x = p)) as [<-|Hne]; [done|].
      apply (ord_le_trans _ b); [by apply Hcb|done]. }
    { intros p q Hvp Hpq.
      destruct (popped_fields s x rest q) as (_ & Eq & _).
      destruct (popped_fields s x rest p) as (_ & _ & Ep & _ & Et).
      rewrite Eq, Ep in Hpq. rewrite Et.
      destruct (decide (x = p)); [done|].
      apply (Hpc p q); [by apply Hg|done]. }
  - intros p nbrs Hpx Hvp Htp Hnb.
    destruct (popped_fields s x rest p) as (_ & _ & _ & _ & Et).
    rewrite Et in Htp. destruct (decide (x = p)) as [->|Hne]; [done|].
    rewrite (geom_eq_getNeighbours P s) in Hnb by done.
    assert (Hvps : valid s p) by (by apply Hg).
    eapply Forall_impl; [exact (Hex p nbrs ltac:(done) Hvps Htp Hnb)|].
    intros q. by apply served_popped.
Qed.

Lemma expanded_close (s : DStar D) x :
  expanded_but P (Some x) s ->
  (forall nbrs, getNeighbours P s x = Ok nbrs -> Forall (served P x s) nbrs) ->
  expanded_but P None s.
Proof.
  intros Hex Hx p nbrs _ Hvp Htp Hnb.
  destruct (decide (p = x)) as [->|Hne]; [by apply Hx|].
  apply (Hex p nbrs); try done. by intros [= ->].
Qed.

(** The popped node was OPEN: its key is its cost and the LOWER branch
    serves its neighbours. *)
Lemma pop_open (b k_old : D) (s : DStar D) x rest :
  index_not_sentinel P ->
  search_inv P b s -> open_list_ s = (k_old, x) :: rest ->
  DNode.tag (deref s x) = OPEN ->
  expanding P k_old x (popped x rest s) /\
  d_lt k_old (DNode.cost (deref (popped x rest s) x)) = false /\
  d_eq k_old (DNode.cost (deref (popped x rest s) x)) = true.
Proof.
  intros Hns Hinv Hol Htx.
  destruct (pop_frame b k_old s x rest Hinv Hol)
    as (Hfr & Hex & Hx & Hk & _ & Hcx & Hrest).
  destruct Hinv as [(Hc & _ & Hn & _ & _ & _ & _ & Hop & _ & Hpc) _].
  destruct (popped_fields s x rest x) as (Ec & _ & Ei & _ & Et).
  rewrite Ec.
  assert (Hkx : d_le k_old (DNode.cost (deref s x)) = true).
  { destruct (Hop x Htx) as [E Hin]. rewrite <- E. rewrite Hol in Hin.
    apply elem_of_cons in Hin as [Hin|Hin].
    - injection Hin as ->. by apply ord_le_refl.
    - rewrite Forall_forall in Hrest. by apply (Hrest _ Hin). }
  split; [|split].
  - split; [done|]. split; [done|].
    split; [by apply (geom_eq_valid s); [apply geom_eq_popped|]|].
    split; [rewrite Et; by destruct (decide (x = x))|].
    split; [by rewrite Ec|].
    intros q Hq. exfalso.
    destruct (popped_fields s x rest q) as (_ & Eq & _).
    rewrite Eq, Ei in Hq. pose proof (Hpc x q Hx Hq) as Hcl. congruence.
  - apply le_lt_false; [apply Hn|done|done].
  - rewrite ord_eq_le by (done || apply Hn). by rewrite Hkx, Hcx.
Qed.

Lemma popped_closed (s : DStar D) x rest :
  valid s x -> DNode.tag (deref s x) = CLOSED ->
  popped x rest s = set_open_list rest s.
Proof.
  intros [n Hn] Ht. unfold popped, store, set_map, deref in *. simpl in *.
  rewrite Hn in *. simpl in *.
  assert (E : DNode.set_tag CLOSED n = n) by (destruct n; simpl in *; by subst).
  rewrite E, insert_id by done. by destruct s.
Qed.

(** ** One call of [processState] *)

Lemma processState_search_inv (b k_old : D) (s s' : DStar D) x rest r :
  0 <= INF P -> index_roundtrip P -> index_not_sentinel P ->
  search_inv P b s -> open_list_ s = (k_old, x) :: rest ->
  processState P s = Ok (r, s') ->
  search_inv P k_old s'.
Proof.
  intros HI Hrt Hns Hinv Hol Hps.
  destruct (pop_frame b k_old s x rest Hinv Hol)
    as (Hfr & Hex & Hx & Hk & Htn & Hcx & Hrest).
  set (s1 := popped x rest s) in *.
  assert (Hg1 : geom_eq s s1) by (by apply geom_eq_popped).
  destruct (getNeighbours P s1 x) as [nbrs| |] eqn:Hnb;
    [|unfold processState in Hps; rewrite Hol in Hps;
      change (store x (DNode.set_tag CLOSED (deref (set_open_list rest s) x))
                (set_open_list rest s)) with s1 in Hps;
      rewrite Hnb in Hps; done..].
  rewrite (processState_unfold P s k_old x rest nbrs Hol Hnb) in Hps.
  injection Hps as _ <-. fold s1.
  pose proof (getNeighbours_enumerated P s1 x nbrs Hnb) as Hen.
  destruct (popped_fields s x rest x) as (Ec & _). fold s1 in Ec.
  destruct (DNode.tag (deref s x)) eqn:Etx; [done| |].
  - (* first expansion *)
    destruct (pop_open b k_old s x rest Hns Hinv Hol Etx) as (Hexp & Hlt & Heq).
    fold s1 in Hexp, Hlt, Heq.
    unfold raise_phase. rewrite Hlt. unfold spread_phase. rewrite Heq.
    destruct (lower_fold_expanding k_old x nbrs s1 HI Hrt Hns Hexp Hen)
      as (Hend & Hsv & Hg).
    destruct Hend as (Hfr' & Hex' & _).
    split; [done|]. apply (expanded_close _ x); [done|].
    intros nbrs' Hnb'. rewrite (geom_eq_getNeighbours P s1) in Hnb' by done.
    rewrite Hnb in Hnb'. by injection Hnb' as <-.
  - (* a stale entry of a node expanded before *)
    destruct Hinv as [Hfr0 Hex0].
    assert (Hnbs : getNeighbours P s x = Ok nbrs)
      by (by rewrite <- (geom_eq_getNeighbours P s s1)).
    assert (Hsv : Forall (served P x s1) nbrs).
    { eapply Forall_impl; [exact (Hex0 x nbrs ltac:(done) Hx Etx Hnbs)|].
      intros q. by apply served_popped. }
    pose proof Hfr as (Hc & Hp & Hn & Hb & Hso & Hab & Hent & Hop & Hcb & Hpc).
    assert (Hlt : d_lt k_old (DNode.cost (deref s1 x)) = false).
    { rewrite Ec. apply le_lt_false; [apply Hfr0|done|done]. }
    unfold raise_phase. rewrite Hlt. unfold spread_phase.
    assert (Hidle : forall step,
      (forall y, served P x s1 y -> step s1 y = s1) ->
      fold_left step nbrs s1 = s1).
    { intros step Hstep. apply fold_left_idle.
      eapply Forall_impl; [exact Hsv|]. done. }
    assert (Hend : search_inv P k_old s1).
    { split; [done|]. apply (expanded_close _ x); [done|].
      intros nbrs' Hnb'. rewrite Hnb in Hnb'. by injection Hnb' as <-. }
    destruct (d_eq k_old (DNode.cost (deref s1 x))).
    + rewrite Hidle; [done|]. intros y. by apply lower_step_idle.
    + rewrite Hidle; [done|]. intros y. by apply raise_state_step_idle.
Qed.

(** ** The state in which the search starts *)

Lemma search_start_deref (s : DStar D) costs goal p :
  valid (reset P (update_costmap P costs s)) goal ->
  (p = goal /\
   DNode.tag (deref (search_start P s costs goal) p) = OPEN /\
   DNode.cost (deref (search_start P s costs goal) p) = d_of_int 0 /\
   DNode.k (deref (search_start P s costs goal) p) = d_of_int 0 /\
   DNode.pid (deref (search_start P s costs goal) p) = -1) \/
  (p <> goal /\
   DNode.tag (deref (search_start P s costs goal) p) = NEW /\
   DNode.pid (deref (search_start P s costs goal) p) = -1).
Proof.
  intros Hv. unfold search_start.
  set (s0 := set_goal goal (reset P (update_costmap P costs s))).
  assert (Hfresh : forall q, DNode.tag (deref s0 q) = NEW /\ DNode.pid (deref s0 q) = -1).
  { intros q. destruct (map_ s0 !! q) as [n|] eqn:E.
    - change (deref s0 q)
        with (deref (initMap P (set_open_list [] (update_costmap P costs s))) q).
      rewrite deref_initMap; [done|by eexists].
    - unfold deref. by rewrite E. }
  destruct (decide (p = goal)) as [->|Hne]; [left|right].
  - rewrite deref_insert_eq. unfold insert_key.
    destruct (Hfresh goal) as [-> Hp]. simpl. done.
  - rewrite deref_insert_ne by done. destruct (Hfresh p). done.
Qed.

Lemma search_start_inv (s : DStar D) costs goal :
  0 <= INF P -> index_not_sentinel P ->
  valid (reset P (update_costmap P costs s)) goal ->
  search_inv P (d_of_int 0) (search_start P s costs goal).
Proof.
  intros HI Hns Hv.
  destruct (search_start_ok P s costs goal Hv) as (Hc & Hp & _).
  destruct (search_start_goal_inv P s costs goal HI Hv) as (_ & Hvg & Hn & _).
  pose proof (search_start_deref s costs goal) as Hd.
  assert (Hol : open_list_ (search_start P s costs goal) = [(d_of_int 0, goal)]).
  { unfold search_start. rewrite insert_open_list. simpl.
    set (s0 := set_goal goal (reset P (update_costmap P costs s))).
    destruct (search_start_deref s costs goal goal Hv) as [(_ & _)|[? _]]; [|done].
    unfold insert_key.
    assert (Ht : DNode.tag (deref s0 goal) = NEW).
    { change (deref s0 goal)
        with (deref (initMap P (set_open_list [] (update_costmap P costs s))) goal).
      by rewrite deref_initMap. }
    by rewrite Ht. }
  assert (Hz : nonneg (d_of_int 0 : D)) by apply nonneg_zero.
  assert (Hzz : d_le (d_of_int 0 : D) (d_of_int 0) = true) by (by apply ord_le_refl).
  split.
  - split; [done|]. split; [done|]. split; [done|]. split; [done|].
    unfold keys_sorted, keys_above, entries_ok. rewrite Hol.
    split; [repeat constructor|]. split; [by repeat constructor|].
    split.
    { constructor; [|constructor]. simpl.
      destruct (Hd goal Hv) as [(_ & -> & -> & _)|[? _]]; done. }
    split.
    { intros p Htp. rewrite Hol.
      destruct (Hd p Hv) as [(-> & _ & -> & -> & _)|(_ & Et & _)];
        [|congruence].
      split; [done|]. by apply list_elem_of_singleton. }
    split.
    { intros p Htp. destruct (Hd p Hv) as [(_ & Et & _)|(_ & Et & _)]; congruence. }
    { intros p q Hvp Hpq. exfalso.
      apply (id_not_sentinel _ p Hns Hc Hvp). rewrite <- Hpq.
      destruct (Hd q Hv) as [(_ & _ & _ & _ & E)|(_ & _ & E)]; done. }
  - intros p nbrs _ _ Htp. destruct (Hd p Hv) as [(_ & Et & _)|(_ & Et & _)]; congruence.
Qed.

(** ** The popped keys *)

Lemma popped_keys_sorted (b : D) (n : nat) (s : DStar D) :
  0 <= INF P -> index_roundtrip P -> index_not_sentinel P ->
  search_inv P b s ->
  nondecreasing (popped_keys P n s) /\
  HdRel (fun a c => d_le a c = true) b (popped_keys P n s).
Proof.
  intros HI Hrt Hns. revert b s. unfold nondecreasing.
  induction n as [|n IH]; intros b s Hinv; simpl; [by split; constructor|].
  destruct (open_list_ s) as [|[k_old x] rest] eqn:Hol; [by split; constructor|].
  simpl. split.
  - destruct (processState P s) as [[r s']| |] eqn:Hps;
      [|by repeat constructor..].
    pose proof (processState_search_inv b k_old s s' x rest r
                  HI Hrt Hns Hinv Hol Hps) as Hinv'.
    destruct (IH k_old s' Hinv') as [Hs Hh]. by constructor.
  - constructor. destruct Hinv as [(_ & _ & _ & _ & _ & Hab & _) _].
    unfold keys_above in Hab. rewrite Hol in Hab.
    by apply Forall_cons_1 in Hab as [? _].
Qed.

End SearchOrder.

(** * IEEE binary64 satisfies the laws *)

Module F64Facts.
Import SF.

(** ** Comparison *)

Lemma SFcompare_rank (x y : spec_float) :
  SFcompare x y
  = if is_nan x || is_nan y then None else Some (lex (rank x) (rank y)).
Proof.
  destruct x as [sx|sx| |sx mx ex], y as [sy|sy| |sy my ey];
    try destruct sx; try destruct sy; try reflexivity; simpl; unfold lex; simpl.
  rewrite Z.compare_opp, (Z.compare_antisym ex ey).
  by destruct (ex ?= ey).
Qed.

Lemma lex_spec (a b : Z * Z * Z) :
  match lex a b with
  | Lt => lex_le a b /\ ~ lex_le b a
  | Eq => lex_le a b /\ lex_le b a
  | Gt => lex_le b a /\ ~ lex_le a b
  end.
Proof.
  unfold lex, lex_le. destruct a as [[a1 a2] a3], b as [[b1 b2] b3]. simpl.
  destruct (Z.compare_spec a1 b1); [|lia|lia].
  destruct (Z.compare_spec a2 b2); [|lia|lia].
  destruct (Z.compare_spec a3 b3); lia.
Qed.

Lemma SFleb_rank (x y : spec_float) :
  SFleb x y = true <->
  is_nan x = false /\ is_nan y = false /\ lex_le (rank x) (rank y).
Proof.
  unfold SFleb. rewrite SFcompare_rank.
  destruct (is_nan x), (is_nan y); simpl; try (split; [done|by intros (? & ? & ?)]).
  pose proof (lex_spec (rank x) (rank y)) as Hs.
  destruct (lex (rank x) (rank y)); split; intros; try done; intuition done.
Qed.

Lemma SFltb_rank (x y : spec_float) :
  SFltb x y = true <->
  is_nan x = false /\ is_nan y = false /\ ~ lex_le (rank y) (rank x).
Proof.
  unfold SFltb. rewrite SFcompare_rank.
  destruct (is_nan x), (is_nan y); simpl; try (split; [done|by intros (? & ? & ?)]).
  pose proof (lex_spec (rank x) (rank y)) as Hs.
  destruct (lex (rank x) (rank y)); split; intros; try done; intuition done.
Qed.

Lemma SFeqb_rank (x y : spec_float) :
  SFeqb x y = true <->
  is_nan x = false /\ is_nan y = false /\
  lex_le (rank x) (rank y) /\ lex_le (rank y) (rank x).
Proof.
  unfold SFeqb. rewrite SFcompare_rank.
  destruct (is_nan x), (is_nan y); simpl; try (split; [done|by intros (? & ? & ?)]).
  pose proof (lex_spec (rank x) (rank y)) as Hs.
  destruct (lex (rank x) (rank y)); split; intros; try done; intuition done.
Qed.

Lemma lex_le_trans a b c : lex_le a b -> lex_le b c -> lex_le a c.
Proof. unfold lex_le. lia. Qed.

Lemma lex_le_total a b : lex_le a b \/ lex_le b a.
Proof. unfold lex_le. lia. Qed.

Lemma f64_leb_trans (a b c : float) :
  (a <=? b)%float = true -> (b <=? c)%float = true -> (a <=? c)%float = true.
Proof.
  rewrite !FloatAxioms.leb_spec, !SFleb_rank. intros (? & ? & ?) (? & ? & ?).
  split_and!; try done. by eapply lex_le_trans.
Qed.


(** ** Non-negative floats *)

Lemma nonneg_binary64 (a : float) : nonneg a <-> SF.nonnegative (Prim2SF a) = true.
Proof.
  unfold nonneg. simpl.
  change (F64.of_int 0) with 0%float.
  rewrite FloatAxioms.leb_spec. change (Prim2SF 0) with (S754_zero false).
  by destruct (Prim2SF a) as [s|[|]| |[|] m e].
Qed.

Lemma nonnegative_not_nan (f : spec_float) : SF.nonnegative f = true -> is_nan f = false.
Proof. by destruct f. Qed.

Lemma f64_leb_refl (a : float) : nonneg a -> (a <=? a)%float = true.
Proof.
  rewrite nonneg_binary64, FloatAxioms.leb_spec, SFleb_rank. intros Ha.
  apply nonnegative_not_nan in Ha. split_and!; try done. unfold lex_le. lia.
Qed.

Lemma f64_leb_total (a b : float) :
  nonneg a -> nonneg b -> (a <=? b)%float = true \/ (b <=? a)%float = true.
Proof.
  rewrite !nonneg_binary64, !FloatAxioms.leb_spec, !SFleb_rank. intros Ha Hb.
  apply nonnegative_not_nan in Ha, Hb.
  destruct (lex_le_total (rank (Prim2SF a)) (rank (Prim2SF b))); [left|right]; done.
Qed.

Lemma f64_ltb_leb (a b : float) :
  nonneg a -> nonneg b -> (a <? b)%float = negb (b <=? a)%float.
Proof.
  rewrite !nonneg_binary64. intros Ha Hb. apply nonnegative_not_nan in Ha, Hb.
  apply eq_true_iff_eq. rewrite negb_true_iff, <- not_true_iff_false.
  rewrite FloatAxioms.ltb_spec, FloatAxioms.leb_spec, SFltb_rank, SFleb_rank.
  tauto.
Qed.

Lemma f64_eqb_leb (a b : float) :
  nonneg a -> nonneg b ->
  (a =? b)%float = (a <=? b)%float && (b <=? a)%float.
Proof.
  rewrite !nonneg_binary64. intros Ha Hb. apply nonnegative_not_nan in Ha, Hb.
  apply eq_true_iff_eq. rewrite andb_true_iff.
  rewrite FloatAxioms.eqb_spec, !FloatAxioms.leb_spec, SFeqb_rank, !SFleb_rank.
  tauto.
Qed.

(** ** Rounding keeps the sign *)

Lemma iter_pos_inv {A : Type} (f : A -> A) (J : A -> Prop) :
  (forall x, J x -> J (f x)) -> forall n x, J x -> J (SpecFloat.iter_pos f n x).
Proof.
  intros Hf. induction n as [n IH|n IH|]; intros x Hx; simpl; auto.
Qed.

Lemma shr_1_nonneg (mrs : shr_record) : 0 <= shr_m mrs -> 0 <= shr_m (shr_1 mrs).
Proof.
  destruct mrs as [m r s]. simpl. destruct m as [|[p|p|]|p]; simpl; lia.
Qed.

Lemma shr_nonneg (mrs : shr_record) (e n : Z) :
  0 <= shr_m mrs -> 0 <= shr_m (fst (shr mrs e n)).
Proof.
  intros Hm. unfold shr. destruct n as [|p|p]; simpl; try done.
  by apply (iter_pos_inv shr_1 (fun r => 0 <= shr_m r)); [apply shr_1_nonneg|].
Qed.

Lemma shr_m_of_loc (m : Z) (l : location) : shr_m (shr_record_of_loc m l) = m.
Proof. by destruct l as [|[| |]]. Qed.

Lemma shr_fexp_nonneg (m e : Z) (l : location) :
  0 <= m -> 0 <= shr_m (fst (shr_fexp prec emax m e l)).
Proof.
  intros Hm. unfold shr_fexp. apply shr_nonneg. by rewrite shr_m_of_loc.
Qed.

Lemma round_nearest_even_bounds (m : Z) (l : location) :
  m <= round_nearest_even m l <= m + 1.
Proof.
  unfold round_nearest_even. destruct l as [|[| |]]; try lia.
  destruct (Z.even m); lia.
Qed.

Lemma binary_round_aux_nonneg (mx ex : Z) (lx : location) :
  0 <= mx -> SF.nonnegative (binary_round_aux prec emax false mx ex lx) = true.
Proof.
  intros Hm. unfold binary_round_aux.
  pose proof (shr_fexp_nonneg mx ex lx Hm) as H1.
  destruct (shr_fexp prec emax mx ex lx) as [mrs1 e1]. simpl in H1.
  pose proof (round_nearest_even_bounds (shr_m mrs1) (loc_of_shr_record mrs1)) as Hr.
  pose proof (shr_fexp_nonneg (round_nearest_even (shr_m mrs1) (loc_of_shr_record mrs1))
                e1 loc_Exact ltac:(lia)) as H2.
  destruct (shr_fexp prec emax _ e1 loc_Exact) as [mrs2 e2]. simpl in H2.
  destruct (shr_m mrs2) as [|m|m]; try done.
  by destruct (e2 <=? emax - prec).
Qed.

Lemma binary_round_nonneg (p : positive) (e : Z) :
  SF.nonnegative (binary_round prec emax false p e) = true.
Proof.
  unfold binary_round.
  destruct (shl_align p e _) as [mz ez]. by apply binary_round_aux_nonneg.
Qed.

Lemma binary_normalize_nonneg (m e : Z) :
  0 <= m -> SF.nonnegative (binary_normalize prec emax m e false) = true.
Proof.
  intros Hm. destruct m as [|p|p]; simpl; [done| |lia].
  apply binary_round_nonneg.
Qed.

Lemma f64_of_int_nonneg (z : Z) : 0 <= z -> nonneg (F64.of_int z).
Proof.
  intros Hz. apply nonneg_binary64. unfold F64.of_int.
  destruct (Z.ltb_spec z 0); [lia|].
  rewrite FloatAxioms.of_uint63_spec. apply binary_normalize_nonneg.
  apply Uint63.to_Z_bounded.
Qed.

Lemma f64_add_nonneg (a b : float) : nonneg a -> nonneg b -> nonneg (a + b)%float.
Proof.
  rewrite !nonneg_binary64, FloatAxioms.add_spec. unfold SF64add.
  destruct (Prim2SF a) as [sa|[|]| |[|] ma ea]; try done;
    destruct (Prim2SF b) as [sb|[|]| |[|] mb eb]; try done; intros _ _.
  - by destruct sa, sb.
  - simpl. apply binary_round_nonneg.
Qed.

Lemma f64_sqrt_nonneg (a : float) : nonneg a -> nonneg (PrimFloat.sqrt a).
Proof.
  rewrite !nonneg_binary64, FloatAxioms.sqrt_spec. unfold SF64sqrt.
  destruct (Prim2SF a) as [sa|[|]| |[|] ma ea]; try done; intros _. simpl.
  unfold SFsqrt_core_binary.
  set (m' := match ea - 2 * _ with Z0 => _ | Zpos _ => _ | Zneg _ => _ end).
  pose proof (Z.sqrtrem_sqrt m') as Hs. pose proof (Z.sqrt_nonneg m') as Hn.
  destruct (Z.sqrtrem m') as [q r]. simpl in Hs. subst q.
  by apply binary_round_aux_nonneg.
Qed.

Lemma f64_hypot_nonneg (dx dy : Z) : nonneg (F64.hypot dx dy).
Proof. unfold F64.hypot. apply f64_sqrt_nonneg, f64_of_int_nonneg. nia. Qed.



(** ** Digits, shifts and the exponent function *)

(** Powers of two become opaque positive numbers before [lia] runs. *)
Ltac pow_lia :=
  repeat match goal with
  | |- context [2 ^ ?e] =>
      let a := fresh "pw" in
      let Ha := fresh "Hpw" in
      assert (Ha : 0 <= 2 ^ e) by (apply Z.pow_nonneg; lia);
      set (a := 2 ^ e) in *; clearbody a
  | H : context [2 ^ ?e] |- _ =>
      let a := fresh "pw" in
      let Ha := fresh "Hpw" in
      assert (Ha : 0 <= 2 ^ e) by (apply Z.pow_nonneg; lia);
      set (a := 2 ^ e) in *; clearbody a
  end; nia.

Lemma digits2_pos_bounds (p : positive) :
  2 ^ (Z.pos (digits2_pos p) - 1) <= Z.pos p < 2 ^ Z.pos (digits2_pos p).
Proof.
  induction p as [p IH|p IH|]; simpl digits2_pos; [| |simpl; lia].
  - rewrite Pos2Z.inj_succ. change (Z.pos p~1) with (2 * Z.pos p + 1).
    replace (Z.succ (Z.pos (digits2_pos p)) - 1) with (Z.succ (Z.pos (digits2_pos p) - 1)) by lia.
    rewrite !Z.pow_succ_r by lia. pow_lia.
  - rewrite Pos2Z.inj_succ. change (Z.pos p~0) with (2 * Z.pos p).
    replace (Z.succ (Z.pos (digits2_pos p)) - 1) with (Z.succ (Z.pos (digits2_pos p) - 1)) by lia.
    rewrite !Z.pow_succ_r by lia. pow_lia.
Qed.

Lemma Zdigits2_bounds (m : Z) :
  0 < m -> 0 < Zdigits2 m /\ 2 ^ (Zdigits2 m - 1) <= m < 2 ^ Zdigits2 m.
Proof.
  destruct m as [|p|p]; try lia. intros _. simpl.
  split; [lia|apply digits2_pos_bounds].
Qed.

Lemma Zdigits2_unique (m d : Z) :
  2 ^ (d - 1) <= m < 2 ^ d -> 0 < d -> Zdigits2 m = d.
Proof.
  intros Hm Hd.
  assert (Hpos : 0 < m) by (pose proof (Z.pow_pos_nonneg 2 (d - 1)); lia).
  destruct (Zdigits2_bounds m Hpos) as [Hd' Hm'].
  destruct (Z.lt_trichotomy (Zdigits2 m) d) as [Hlt|[E|Hgt]]; [|done|].
  - assert (2 ^ Zdigits2 m <= 2 ^ (d - 1)) by (apply Z.pow_le_mono_r; lia). lia.
  - assert (2 ^ d <= 2 ^ (Zdigits2 m - 1)) by (apply Z.pow_le_mono_r; lia). lia.
Qed.

Lemma Zdigits2_lower (m k : Z) : 0 <= k -> 2 ^ k <= m -> k + 1 <= Zdigits2 m.
Proof.
  intros Hk Hm.
  assert (Hpos : 0 < m) by (pose proof (Z.pow_pos_nonneg 2 k); lia).
  destruct (Zdigits2_bounds m Hpos) as [Hd' Hm'].
  destruct (Z.le_gt_cases (k + 1) (Zdigits2 m)) as [|Hlt]; [done|].
  assert (2 ^ Zdigits2 m <= 2 ^ k) by (apply Z.pow_le_mono_r; lia). lia.
Qed.

Lemma Zdigits2_upper (m k : Z) : 0 <= k -> 0 < m < 2 ^ k -> Zdigits2 m <= k.
Proof.
  intros Hk Hm.
  destruct (Zdigits2_bounds m ltac:(lia)) as [Hd' Hm'].
  destruct (Z.le_gt_cases (Zdigits2 m) k) as [|Hlt]; [done|].
  assert (2 ^ k <= 2 ^ (Zdigits2 m - 1)) by (apply Z.pow_le_mono_r; lia). lia.
Qed.

Lemma Zdigits2_mono (m m' : Z) : 0 < m <= m' -> Zdigits2 m <= Zdigits2 m'.
Proof.
  intros Hm.
  destruct (Zdigits2_bounds m ltac:(lia)) as [Hd [Hlo _]].
  pose proof (Zdigits2_lower m' (Zdigits2 m - 1) ltac:(lia) ltac:(lia)). lia.
Qed.

Lemma Zdigits2_shift (m k : Z) :
  0 < m -> 0 <= k -> Zdigits2 (m * 2 ^ k) = Zdigits2 m + k.
Proof.
  intros Hm Hk. destruct (Zdigits2_bounds m Hm) as [Hd [Hlo Hhi]].
  pose proof (Z.pow_pos_nonneg 2 k ltac:(lia) Hk) as Hp.
  apply Zdigits2_unique; [|lia].
  replace (Zdigits2 m + k - 1) with (Zdigits2 m - 1 + k) by lia.
  rewrite !Z.pow_add_r by lia. nia.
Qed.

Lemma Zdigits2_div (m k : Z) :
  0 < m -> 0 <= k < Zdigits2 m ->
  0 < m / 2 ^ k /\ Zdigits2 (m / 2 ^ k) = Zdigits2 m - k.
Proof.
  intros Hm Hk. destruct (Zdigits2_bounds m Hm) as [Hd [Hlo Hhi]].
  pose proof (Z.pow_pos_nonneg 2 k ltac:(lia) ltac:(lia)) as Hp.
  assert (E1 : 2 ^ (Zdigits2 m - 1) = 2 ^ (Zdigits2 m - k - 1) * 2 ^ k).
  { rewrite <- Z.pow_add_r by lia. f_equal. lia. }
  assert (E2 : 2 ^ Zdigits2 m = 2 ^ (Zdigits2 m - k) * 2 ^ k).
  { rewrite <- Z.pow_add_r by lia. f_equal. lia. }
  assert (Hq : 2 ^ (Zdigits2 m - k - 1) <= m / 2 ^ k < 2 ^ (Zdigits2 m - k)).
  { split.
    - apply Z.div_le_lower_bound; lia.
    - apply Z.div_lt_upper_bound; lia. }
  split.
  - pose proof (Z.pow_pos_nonneg 2 (Zdigits2 m - k - 1)). lia.
  - apply Zdigits2_unique; [|lia]. done.
Qed.

Lemma Zdigits2_succ (m : Z) : 0 < m -> Zdigits2 m <= Zdigits2 (m + 1) <= Zdigits2 m + 1.
Proof.
  intros Hm. destruct (Zdigits2_bounds m Hm) as [Hd [Hlo Hhi]]. split.
  - apply Zdigits2_mono. lia.
  - apply Zdigits2_upper; [lia|]. rewrite Z.pow_add_r by lia. lia.
Qed.

Lemma fexp_eq (e : Z) : fexp prec emax e = Z.max (e - 53) (-1074).
Proof. reflexivity. Qed.

(** ** Shifting right *)

Lemma shr_1_div (mrs : shr_record) :
  0 <= shr_m mrs -> shr_m (shr_1 mrs) = shr_m mrs / 2.
Proof.
  destruct mrs as [m r s]. simpl. intros Hm.
  rewrite <- Z.div2_div. destruct m as [|[p|p|]|p]; simpl; try done; lia.
Qed.

Lemma iter_shr_1_div (p : positive) (mrs : shr_record) :
  0 <= shr_m mrs ->
  shr_m (SpecFloat.iter_pos shr_1 p mrs) = shr_m mrs / 2 ^ Z.pos p.
Proof.
  revert mrs. induction p as [p IH|p IH|]; intros mrs Hm; simpl SpecFloat.iter_pos.
  - pose proof (shr_1_nonneg mrs Hm) as H1.
    pose proof (iter_pos_inv shr_1 (fun r => 0 <= shr_m r) shr_1_nonneg p _ H1) as H2.
    simpl in H2. rewrite IH, IH, shr_1_div by done.
    pose proof (Z.pow_pos_nonneg 2 (Z.pos p) ltac:(lia) ltac:(lia)) as Hp.
    rewrite !Z.div_div by lia. f_equal.
    change (Z.pos p~1) with (2 * Z.pos p + 1).
    replace (2 * Z.pos p + 1) with (1 + Z.pos p + Z.pos p) by lia.
    rewrite !Z.pow_add_r, Z.pow_1_r by lia. ring.
  - pose proof (iter_pos_inv shr_1 (fun r => 0 <= shr_m r) shr_1_nonneg p _ Hm) as H2.
    simpl in H2. rewrite IH, IH by done.
    pose proof (Z.pow_pos_nonneg 2 (Z.pos p) ltac:(lia) ltac:(lia)) as Hp.
    rewrite !Z.div_div by lia. f_equal.
    change (Z.pos p~0) with (2 * Z.pos p).
    replace (2 * Z.pos p) with (Z.pos p + Z.pos p) by lia.
    rewrite !Z.pow_add_r by lia. ring.
  - by rewrite shr_1_div.
Qed.

(** [shr] by [n] divides by [2 ^ n] and adds [n] to the exponent; a shift
    that is not positive does nothing. *)
Lemma shr_spec (mrs : shr_record) (e n : Z) :
  0 <= shr_m mrs ->
  shr_m (fst (shr mrs e n)) = shr_m mrs / 2 ^ Z.max n 0 /\
  snd (shr mrs e n) = e + Z.max n 0.
Proof.
  intros Hm. unfold shr. destruct n as [|p|p]; simpl fst; simpl snd.
  - rewrite Z.max_l by lia. rewrite Z.pow_0_r, Z.div_1_r. split; [done|lia].
  - rewrite Z.max_l by lia. by rewrite iter_shr_1_div.
  - rewrite Z.max_r by lia. rewrite Z.pow_0_r, Z.div_1_r. split; [done|lia].
Qed.

Lemma shr_fexp_spec (m e : Z) (l : location) :
  0 <= m ->
  shr_m (fst (shr_fexp prec emax m e l))
  = m / 2 ^ Z.max (fexp prec emax (Zdigits2 m + e) - e) 0 /\
  snd (shr_fexp prec emax m e l)
  = e + Z.max (fexp prec emax (Zdigits2 m + e) - e) 0.
Proof.
  intros Hm. unfold shr_fexp.
  pose proof (shr_spec (shr_record_of_loc m l) e
                (fexp prec emax (Zdigits2 m + e) - e)) as Hs.
  rewrite shr_m_of_loc in Hs. by apply Hs.
Qed.

(** The two shifts and the rounding of [binary_round_aux], for a positive
    mantissa. *)
Lemma binary_round_aux_spec (M e : Z) (l : location) :
  0 < M ->
  exists M2,
    let n := Z.max (fexp prec emax (Zdigits2 M + e) - e) 0 in
    let n2 := Z.max (fexp prec emax (Zdigits2 M2 + (e + n)) - (e + n)) 0 in
    M / 2 ^ n <= M2 <= M / 2 ^ n + 1 /\
    binary_round_aux prec emax false M e l
    = match M2 / 2 ^ n2 with
      | Z0 => S754_zero false
      | Zpos m => if e + n + n2 <=? emax - prec
                  then S754_finite false m (e + n + n2)
                  else S754_infinity false
      | Zneg _ => S754_nan
      end.
Proof.
  intros HM. unfold binary_round_aux.
  destruct (shr_fexp_spec M e l ltac:(lia)) as [E1 E2].
  destruct (shr_fexp prec emax M e l) as [mrs1 e1]. simpl in E1, E2.
  set (M2 := round_nearest_even (shr_m mrs1) (loc_of_shr_record mrs1)).
  pose proof (round_nearest_even_bounds (shr_m mrs1) (loc_of_shr_record mrs1)) as Hr.
  fold M2 in Hr. exists M2. cbv zeta.
  assert (Hq : 0 <= M / 2 ^ Z.max (fexp prec emax (Zdigits2 M + e) - e) 0).
  { apply Z.div_pos; [lia|]. apply Z.pow_pos_nonneg; lia. }
  rewrite <- E1, <- E2. split; [done|].
  destruct (shr_fexp_spec M2 e1 loc_Exact ltac:(lia)) as [E3 E4].
  destruct (shr_fexp prec emax M2 e1 loc_Exact) as [mrs2 e2]. simpl in E3, E4.
  by rewrite <- E3, <- E4.
Qed.


(** One shift of [binary_round_aux] on a positive mantissa whose exponent
    is not below [emin]: fewer digits are dropped than the mantissa has. *)
Lemma shift_stage (M e : Z) :
  0 < M -> -1074 <= e ->
  let n := Z.max (fexp prec emax (Zdigits2 M + e) - e) 0 in
  0 <= n /\ 0 < M / 2 ^ n /\ Zdigits2 (M / 2 ^ n) = Zdigits2 M - n /\
  -1074 <= e + n /\ fexp prec emax (Zdigits2 M + e) <= e + n.
Proof.
  intros HM He n.
  destruct (Zdigits2_bounds M HM) as [Hd _].
  assert (Hn : 0 <= n < Zdigits2 M) by (unfold n; rewrite fexp_eq; lia).
  destruct (Zdigits2_div M n HM Hn) as [H1 H2].
  split_and!; try done; try lia.
Qed.

(** What [binary_round_aux] returns for a positive mantissa: a positive
    finite float or infinity, with an exponent not below the one [fexp]
    asks for, a mantissa not below the shifted one, and the same magnitude
    up to the carry of the rounding. *)
Lemma binary_round_aux_pos (M e : Z) (l : location) :
  0 < M -> -1074 <= e ->
  exists (m3 : positive) (e2 : Z),
    binary_round_aux prec emax false M e l
    = (if e2 <=? emax - prec then S754_finite false m3 e2
       else S754_infinity false) /\
    e <= e2 /\ fexp prec emax (Zdigits2 M + e) <= e2 /\
    M / 2 ^ (e2 - e) <= Z.pos m3 /\
    Zdigits2 M + e <= Z.pos (digits2_pos m3) + e2 <= Zdigits2 M + e + 1.
Proof.
  intros HM He.
  destruct (binary_round_aux_spec M e l HM) as (M2 & HM2 & ->).
  cbv zeta in HM2.
  destruct (shift_stage M e HM He) as (Hn & H1 & Hd1 & He1 & Hf1).
  set (n := Z.max (fexp prec emax (Zdigits2 M + e) - e) 0) in *.
  set (M1 := M / 2 ^ n) in *.
  assert (HM2' : 0 < M2) by lia.
  destruct (shift_stage M2 (e + n) HM2' He1) as (Hn2 & H3 & Hd3 & He3 & Hf3).
  set (n2 := Z.max (fexp prec emax (Zdigits2 M2 + (e + n)) - (e + n)) 0) in *.
  assert (HdM2 : Zdigits2 M1 <= Zdigits2 M2 <= Zdigits2 M1 + 1).
  { destruct (Z.eq_dec M2 M1) as [->|]; [lia|].
    replace M2 with (M1 + 1) by lia. by apply Zdigits2_succ. }
  destruct (M2 / 2 ^ n2) as [|m3|m3] eqn:E3; try lia.
  exists m3, (e + n + n2). split; [done|].
  split; [lia|]. split; [lia|]. split.
  - rewrite <- E3. replace (e + n + n2 - e) with (n + n2) by lia.
    rewrite Z.pow_add_r by lia.
    rewrite <- Z.div_div by (try apply Z.pow_pos_nonneg; try apply Z.pow_nonzero; lia).
    apply Z.div_le_mono; [apply Z.pow_pos_nonneg; lia|]. fold M1. lia.
  - change (Z.pos (digits2_pos m3)) with (Zdigits2 (Z.pos m3)).
    rewrite <- E3 in *. lia.
Qed.


(** ** Aligning to a smaller exponent *)

Lemma iter_xO_pow (m d : positive) :
  Z.pos (Pos.iter xO m d) = Z.pos m * 2 ^ Z.pos d.
Proof.
  induction d as [|d IH] using Pos.peano_ind.
  - simpl. lia.
  - rewrite Pos.iter_succ, Pos2Z.inj_succ, Z.pow_succ_r by lia.
    change (Z.pos (Pos.iter xO m d)~0) with (2 * Z.pos (Pos.iter xO m d)).
    rewrite IH. ring.
Qed.

Lemma shl_align_spec (m : positive) (e e' : Z) :
  snd (shl_align m e e') = Z.min e e' /\
  Z.pos (fst (shl_align m e e')) = Z.pos m * 2 ^ (e - Z.min e e').
Proof.
  unfold shl_align. destruct (e' - e) as [|d|d] eqn:E; simpl fst; simpl snd.
  - rewrite Z.min_l by lia. rewrite Z.sub_diag. simpl. lia.
  - rewrite Z.min_l by lia. rewrite Z.sub_diag. simpl. lia.
  - rewrite Z.min_r by lia. rewrite iter_xO_pow.
    split; [done|]. do 2 f_equal. lia.
Qed.

Lemma bounded_canonical (m : positive) (e : Z) :
  bounded prec emax m e = true ->
  fexp prec emax (Zdigits2 (Z.pos m) + e) = e /\ -1074 <= e.
Proof.
  unfold bounded, canonical_mantissa. intros Hb.
  apply andb_true_iff in Hb as [Hc _]. apply Z.eqb_eq in Hc.
  simpl Zdigits2. split; [done|]. rewrite fexp_eq in Hc. lia.
Qed.

(** ** Addition does not go below its first argument *)

Lemma SFadd_finite_le (mx : positive) (ex : Z) (my : positive) (ey : Z) :
  bounded prec emax mx ex = true -> bounded prec emax my ey = true ->
  SFleb (S754_finite false mx ex)
        (SFadd prec emax (S754_finite false mx ex) (S754_finite false my ey))
  = true.
Proof.
  intros Hx Hy.
  destruct (bounded_canonical mx ex Hx) as [Hcx Hex].
  destruct (bounded_canonical my ey Hy) as [Hcy Hey].
  unfold SFadd. cbv zeta. unfold cond_Zopp.
  set (ez := Z.min ex ey).
  assert (Hez : ez <= ex /\ ez <= ey /\ -1074 <= ez) by (unfold ez; lia).
  clearbody ez.
  destruct (shl_align_spec mx ex ez) as [_ HMx].
  destruct (shl_align_spec my ey ez) as [_ HMy].
  set (Mx := fst (shl_align mx ex ez)) in *.
  set (My := fst (shl_align my ey ez)) in *.
  rewrite Z.min_r in HMx by lia.
  change (Z.pos Mx + Z.pos My) with (Z.pos (Mx + My)).
  unfold binary_normalize, binary_round.
  set (M := (Mx + My)%positive).
  assert (Hpw : 0 < 2 ^ (ex - ez)) by (apply Z.pow_pos_nonneg; lia).
  assert (HdMx : Zdigits2 (Z.pos Mx) = Zdigits2 (Z.pos mx) + (ex - ez)).
  { rewrite HMx. apply Zdigits2_shift; lia. }
  assert (HdM : Zdigits2 (Z.pos mx) + ex <= Zdigits2 (Z.pos M) + ez).
  { pose proof (Zdigits2_mono (Z.pos Mx) (Z.pos M) ltac:(unfold M; lia)). lia. }
  assert (HE : ex <= fexp prec emax (Zdigits2 (Z.pos M) + ez)).
  { rewrite <- Hcx at 1. rewrite !fexp_eq. lia. }
  destruct (shl_align_spec M ez (fexp prec emax (Z.pos (digits2_pos M) + ez)))
    as [Hs1 Hs2].
  change (Z.pos (digits2_pos M)) with (Zdigits2 (Z.pos M)) in *.
  destruct (shl_align M ez _) as [mz ez']. cbn [fst snd] in Hs1, Hs2.
  rewrite Z.min_l in Hs1, Hs2 by lia.
  rewrite Z.sub_diag, Z.pow_0_r, Z.mul_1_r in Hs2.
  injection Hs2 as ->. subst ez'.
  destruct (binary_round_aux_pos (Z.pos M) ez loc_Exact ltac:(lia) ltac:(lia))
    as (m3 & e2 & -> & He2 & Hf2 & Hm3 & _).
  destruct (e2 <=? emax - prec); [|done].
  apply SFleb_rank. split_and!; try done. unfold lex_le. simpl.
  right. split; [done|].
  destruct (Z.eq_dec ex e2) as [<-|Hne]; [right; split; [done|]|left; lia].
  assert (Z.pos mx <= Z.pos M / 2 ^ (ex - ez)); [|lia].
  apply Z.div_le_lower_bound; [done|]. unfold M. rewrite Pos2Z.inj_add, HMx. lia.
Qed.

Lemma f64_add_le (a b : float) : nonneg a -> nonneg b -> (a <=? a + b)%float = true.
Proof.
  rewrite !nonneg_binary64, FloatAxioms.leb_spec, FloatAxioms.add_spec.
  pose proof (Prim2SF_valid a) as Va. pose proof (Prim2SF_valid b) as Vb.
  unfold SF64add.
  destruct (Prim2SF a) as [sa|[|]| |[|] ma ea]; try done;
    destruct (Prim2SF b) as [sb|[|]| |[|] mb eb]; try done; intros _ _.
  - by destruct sa, sb.
  - simpl. apply SFleb_rank. split_and!; try done. unfold lex_le. simpl. lia.
  - by apply SFadd_finite_le.
Qed.


(** ** Floats that are at least one *)

Lemma binary_round_aux_at_least_one (M e hi : Z) (l : location) :
  0 < M -> -52 <= e -> 1 <= Zdigits2 M + e <= hi -> hi < 971 ->
  at_least_one (hi + 1) (binary_round_aux prec emax false M e l).
Proof.
  intros HM He Hd Hhi.
  destruct (binary_round_aux_pos M e l HM ltac:(lia))
    as (m3 & e2 & -> & He2 & _ & _ & Hd3).
  assert (0 < Z.pos (digits2_pos m3)) by lia.
  destruct (Z.leb_spec e2 (emax - prec)) as [_|Hgt].
  - exists m3, e2. split; [done|]. lia.
  - unfold emax, prec in Hgt. lia.
Qed.

Lemma of_uint63_at_least_one (n : Z) :
  0 < n < 2 ^ 63 ->
  at_least_one 64 (Prim2SF (PrimFloat.of_uint63 (Uint63.of_Z n))).
Proof.
  intros Hn. rewrite FloatAxioms.of_uint63_spec, Uint63.of_Z_spec.
  rewrite Z.mod_small by (change wB with (2 ^ 63); lia).
  destruct n as [|p|p]; try lia. unfold binary_normalize, binary_round.
  pose proof (Zdigits2_bounds (Z.pos p) ltac:(lia)) as [Hd _].
  pose proof (Zdigits2_upper (Z.pos p) 63 ltac:(lia) Hn) as Hd63.
  destruct (shl_align_spec p 0 (fexp prec emax (Z.pos (digits2_pos p) + 0)))
    as [Hs1 Hs2].
  change (Z.pos (digits2_pos p)) with (Zdigits2 (Z.pos p)) in *.
  destruct (shl_align p 0 _) as [mz ez]. cbn [fst snd] in Hs1, Hs2.
  rewrite fexp_eq in Hs1, Hs2.
  assert (Hez : -52 <= ez <= 0) by lia.
  assert (Hdz : Zdigits2 (Z.pos mz) = Zdigits2 (Z.pos p) + (0 - ez)).
  { rewrite Hs2, <- Hs1. apply Zdigits2_shift; lia. }
  apply (binary_round_aux_at_least_one _ _ 63); lia.
Qed.

Lemma SFsqrt_at_least_one (f : spec_float) :
  at_least_one 64 f -> at_least_one 118 (SFsqrt prec emax f).
Proof.
  intros (m & e & -> & Hd & He). unfold SFsqrt, SFsqrt_core_binary.
  change (Z.pos (digits2_pos m)) with (Zdigits2 (Z.pos m)) in Hd.
  set (d := Zdigits2 (Z.pos m)) in *.
  assert (Ed : d = Zdigits2 (Z.pos m)) by done. clearbody d.
  set (e' := Z.min (fexp prec emax (Z.div2 (d + e + 1))) (Z.div2 e)).
  assert (He' : -52 <= e' /\ 2 * e' <= e).
  { unfold e'. rewrite fexp_eq, !Z.div2_div.
    Z.to_euclidean_division_equations. lia. }
  clearbody e'.
  set (s := e - 2 * e').
  assert (Hs : 0 <= s) by (unfold s; lia).
  set (m' := match s with Z0 => Z.pos m | Zpos _ => Z.shiftl (Z.pos m) s | Zneg _ => 0 end).
  assert (Hm' : m' = Z.pos m * 2 ^ s).
  { unfold m'. destruct s as [|p|p] eqn:Es; [simpl; lia| |lia].
    by rewrite Z.shiftl_mul_pow2. }
  clearbody m'.
  assert (Hdm' : Zdigits2 m' = d + s).
  { rewrite Hm', Ed. by apply Zdigits2_shift. }
  assert (Hm'pos : 0 < m').
  { rewrite Hm'. pose proof (Z.pow_pos_nonneg 2 s). lia. }
  pose proof (Z.sqrtrem_sqrt m') as Hq.
  destruct (Z.sqrtrem m') as [q r]. simpl in Hq. subst q.
  destruct (Zdigits2_bounds m' Hm'pos) as [_ [Hlo _]].
  assert (Hq1 : 1 <= Z.sqrt m').
  { change 1 with (Z.sqrt 1). apply Z.sqrt_le_mono. lia. }
  assert (Hqlo : 1 <= Zdigits2 (Z.sqrt m') + e').
  { destruct (Z.le_gt_cases 0 e') as [Hpos|Hneg].
    - pose proof (Zdigits2_bounds (Z.sqrt m') ltac:(lia)). lia.
    - pose proof (Zdigits2_lower (Z.sqrt m') (- e') ltac:(lia)) as Hl.
      assert (2 ^ (- e') <= Z.sqrt m'); [|lia].
      rewrite <- (Z.sqrt_square (2 ^ (- e'))) by (apply Z.pow_nonneg; lia).
      apply Z.sqrt_le_mono. rewrite <- Z.pow_add_r by lia.
      etransitivity; [|exact Hlo]. apply Z.pow_le_mono_r; lia. }
  assert (Hqhi : Zdigits2 (Z.sqrt m') <= d + s).
  { rewrite <- Hdm'. apply Zdigits2_mono. split; [lia|].
    apply Z.sqrt_le_lin. lia. }
  apply (binary_round_aux_at_least_one _ _ 117); unfold s in *; lia.
Qed.

(** The integer part of a float that is at least one. *)
Lemma to_int_at_least_one (hi : Z) (a : float) :
  at_least_one hi (Prim2SF a) -> 1 <= F64.to_int a.
Proof.
  intros (m & e & Ea & Hd & _). unfold F64.to_int. rewrite Ea.
  destruct (Z.leb_spec 0 e) as [He|He].
  - pose proof (Z.pow_pos_nonneg 2 e ltac:(lia) He). nia.
  - apply Z.div_le_lower_bound; [apply Z.pow_pos_nonneg; lia|].
    rewrite Z.mul_1_r.
    destruct (Zdigits2_bounds (Z.pos m) ltac:(lia)) as [_ [Hlo _]].
    etransitivity; [|exact Hlo]. apply Z.pow_le_mono_r; simpl Zdigits2; lia.
Qed.

Lemma f64_to_int_hypot (dx dy : Z) :
  Z.abs dx < 2 ^ 31 -> Z.abs dy < 2 ^ 31 ->
  0 <= F64.to_int (F64.hypot dx dy) /\
  (F64.to_int (F64.hypot dx dy) = 0 <-> dx = 0 /\ dy = 0).
Proof.
  intros Hx Hy. unfold F64.hypot.
  set (n := dx * dx + dy * dy).
  assert (Hn : 0 <= n < 2 ^ 63).
  { unfold n. change (2 ^ 63) with (2 * (2 ^ 31 * 2 ^ 31)).
    assert (0 <= dx * dx < 2 ^ 31 * 2 ^ 31) by nia.
    assert (0 <= dy * dy < 2 ^ 31 * 2 ^ 31) by nia. lia. }
  destruct (Z.eq_dec n 0) as [E|Hne].
  - rewrite E. split; [by vm_compute|]. split; [|done]. intros _. unfold n in E. nia.
  - assert (H1 : 1 <= F64.to_int (PrimFloat.sqrt (F64.of_int n))).
    { apply (to_int_at_least_one 118). rewrite FloatAxioms.sqrt_spec.
      apply SFsqrt_at_least_one. unfold F64.of_int.
      destruct (Z.ltb_spec n 0); [lia|]. apply of_uint63_at_least_one. lia. }
    split; [lia|]. split; [lia|]. intros [-> ->]. done.
Qed.


(** ** The instances *)

#[global] Instance order_laws : OrderLaws float.
Proof.
  split.
  - exact f64_leb_trans.
  - exact f64_leb_refl.
  - exact f64_leb_total.
  - exact f64_ltb_leb.
  - exact f64_eqb_leb.
  - exact f64_of_int_nonneg.
  - exact f64_add_nonneg.
  - exact f64_add_le.
  - exact f64_hypot_nonneg.
Qed.

#[global] Instance distance_law : DistanceLaw float.
Proof. split. exact f64_to_int_hypot. Qed.

End F64Facts.

(** * The planner over binary64 *)

Section Binary64.

Variable P : Params float.

(** C10.  In the backward search of a fresh goal, after the goal node has
    been inserted with cost 0, any number of [processState] calls leaves the
    cost of the goal node equal to 0 and its predecessor index equal to the
    sentinel -1.  Costs are binary64 values; [INF] is not negative and no
    cell has index -1. *)
Theorem goal_cost_and_predecessor_fixed (s s' : DStar float) costs goal (n : nat) :
  0 <= INF P -> index_not_sentinel P ->
  valid (reset P (update_costmap P costs s)) goal ->
  processState_n P n (search_start P s costs goal) = Ok s' ->
  DNode.cost (deref s' goal) = 0%float /\ DNode.pid (deref s' goal) = -1.
Proof.
  intros HI Hidx Hv Hrun.
  destruct (search_start_ok P s costs goal Hv) as (_ & Hp & _).
  pose proof (search_start_goal_inv P s costs goal HI Hv) as Hinv.
  destruct (processState_n_goal_inv P goal n _ s' HI Hidx Hp Hinv Hrun)
    as [(_ & _ & _ & E1 & E2 & _) _].
  split; [exact E1|exact E2].
Qed.

(** C6 (amended).  In the backward search of a fresh goal, from the state
    in which the goal has been inserted with cost 0, the keys popped by any
    number of successive [processState] calls never decrease.  Keys are
    binary64 values; [INF] is not negative, and the conversions between
    cells and indices are inverse on the grid and never give -1. *)
Theorem fresh_search_pops_nondecreasing (s : DStar float) costs goal (n : nat) :
  0 <= INF P -> index_roundtrip P -> index_not_sentinel P ->
  valid (reset P (update_costmap P costs s)) goal ->
  nondecreasing (popped_keys P n (search_start P s costs goal)).
Proof.
  intros HI Hrt Hns Hv.
  pose proof (search_start_inv P s costs goal HI Hns Hv) as Hinv.
  by destruct (popped_keys_sorted P (d_of_int 0) n _ HI Hrt Hns Hinv).
Qed.

(** C9 (amended).  Two planners put through the same sequence of calls
    return the same results, call by call, whatever the content of the cost
    maps they were constructed over; and two such runs that return agree
    also when the bounds on their loops differ.  When a fresh-goal call
    from a start other than the goal returns, the same call repeated on the
    state it left, any number of times, returns the same flag, path and
    expansion set each time.  The last part is for conversions between
    cells and indices that are inverse on the grid, and grid dimensions
    that are values of an [int]. *)
Theorem plan_deterministic_and_repeatable :
  (forall fuel (costmap_a costmap_b : list Z) (calls : list call),
     run P fuel (DStar_new P costmap_a) calls
     = run P fuel (DStar_new P costmap_b) calls) /\
  (forall fuel_a fuel_b (costmap_a costmap_b : list Z) (calls : list call)
          rs_a rs_b,
     run P fuel_a (DStar_new P costmap_a) calls = map Ok rs_a ->
     run P fuel_b (DStar_new P costmap_b) calls = map Ok rs_b ->
     rs_a = rs_b) /\
  (index_roundtrip P -> int_sized P ->
   forall fuel (s s1 : DStar float) costs start goal r (k : nat),
     fresh_goal s goal = true ->
     start <> goal ->
     plan P fuel s costs start goal = Ok (r, s1) ->
     run P fuel s1 (repeat (costs, start, goal) k) = repeat (Ok r) k).
Proof.
  split; [intros fuel c1 c2 calls; apply run_from_new|].
  split; [intros fa fb ca cb calls rsa rsb; apply run_agrees|].
  intros Hrt Hsz fuel s s1 costs start goal r k Hf Hne Hpl.
  apply run_repeat.
  by apply (plan_again_after_fresh P fuel s).
Qed.

End Binary64.

(** * The planner on concrete grids *)

Module DetourFacts.
Import Scenario Detour.

Lemma detour_first_call : plan P53 10 planner53 detour0 (2, 0) (0, 0) = Ok (r1, after1).
Proof. vm_compute. reflexivity. Qed.

Lemma detour_first_path : map coords (path r1) = [(1, 1); (2, 0)].
Proof. vm_compute. reflexivity. Qed.

End DetourFacts.

(** C2, as stated.  On the 5 x 3 grid [detour0] the fresh-goal call from
    (2,0) to (0,0) returns the path [(1,1); (2,0)]: its first element is
    the cell next to the goal and its last element is the start, so the
    path does not run from start to goal. *)
Lemma plan_path_does_not_start_at_start :
  ~ path_runs_start_to_goal Scenario.P53.
Proof.
  intros Hclaim.
  destruct (Hclaim 10%nat Scenario.planner53 Scenario.detour0 (2, 0) (0, 0)
              Detour.r1 Detour.after1 eq_refl DetourFacts.detour_first_call) as [Hhd _].
  rewrite DetourFacts.detour_first_path in Hhd. discriminate Hhd.
Qed.

Lemma plan_fresh_path_ends_at_start_witness :
  fresh_goal Scenario.planner53 (0, 0) = true /\
  plan Scenario.P53 10 Scenario.planner53 Scenario.detour0 (2, 0) (0, 0)
    = Ok (Detour.r1, Detour.after1) /\
  found Detour.r1 = true /\
  Forall (fun n => coords n <> (0, 0)) (path Detour.r1) /\
  ((2, 0) = (0, 0) -> path Detour.r1 = []) /\
  ((2, 0) <> (0, 0) ->
     exists n_first n_last,
       head (path Detour.r1) = Some n_first /\
       index2Grid Scenario.P53 (Node.pid n_first) = (0, 0) /\
       last (path Detour.r1) = Some n_last /\
       coords n_last = (2, 0)).
Proof.
  split; [reflexivity|]. split; [vm_compute; reflexivity|].
  apply (plan_fresh_path_ends_at_start Scenario.P53 10 Scenario.planner53
           Detour.after1 Scenario.detour0 (2, 0) (0, 0) Detour.r1).
  - reflexivity.
  - vm_compute. reflexivity.
Defined.

Lemma raise_step_adopts_cheaper_parent_witness :
  open_list_ Detour.m1 = (Detour.front Detour.m1, (2, 0)) :: Detour.m1_rest /\
  valid Detour.m1 (2, 0) /\
  (DNode.x (deref Detour.m1 (2, 0)), DNode.y (deref Detour.m1 (2, 0))) = (2, 0) /\
  getNeighbours Scenario.P53 (popped (2, 0) Detour.m1_rest Detour.m1) (2, 0)
    = Ok Detour.m1_nbrs /\
  processState Scenario.P53 Detour.m1 = Ok (front_key Detour.m2, Detour.m2) /\
  (DNode.cost (deref Detour.m2 (2, 0)), DNode.pid (deref Detour.m2 (2, 0)))
    = ((F64.hypot 1 1 + F64.hypot 1 1)%float, 6).
Proof.
  assert (H1 : open_list_ Detour.m1
               = (Detour.front Detour.m1, (2, 0)) :: Detour.m1_rest)
    by (vm_compute; reflexivity).
  assert (H2 : valid Detour.m1 (2, 0)) by (vm_compute; eauto).
  assert (H3 : (DNode.x (deref Detour.m1 (2, 0)), DNode.y (deref Detour.m1 (2, 0)))
               = (2, 0)) by (vm_compute; reflexivity).
  assert (H4 : getNeighbours Scenario.P53
                 (popped (2, 0) Detour.m1_rest Detour.m1) (2, 0)
               = Ok Detour.m1_nbrs) by (vm_compute; reflexivity).
  repeat (split; [assumption|]).
  pose proof (raise_step_adopts_cheaper_parent Scenario.P53 Detour.m1
                (Detour.front Detour.m1) (2, 0) Detour.m1_rest Detour.m1_nbrs
                H1 H2 H3 H4) as (Hps & _).
  split.
  - rewrite Hps. vm_compute. reflexivity.
  - vm_compute. reflexivity.
Defined.

(** ** The lookahead is a parameter

    The scenarios below are run with every lookahead [SIM_DISTANCE >= 1]:
    what a call does is computed up to the iteration of the walk that
    repairs a link, and from there the links to the goal are free of
    collision, so that the rest of the walk, however long, changes
    nothing. *)

Module TurnFacts.
Import Scenario Turn.

Lemma turn_first (n : nat) :
  plan (P n) 10 planner44 turn0 (2, 1) (0, 1) = Ok (r1, after1).
Proof. vm_compute. reflexivity. Qed.

Lemma turn_second_walk (n : nat) :
  walk P44 10 (S n) (update_costmap P44 turn1 after1) (2, 1) = Ok mid2.
Proof.
  rewrite walk_collision;
    [|vm_compute; reflexivity|vm_compute; eauto|vm_compute; reflexivity].
  replace (index2Grid P44 (DNode.pid (deref (update_costmap P44 turn1 after1) (2, 1))))
    with ((1, 1) : Z * Z) by (vm_compute; reflexivity).
  replace (modify P44 10 (update_costmap P44 turn1 after1) (2, 1) (1, 1))
    with (Ok mid2) by (vm_compute; reflexivity).
  rewrite bind_Ok.
  apply (walk_reaches_goal P44 3). vm_compute. reflexivity.
Qed.

Lemma turn_second (n : nat) :
  plan (P (S n)) 10 after1 turn1 (2, 1) (0, 1) = Ok (r2, after2).
Proof.
  unfold P.
  rewrite (plan_same_lookahead P44 (S n) 10 after1 turn1 (2, 1) (0, 1) (2, 1));
    [|vm_compute; reflexivity|vm_compute; reflexivity|vm_compute; eauto].
  rewrite turn_second_walk, bind_Ok. vm_compute. reflexivity.
Qed.

Lemma turn_third_walk (n : nat) :
  walk P44 10 (S n) (update_costmap P44 turn2 after2) (2, 1)
  = (s ← modify_loop P44 10 m0 (2, 1); walk P44 10 n s (2, 1)).
Proof.
  rewrite walk_collision;
    [|vm_compute; reflexivity|vm_compute; eauto|vm_compute; reflexivity].
  replace (index2Grid P44 (DNode.pid (deref (update_costmap P44 turn2 after2) (2, 1))))
    with ((1, 2) : Z * Z) by (vm_compute; reflexivity).
  rewrite modify_closed by (vm_compute; reflexivity). reflexivity.
Qed.

Lemma turn_third (n : nat) :
  plan (P (S n)) 10 after2 turn2 (2, 1) (0, 1) = Ok (r3, after3).
Proof.
  unfold P.
  rewrite (plan_same_lookahead P44 (S n) 10 after2 turn2 (2, 1) (0, 1) (2, 1));
    [|vm_compute; reflexivity|vm_compute; reflexivity|vm_compute; eauto].
  rewrite turn_third_walk.
  replace (modify_loop P44 10 m0 (2, 1)) with (Ok mid3) by (vm_compute; reflexivity).
  rewrite bind_Ok, (walk_reaches_goal P44 3 mid3 (2, 1)) by (vm_compute; reflexivity).
  rewrite bind_Ok. vm_compute. reflexivity.
Qed.

Lemma turn_keys :
  modify_keys P44 10 m0 (2, 1)
  = [ (F64.hypot 1 1 + F64.hypot 1 1)%float;
      ((F64.hypot 1 1 + F64.hypot 1 1) + F64.hypot 1 1)%float;
      F64.hypot 1 1 ].
Proof. vm_compute. reflexivity. Qed.

End TurnFacts.

(** C6, as stated.  Three calls of [plan] from (2,1) to (0,1) on the 4 x 4
    grid, with the cost maps [turn0], [turn1], [turn2].  Whatever the
    lookahead [SIM_DISTANCE >= 1], the three calls return, and the walk of
    the third finds the first link of the path, from (2,1) to (1,2), in
    collision and runs the loop of [modify] from the state [m0].  The keys
    this one loop pops are [2 sqrt 2], then [3 sqrt 2], then [sqrt 2]: the
    third is smaller than the second. *)
Lemma modify_loop_pops_smaller_key :
  modify_keys Scenario.P44 10 Turn.m0 (2, 1)
    = [ (F64.hypot 1 1 + F64.hypot 1 1)%float;
        ((F64.hypot 1 1 + F64.hypot 1 1) + F64.hypot 1 1)%float;
        F64.hypot 1 1 ] /\
  ~ nondecreasing (modify_keys Scenario.P44 10 Turn.m0 (2, 1)) /\
  (forall n : nat, (1 <= n)%nat ->
     plan (Turn.P n) 10 Scenario.planner44 Scenario.turn0 (2, 1) (0, 1)
       = Ok (Turn.r1, Turn.after1) /\
     plan (Turn.P n) 10 Turn.after1 Scenario.turn1 (2, 1) (0, 1)
       = Ok (Turn.r2, Turn.after2) /\
     plan (Turn.P n) 10 Turn.after2 Scenario.turn2 (2, 1) (0, 1)
       = Ok (Turn.r3, Turn.after3) /\
     walk (Turn.P n) 10 (SIM_DISTANCE (Turn.P n))
          (update_costmap (Turn.P n) Scenario.turn2 Turn.after2) (2, 1)
       = (s ← modify_loop Scenario.P44 10 Turn.m0 (2, 1);
          walk Scenario.P44 10 (Nat.pred n) s (2, 1)) /\
     modify_keys (Turn.P n) 10 Turn.m0 (2, 1)
       = modify_keys Scenario.P44 10 Turn.m0 (2, 1)).
Proof.
  split; [apply TurnFacts.turn_keys|]. split.
  - rewrite TurnFacts.turn_keys. unfold nondecreasing. intros Hs.
    apply Sorted_inv in Hs as [Hs _]. apply Sorted_inv in Hs as [_ Hhd].
    apply HdRel_inv in Hhd. vm_compute in Hhd. discriminate Hhd.
  - intros [|n] Hn; [lia|].
    split; [apply TurnFacts.turn_first|].
    split; [apply TurnFacts.turn_second|].
    split; [apply TurnFacts.turn_third|].
    split; [|apply modify_keys_lookahead].
    unfold Turn.P. rewrite walk_lookahead, update_costmap_lookahead.
    change (SIM_DISTANCE (lookahead (S n) Scenario.P44)) with (S n).
    apply TurnFacts.turn_third_walk.
Qed.

(** C4.  Second call of [plan] along the corridor of the 4 x 4 grid, after
    its middle cell (1,0) has become lethal: [modify((2,0), (1,0))]
    reinserts (2,0) and its loop calls [processState], which pops (2,0),
    finds no neighbour and leaves the open list empty.  The exhaustion is
    not detected: the loop compares the key read from the empty list with
    the cost of (2,0), and from the emptied list on [processState] returns
    -1, which is below that cost, so the loop never ends. *)
Theorem modify_does_not_detect_exhaustion :
  (forall fuel,
     modify Scenario.P44 fuel
       (update_costmap Scenario.P44 Scenario.corridor1 Corridor.after1)
       (2, 0) (1, 0)
     = modify_loop Scenario.P44 fuel Corridor.m0 (2, 0)) /\
  processState Scenario.P44 Corridor.m0 = Ok (Indeterminate, Corridor.m1) /\
  open_list_ Corridor.m1 = [] /\
  (forall fuel,
     plan Scenario.P44 (S fuel) Corridor.after1 Scenario.corridor1 (2, 0) (0, 0)
     = Fault IndeterminateRead) /\
  (forall fuel, modify_loop Scenario.P44 fuel Corridor.m1 (2, 0) = OutOfFuel).
Proof.
  assert (Hm : forall fuel,
     modify Scenario.P44 fuel
       (update_costmap Scenario.P44 Scenario.corridor1 Corridor.after1)
       (2, 0) (1, 0)
     = modify_loop Scenario.P44 fuel Corridor.m0 (2, 0)).
  { intros fuel. unfold Corridor.m0. cbv zeta.
    refine (modify_closed Scenario.P44 fuel _ (2, 0) (1, 0) _).
    vm_compute. reflexivity. }
  assert (Hps : processState Scenario.P44 Corridor.m0
                = Ok (Indeterminate, Corridor.m1)) by (vm_compute; reflexivity).
  split; [exact Hm|]. split; [exact Hps|].
  split; [vm_compute; reflexivity|]. split.
  - intros fuel.
    rewrite (plan_same Scenario.P44 (S fuel) Corridor.after1 Scenario.corridor1
               (2, 0) (0, 0) (2, 0));
      [|vm_compute; reflexivity|vm_compute; reflexivity|vm_compute; eauto].
    change (SIM_DISTANCE Scenario.P44) with 2%nat.
    rewrite walk_collision;
      [|vm_compute; reflexivity|vm_compute; eauto|vm_compute; reflexivity].
    replace (index2Grid Scenario.P44
               (DNode.pid (deref (update_costmap Scenario.P44 Scenario.corridor1
                                    Corridor.after1) (2, 0))))
      with ((1, 0) : Z * Z) by (vm_compute; reflexivity).
    rewrite Hm, (modify_loop_indeterminate Scenario.P44 fuel Corridor.m0 Corridor.m1 (2, 0) Hps).
    reflexivity.
  - apply modify_loop_stuck; vm_compute; reflexivity.
Qed.

Module ForkFacts.
Import Scenario Fork.

Lemma fork_first (n : nat) :
  plan (P n) 10 planner54 fork0 (0, 1) (3, 2) = Ok (r1, after1).
Proof. vm_compute. reflexivity. Qed.

Lemma fork_second_walk (n : nat) :
  walk P54 10 (S (S n)) (update_costmap P54 fork1 after1) (0, 1) = Ok mid2.
Proof.
  rewrite walk_step;
    [|vm_compute; reflexivity|vm_compute; eauto|vm_compute; reflexivity].
  replace (index2Grid P54 (DNode.pid (deref (update_costmap P54 fork1 after1) (0, 1))))
    with ((1, 1) : Z * Z) by (vm_compute; reflexivity).
  rewrite walk_collision;
    [|vm_compute; reflexivity|vm_compute; eauto|vm_compute; reflexivity].
  replace (index2Grid P54 (DNode.pid (deref (update_costmap P54 fork1 after1) (1, 1))))
    with ((2, 1) : Z * Z) by (vm_compute; reflexivity).
  replace (modify P54 10 (update_costmap P54 fork1 after1) (1, 1) (2, 1))
    with (Ok mid2) by (vm_compute; reflexivity).
  rewrite bind_Ok.
  apply (walk_reaches_goal P54 4). vm_compute. reflexivity.
Qed.

Lemma fork_second (n : nat) :
  plan (P (S (S n))) 10 after1 fork1 (0, 1) (3, 2) = Ok (r2, after2).
Proof.
  unfold P.
  rewrite (plan_same_lookahead P54 (S (S n)) 10 after1 fork1 (0, 1) (3, 2) (0, 1));
    [|vm_compute; reflexivity|vm_compute; reflexivity|vm_compute; eauto].
  rewrite fork_second_walk, bind_Ok. vm_compute. reflexivity.
Qed.

Lemma fork_third_walk (n : nat) :
  walk P54 10 (S (S n)) (update_costmap P54 fork1 after2) (0, 1) = Ok mid3.
Proof.
  rewrite walk_step;
    [|vm_compute; reflexivity|vm_compute; eauto|vm_compute; reflexivity].
  replace (index2Grid P54 (DNode.pid (deref (update_costmap P54 fork1 after2) (0, 1))))
    with ((1, 2) : Z * Z) by (vm_compute; reflexivity).
  rewrite walk_collision;
    [|vm_compute; reflexivity|vm_compute; eauto|vm_compute; reflexivity].
  replace (index2Grid P54 (DNode.pid (deref (update_costmap P54 fork1 after2) (1, 2))))
    with ((2, 1) : Z * Z) by (vm_compute; reflexivity).
  replace (modify P54 10 (update_costmap P54 fork1 after2) (1, 2) (2, 1))
    with (Ok mid3) by (vm_compute; reflexivity).
  rewrite bind_Ok.
  apply (walk_reaches_goal P54 6). vm_compute. reflexivity.
Qed.

Lemma fork_third (n : nat) :
  plan (P (S (S n))) 10 after2 fork1 (0, 1) (3, 2) = Ok (r3, after3).
Proof.
  unfold P.
  rewrite (plan_same_lookahead P54 (S (S n)) 10 after2 fork1 (0, 1) (3, 2) (0, 1));
    [|vm_compute; reflexivity|vm_compute; reflexivity|vm_compute; eauto].
  rewrite fork_third_walk, bind_Ok. vm_compute. reflexivity.
Qed.

Lemma fork_run (n : nat) :
  run (P (S (S n))) 10 planner54 calls = [Ok r1; Ok r2; Ok r3].
Proof.
  unfold calls.
  rewrite run_cons, fork_first, run_cons, fork_second, run_cons, fork_third.
  reflexivity.
Qed.

Lemma fork_paths :
  paths_of [Ok r1; Ok r2; Ok r3]
  = [ Some [(2, 1); (1, 1); (0, 1)]; Some [(2, 1); (1, 2); (0, 1)];
      Some [(3, 1); (2, 0); (1, 1); (0, 1)] ].
Proof. vm_compute. reflexivity. Qed.

End ForkFacts.

(** C9, as stated.  A call repeated with the same start and goal on an
    unmodified grid returns another path than the call before it, whatever
    the lookahead [SIM_DISTANCE >= 1].  With lookahead 1, from (0,0) to
    (0,2) on the 4 x 4 grid: the third and the fourth call are both made on
    [ledge2], and return [(0,1); (1,0); (0,0)] and [(1,1); (0,0)].  With
    any lookahead from 2 on, from (0,1) to (3,2) on the 5 x 4 grid: the
    second and the third call are both made on [fork1], and return
    [(2,1); (1,2); (0,1)] and [(3,1); (2,0); (1,1); (0,1)].  Each call walks
    at most [SIM_DISTANCE] links of the stored path, and the walk of the
    later call comes to a link in collision that the earlier one did not
    come to, or repaired only in part. *)
Lemma plan_repeated_on_same_grid_differs :
  paths_of (run (lookahead 1 Scenario.P44) 10 Scenario.planner44 Ledge.calls)
    = [ Some [(0, 1); (0, 0)]; Some [(0, 1); (1, 0); (0, 0)];
        Some [(0, 1); (1, 0); (0, 0)]; Some [(1, 1); (0, 0)] ] /\
  (forall n : nat, (2 <= n)%nat ->
     paths_of (run (Fork.P n) 10 Scenario.planner54 Fork.calls)
     = [ Some [(2, 1); (1, 1); (0, 1)]; Some [(2, 1); (1, 2); (0, 1)];
         Some [(3, 1); (2, 0); (1, 1); (0, 1)] ]).
Proof.
  split; [vm_compute; reflexivity|].
  intros [|[|n]] Hn; [lia|lia|].
  rewrite ForkFacts.fork_run. apply ForkFacts.fork_paths.
Qed.

(** ** Row-major indices *)

Lemma row_major_roundtrip (nx ny : Z) (n : nat) :
  index_roundtrip (lookahead n (F64.params nx ny)).
Proof.
  intros x y Hx Hy. simpl in *.
  assert (Hp : 0 <= nx * y) by nia.
  rewrite Z.rem_mod_nonneg, Z.quot_div_nonneg by lia.
  rewrite (Z.mul_comm nx y), Z.mod_add, Z.div_add by lia.
  rewrite Z.mod_small, Z.div_small by lia. f_equal.
Qed.

Lemma row_major_not_sentinel (nx ny : Z) (n : nat) :
  index_not_sentinel (lookahead n (F64.params nx ny)).
Proof. intros x y Hx Hy. simpl in *. nia. Qed.

Lemma detour_index_roundtrip : index_roundtrip Scenario.P53.
Proof. exact (row_major_roundtrip 5 3 2). Qed.

Lemma detour_index_not_sentinel : index_not_sentinel Scenario.P53.
Proof. exact (row_major_not_sentinel 5 3 2). Qed.

Lemma detour_int_sized : int_sized Scenario.P53.
Proof. split; vm_compute; discriminate. Qed.

Lemma detour_goal_valid :
  valid (reset Scenario.P53
           (update_costmap Scenario.P53 Scenario.detour0 Scenario.planner53))
        (0, 0).
Proof. vm_compute. eauto. Qed.

Lemma detour_three_steps :
  processState_n Scenario.P53 3
    (search_start Scenario.P53 Scenario.planner53 Scenario.detour0 (0, 0))
  = Ok DetourSearch.three_steps.
Proof. vm_compute. reflexivity. Qed.

(** ** Witnesses *)

Lemma insert_sets_key_cost_tag_witness :
  (* an OPEN node, given a cost below its key *)
  DNode.tag (deref DetourSearch.three_steps (2, 0)) = OPEN /\
  DNode.k (deref DetourSearch.three_steps (2, 0))
    = (F64.hypot 1 1 + F64.hypot 1 1)%float /\
  DNode.k (deref (insert (2, 0) 1%float DetourSearch.three_steps) (2, 0))
    = 1%float /\
  least_of
    (DNode.k (deref (insert (2, 0) 1%float DetourSearch.three_steps) (2, 0)))
    (DNode.k (deref DetourSearch.three_steps (2, 0))) 1%float /\
  (* a CLOSED node, given a cost above its cost *)
  DNode.tag (deref DetourSearch.three_steps (1, 1)) = CLOSED /\
  DNode.cost (deref DetourSearch.three_steps (1, 1)) = F64.hypot 1 1 /\
  DNode.k (deref (insert (1, 1) 2%float DetourSearch.three_steps) (1, 1))
    = F64.hypot 1 1 /\
  least_of
    (DNode.k (deref (insert (1, 1) 2%float DetourSearch.three_steps) (1, 1)))
    (DNode.cost (deref DetourSearch.three_steps (1, 1))) 2%float.
Proof.
  assert (Ht1 : DNode.tag (deref DetourSearch.three_steps (2, 0)) = OPEN)
    by (vm_compute; reflexivity).
  assert (Ht2 : DNode.tag (deref DetourSearch.three_steps (1, 1)) = CLOSED)
    by (vm_compute; reflexivity).
  pose proof (insert_sets_key_cost_tag DetourSearch.three_steps (2, 0) 1%float)
    as [H1 _].
  pose proof (insert_sets_key_cost_tag DetourSearch.three_steps (1, 1) 2%float)
    as [H2 _].
  cbv zeta in H1, H2. rewrite Ht1 in H1. rewrite Ht2 in H2.
  destruct H1 as [_ H1], H2 as [_ H2].
  split; [exact Ht1|]. split; [vm_compute; reflexivity|].
  split; [vm_compute; reflexivity|]. split.
  { apply H1; [exact F64Facts.order_laws|vm_compute; reflexivity..]. }
  split; [exact Ht2|]. split; [vm_compute; reflexivity|].
  split; [vm_compute; reflexivity|].
  apply H2; [exact F64Facts.order_laws|vm_compute; reflexivity..].
Defined.

Lemma plan_deterministic_and_repeatable_witness :
  run Scenario.P53 10 (DStar_new Scenario.P53 (repeat 0 15))
      [(Scenario.detour0, (2, 0), (0, 0)); (Scenario.detour1, (2, 0), (0, 0))]
  = run Scenario.P53 10 (DStar_new Scenario.P53 [])
      [(Scenario.detour0, (2, 0), (0, 0)); (Scenario.detour1, (2, 0), (0, 0))] /\
  run Scenario.P53 10 (DStar_new Scenario.P53 (repeat 0 15))
      [(Scenario.detour0, (2, 0), (0, 0))] = map Ok [Detour.r1] /\
  run Scenario.P53 12 (DStar_new Scenario.P53 [])
      [(Scenario.detour0, (2, 0), (0, 0))]
  = map Ok [Call.result_of
              (plan Scenario.P53 12 (DStar_new Scenario.P53 [])
                    Scenario.detour0 (2, 0) (0, 0))] /\
  [Detour.r1]
  = [Call.result_of
       (plan Scenario.P53 12 (DStar_new Scenario.P53 [])
             Scenario.detour0 (2, 0) (0, 0))] /\
  index_roundtrip Scenario.P53 /\
  int_sized Scenario.P53 /\
  fresh_goal Scenario.planner53 (0, 0) = true /\
  (2, 0) <> ((0, 0) : Z * Z) /\
  plan Scenario.P53 10 Scenario.planner53 Scenario.detour0 (2, 0) (0, 0)
    = Ok (Detour.r1, Detour.after1) /\
  run Scenario.P53 10 Detour.after1
      (repeat (Scenario.detour0, (2, 0), (0, 0)) 3)
  = repeat (Ok Detour.r1) 3.
Proof.
  destruct (plan_deterministic_and_repeatable Scenario.P53)
    as (Hsame & Hagree & Hrep).
  assert (Ha : run Scenario.P53 10 (DStar_new Scenario.P53 (repeat 0 15))
                 [(Scenario.detour0, (2, 0), (0, 0))] = map Ok [Detour.r1])
    by (vm_compute; reflexivity).
  assert (Hb : run Scenario.P53 12 (DStar_new Scenario.P53 [])
                 [(Scenario.detour0, (2, 0), (0, 0))]
               = map Ok [Call.result_of
                           (plan Scenario.P53 12 (DStar_new Scenario.P53 [])
                                 Scenario.detour0 (2, 0) (0, 0))])
    by (vm_compute; reflexivity).
  assert (H1 : fresh_goal Scenario.planner53 (0, 0) = true) by reflexivity.
  assert (H2 : (2, 0) <> ((0, 0) : Z * Z)) by discriminate.
  split; [apply Hsame|]. split; [exact Ha|]. split; [exact Hb|].
  split; [exact (Hagree _ _ _ _ _ _ _ Ha Hb)|].
  split; [exact detour_index_roundtrip|]. split; [exact detour_int_sized|].
  split; [exact H1|]. split; [exact H2|].
  split; [exact DetourFacts.detour_first_call|].
  exact (Hrep detour_index_roundtrip detour_int_sized 10%nat Scenario.planner53
           Detour.after1 Scenario.detour0 (2, 0) (0, 0) Detour.r1 3%nat H1 H2
           DetourFacts.detour_first_call).
Defined.

Lemma goal_cost_and_predecessor_fixed_witness :
  0 <= INF Scenario.P53 /\
  index_not_sentinel Scenario.P53 /\
  valid (reset Scenario.P53
           (update_costmap Scenario.P53 Scenario.detour0 Scenario.planner53))
        (0, 0) /\
  processState_n Scenario.P53 3
    (search_start Scenario.P53 Scenario.planner53 Scenario.detour0 (0, 0))
    = Ok DetourSearch.three_steps /\
  DNode.cost (deref DetourSearch.three_steps (0, 0)) = 0%float /\
  DNode.pid (deref DetourSearch.three_steps (0, 0)) = -1.
Proof.
  assert (H1 : 0 <= INF Scenario.P53) by (vm_compute; discriminate).
  split; [exact H1|]. split; [exact detour_index_not_sentinel|].
  split; [exact detour_goal_valid|]. split; [exact detour_three_steps|].
  exact (goal_cost_and_predecessor_fixed Scenario.P53 Scenario.planner53
           DetourSearch.three_steps Scenario.detour0 (0, 0) 3 H1
           detour_index_not_sentinel detour_goal_valid detour_three_steps).
Defined.

Lemma fresh_search_pops_nondecreasing_witness :
  0 <= INF Scenario.P53 /\
  index_roundtrip Scenario.P53 /\
  index_not_sentinel Scenario.P53 /\
  valid (reset Scenario.P53
           (update_costmap Scenario.P53 Scenario.detour0 Scenario.planner53))
        (0, 0) /\
  popped_keys Scenario.P53 5
    (search_start Scenario.P53 Scenario.planner53 Scenario.detour0 (0, 0))
    = [ 0%float; F64.hypot 1 1; (F64.hypot 1 1 + 1)%float;
        (F64.hypot 1 1 + F64.hypot 1 1)%float;
        ((F64.hypot 1 1 + 1) + 1)%float ] /\
  nondecreasing
    (popped_keys Scenario.P53 5
       (search_start Scenario.P53 Scenario.planner53 Scenario.detour0 (0, 0))).
Proof.
  assert (H1 : 0 <= INF Scenario.P53) by (vm_compute; discriminate).
  split; [exact H1|]. split; [exact detour_index_roundtrip|].
  split; [exact detour_index_not_sentinel|]. split; [exact detour_goal_valid|].
  split; [vm_compute; reflexivity|].
  exact (fresh_search_pops_nondecreasing Scenario.P53 Scenario.planner53
           Scenario.detour0 (0, 0) 5 H1 detour_index_roundtrip
           detour_index_not_sentinel detour_goal_valid).
Defined.

Lemma fixed_index_roundtrip : index_roundtrip FixedRun.P.
Proof.
  intros x y Hx Hy. simpl in *.
  assert (Ex : x = 0 \/ x = 1 \/ x = 2 \/ x = 3 \/ x = 4) by lia.
  assert (Ey : y = 0 \/ y = 1 \/ y = 2) by lia.
  destruct Ex as [->|[->|[->|[->| ->]]]], Ey as [->|[->| ->]]; reflexivity.
Qed.

Lemma fixed_index_not_sentinel : index_not_sentinel FixedRun.P.
Proof. intros x y Hx Hy. simpl in *. lia. Qed.

(** * Further properties of the planner *)

Section MoreFacts.

Context {D : Type} `{DoubleOps D}.
Variable P : Params D.

(** ** The grid that [initMap] builds *)

Lemma initMap_grid_full (s : DStar D) : grid_full P (initMap P s).
Proof.
  intros [i j] [Hi Hj]. simpl in *. unfold valid, initMap. simpl.
  destruct (list_to_map (initMap_cells P) !! (i, j)) as [n|] eqn:E; [by eexists|].
  apply not_elem_of_list_to_map_2 in E. exfalso. apply E.
  apply list_elem_of_fmap. exists ((i, j), fresh_node P i j). split; [done|].
  unfold initMap_cells. apply list_elem_of_bind. exists i. split.
  - apply list_elem_of_bind. exists j. split; [by apply list_elem_of_singleton|].
    apply elem_of_seqZ. lia.
  - apply elem_of_seqZ. lia.
Qed.

Lemma initMap_lookup (s : DStar D) (p : Z * Z) :
  (in_grid P p -> map_ (initMap P s) !! p = Some (fresh_node P (fst p) (snd p))) /\
  (~ in_grid P p -> map_ (initMap P s) !! p = None).
Proof.
  split.
  - intros Hin. destruct (initMap_grid_full s p Hin) as [n Hn].
    pose proof (deref_initMap P s p (ex_intro _ n Hn)) as Hd.
    unfold deref in Hd. rewrite Hn in Hd. simpl in Hd. by rewrite Hn, Hd.
  - intros Hout. destruct (map_ (initMap P s) !! p) as [n|] eqn:E; [|done].
    exfalso. apply Hout. by destruct (initMap_cells_ok P s p n E).
Qed.

Lemma well_formed_initMap (s : DStar D) :
  open_list_ s = [] -> well_formed P (initMap P s).
Proof.
  intros Hol. split; [apply initMap_cells_ok|]. split; [apply initMap_grid_full|].
  unfold ptrs_ok, initMap. simpl. rewrite Hol. constructor.
Qed.

Lemma well_formed_DStar_new (costmap : list Z) : well_formed P (DStar_new P costmap).
Proof. by apply well_formed_initMap. Qed.

(** X1.  [reset], and the constructor, build the grid anew: every cell
    [(i, j)] with [0 <= i < nx_] and [0 <= j < ny_] holds the node
    [DNode(i, j, INF, INF, grid2Index(i, j), -1, NEW, INF)], there is no
    other cell, and the open list is empty.  [reset] leaves the cost map,
    the goal and the path of the last call as they are. *)
Theorem reset_rebuilds_grid (s : DStar D) (costmap : list Z) :
  (forall p, in_grid P p ->
     map_ (reset P s) !! p = Some (fresh_node P (fst p) (snd p))) /\
  (forall p, ~ in_grid P p -> map_ (reset P s) !! p = None) /\
  open_list_ (reset P s) = [] /\
  global_costmap_ (reset P s) = global_costmap_ s /\
  goal_ (reset P s) = goal_ s /\
  path_ (reset P s) = path_ s /\
  map_ (DStar_new P costmap) = map_ (reset P s) /\
  open_list_ (DStar_new P costmap) = [] /\
  goal_ (DStar_new P costmap) = (INF P, INF P) /\
  path_ (DStar_new P costmap) = [].
Proof.
  split; [intros p; apply initMap_lookup|].
  split; [intros p; apply initMap_lookup|]. done.
Qed.

(** ** The neighbours that [getNeighbours] enumerates *)

Lemma getNeighbours_step_cases (s : DStar D) x acc ij :
  (reads_outside P s x ij = true /\
   getNeighbours_step P s x acc ij = Fault OutOfBounds) \/
  (reads_outside P s x ij = false /\
   getNeighbours_step P s x acc ij
   = Ok (acc ++ (if kept P s x ij then [cell_at s x ij] else []))).
Proof.
  destruct ij as [i j].
  unfold reads_outside, kept, in_range, cell_at, getNeighbours_step. simpl.
  destruct ((i =? 0) && (j =? 0)); simpl; [right; by rewrite app_nil_r|].
  destruct (_ || _); simpl; [right; by rewrite app_nil_r|].
  destruct (map_ s !! _) as [n|] eqn:El.
  - right. rewrite bool_decide_eq_false_2 by done. split; [done|].
    destruct (isCollision _ _ _ _); simpl; [by rewrite app_nil_r|done].
  - left. by rewrite bool_decide_eq_true_2.
Qed.

Lemma getNeighbours_loop_cases (s : DStar D) x ijs acc :
  (Exists (fun ij => reads_outside P s x ij = true) ijs /\
   getNeighbours_loop P s x ijs acc = Fault OutOfBounds) \/
  (Forall (fun ij => reads_outside P s x ij = false) ijs /\
   getNeighbours_loop P s x ijs acc
   = Ok (acc ++ map (cell_at s x) (List.filter (kept P s x) ijs))).
Proof.
  revert acc. induction ijs as [|ij rest IH]; intros acc; simpl.
  { right. split; [constructor|by rewrite app_nil_r]. }
  destruct (getNeighbours_step_cases s x acc ij) as [[Hr ->]|[Hr ->]]; simpl.
  - left. split; [by left|done].
  - destruct (IH (acc ++ (if kept P s x ij then [cell_at s x ij] else [])))
      as [[He ->]|[Hf ->]].
    + left. split; [by right|done].
    + right. split; [by constructor|].
      destruct (kept P s x ij); simpl; by rewrite <- app_assoc.
Qed.

Lemma offsets_elem (i j : Z) :
  -1 <= i <= 1 -> -1 <= j <= 1 -> (i, j) ∈ offsets.
Proof.
  intros Hi Hj. unfold offsets. cbn. rewrite !elem_of_cons.
  assert (Ei : i = -1 \/ i = 0 \/ i = 1) by lia.
  assert (Ej : j = -1 \/ j = 0 \/ j = 1) by lia.
  destruct Ei as [-> | [-> | ->]], Ej as [-> | [-> | ->]]; tauto.
Qed.

Lemma offsets_NoDup : NoDup offsets.
Proof.
  apply (bool_decide_unpack _). vm_compute. exact I.
Qed.

Lemma getNeighbours_NoDup (s : DStar D) (x : DNodePtr) nbrs :
  cells_ok P s -> valid s x ->
  getNeighbours P s x = Ok nbrs -> NoDup nbrs.
Proof.
  intros Hc Hx Hn.
  unfold getNeighbours in Hn.
  pose proof offsets_NoDup as Hnd.
  remember offsets as ofs eqn:Eofs. clear Eofs.
  destruct (getNeighbours_loop_cases s x ofs []) as [[_ E]|[_ E]];
    rewrite E in Hn; [done|].
  injection Hn as <-. cbn [app].
  apply NoDup_fmap_2_strong;
    [|by apply NoDup_ListNoDup, List.NoDup_filter, NoDup_ListNoDup].
  intros [i j] [i' j'] _ _. unfold cell_at. simpl. intros [= E1 E2].
  f_equal; lia.
Qed.

Lemma getNeighbours_complete (s : DStar D) (x : DNodePtr) nbrs q :
  cells_ok P s -> valid s x ->
  getNeighbours P s x = Ok nbrs ->
  in_grid P q -> adjacent8 x q -> isCollision P s x q = false ->
  q ∈ nbrs.
Proof.
  intros Hc Hx Hn [Hq1 Hq2] (Ha1 & Ha2 & Hne) Hcol.
  destruct (cells_ok_deref P s x Hc Hx) as (Ex & Ey & _).
  unfold getNeighbours in Hn.
  pose proof offsets_elem as Hel.
  remember offsets as ofs eqn:Eofs. clear Eofs.
  destruct (getNeighbours_loop_cases s x ofs []) as [[_ E]|[_ E]];
    rewrite E in Hn; [done|].
  injection Hn as <-. cbn [app].
  apply list_elem_of_fmap. exists (fst q - fst x, snd q - snd x).
  assert (Eq : cell_at s x (fst q - fst x, snd q - snd x) = q).
  { unfold cell_at. rewrite Ex, Ey. simpl. destruct q as [a b]. simpl.
    f_equal; lia. }
  split; [done|].
  apply list_elem_of_In, filter_In. split.
  - apply list_elem_of_In, Hel; lia.
  - unfold kept, in_range. rewrite Eq, Hcol. simpl.
    apply andb_true_iff. split; [|done]. apply andb_true_iff. split.
    + apply negb_true_iff, andb_false_iff.
      destruct (Z.eqb_spec (fst q - fst x) 0) as [E1|E1]; [|by left].
      destruct (Z.eqb_spec (snd q - snd x) 0) as [E2|E2]; [|by right].
      exfalso. apply Hne. destruct x, q. simpl in *. f_equal; lia.
    + apply negb_true_iff. rewrite !orb_false_iff.
      rewrite !Z.ltb_ge, !Z.gtb_ltb, !Z.ltb_ge. lia.
Qed.

(** X2.  When [getNeighbours] returns, it has enumerated, each once, exactly
    the cells of the grid that are among the eight around [x] and not in
    collision with [x]. *)
Theorem getNeighbours_exact (s : DStar D) (x : DNodePtr) nbrs :
  cells_ok P s -> valid s x ->
  getNeighbours P s x = Ok nbrs ->
  NoDup nbrs /\
  forall q, q ∈ nbrs <->
    in_grid P q /\ adjacent8 x q /\ isCollision P s x q = false.
Proof.
  intros Hc Hx Hn. split; [by apply (getNeighbours_NoDup s x)|].
  intros q. split.
  - intros Hq.
    pose proof (getNeighbours_in_grid P s x nbrs Hc Hx Hn) as Hsound.
    rewrite Forall_forall in Hsound. by apply Hsound.
  - intros (Hin & Hadj & Hcol). by apply (getNeighbours_complete s x).
Qed.

Lemma getNeighbours_edge_fault (s : DStar D) (x : DNodePtr) :
  cells_ok P s -> valid s x ->
  fst x = nx_ P - 1 \/ snd x = ny_ P - 1 ->
  getNeighbours P s x = Fault OutOfBounds.
Proof.
  intros Hc Hx Hedge.
  destruct (cells_ok_deref P s x Hc Hx) as (Ex & Ey & _).
  destruct Hx as [n Hn]. destruct (Hc x n Hn) as [_ [Hx1 Hx2]].
  unfold getNeighbours.
  destruct (getNeighbours_loop_cases s x offsets []) as [[_ E]|[Hall _]];
    [done|exfalso].
  rewrite Forall_forall in Hall.
  assert (Hout : forall q, ~ in_grid P q -> map_ s !! q = None).
  { intros q Hq. destruct (map_ s !! q) as [m|] eqn:E; [|done].
    exfalso. apply Hq. by destruct (Hc q m E). }
  destruct Hedge as [E|E].
  - pose proof (Hall (1, 0) ltac:(apply offsets_elem; lia)) as Hr.
    unfold reads_outside, in_range, cell_at in Hr. rewrite Ex, Ey in Hr.
    simpl in Hr. rewrite bool_decide_eq_true_2 in Hr.
    + rewrite andb_true_r in Hr. apply negb_false_iff in Hr.
      rewrite !orb_true_iff, !Z.ltb_lt, !Z.gtb_ltb, !Z.ltb_lt in Hr. lia.
    + apply Hout. unfold in_grid. simpl. lia.
  - pose proof (Hall (0, 1) ltac:(apply offsets_elem; lia)) as Hr.
    unfold reads_outside, in_range, cell_at in Hr. rewrite Ex, Ey in Hr.
    simpl in Hr. rewrite bool_decide_eq_true_2 in Hr.
    + rewrite andb_true_r in Hr. apply negb_false_iff in Hr.
      rewrite !orb_true_iff, !Z.ltb_lt, !Z.gtb_ltb, !Z.ltb_lt in Hr. lia.
    + apply Hout. unfold in_grid. simpl. lia.
Qed.

Lemma getNeighbours_inside_ok (s : DStar D) (x : DNodePtr) :
  cells_ok P s -> grid_full P s -> valid s x ->
  fst x < nx_ P - 1 -> snd x < ny_ P - 1 ->
  exists nbrs, getNeighbours P s x = Ok nbrs.
Proof.
  intros Hc Hf Hx Hi Hj.
  destruct (cells_ok_deref P s x Hc Hx) as (Ex & Ey & _).
  unfold getNeighbours.
  destruct (getNeighbours_loop_cases s x offsets []) as [[Hex _]|[_ E]];
    [exfalso|by eexists].
  apply Exists_exists in Hex as ([i j] & Hin & Hr).
  apply offsets_range in Hin.
  unfold reads_outside, in_range, cell_at in Hr. rewrite Ex, Ey in Hr.
  simpl in Hr. apply andb_true_iff in Hr as [Hb Hr].
  apply bool_decide_eq_true_1 in Hr.
  apply andb_true_iff in Hb as [_ Hb]. apply negb_true_iff in Hb.
  rewrite !orb_false_iff, !Z.ltb_ge in Hb.
  destruct (Hf (fst x + i, snd x + j)) as [m Hm].
  - unfold in_grid. simpl. lia.
  - by rewrite Hr in Hm.
Qed.

(** X3.  On a full grid [getNeighbours] reads outside of [map_] exactly for
    the nodes of the last column and of the last row, and returns for every
    other node. *)
Theorem getNeighbours_faults_on_upper_edge (s : DStar D) (x : DNodePtr) :
  cells_ok P s -> grid_full P s -> valid s x ->
  (fst x = nx_ P - 1 \/ snd x = ny_ P - 1 ->
     getNeighbours P s x = Fault OutOfBounds) /\
  (fst x < nx_ P - 1 -> snd x < ny_ P - 1 ->
     exists nbrs, getNeighbours P s x = Ok nbrs).
Proof.
  intros Hc Hf Hx. split.
  - by apply getNeighbours_edge_fault.
  - by apply getNeighbours_inside_ok.
Qed.

(** ** Edge costs *)

(** X4.  Between a node and a neighbour that [getNeighbours] enumerates for
    it, [getCost] is the length of the step in either direction: the branch
    that returns [INF] is not taken. *)
Theorem getCost_between_neighbours (s : DStar D) (x : DNodePtr) nbrs :
  cells_ok P s -> valid s x ->
  getNeighbours P s x = Ok nbrs ->
  Forall (fun y =>
            adjacent8 x y /\
            getCost P s x y = d_hypot (fst x - fst y) (snd x - snd y) /\
            getCost P s y x = d_hypot (fst y - fst x) (snd y - snd x)) nbrs.
Proof.
  intros Hc Hx Hn.
  pose proof (getNeighbours_in_grid P s x nbrs Hc Hx Hn) as Hg.
  pose proof (getNeighbours_enumerated P s x nbrs Hn) as He.
  apply Forall_forall. intros y Hy.
  rewrite Forall_forall in Hg, He.
  destruct (Hg y Hy) as (_ & Hadj & Hcol). destruct (He y Hy) as (Hvy & _).
  destruct (cells_ok_deref P s x Hc Hx) as (Ex & Ey & _).
  destruct (cells_ok_deref P s y Hc Hvy) as (Fx & Fy & _).
  split; [done|]. unfold getCost.
  by rewrite (isCollision_sym P s y x), Hcol, Ex, Ey, Fx, Fy.
Qed.

(** ** What one call of [processState] writes *)

Lemma raise_step_off (k_old : D) (s : DStar D) x y q :
  q <> x -> deref (raise_step P k_old x s y) q = deref s q.
Proof.
  intros Hq. unfold raise_step. destruct (_ && _); [|done].
  by rewrite !deref_store_ne.
Qed.

Lemma lower_step_off (s : DStar D) x y q :
  q <> y -> deref (lower_step P x s y) q = deref s q.
Proof.
  intros Hq. unfold lower_step. destruct (_ || _); [|done].
  by apply deref_relink_ne.
Qed.

Lemma raise_state_step_off (k_old : D) (s : DStar D) x y q :
  q <> x -> q <> y -> deref (raise_state_step P k_old x s y) q = deref s q.
Proof.
  intros Hx Hy. unfold raise_state_step.
  destruct (stale_child P x y s); [by apply deref_relink_ne|].
  destruct (improvable P x y s); [by apply deref_insert_ne|].
  destruct (raised_closed P k_old x y s); [by apply deref_insert_ne|done].
Qed.

(** X5.  One call of [processState] writes only to the node it pops and to
    nodes of the eight cells around it; it moves no node, changes no index,
    adds and removes no cell, and leaves the cost map, the goal and the path
    alone. *)
Theorem processState_writes_neighbourhood (s s' : DStar D) r k_old x rest :
  cells_ok P s -> ptrs_ok s ->
  open_list_ s = (k_old, x) :: rest ->
  processState P s = Ok (r, s') ->
  (forall q, q <> x -> ~ adjacent8 x q -> deref s' q = deref s q) /\
  (forall q, geo (deref s' q) = geo (deref s q)) /\
  (forall q, valid s' q <-> valid s q) /\
  global_costmap_ s' = global_costmap_ s /\
  goal_ s' = goal_ s /\ path_ s' = path_ s.
Proof.
  intros Hc Hok Hol Hps.
  destruct (processState_steady P s s' r Hok Hps) as ([Hcm Hg] & _ & Hgo & Hpa).
  split; [|split; [intros q; by destruct (Hg q)|
                   split; [intros q; by destruct (Hg q)|done]]].
  destruct (steady_popped s k_old x rest Hol Hok) as (Hg1 & _ & Hx).
  set (s1 := popped x rest s) in *.
  assert (Hc1 : cells_ok P s1) by (by apply (cells_ok_geom P s)).
  assert (Hx1 : valid s1 x) by (by apply (geom_eq_valid s)).
  destruct (getNeighbours P s1 x) as [nbrs| |] eqn:Hnb;
    [|unfold processState in Hps; rewrite Hol in Hps;
      change (store x (DNode.set_tag CLOSED (deref (set_open_list rest s) x))
                (set_open_list rest s)) with s1 in Hps;
      rewrite Hnb in Hps; done..].
  rewrite (processState_unfold P s k_old x rest nbrs Hol Hnb) in Hps.
  injection Hps as _ <-. fold s1.
  pose proof (getNeighbours_in_grid P s1 x nbrs Hc1 Hx1 Hnb) as Hadj.
  rewrite Forall_forall in Hadj.
  intros q Hqx Hqa.
  assert (Hq : q ∉ nbrs) by (intros Hin; apply Hqa; by destruct (Hadj q Hin) as (_ & ? & _)).
  transitivity (deref s1 q);
    [|unfold s1; rewrite deref_popped; by destruct (decide (x = q))].
  set (J := fun s0 : DStar D => deref s0 q = deref s1 q).
  assert (H2 : J (raise_phase P k_old x nbrs s1)).
  { unfold raise_phase. destruct (d_lt _ _); [|done].
    apply fold_left_inv; [|done]. intros s0 y H0 _. unfold J.
    by rewrite raise_step_off. }
  unfold spread_phase. destruct (d_eq _ _); apply fold_left_inv; try done.
  - intros s0 y H0 Hy. unfold J. rewrite lower_step_off; [done|].
    intros ->. done.
  - intros s0 y H0 Hy. unfold J. rewrite raise_state_step_off; [done|done|].
    intros ->. done.
Qed.

(** ** Tags and the open list *)

Lemma queue_ok_insert (s : DStar D) p h : queue_ok s -> queue_ok (insert p h s).
Proof.
  intros [Hop Hen]. split.
  - intros q Hq. destruct (decide (q = p)) as [->|Hne].
    + eexists. rewrite insert_open_list. apply elem_of_multimap_insert. by left.
    + rewrite deref_insert_ne in Hq by done. destruct (Hop q Hq) as [k Hk].
      exists k. rewrite insert_open_list. apply elem_of_multimap_insert. by right.
  - apply Forall_forall. intros e He. rewrite insert_open_list in He.
    apply elem_of_multimap_insert in He as [->|He]; simpl.
    + by rewrite deref_insert_eq.
    + rewrite Forall_forall in Hen. destruct (decide (snd e = p)) as [->|Hne].
      * by rewrite deref_insert_eq.
      * rewrite deref_insert_ne by done. by apply Hen.
Qed.

Lemma queue_ok_tags (s s' : DStar D) :
  (forall q, DNode.tag (deref s' q) = DNode.tag (deref s q)) ->
  open_list_ s' = open_list_ s -> queue_ok s -> queue_ok s'.
Proof.
  intros Ht Hol [Hop Hen]. split.
  - intros q Hq. rewrite Ht in Hq. rewrite Hol. by apply Hop.
  - rewrite Hol. eapply Forall_impl; [exact Hen|]. intros e. by rewrite Ht.
Qed.

Lemma queue_ok_popped (s : DStar D) k_old x rest :
  queue_ok s -> open_list_ s = (k_old, x) :: rest -> queue_ok (popped x rest s).
Proof.
  intros [Hop Hen] Hol. rewrite Hol in Hen.
  apply Forall_cons_1 in Hen as [_ Hen]. split.
  - intros q Hq. rewrite deref_popped in Hq.
    destruct (decide (x = q)) as [->|Hne]; [done|].
    destruct (Hop q Hq) as [k Hk]. rewrite Hol in Hk.
    apply elem_of_cons in Hk as [[= _ ->]|Hk]; [done|]. by exists k.
  - change (open_list_ (popped x rest s)) with rest.
    eapply Forall_impl; [exact Hen|].
    intros e He. rewrite deref_popped. by destruct (decide (x = snd e)).
Qed.

Lemma queue_ok_search_start (s : DStar D) costs goal :
  queue_ok (search_start P s costs goal).
Proof.
  unfold search_start. apply queue_ok_insert. split; [|constructor].
  intros p Hp. exfalso.
  change (deref (set_goal goal (reset P (update_costmap P costs s))) p)
    with (deref (initMap P (set_open_list [] (update_costmap P costs s))) p) in Hp.
  destruct (map_ (initMap P (set_open_list [] (update_costmap P costs s))) !! p)
    as [n|] eqn:E.
  - rewrite deref_initMap in Hp by (by eexists). done.
  - unfold deref in Hp. rewrite E in Hp. done.
Qed.

(** X6.  [processState] keeps the tags and the open list in step: afterwards,
    as before, every node tagged OPEN has an entry in the open list and no
    entry names a node tagged NEW. *)
Theorem processState_keeps_queue_ok (s s' : DStar D) r :
  ptrs_ok s -> queue_ok s ->
  processState P s = Ok (r, s') ->
  queue_ok s'.
Proof.
  intros Hok Hq Hps.
  apply (processState_preserves P queue_ok) with (s := s) (r := r); try done.
  - intros s0 k_old x rest H0 Hol _. by apply (queue_ok_popped s0 k_old).
  - intros s0 k_old x y H0 _ _ _. apply (queue_ok_tags s0); [|done|done].
    intros q. unfold adopt. destruct (decide (q = x)) as [->|Hne].
    + by rewrite deref_store_eq.
    + by rewrite deref_store_ne.
  - intros s0 x y H0 _ _ _. unfold relink. apply queue_ok_insert.
    apply (queue_ok_tags s0); [|done|done].
    intros q. destruct (decide (q = y)) as [->|Hne].
    + by rewrite deref_store_eq.
    + by rewrite deref_store_ne.
  - intros s0 x H0 _. by apply queue_ok_insert.
Qed.

(** ** The expansion set *)

Lemma bind_bind {A B C : Type} (l : list A) (f : A -> list B) (g : B -> list C) :
  (l ≫= f) ≫= g = l ≫= (fun x => f x ≫= g).
Proof.
  induction l as [|a l IH]; [done|].
  by rewrite !bind_cons, bind_app, IH.
Qed.

Lemma bind_filter_map {A B : Type} (l : list A) (c : A -> bool) (h : A -> B) :
  l ≫= (fun p => if c p then [h p] else []) = map h (List.filter c l).
Proof.
  induction l as [|a l IH]; [done|].
  rewrite bind_cons, IH. simpl. by destruct (c a).
Qed.

Lemma grid_cells_elem (p : Z * Z) : p ∈ grid_cells P <-> in_grid P p.
Proof.
  unfold grid_cells, in_grid. rewrite list_elem_of_bind. split.
  - intros (i & Hp & Hi). apply list_elem_of_bind in Hp as (j & Hp & Hj).
    apply list_elem_of_singleton in Hp as ->.
    apply elem_of_seqZ in Hi, Hj. simpl. lia.
  - intros [Hi Hj]. exists (fst p). split; [|apply elem_of_seqZ; lia].
    apply list_elem_of_bind. exists (snd p).
    split; [|apply elem_of_seqZ; lia].
    apply list_elem_of_singleton. by destruct p.
Qed.

Lemma grid_cells_NoDup : NoDup (grid_cells P).
Proof.
  unfold grid_cells. apply NoDup_bind; [| |apply NoDup_seqZ].
  - intros i1 i2 p _ _ H1 H2.
    apply list_elem_of_bind in H1 as (j1 & H1 & _).
    apply list_elem_of_bind in H2 as (j2 & H2 & _).
    apply list_elem_of_singleton in H1, H2. congruence.
  - intros i _. apply NoDup_bind; [| |apply NoDup_seqZ].
    + intros j1 j2 p _ _ H1 H2.
      apply list_elem_of_singleton in H1, H2. congruence.
    + intros j _. apply NoDup_singleton.
Qed.

Lemma extractExpand_grid_cells (s : DStar D) :
  extractExpand P s
  = map (fun p => DNode.slice (deref s p))
        (List.filter (fun p => Tag_eqb (DNode.tag (deref s p)) CLOSED)
                     (grid_cells P)).
Proof.
  rewrite <- bind_filter_map. unfold extractExpand, grid_cells.
  rewrite bind_bind. apply list_bind_ext; [|done]. intros i.
  rewrite bind_bind. apply list_bind_ext; [|done]. intros j.
  by rewrite bind_singleton.
Qed.

Lemma closed_valid (s : DStar D) p :
  Tag_eqb (DNode.tag (deref s p)) CLOSED = true -> valid s p.
Proof.
  unfold deref, valid. by destruct (map_ s !! p).
Qed.

Lemma elem_of_extractExpand (s : DStar D) n :
  cells_ok P s ->
  n ∈ extractExpand P s <->
  exists p, valid s p /\ DNode.tag (deref s p) = CLOSED /\
            n = DNode.slice (deref s p).
Proof.
  intros Hc. rewrite extractExpand_grid_cells, list_elem_of_In, in_map_iff.
  split.
  - intros (p & <- & Hp). apply filter_In in Hp as [_ Hp]. exists p.
    split; [by apply closed_valid|]. split; [|done].
    by destruct (DNode.tag (deref s p)).
  - intros (p & [m Hm] & Ht & ->). exists p. split; [done|].
    apply filter_In. split; [|by rewrite Ht].
    apply list_elem_of_In, grid_cells_elem. by destruct (Hc p m Hm).
Qed.

(** X7.  [extractExpand] lists the nodes tagged CLOSED and no others, one for
    each such cell, in the order of its two loops ([x] outer, [y] inner). *)
Theorem extractExpand_lists_closed_cells (s : DStar D) :
  cells_ok P s ->
  map coords (extractExpand P s)
  = List.filter (fun p => Tag_eqb (DNode.tag (deref s p)) CLOSED)
                (grid_cells P) /\
  NoDup (map coords (extractExpand P s)) /\
  forall n, n ∈ extractExpand P s <->
    exists p, valid s p /\ DNode.tag (deref s p) = CLOSED /\
              n = DNode.slice (deref s p).
Proof.
  intros Hc.
  assert (Hmap : map coords (extractExpand P s)
                 = List.filter (fun p => Tag_eqb (DNode.tag (deref s p)) CLOSED)
                               (grid_cells P)).
  { rewrite extractExpand_grid_cells, map_map.
    rewrite <- (map_id (List.filter _ _)) at 2.
    apply map_ext_in. intros p Hp. apply filter_In in Hp as [_ Hp].
    destruct (cells_ok_deref P s p Hc (closed_valid s p Hp)) as (Ex & Ey & _).
    unfold coords. simpl. rewrite Ex, Ey. by destruct p. }
  split; [done|]. split.
  - rewrite Hmap. apply NoDup_ListNoDup, List.NoDup_filter, NoDup_ListNoDup.
    apply grid_cells_NoDup.
  - intros n. by apply elem_of_extractExpand.
Qed.

(** ** The path element nearest to a cell *)

Lemma getState_loop_first (path : list (Node.t D)) (current : Z * Z) rest :
  forall pre dis_min idx_min p,
    path = pre ++ rest ->
    path !! idx_min = Some p -> int_dist p current = dis_min ->
    (idx_min < length pre)%nat ->
    (forall j q, pre !! j = Some q -> dis_min <= int_dist q current) ->
    (forall j q, (j < idx_min)%nat -> pre !! j = Some q ->
       dis_min < int_dist q current) ->
    exists p',
      path !! getState_loop rest (length pre) current dis_min idx_min = Some p' /\
      (forall j q, path !! j = Some q ->
         int_dist p' current <= int_dist q current) /\
      (forall j q,
         (j < getState_loop rest (length pre) current dis_min idx_min)%nat ->
         path !! j = Some q -> int_dist p' current < int_dist q current).
Proof.
  induction rest as [|n rest IH]; intros pre dis_min idx_min p Hpath Hp Hd Hlt Hall Hbefore.
  - simpl. rewrite app_nil_r in Hpath. subst path dis_min. exists p.
    split; [done|]. split; [by apply Hall|by apply Hbefore].
  - simpl.
    assert (Hpath' : path = (pre ++ [n]) ++ rest) by (by rewrite <- app_assoc).
    assert (Hlen : length (pre ++ [n]) = S (length pre))
      by (rewrite length_app; simpl; lia).
    assert (Hsnoc : forall j q, (pre ++ [n]) !! j = Some q ->
              (pre !! j = Some q /\ (j < length pre)%nat) \/
              (j = length pre /\ q = n)).
    { intros j q Hj. apply lookup_app_Some in Hj as [Hj|[Hge Hj]].
      - left. split; [done|]. by apply lookup_lt_Some in Hj.
      - right. destruct (j - length pre)%nat as [|k] eqn:Ek; [|done].
        simpl in Hj. injection Hj as <-. split; [lia|done]. }
    rewrite <- Hlen.
    destruct (Z.ltb_spec (int_dist n current) dis_min) as [Hless|Hge].
    + apply (IH (pre ++ [n]) (int_dist n current) (length pre) n); try done.
      * rewrite Hpath. rewrite lookup_app_r by lia.
        by rewrite Nat.sub_diag.
      * lia.
      * intros j q Hj. destruct (Hsnoc j q Hj) as [[Hq _]|[_ ->]]; [|lia].
        pose proof (Hall j q Hq). lia.
      * intros j q Hjl Hj. destruct (Hsnoc j q Hj) as [[Hq _]|[-> _]]; [|lia].
        pose proof (Hall j q Hq). lia.
    + apply (IH (pre ++ [n]) dis_min idx_min p); try done.
      * lia.
      * intros j q Hj. destruct (Hsnoc j q Hj) as [[Hq _]|[_ ->]]; [|lia].
        by apply (Hall j).
      * intros j q Hjl Hj. destruct (Hsnoc j q Hj) as [[Hq _]|[-> _]]; [|lia].
        by apply (Hbefore j).
Qed.

(** X8.  [getState] reads [path_[0]], which an empty path does not have; on a
    path that is not empty it returns the cell of the first element whose
    distance to [current], truncated to an integer, is the least. *)
Theorem getState_first_closest (s : DStar D) (current : Z * Z) :
  (path_ s = [] -> getState s current = Fault OutOfBounds) /\
  (path_ s <> [] ->
     exists idx p,
       path_ s !! idx = Some p /\
       getState s current = Ok (coords p) /\
       (forall j q, path_ s !! j = Some q ->
          int_dist p current <= int_dist q current) /\
       (forall j q, (j < idx)%nat -> path_ s !! j = Some q ->
          int_dist p current < int_dist q current)).
Proof.
  unfold getState. split; [by intros ->|]. intros Hne.
  destruct (path_ s) as [|p0 rest] eqn:Hp; [done|].
  destruct (getState_loop_first (p0 :: rest) current rest [p0]
              (int_dist p0 current) 0%nat p0) as (p' & Hl & Hmin & Hfirst);
    try done.
  - simpl. lia.
  - intros [|j] q Hj; [|done]. simpl in Hj. injection Hj as <-. lia.
  - intros j q Hj. lia.
  - simpl in Hl. exists (getState_loop rest 1 current (int_dist p0 current) 0), p'.
    split; [done|]. rewrite Hl. done.
Qed.

(** ** The state that [plan] leaves behind *)

Lemma modify_loop_steady (fuel : nat) (s s' : DStar D) x :
  ptrs_ok s -> modify_loop P fuel s x = Ok s' ->
  geom_eq s s' /\ ptrs_ok s' /\ goal_ s' = goal_ s /\ path_ s' = path_ s.
Proof.
  revert s. induction fuel as [|fuel IH]; intros s Hok; simpl; [done|].
  destruct (processState P s) as [[r s1]| |] eqn:Hps; simpl; try done.
  destruct (processState_steady P s s1 r Hok Hps) as (Hg1 & Hp1 & Ha1 & Hb1).
  destruct r as [k_min|]; [|done].
  destruct (d_le _ _).
  - by intros [= <-].
  - intros Hl. destruct (IH s1 Hp1 Hl) as (Hg2 & Hp2 & Ha2 & Hb2).
    split; [by eapply geom_eq_trans|]. split; [done|]. split; congruence.
Qed.

Lemma modify_steady (fuel : nat) (s s' : DStar D) x y :
  ptrs_ok s -> valid s x -> modify P fuel s x y = Ok s' ->
  geom_eq s s' /\ ptrs_ok s' /\ goal_ s' = goal_ s /\ path_ s' = path_ s.
Proof.
  intros Hok Hx. unfold modify. destruct (Tag_eqb _ _).
  - intros Hl. apply modify_loop_steady in Hl as (Hg & Hp & Ha & Hb);
      [|by apply ptrs_ok_insert].
    split; [|done]. eapply geom_eq_trans; [|done]. by apply geom_eq_insert.
  - by apply modify_loop_steady.
Qed.

Lemma walk_steady (fuel n : nat) (s s' : DStar D) x :
  ptrs_ok s -> valid s x -> walk P fuel n s x = Ok s' ->
  geom_eq s s' /\ ptrs_ok s' /\ goal_ s' = goal_ s /\ path_ s' = path_ s.
Proof.
  revert s x. induction n as [|n IH]; intros s x Hok Hx; simpl.
  { intros [= <-]. split; [apply geom_eq_refl|done]. }
  destruct (DNode.pid (deref s x) =? -1).
  { intros [= <-]. split; [apply geom_eq_refl|done]. }
  destruct (map_ s !! index2Grid P (DNode.pid (deref s x))) as [m|] eqn:Hy;
    [|done].
  destruct (isCollision P s x _).
  - destruct (modify P fuel s x _) as [s1| |] eqn:Hm; simpl; try done.
    destruct (modify_steady fuel s s1 x _ Hok Hx Hm) as (Hg1 & Hp1 & Ha1 & Hb1).
    intros Hw. apply IH in Hw as (Hg2 & Hp2 & Ha2 & Hb2);
      [|done|by apply (geom_eq_valid s)].
    split; [by eapply geom_eq_trans|]. split; [done|]. split; congruence.
  - apply IH; [done|by eexists].
Qed.

Lemma well_formed_update_costmap (s : DStar D) costs :
  well_formed P s -> well_formed P (update_costmap P costs s).
Proof. done. Qed.

Lemma costs_nonneg_update_costmap (s : DStar D) costs :
  costs_nonneg s -> costs_nonneg (update_costmap P costs s).
Proof. done. Qed.

Lemma grid_full_geom (s s' : DStar D) :
  geom_eq s s' -> grid_full P s -> grid_full P s'.
Proof. intros Hg Hf p Hp. apply (geom_eq_valid s); [done|by apply Hf]. Qed.

Lemma well_formed_geom (s s' : DStar D) :
  geom_eq s s' -> ptrs_ok s' -> well_formed P s -> well_formed P s'.
Proof.
  intros Hg Hp (Hc & Hf & _).
  split; [by apply (cells_ok_geom P s)|]. split; [|done].
  by apply (grid_full_geom s).
Qed.

Lemma extractPath_frame (fuel : nat) (s s' : DStar D) start goal :
  extractPath P fuel s start goal = Ok s' ->
  exists path, s' = set_path path s.
Proof.
  unfold extractPath. destruct (map_ s !! start); [|done].
  destruct (extractPath_loop P fuel s start goal (path_ s)) as [path| |];
    simpl; try done.
  intros [= <-]. by eexists.
Qed.

Lemma fresh_goal_false (s : DStar D) goal :
  fresh_goal s goal = false <-> goal_ s = goal.
Proof.
  unfold fresh_goal. rewrite orb_false_iff, !negb_false_iff, !Z.eqb_eq.
  destruct (goal_ s), goal. simpl. split; [by intros [-> ->]|by intros [= -> ->]].
Qed.

(** The same-goal branch of [plan], taken apart. *)
Lemma plan_same_inv (fuel : nat) (s s' : DStar D) costs start goal r :
  fresh_goal s goal = false ->
  plan P fuel s costs start goal = Ok (r, s') ->
  exists state s1 s2,
    getState s start = Ok state /\ valid s state /\
    walk P fuel (SIM_DISTANCE P) (update_costmap P costs s) state = Ok s1 /\
    extractPath P fuel (set_path [] s1) state goal = Ok s2 /\
    r = mkPlanResult true (path_ s2) (extractExpand P s2) /\ s' = s2.
Proof.
  intros Hf Hpl. unfold plan in Hpl. unfold fresh_goal in Hf.
  change (goal_ (update_costmap P costs s)) with (goal_ s) in Hpl.
  rewrite Hf in Hpl.
  change (getState (update_costmap P costs s) start) with (getState s start) in Hpl.
  destruct (getState s start) as [state| |] eqn:Hst; simpl in Hpl; try done.
  destruct (map_ s !! state) as [m|] eqn:Hm; [|done].
  destruct (walk P fuel _ _ state) as [s1| |] eqn:Hw; simpl in Hpl; try done.
  destruct (extractPath P fuel _ state goal) as [s2| |] eqn:He; simpl in Hpl;
    try done.
  injection Hpl as <- <-. exists state, s1, s2.
  split; [done|]. split; [by eexists|done].
Qed.

(** What a call of [plan] that returns has done: it has brought the
    planner to a well-formed state [s1] that holds the goal and the cost
    map, and then only rebuilt the path. *)
Lemma plan_inv (fuel : nat) (s s' : DStar D) costs start goal r :
  well_formed P s ->
  plan P fuel s costs start goal = Ok (r, s') ->
  exists s1 path,
    well_formed P s1 /\ goal_ s1 = goal /\
    global_costmap_ s1 = take (Z.to_nat (ns_ P)) costs /\
    s' = set_path path s1 /\
    r = mkPlanResult true path (extractExpand P s').
Proof.
  intros Hwf Hpl.
  destruct (fresh_goal s goal) eqn:Hf.
  - destruct (plan_fresh_inv P fuel s s' costs start goal r Hf Hpl)
      as (Hg & s1 & s2 & Hl & He & -> & ->).
    destruct (search_start_ok P s costs goal Hg) as (Hc0 & Hp0 & Hgo0 & Hcm0).
    destruct (search_loop_steady P fuel _ s1 start Hp0 Hl)
      as (Hg1 & Hp1 & Hgo1 & _).
    apply extractPath_frame in He as [path ->].
    exists s1, path. split.
    { apply (well_formed_geom (search_start P s costs goal)); [done|done|].
      split; [done|]. split; [|done].
      apply (grid_full_geom (set_goal goal (reset P (update_costmap P costs s)))).
      - by apply geom_eq_insert.
      - apply initMap_grid_full. }
    split; [by rewrite Hgo1|]. split; [by destruct Hg1 as [-> _]|done].
  - destruct (plan_same_inv fuel s s' costs start goal r Hf Hpl)
      as (state & s1 & s2 & Hst & Hv & Hw & He & -> & ->).
    destruct Hwf as (Hc & Hfull & Hp).
    destruct (walk_steady fuel _ (update_costmap P costs s) s1 state Hp Hv Hw)
      as (Hg1 & Hp1 & Hgo1 & _).
    apply extractPath_frame in He as [path ->].
    exists s1, path. split.
    { by apply (well_formed_geom (update_costmap P costs s)). }
    split; [rewrite Hgo1; by apply fresh_goal_false|].
    split; [by destruct Hg1 as [-> _]|done].
Qed.

Lemma plan_well_formed (fuel : nat) (s s' : DStar D) costs start goal r :
  well_formed P s ->
  plan P fuel s costs start goal = Ok (r, s') ->
  well_formed P s'.
Proof.
  intros Hwf Hpl.
  by destruct (plan_inv fuel s s' costs start goal r Hwf Hpl)
    as (s1 & path & Hw1 & _ & _ & -> & _).
Qed.

(** X9.  Every call of [plan] that returns reports [found = true], and hands
    back the path and the expansion set of the state it leaves. That state is
    well formed again, holds the first [ns_] bytes of the cost map it was
    given, and remembers the goal, so that the next call with this goal takes
    the same-goal branch. *)
Theorem plan_keeps_well_formed (fuel : nat) (s s' : DStar D) costs start goal r :
  well_formed P s ->
  plan P fuel s costs start goal = Ok (r, s') ->
  well_formed P s' /\
  goal_ s' = goal /\
  global_costmap_ s' = take (Z.to_nat (ns_ P)) costs /\
  fresh_goal s' goal = false /\
  r = mkPlanResult true (path_ s') (extractExpand P s').
Proof.
  intros Hwf Hpl.
  destruct (plan_inv fuel s s' costs start goal r Hwf Hpl)
    as (s1 & path & Hw1 & Hgo & Hcm & -> & ->).
  split; [done|]. split; [done|]. split; [done|].
  split; [by apply fresh_goal_false|done].
Qed.

(** X10.  A same-goal call of [plan] that returns has rebuilt the path from
    the element of the old path nearest to the given start, not from the start
    itself: the new path is empty when that element is the goal cell, and
    otherwise runs from a node whose predecessor index is the goal cell to
    that element, with no goal cell in it. *)
Theorem plan_same_goal_path_ends_at_nearest (fuel : nat) (s s' : DStar D)
    costs start goal r :
  well_formed P s ->
  fresh_goal s goal = false ->
  plan P fuel s costs start goal = Ok (r, s') ->
  exists state,
    getState s start = Ok state /\
    Forall (fun n => coords n <> goal) (path r) /\
    (state = goal -> path r = []) /\
    (state <> goal ->
       exists n_first n_last,
         head (path r) = Some n_first /\
         index2Grid P (Node.pid n_first) = goal /\
         last (path r) = Some n_last /\
         coords n_last = state).
Proof.
  intros (Hc & Hfull & Hp) Hf Hpl.
  destruct (plan_same_inv fuel s s' costs start goal r Hf Hpl)
    as (state & s1 & s2 & Hst & Hv & Hw & He & -> & ->).
  destruct (walk_steady fuel _ (update_costmap P costs s) s1 state Hp Hv Hw) as (Hg1 & _).
  assert (Hc1 : cells_ok P (set_path [] s1))
    by (by apply (cells_ok_geom P (update_costmap P costs s) s1)).
  destruct (extractPath_chain P fuel _ s2 state goal Hc1 eq_refl He)
    as (Hm & Hv1 & chain & Hpath & Hch).
  destruct (pred_chain_coords P _ goal state chain Hc1 Hv1 Hch)
    as (Hall & Hnil & Hcons).
  exists state. simpl. rewrite Hpath.
  split; [done|]. split; [by apply Forall_reverse|].
  split; [by intros ->%Hnil|].
  intros (nf & nl & Hh & Hcf & Hla & Hgl)%Hcons.
  exists nl, nf. by rewrite head_reverse, last_reverse.
Qed.

(** X11.  After a fresh-goal call with the start on the goal cell, which
    returns the empty path, every further call of [plan] with that goal reads
    [path_[0]] of the empty path. *)
Theorem plan_after_start_on_goal_reads_empty_path (fuel : nat) (s s1 : DStar D)
    costs goal r :
  fresh_goal s goal = true ->
  plan P fuel s costs goal goal = Ok (r, s1) ->
  path r = [] /\
  forall fuel' costs' start',
    plan P fuel' s1 costs' start' goal = Fault OutOfBounds.
Proof.
  intros Hf Hpl.
  destruct (plan_fresh_inv P fuel s s1 costs goal goal r Hf Hpl)
    as (Hg & s2 & s3 & Hl & He & -> & ->).
  destruct (search_start_ok P s costs goal Hg) as (Hc0 & Hp0 & Hgo0 & _).
  destruct (search_loop_steady P fuel _ s2 goal Hp0 Hl) as (Hg1 & _ & Hgo1 & _).
  assert (Hc1 : cells_ok P (set_path [] s2))
    by (by apply (cells_ok_geom P _ s2) in Hc0).
  destruct (extractPath_chain P fuel _ s3 goal goal Hc1 eq_refl He)
    as (_ & Hv & chain & Hpath & Hch).
  destruct (pred_chain_coords P _ goal goal chain Hc1 Hv Hch) as (_ & Hnil & _).
  rewrite (Hnil eq_refl) in Hpath.
  split; [done|]. intros fuel' costs' start'.
  apply extractPath_frame in He as [path E]. 
  assert (Hgo : fresh_goal s3 goal = false).
  { apply fresh_goal_false. rewrite E. simpl. congruence. }
  unfold plan. unfold fresh_goal in Hgo.
  change (goal_ (update_costmap P costs' s3)) with (goal_ s3). rewrite Hgo.
  unfold getState.
  change (path_ (update_costmap P costs' s3)) with (path_ s3).
  by rewrite Hpath.
Qed.

(** ** A fresh goal forgets the past *)

(** No step of the search reads the path: each commutes with replacing
    it. *)
Lemma store_set_path (s : DStar D) p n path :
  store p n (set_path path s) = set_path path (store p n s).
Proof. done. Qed.

Lemma insert_set_path (s : DStar D) p h path :
  insert p h (set_path path s) = set_path path (insert p h s).
Proof. done. Qed.

Lemma geom_eq_set_path (s : DStar D) path : geom_eq s (set_path path s).
Proof. split; [done|]. intros q. split; [done|]. by split. Qed.

Lemma raise_step_set_path (k_old : D) (s : DStar D) x y path :
  raise_step P k_old x (set_path path s) y
  = set_path path (raise_step P k_old x s y).
Proof.
  unfold raise_step.
  change (deref (set_path path s)) with (deref s).
  change (getCost P (set_path path s)) with (getCost P s).
  by destruct (_ && _).
Qed.

Lemma relink_set_path (s : DStar D) x y path :
  relink P x y (set_path path s) = set_path path (relink P x y s).
Proof. done. Qed.

Lemma lower_step_set_path (s : DStar D) x y path :
  lower_step P x (set_path path s) y = set_path path (lower_step P x s y).
Proof.
  unfold lower_step.
  change (stale_child P x y (set_path path s)) with (stale_child P x y s).
  change (improvable P x y (set_path path s)) with (improvable P x y s).
  by destruct (_ || _).
Qed.

Lemma raise_state_step_set_path (k_old : D) (s : DStar D) x y path :
  raise_state_step P k_old x (set_path path s) y
  = set_path path (raise_state_step P k_old x s y).
Proof.
  unfold raise_state_step.
  change (stale_child P x y (set_path path s)) with (stale_child P x y s).
  change (improvable P x y (set_path path s)) with (improvable P x y s).
  change (raised_closed P k_old x y (set_path path s))
    with (raised_closed P k_old x y s).
  destruct (stale_child P x y s); [done|].
  destruct (improvable P x y s); [done|].
  by destruct (raised_closed P k_old x y s).
Qed.

Lemma fold_left_set_path (step : DStar D -> DNodePtr -> DStar D) nbrs
    (s : DStar D) path :
  (forall s0 y, step (set_path path s0) y = set_path path (step s0 y)) ->
  fold_left step nbrs (set_path path s) = set_path path (fold_left step nbrs s).
Proof.
  intros Hstep. revert s. induction nbrs as [|y ys IH]; intros s; simpl; [done|].
  by rewrite Hstep, IH.
Qed.

Lemma processState_set_path (s : DStar D) path :
  processState P (set_path path s)
  = '(r, s') ← processState P s; Ok (r, set_path path s').
Proof.
  unfold processState.
  change (open_list_ (set_path path s)) with (open_list_ s).
  destruct (open_list_ s) as [|[k_old x] rest]; [done|].
  change (store x (DNode.set_tag CLOSED
                     (deref (set_open_list rest (set_path path s)) x))
            (set_open_list rest (set_path path s)))
    with (set_path path (popped x rest s)).
  change (store x (DNode.set_tag CLOSED (deref (set_open_list rest s) x))
            (set_open_list rest s)) with (popped x rest s).
  rewrite (geom_eq_getNeighbours P _ _ x
             (geom_eq_set_path (popped x rest s) path)).
  destruct (getNeighbours P (popped x rest s) x) as [nbrs| |]; simpl; [|done..].
  assert (E2 : raise_phase P k_old x nbrs (set_path path (popped x rest s))
               = set_path path (raise_phase P k_old x nbrs (popped x rest s))).
  { unfold raise_phase.
    change (deref (set_path path (popped x rest s))) with (deref (popped x rest s)).
    destruct (d_lt _ _); [|done]. apply fold_left_set_path.
    intros s0 y. apply raise_step_set_path. }
  rewrite E2.
  set (s2 := raise_phase P k_old x nbrs (popped x rest s)).
  assert (E3 : spread_phase P k_old x nbrs (set_path path s2)
               = set_path path (spread_phase P k_old x nbrs s2)).
  { unfold spread_phase.
    change (deref (set_path path s2)) with (deref s2).
    destruct (d_eq _ _); apply fold_left_set_path; intros s0 y.
    - apply lower_step_set_path.
    - apply raise_state_step_set_path. }
  by rewrite E3.
Qed.

Lemma search_loop_set_path (fuel : nat) (s : DStar D) start path :
  search_loop P fuel (set_path path s) start
  = s' ← search_loop P fuel s start; Ok (set_path path s').
Proof.
  revert s. induction fuel as [|fuel IH]; intros s; simpl; [done|].
  rewrite processState_set_path.
  destruct (processState P s) as [[r s1]| |]; simpl; [|done..].
  change (deref (set_path path s1)) with (deref s1).
  destruct (Tag_eqb _ _); [done|]. apply IH.
Qed.

(** X12.  A fresh-goal call of [plan] forgets the past: its result and the
    state it leaves depend on the cost map, the start and the goal it is
    given, and on nothing that earlier calls left in the planner. *)
Theorem plan_fresh_forgets_history (fuel : nat) (s_a s_b : DStar D) costs
    start goal :
  fresh_goal s_a goal = true ->
  fresh_goal s_b goal = true ->
  plan P fuel s_a costs start goal = plan P fuel s_b costs start goal.
Proof.
  intros Ha Hb.
  unfold plan. unfold fresh_goal in Ha, Hb.
  change (goal_ (update_costmap P costs s_a)) with (goal_ s_a).
  change (goal_ (update_costmap P costs s_b)) with (goal_ s_b).
  rewrite Ha, Hb.
  change (map_ (set_goal goal (reset P (update_costmap P costs s_a))))
    with (map_ (set_goal goal (reset P (update_costmap P costs s_b)))).
  destruct (map_ (set_goal goal (reset P (update_costmap P costs s_b))) !! start);
    [|done].
  destruct (map_ (set_goal goal (reset P (update_costmap P costs s_b))) !! goal);
    [|done].
  change (insert goal (d_of_int 0)
            (set_goal goal (reset P (update_costmap P costs s_a))))
    with (set_path (path_ s_a)
            (insert goal (d_of_int 0)
               (set_goal goal (reset P (update_costmap P costs
                                          (set_path [] s_a)))))).
  change (insert goal (d_of_int 0)
            (set_goal goal (reset P (update_costmap P costs s_b))))
    with (set_path (path_ s_b)
            (insert goal (d_of_int 0)
               (set_goal goal (reset P (update_costmap P costs
                                          (set_path [] s_a)))))).
  rewrite !search_loop_set_path.
  destruct (search_loop P fuel _ start) as [s1| |]; simpl; done.
Qed.

(** ** The search never settles a node of the last column or row *)

Lemma search_loop_closed (fuel : nat) (s s' : DStar D) start :
  search_loop P fuel s start = Ok s' -> DNode.tag (deref s' start) = CLOSED.
Proof.
  revert s. induction fuel as [|fuel IH]; intros s; simpl; [done|].
  destruct (processState P s) as [[r s1]| |]; simpl; try done.
  destruct (Tag_eqb (DNode.tag (deref s1 start)) CLOSED) eqn:Et; [|by apply IH].
  intros [= <-]. by destruct (DNode.tag (deref s1 start)).
Qed.

Lemma search_loop_runs (fuel : nat) (s s' : DStar D) start :
  search_loop P fuel s start = Ok s' ->
  exists r sa n, processState P s = Ok (r, sa) /\ processState_n P n sa = Ok s'.
Proof.
  destruct fuel as [|fuel]; simpl; [done|].
  destruct (processState P s) as [[r s1]| |]; simpl; try done.
  destruct (Tag_eqb _ _).
  - intros [= <-]. by exists r, s1, 0%nat.
  - intros Hl. apply search_loop_processState_n in Hl as (n & _ & Hn).
    by exists r, s1, n.
Qed.

Lemma search_start_open_list (s : DStar D) costs goal :
  valid (reset P (update_costmap P costs s)) goal ->
  open_list_ (search_start P s costs goal) = [(d_of_int 0, goal)].
Proof.
  intros Hv. unfold search_start. rewrite insert_open_list. simpl.
  set (s0 := set_goal goal (reset P (update_costmap P costs s))).
  unfold insert_key.
  assert (Ht : DNode.tag (deref s0 goal) = NEW).
  { change (deref s0 goal)
      with (deref (initMap P (set_open_list [] (update_costmap P costs s))) goal).
    by rewrite deref_initMap. }
  by rewrite Ht.
Qed.

Lemma insert_tag (s : DStar D) p h q :
  DNode.tag (deref (insert p h s) q) = CLOSED -> DNode.tag (deref s q) = CLOSED.
Proof.
  destruct (decide (p = q)) as [->|Hne].
  - by rewrite deref_insert_eq.
  - by rewrite deref_insert_ne.
Qed.

Lemma relink_tag (s : DStar D) x y q :
  DNode.tag (deref (relink P x y s) q) = CLOSED ->
  DNode.tag (deref s q) = CLOSED.
Proof.
  unfold relink. intros Ht%insert_tag.
  destruct (decide (y = q)) as [->|Hne].
  - by rewrite deref_store_eq in Ht.
  - by rewrite deref_store_ne in Ht.
Qed.

Lemma raise_step_tag (k_old : D) (s : DStar D) x y q :
  DNode.tag (deref (raise_step P k_old x s y) q) = DNode.tag (deref s q).
Proof.
  unfold raise_step. destruct (_ && _); [|done].
  destruct (decide (x = q)) as [->|Hne].
  - by rewrite !deref_store_eq.
  - by rewrite !deref_store_ne.
Qed.

Lemma lower_step_tag (s : DStar D) x y q :
  DNode.tag (deref (lower_step P x s y) q) = CLOSED ->
  DNode.tag (deref s q) = CLOSED.
Proof. unfold lower_step. destruct (_ || _); [apply relink_tag|done]. Qed.

Lemma raise_state_step_tag (k_old : D) (s : DStar D) x y q :
  DNode.tag (deref (raise_state_step P k_old x s y) q) = CLOSED ->
  DNode.tag (deref s q) = CLOSED.
Proof.
  unfold raise_state_step.
  destruct (stale_child P x y s); [apply relink_tag|].
  destruct (improvable P x y s); [apply insert_tag|].
  destruct (raised_closed P k_old x y s); [apply insert_tag|done].
Qed.

Lemma processState_closed_inside (s s' : DStar D) r :
  cells_ok P s -> ptrs_ok s -> closed_inside P s ->
  processState P s = Ok (r, s') ->
  closed_inside P s' /\
  (forall k_old x rest, open_list_ s = (k_old, x) :: rest -> off_upper_edge P x).
Proof.
  intros Hc Hok Hin Hps.
  destruct (open_list_ s) as [|[k_old x] rest] eqn:Hol.
  { rewrite (processState_empty P s Hol) in Hps. injection Hps as _ <-. done. }
  destruct (steady_popped s k_old x rest Hol Hok) as (Hg1 & _ & Hx).
  set (s1 := popped x rest s) in *.
  assert (Hc1 : cells_ok P s1) by (by apply (cells_ok_geom P s)).
  assert (Hx1 : valid s1 x) by (by apply (geom_eq_valid s)).
  destruct (getNeighbours P s1 x) as [nbrs| |] eqn:Hnb;
    [|unfold processState in Hps; rewrite Hol in Hps;
      change (store x (DNode.set_tag CLOSED (deref (set_open_list rest s) x))
                (set_open_list rest s)) with s1 in Hps;
      rewrite Hnb in Hps; done..].
  assert (Hxin : off_upper_edge P x).
  { destruct Hx as [m Hm]. destruct (Hc x m Hm) as [_ [Hx1' Hx2']].
    destruct (decide (fst x = nx_ P - 1 \/ snd x = ny_ P - 1)) as [He|He].
    - exfalso. by rewrite (getNeighbours_edge_fault s1 x Hc1 Hx1 He) in Hnb.
    - unfold off_upper_edge. lia. }
  split; [|by intros ? ? ? [= _ <- _]].
  rewrite (processState_unfold P s k_old x rest nbrs Hol Hnb) in Hps.
  injection Hps as _ <-. fold s1.
  set (J := fun s0 : DStar D =>
    forall p, DNode.tag (deref s0 p) = CLOSED -> DNode.tag (deref s1 p) = CLOSED).
  assert (H2 : J (raise_phase P k_old x nbrs s1)).
  { unfold raise_phase. destruct (d_lt _ _); [|by intros p Hp].
    apply fold_left_inv; [|by intros p Hp].
    intros s0 y Hs0 _ p. rewrite raise_step_tag. apply Hs0. }
  assert (H3 : J (spread_phase P k_old x nbrs (raise_phase P k_old x nbrs s1))).
  { unfold spread_phase.
    destruct (d_eq _ _); apply fold_left_inv; try exact H2.
    - intros s0 y Hs0 _ p Hp. by apply Hs0, (lower_step_tag s0 x y).
    - intros s0 y Hs0 _ p Hp. by apply Hs0, (raise_state_step_tag k_old s0 x y). }
  destruct (processState_steady P s _ _ Hok
              (processState_unfold P s k_old x rest nbrs Hol Hnb)) as (Hg & _).
  intros p Hp Ht. apply H3 in Ht. unfold s1 in Ht. rewrite deref_popped in Ht.
  destruct (decide (x = p)) as [<-|Hne]; [done|].
  apply Hin; [|done]. destruct Hg as [_ Hg]. by apply (Hg p).
Qed.

Lemma search_loop_closed_inside (fuel : nat) (s s' : DStar D) start :
  cells_ok P s -> ptrs_ok s -> closed_inside P s ->
  search_loop P fuel s start = Ok s' -> closed_inside P s'.
Proof.
  revert s. induction fuel as [|fuel IH]; intros s Hc Hok Hin; simpl; [done|].
  destruct (processState P s) as [[r s1]| |] eqn:Hps; simpl; try done.
  destruct (processState_closed_inside s s1 r Hc Hok Hin Hps) as [Hin1 _].
  destruct (processState_steady P s s1 r Hok Hps) as (Hg1 & Hp1 & _).
  destruct (Tag_eqb _ _); [by intros [= <-]|].
  apply IH; [by apply (cells_ok_geom P s)|done|done].
Qed.

(** X13.  A fresh-goal call of [plan] returns only when the start and the goal
    lie off the last column and the last row of the grid, and no node of its
    expansion set lies in them: the search cannot expand a node there. *)
Theorem fresh_plan_returns_off_upper_edge (fuel : nat) (s s' : DStar D) costs
    start goal r :
  fresh_goal s goal = true ->
  plan P fuel s costs start goal = Ok (r, s') ->
  off_upper_edge P start /\ off_upper_edge P goal /\
  Forall (fun n => off_upper_edge P (coords n)) (expand r).
Proof.
  intros Hf Hpl.
  destruct (plan_fresh_inv P fuel s s' costs start goal r Hf Hpl)
    as (Hg & s1 & s2 & Hl & He & -> & ->).
  set (s0 := search_start P s costs goal) in *.
  destruct (search_start_ok P s costs goal Hg) as (Hc0 & Hp0 & _).
  fold s0 in Hc0, Hp0.
  assert (Hin0 : closed_inside P s0).
  { intros p _ Ht. exfalso.
    destruct (search_start_deref P s costs goal p Hg) as [(_ & Et & _)|(_ & Et & _)];
      fold s0 in Et; congruence. }
  pose proof (search_loop_closed_inside fuel s0 s1 start Hc0 Hp0 Hin0 Hl) as Hin1.
  destruct (search_loop_steady P fuel s0 s1 start Hp0 Hl) as (Hg1 & _).
  assert (Hc1 : cells_ok P s1) by (by apply (cells_ok_geom P s0)).
  pose proof (search_loop_closed fuel s0 s1 start Hl) as Hts.
  assert (Hvs : valid s1 start).
  { unfold valid. unfold deref in Hts. by destruct (map_ s1 !! start). }
  pose proof (extractPath_frame fuel _ s2 start goal He) as [path E].
  assert (Hc2 : cells_ok P s2) by (by rewrite E).
  split; [by apply Hin1|]. split.
  - destruct (search_loop_runs fuel s0 s1 start Hl) as (r0 & sa & m & Hps & _).
    destruct (processState_closed_inside s0 sa r0 Hc0 Hp0 Hin0 Hps) as [_ Hx].
    apply (Hx (d_of_int 0) goal []). by apply search_start_open_list.
  - simpl. apply Forall_forall. intros n Hn.
    apply (elem_of_extractExpand s2 n Hc2) in Hn as (p & Hp & Ht & ->).
    rewrite E in Hp, Ht.
    destruct (cells_ok_deref P s1 p Hc1 Hp) as (Ex & Ey & _).
    assert (Ecp : coords (DNode.slice (deref s2 p)) = p).
    { rewrite E. unfold coords. simpl.
      change (deref (set_path path (set_path [] s1)) p) with (deref s1 p).
      rewrite Ex, Ey. by destruct p. }
    rewrite Ecp. by apply Hin1.
Qed.

End MoreFacts.

(** * Further properties that rest on the laws of double arithmetic *)

Section NearestOnPath.

Context {D : Type} `{DoubleLaws D}.

(** ** The nearest path element, when the cell is on the path *)


End NearestOnPath.

Section MoreLawfulFacts.

Context {D : Type} `{OrderLaws D}.
Variable P : Params D.

(** ** Costs stay non-negative *)

Lemma costs_nonneg_store (s : DStar D) p n :
  costs_nonneg s -> nonneg (DNode.cost n) -> costs_nonneg (store p n s).
Proof.
  intros Hn Hc q. destruct (decide (p = q)) as [->|Hne].
  - by rewrite deref_store_eq.
  - rewrite deref_store_ne by done. apply Hn.
Qed.

Lemma costs_nonneg_insert (s : DStar D) p h :
  costs_nonneg s -> nonneg h -> costs_nonneg (insert p h s).
Proof.
  intros Hn Hh q. destruct (decide (p = q)) as [->|Hne].
  - by rewrite deref_insert_eq.
  - rewrite deref_insert_ne by done. apply Hn.
Qed.

Lemma processState_costs_nonneg (s s' : DStar D) r :
  0 <= INF P -> ptrs_ok s -> costs_nonneg s ->
  processState P s = Ok (r, s') -> costs_nonneg s'.
Proof.
  intros HI Hok Hn Hps.
  apply (processState_preserves P costs_nonneg) with (s := s) (r := r); try done.
  - intros s0 k_old x rest Hs0 _ _ q.
    destruct (popped_fields s0 x rest q) as (-> & _). apply Hs0.
  - intros s0 k_old x y Hs0 _ _ _. unfold adopt. apply costs_nonneg_store; [done|].
    simpl. apply ord_add_nonneg; [apply Hs0|by apply getCost_nonneg].
  - intros s0 x y Hs0 _ _ _. unfold relink.
    assert (Hs1 : costs_nonneg
                   (store y (DNode.set_pid (DNode.id (deref s0 x)) (deref s0 y)) s0)).
    { apply costs_nonneg_store; [done|]. simpl. apply Hs0. }
    apply costs_nonneg_insert; [done|].
    apply ord_add_nonneg; [apply Hs1|by apply getCost_nonneg].
  - intros s0 x Hs0 _. apply costs_nonneg_insert; [done|apply Hs0].
Qed.

Lemma processState_front (s s' : DStar D) r :
  open_list_ s <> [] -> processState P s = Ok (r, s') -> r = front_key s'.
Proof.
  unfold processState. destruct (open_list_ s) as [|[k_old x] rest]; [done|].
  intros _. destruct (getNeighbours P _ x); simpl; [|done..].
  by intros [= <- <-].
Qed.

Lemma modify_loop_exit (fuel : nat) (s s' : DStar D) x :
  0 <= INF P ->
  d_le (d_of_int 0) (d_of_int (-1)) = false ->
  ptrs_ok s -> costs_nonneg s ->
  modify_loop P fuel s x = Ok s' ->
  costs_nonneg s' /\
  exists k q rest, open_list_ s' = (k, q) :: rest /\
                   d_le (DNode.cost (deref s' x)) k = true.
Proof.
  intros HI Hneg. revert s. induction fuel as [|fuel IH]; intros s Hok Hn;
    simpl; [done|].
  destruct (processState P s) as [[r s1]| |] eqn:Hps; simpl; try done.
  pose proof (processState_costs_nonneg s s1 r HI Hok Hn Hps) as Hn1.
  destruct (processState_steady P s s1 r Hok Hps) as (_ & Hp1 & _).
  destruct r as [k_min|]; [|done].
  destruct (d_le (DNode.cost (deref s1 x)) k_min) eqn:Hle; [|by apply IH].
  intros [= <-]. split; [done|].
  destruct (open_list_ s) as [|e l] eqn:Hol.
  - rewrite (processState_empty P s Hol) in Hps. injection Hps as <- <-.
    assert (Ht : d_le (d_of_int 0) (d_of_int (-1) : D) = true)
      by (apply (ord_le_trans _ (DNode.cost (deref s x))); [apply Hn|done]).
    congruence.
  - assert (Hne : open_list_ s <> []) by (by rewrite Hol).
    pose proof (processState_front s s1 (Key k_min) Hne Hps) as Hf.
    unfold front_key in Hf. destruct (open_list_ s1) as [|[k q] rest]; [done|].
    injection Hf as ->. by exists k, q, rest.
Qed.

Lemma plan_fresh_costs_nonneg (fuel : nat) (s s' : DStar D) costs start goal r :
  0 <= INF P -> index_not_sentinel P ->
  fresh_goal s goal = true ->
  plan P fuel s costs start goal = Ok (r, s') ->
  costs_nonneg s'.
Proof.
  intros HI Hns Hf Hpl.
  destruct (plan_fresh_inv P fuel s s' costs start goal r Hf Hpl)
    as (Hg & s1 & s2 & Hl & He & -> & ->).
  destruct (search_loop_processState_n P fuel _ s1 start Hl) as (n & _ & Hrun).
  destruct (search_start_ok P s costs goal Hg) as (_ & Hp0 & _).
  pose proof (search_start_goal_inv P s costs goal HI Hg) as Hgi0.
  destruct (processState_n_goal_inv P goal n _ s1 HI Hns Hp0 Hgi0 Hrun)
    as [(_ & _ & Hn1 & _) _].
  apply extractPath_frame in He as [path ->]. exact Hn1.
Qed.

(** X15.  When [modify(x, y)] returns, the open list is not empty and the key
    at its front is not below the cost of [x]; costs are non-negative, as they
    were. (The key -1 that [processState] returns for an empty list is below
    every cost, so the loop does not leave on it.) *)
Theorem modify_returns_with_key_above_cost (fuel : nat) (s s' : DStar D) x y :
  0 <= INF P ->
  d_le (d_of_int 0) (d_of_int (-1)) = false ->
  ptrs_ok s -> valid s x -> costs_nonneg s ->
  modify P fuel s x y = Ok s' ->
  costs_nonneg s' /\
  exists k q rest, open_list_ s' = (k, q) :: rest /\
                   d_le (DNode.cost (deref s' x)) k = true.
Proof.
  intros HI Hneg Hok Hx Hn. unfold modify.
  destruct (Tag_eqb _ _); [|by apply modify_loop_exit].
  apply modify_loop_exit; [done|done|by apply ptrs_ok_insert|].
  apply costs_nonneg_insert; [done|].
  apply ord_add_nonneg; [apply Hn|by apply getCost_nonneg].
Qed.

(** ** The goal node, over all calls *)

Lemma goal_inv_insert_other (goal : Z * Z) (s : DStar D) x h :
  goal_inv P goal s -> valid s x -> x <> goal -> nonneg h ->
  goal_inv P goal (insert x h s).
Proof.
  intros (Hc & Hg & Hn & Hs) Hx Hne Hh.
  assert (Hge : geom_eq s (insert x h s)) by (by apply geom_eq_insert).
  split; [by apply (cells_ok_geom P s)|].
  split; [by apply (geom_eq_valid s)|].
  split; [by apply costs_nonneg_insert|].
  unfold goal_settled. by rewrite deref_insert_ne.
Qed.

Lemma modify_loop_goal_inv (goal : Z * Z) (fuel : nat) (s s' : DStar D) x :
  0 <= INF P -> index_not_sentinel P ->
  ptrs_ok s -> goal_inv P goal s ->
  modify_loop P fuel s x = Ok s' ->
  goal_inv P goal s' /\ ptrs_ok s'.
Proof.
  intros HI Hns. revert s. induction fuel as [|fuel IH]; intros s Hok Hinv;
    simpl; [done|].
  destruct (processState P s) as [[r s1]| |] eqn:Hps; simpl; try done.
  pose proof (processState_goal_inv P goal s s1 r HI Hns Hok Hinv Hps) as Hinv1.
  destruct (processState_steady P s s1 r Hok Hps) as (_ & Hp1 & _).
  destruct r as [k_min|]; [|done].
  destruct (d_le _ _); [by intros [= <-]|by apply IH].
Qed.

Lemma walk_goal_inv (goal : Z * Z) (fuel n : nat) (s s' : DStar D) x :
  0 <= INF P -> index_not_sentinel P ->
  ptrs_ok s -> goal_inv P goal s -> valid s x ->
  walk P fuel n s x = Ok s' ->
  goal_inv P goal s' /\ ptrs_ok s'.
Proof.
  intros HI Hns. revert s x.
  induction n as [|n IH]; intros s x Hok Hinv Hx; simpl.
  { by intros [= <-]. }
  destruct (DNode.pid (deref s x) =? -1) eqn:Epid.
  { by intros [= <-]. }
  destruct (map_ s !! index2Grid P (DNode.pid (deref s x))) as [m|] eqn:Hy;
    [|done].
  destruct (isCollision P s x _).
  - destruct (modify P fuel s x _) as [s1| |] eqn:Hm; simpl; try done.
    destruct (modify_steady P fuel s s1 x _ Hok Hx Hm) as (Hg1 & _).
    assert (Hxg : x <> goal).
    { intros ->. destruct Hinv as (_ & _ & _ & _ & Egp & _).
      rewrite Egp in Epid. done. }
    assert (H1 : goal_inv P goal s1 /\ ptrs_ok s1).
    { unfold modify in Hm. destruct (Tag_eqb _ _).
      - refine (modify_loop_goal_inv goal fuel _ s1 x HI Hns _ _ Hm);
          [by apply ptrs_ok_insert|].
        apply goal_inv_insert_other; [done|done|done|].
        destruct Hinv as (_ & _ & Hn & _).
        apply ord_add_nonneg; [apply Hn|by apply getCost_nonneg].
      - by apply (modify_loop_goal_inv goal fuel s s1 x). }
    destruct H1 as [Hinv1 Hp1].
    apply IH; [done|done|by apply (geom_eq_valid s)].
  - apply IH; [done|done|by eexists].
Qed.

Lemma plan_fresh_goal_inv (goal : Z * Z) (fuel : nat) (s s' : DStar D) costs
    start r :
  0 <= INF P -> index_not_sentinel P ->
  fresh_goal s goal = true ->
  plan P fuel s costs start goal = Ok (r, s') ->
  goal_inv P goal s'.
Proof.
  intros HI Hns Hf Hpl.
  destruct (plan_fresh_inv P fuel s s' costs start goal r Hf Hpl)
    as (Hg & s1 & s2 & Hl & He & -> & ->).
  destruct (search_loop_processState_n P fuel _ s1 start Hl) as (n & _ & Hrun).
  destruct (search_start_ok P s costs goal Hg) as (_ & Hp0 & _).
  pose proof (search_start_goal_inv P s costs goal HI Hg) as Hgi0.
  destruct (processState_n_goal_inv P goal n _ s1 HI Hns Hp0 Hgi0 Hrun)
    as [Hinv1 _].
  apply extractPath_frame in He as [path ->]. exact Hinv1.
Qed.

(** X16.  The goal node stays settled over the life of the planner: when a
    call of [plan] returns, the node of its goal cell has cost 0 and no
    predecessor, after a fresh-goal call and, if it was so before, after a
    same-goal call with its repairs as well. *)
Theorem plan_keeps_goal_settled (fuel : nat) (s s' : DStar D) costs
    start goal r :
  0 <= INF P -> index_not_sentinel P ->
  well_formed P s ->
  (fresh_goal s goal = false -> goal_inv P goal s) ->
  plan P fuel s costs start goal = Ok (r, s') ->
  goal_inv P goal s' /\
  DNode.cost (deref s' goal) = d_of_int 0 /\
  DNode.pid (deref s' goal) = -1.
Proof.
  intros HI Hns Hwf Hold Hpl.
  assert (Hinv : goal_inv P goal s').
  { destruct (fresh_goal s goal) eqn:Hf.
    - by apply (plan_fresh_goal_inv goal fuel s s' costs start r).
    - destruct (plan_same_inv P fuel s s' costs start goal r Hf Hpl)
        as (state & s1 & s2 & Hst & Hv & Hw & He & -> & ->).
      destruct Hwf as (_ & _ & Hp).
      destruct (walk_goal_inv goal fuel _ (update_costmap P costs s) s1 state
                  HI Hns Hp (Hold eq_refl) Hv Hw) as [Hinv1 _].
      apply extractPath_frame in He as [path ->]. exact Hinv1. }
  split; [done|]. by destruct Hinv as (_ & _ & _ & ? & ? & _).
Qed.

(** ** A node expanded in LOWER state *)

Lemma costs_nonneg_relink (s : DStar D) x y :
  0 <= INF P -> costs_nonneg s -> costs_nonneg (relink P x y s).
Proof.
  intros HI Hn. unfold relink.
  assert (Hn1 : costs_nonneg
                  (store y (DNode.set_pid (DNode.id (deref s x)) (deref s y)) s)).
  { apply costs_nonneg_store; [done|]. simpl. apply Hn. }
  apply costs_nonneg_insert; [done|].
  apply ord_add_nonneg; [apply Hn1|by apply getCost_nonneg].
Qed.

Lemma lower_step_lowered (s : DStar D) x y done_ :
  0 <= INF P -> cells_ok P s -> costs_nonneg s ->
  valid s x -> enumerated P s x y -> y ∉ done_ ->
  Forall (lowered P x s) done_ ->
  geom_eq s (lower_step P x s y) /\
  costs_nonneg (lower_step P x s y) /\
  deref (lower_step P x s y) x = deref s x /\
  Forall (lowered P x (lower_step P x s y)) (done_ ++ [y]).
Proof.
  intros HI Hc Hn Hx Hen Hnin Hdone.
  assert (Hxy : x <> y) by (by apply (enumerated_ne P s)).
  assert (Hy : valid s y) by (by destruct Hen).
  assert (Hvn : nonneg (via P x y s)) by (by apply via_nonneg).
  unfold lower_step.
  destruct (stale_child P x y s || improvable P x y s) eqn:Ec.
  - assert (Hg : geom_eq s (relink P x y s)) by (by apply steady_relink).
    assert (Ex : deref (relink P x y s) x = deref s x)
      by (by apply deref_relink_ne).
    assert (Hvia : forall q, via P x q (relink P x y s) = via P x q s).
    { intros q. apply via_carry; [done|]. by rewrite Ex. }
    split; [done|]. split; [by apply costs_nonneg_relink|]. split; [done|].
    apply Forall_app. split.
    + apply Forall_forall. intros q Hq.
      assert (Hqy : q <> y) by (intros ->; done).
      rewrite Forall_forall in Hdone. destruct (Hdone q Hq) as (H1 & H2 & H3).
      unfold lowered. rewrite Hvia, Ex, (deref_relink_ne P s x y q Hqy). done.
    + apply Forall_singleton. unfold lowered.
      rewrite Hvia, Ex, (deref_relink_eq P s x y Hy Hxy). simpl.
      split; [done|]. split; [by apply ord_le_refl|]. intros _. by apply d_eq_refl.
  - apply orb_false_iff in Ec as [Es Ei].
    split; [apply geom_eq_refl|]. split; [done|]. split; [done|].
    apply Forall_app. split; [done|]. apply Forall_singleton.
    unfold stale_child in Es. apply orb_false_iff in Es as [Enew Epid].
    unfold improvable in Ei.
    split; [by destruct (DNode.tag (deref s y))|].
    destruct (Z.eqb_spec (DNode.pid (deref s y)) (DNode.id (deref s x))) as [E|E].
    + simpl in Epid. apply negb_false_iff in Epid.
      split; [|done].
      rewrite ord_eq_le in Epid by (apply Hn || done).
      by apply andb_true_iff in Epid as [? _].
    + simpl in Ei. split; [|done]. apply lt_false_le; [done|apply Hn|done].
Qed.

Lemma lower_fold_lowered (s : DStar D) x nbrs :
  0 <= INF P -> cells_ok P s -> costs_nonneg s -> valid s x ->
  Forall (enumerated P s x) nbrs -> NoDup nbrs ->
  deref (fold_left (lower_step P x) nbrs s) x = deref s x /\
  Forall (lowered P x (fold_left (lower_step P x) nbrs s)) nbrs.
Proof.
  intros HI Hc Hn Hx Hen Hnd.
  assert (Hgen : forall done_ s0,
    cells_ok P s0 -> costs_nonneg s0 -> valid s0 x ->
    Forall (enumerated P s0 x) nbrs ->
    (forall y, y ∈ nbrs -> y ∉ done_) ->
    Forall (lowered P x s0) done_ ->
    deref (fold_left (lower_step P x) nbrs s0) x = deref s0 x /\
    Forall (lowered P x (fold_left (lower_step P x) nbrs s0)) (done_ ++ nbrs)).
  { clear Hc Hn Hx Hen.
    induction nbrs as [|y ys IH]; intros done_ s0 Hc Hn Hx Hen Hfresh Hdone;
      simpl.
    - by rewrite app_nil_r.
    - apply Forall_cons_1 in Hen as [Hy Hys].
      apply NoDup_cons in Hnd as [Hyys Hnd].
      destruct (lower_step_lowered s0 x y done_ HI Hc Hn Hx Hy
                  (Hfresh y ltac:(by left)) Hdone) as (Hg & Hn' & Ex & Hl).
      destruct (IH Hnd (done_ ++ [y]) (lower_step P x s0 y)) as [E1 E2].
      + by apply (cells_ok_geom P s0).
      + done.
      + by apply (geom_eq_valid s0).
      + eapply Forall_impl; [exact Hys|]. intros q. by apply enumerated_geom.
      + intros q Hq Hin. apply elem_of_app in Hin as [Hin|Hin].
        * by apply (Hfresh q ltac:(by right)).
        * apply list_elem_of_singleton in Hin as ->. done.
      + done.
      + split; [by rewrite E1|]. by rewrite <- app_assoc in E2. }
  apply (Hgen [] s); try done. intros y _ Hin. by apply elem_of_nil in Hin.
Qed.

(** X17.  A node popped in LOWER state (its key equals its cost) lowers all
    its neighbours: after the call every cell of the grid that is among the
    eight around it and not in collision with it holds a node that has been
    queued, that costs no more than the popped node's cost plus the edge
    cost, and that costs just that if the popped node is its predecessor;
    the popped node keeps its cost and predecessor and is left CLOSED. *)
Theorem lower_state_lowers_neighbours (s s' : DStar D) r k_old x rest :
  0 <= INF P ->
  cells_ok P s -> ptrs_ok s -> costs_nonneg s -> nonneg k_old ->
  open_list_ s = (k_old, x) :: rest ->
  d_eq k_old (DNode.cost (deref s x)) = true ->
  processState P s = Ok (r, s') ->
  DNode.cost (deref s' x) = DNode.cost (deref s x) /\
  DNode.pid (deref s' x) = DNode.pid (deref s x) /\
  DNode.tag (deref s' x) = CLOSED /\
  forall y, in_grid P y -> adjacent8 x y -> isCollision P s x y = false ->
    lowered P x s' y.
Proof.
  intros HI Hc Hok Hn Hk Hol Heq Hps.
  destruct (steady_popped s k_old x rest Hol Hok) as (Hg1 & _ & Hx).
  set (s1 := popped x rest s) in *.
  assert (Hc1 : cells_ok P s1) by (by apply (cells_ok_geom P s)).
  assert (Hx1 : valid s1 x) by (by apply (geom_eq_valid s)).
  assert (Hn1 : costs_nonneg s1).
  { intros q. unfold s1. destruct (popped_fields s x rest q) as (-> & _).
    apply Hn. }
  destruct (getNeighbours P s1 x) as [nbrs| |] eqn:Hnb;
    [|unfold processState in Hps; rewrite Hol in Hps;
      change (store x (DNode.set_tag CLOSED (deref (set_open_list rest s) x))
                (set_open_list rest s)) with s1 in Hps;
      rewrite Hnb in Hps; done..].
  rewrite (processState_unfold P s k_old x rest nbrs Hol Hnb) in Hps.
  injection Hps as _ <-. fold s1.
  destruct (popped_fields s x rest x) as (Ecx & Epx & _ & _ & Etx).
  fold s1 in Ecx, Epx, Etx.
  assert (Hle : d_le (DNode.cost (deref s x)) k_old = true).
  { rewrite ord_eq_le in Heq by (done || apply Hn).
    by apply andb_true_iff in Heq as [_ ?]. }
  unfold raise_phase.
  rewrite Ecx, (le_lt_false _ _ (Hn x) Hk Hle).
  unfold spread_phase. rewrite Ecx, Heq.
  destruct (lower_fold_lowered s1 x nbrs HI Hc1 Hn1 Hx1
              (getNeighbours_enumerated P s1 x nbrs Hnb)
              (getNeighbours_NoDup P s1 x nbrs Hc1 Hx1 Hnb)) as [Ex Hl].
  rewrite Ex, Ecx, Epx, Etx.
  split; [done|]. split; [done|].
  split; [by destruct (decide (x = x))|].
  intros y Hin Hadj Hcol. rewrite Forall_forall in Hl. apply Hl.
  apply (getNeighbours_complete P s1 x nbrs y); try done.
  by rewrite (geom_eq_isCollision P s s1).
Qed.

(** ** The backward search of a fresh goal *)

Lemma lower_step_cases (b : D) (x y : DNodePtr) (s : DStar D) :
  0 <= INF P -> expanding P b x s -> enumerated P s x y ->
  lower_step P x s y = s \/
  (DNode.tag (deref s y) <> CLOSED /\
   lower_step P x s y = relink P x y s /\
   requeued x y (via P x y s) s (relink P x y s)).
Proof.
  intros HI Hexp Hen.
  pose proof Hexp as (Hfr & Hex & Hx & Htx & Hbx & Hm2).
  destruct Hfr as (Hc & Hp & Hn & Hb & Hso & Hab & Hent & Hop & Hcb & Hpc).
  assert (Hxy : x <> y) by (by apply (enumerated_ne P s)).
  assert (Hy : valid s y) by (by destruct Hen).
  assert (Hvn : nonneg (via P x y s)) by (by apply via_nonneg).
  pose proof (pid_eqb_via P b s x y HI Hexp) as Hpe.
  unfold lower_step.
  destruct (stale_child P x y s || improvable P x y s) eqn:Ec; [right|by left].
  assert (Hcases :
    DNode.tag (deref s y) <> CLOSED /\
    (DNode.tag (deref s y) = OPEN ->
       d_lt (via P x y s) (DNode.cost (deref s y)) = true)).
  { unfold stale_child, improvable in Ec. rewrite Hpe in Ec.
    destruct (DNode.tag (deref s y)) eqn:Et; simpl in Ec.
    - split; done.
    - apply andb_true_iff in Ec as [_ Ec]. split; done.
    - apply andb_true_iff in Ec as [_ Ec]. exfalso.
      rewrite (le_lt_false (DNode.cost (deref s y)) (via P x y s)) in Ec;
        [done|apply Hn|done|].
      apply (ord_le_trans _ b); [by apply Hcb|].
      apply (ord_le_trans _ (DNode.cost (deref s x))); [done|].
      apply ord_add_le; [apply Hn|by apply getCost_nonneg]. }
  destruct Hcases as [Hncl Hopen].
  split; [done|]. split; [done|]. apply relink_requeued; [done|done|].
  unfold insert_key. destruct (DNode.tag (deref s y)) eqn:Et; [done| |done].
  destruct (Hop y Et) as [-> _]. apply d_min_lt. by apply Hopen.
Qed.

(** A proof rule for the LOWER loop over the neighbours of a node that
    is being expanded for the first time. *)
Lemma lower_fold_inv (J : DStar D -> Prop) (b : D) (x : DNodePtr) nbrs
    (s : DStar D) :
  0 <= INF P -> index_roundtrip P -> index_not_sentinel P ->
  (forall s0 y, expanding P b x s0 -> enumerated P s0 x y -> J s0 ->
     DNode.tag (deref s0 y) <> CLOSED ->
     requeued x y (via P x y s0) s0 (relink P x y s0) ->
     J (relink P x y s0)) ->
  expanding P b x s -> Forall (enumerated P s x) nbrs -> J s ->
  J (fold_left (lower_step P x) nbrs s).
Proof.
  intros HI Hrt Hns Hstep. revert s.
  induction nbrs as [|y ys IH]; intros s Hexp Hen HJ; simpl; [done|].
  apply Forall_cons_1 in Hen as [Hy Hys].
  destruct (lower_step_expanding P b x y s HI Hrt Hns Hexp Hy)
    as (H1 & _ & _ & H4).
  apply IH; [done| |].
  - eapply Forall_impl; [exact Hys|]. intros q. by apply enumerated_geom.
  - destruct (lower_step_cases b x y s HI Hexp Hy) as [->|(Hncl & -> & Hrq)];
      [done|]. by apply Hstep.
Qed.

(** What one call of [processState] does in the search of a fresh goal:
    it serves the neighbours of a node popped for the first time, or
    drops a stale entry of a node expanded before. *)
Lemma processState_fresh_step (b k_old : D) (s s' : DStar D) x rest r :
  0 <= INF P -> index_roundtrip P -> index_not_sentinel P ->
  search_inv P b s -> open_list_ s = (k_old, x) :: rest ->
  processState P s = Ok (r, s') ->
  valid s x /\ DNode.tag (deref s x) <> NEW /\
  exists nbrs,
    Forall (enumerated P (popped x rest s) x) nbrs /\
    ((DNode.tag (deref s x) = OPEN /\
      expanding P k_old x (popped x rest s) /\
      s' = fold_left (lower_step P x) nbrs (popped x rest s)) \/
     (DNode.tag (deref s x) = CLOSED /\ s' = set_open_list rest s)).
Proof.
  intros HI Hrt Hns Hinv Hol Hps.
  destruct (pop_frame P b k_old s x rest Hinv Hol)
    as (Hfr & Hex & Hx & Hk & Htn & Hcx & Hrest).
  split; [done|]. split; [done|].
  set (s1 := popped x rest s) in *.
  assert (Hg1 : geom_eq s s1) by (by apply geom_eq_popped).
  destruct (getNeighbours P s1 x) as [nbrs| |] eqn:Hnb;
    [|unfold processState in Hps; rewrite Hol in Hps;
      change (store x (DNode.set_tag CLOSED (deref (set_open_list rest s) x))
                (set_open_list rest s)) with s1 in Hps;
      rewrite Hnb in Hps; done..].
  rewrite (processState_unfold P s k_old x rest nbrs Hol Hnb) in Hps.
  injection Hps as _ <-. fold s1.
  pose proof (getNeighbours_enumerated P s1 x nbrs Hnb) as Hen.
  exists nbrs. split; [done|].
  destruct (popped_fields s x rest x) as (Ec & _). fold s1 in Ec.
  destruct (DNode.tag (deref s x)) eqn:Etx; [done|left|right].
  - destruct (pop_open P b k_old s x rest Hns Hinv Hol Etx) as (Hexp & Hlt & Heq).
    fold s1 in Hexp, Hlt, Heq.
    unfold raise_phase. rewrite Hlt. unfold spread_phase. by rewrite Heq.
  - split; [done|].
    destruct Hinv as [Hfr0 Hex0].
    assert (Hnbs : getNeighbours P s x = Ok nbrs)
      by (by rewrite <- (geom_eq_getNeighbours P s s1)).
    assert (Hsv : Forall (served P x s1) nbrs).
    { eapply Forall_impl; [exact (Hex0 x nbrs ltac:(done) Hx Etx Hnbs)|].
      intros q. by apply served_popped. }
    pose proof Hfr as (Hc & Hp & Hn & Hb & Hso & Hab & Hent & Hop & Hcb & Hpc).
    assert (Hlt : d_lt k_old (DNode.cost (deref s1 x)) = false).
    { rewrite Ec. apply le_lt_false; [apply Hfr0|done|done]. }
    unfold raise_phase. rewrite Hlt. unfold spread_phase.
    assert (Hidle : forall step,
      (forall y, served P x s1 y -> step s1 y = s1) ->
      fold_left step nbrs s1 = s1).
    { intros step Hstep. apply fold_left_idle.
      eapply Forall_impl; [exact Hsv|]. done. }
    assert (Es1 : s1 = set_open_list rest s) by (by apply popped_closed).
    destruct (d_eq k_old (DNode.cost (deref s1 x))).
    + rewrite Hidle; [done|]. intros y. by apply lower_step_idle.
    + rewrite Hidle; [done|]. intros y. by apply raise_state_step_idle.
Qed.

Lemma enumerated_adjacent (s : DStar D) x q :
  cells_ok P s -> valid s x -> enumerated P s x q ->
  in_grid P q /\ adjacent8 x q /\ isCollision P s x q = false.
Proof.
  intros Hc Hx ([n Hq] & Hcol & (i & j & Hi & Hj & Hij & Eq) & _).
  destruct (Hc q n Hq) as [_ Hin].
  destruct (cells_ok_deref P s x Hc Hx) as (Ex & Ey & _).
  rewrite Ex, Ey in Eq. subst q. simpl in *.
  split; [done|]. split; [|done].
  unfold adjacent8. simpl. split; [lia|]. split; [lia|].
  intros E. apply Hij. rewrite (surjective_pairing x) in E.
  injection E as E1 E2. f_equal; lia.
Qed.

Lemma links_ok_popped (goal : Z * Z) (s : DStar D) x rest :
  links_ok P goal s -> valid s x -> DNode.tag (deref s x) <> NEW ->
  links_ok P goal (popped x rest s).
Proof.
  intros Hl Hx Htx q Hq Ht Hne.
  pose proof (geom_eq_popped s x rest Hx) as Hg.
  assert (Hq0 : valid s q) by (destruct Hg as [_ Hg]; by apply (Hg q)).
  assert (Ht0 : DNode.tag (deref s q) <> NEW).
  { destruct (popped_fields s x rest q) as (_ & _ & _ & _ & E).
    rewrite E in Ht. by destruct (decide (x = q)) as [<-|]. }
  destruct (Hl q Hq0 Ht0 Hne) as (p & Hp & Hen & Hpid & Hcost).
  exists p. split; [by apply (geom_eq_valid s)|].
  split; [by apply (enumerated_geom P s)|].
  destruct (popped_fields s x rest q) as (-> & -> & _).
  destruct (popped_fields s x rest p) as (_ & _ & -> & _).
  by rewrite via_popped.
Qed.

Lemma links_ok_requeued (goal : Z * Z) (s s' : DStar D) x y :
  cells_ok P s -> parents_closed s -> links_ok P goal s ->
  valid s x -> enumerated P s x y ->
  DNode.tag (deref s y) <> CLOSED ->
  requeued x y (via P x y s) s s' ->
  links_ok P goal s'.
Proof.
  intros Hc Hpc Hl Hx Hen Hncl (Hg & Hoff & Hty & Hcy & _ & Hpy & _) q Hq Ht Hne.
  assert (Hxy : x <> y) by (by apply (enumerated_ne P s)).
  destruct (decide (q = y)) as [->|Hqy].
  - exists x. split; [by apply (geom_eq_valid s)|].
    split; [by apply (enumerated_geom P s)|].
    rewrite (Hoff x Hxy). split; [done|].
    rewrite Hcy. symmetry. apply via_carry; [done|]. by rewrite (Hoff x Hxy).
  - rewrite (Hoff q Hqy) in Ht |- *.
    assert (Hq0 : valid s q) by (destruct Hg as [_ Hg]; by apply (Hg q)).
    destruct (Hl q Hq0 Ht Hne) as (p & Hp & Hep & Hpid & Hcost).
    assert (Hpy' : p <> y).
    { intros ->. apply Hncl. by apply (Hpc y q). }
    exists p. split; [by apply (geom_eq_valid s)|].
    split; [by apply (enumerated_geom P s)|].
    rewrite (Hoff p Hpy'). split; [done|].
    rewrite Hcost. symmetry. apply via_carry; [done|]. by rewrite (Hoff p Hpy').
Qed.

Lemma processState_fresh_keeps (goal : Z * Z) (b k_old : D) (s s' : DStar D)
    x rest r :
  0 <= INF P -> index_roundtrip P -> index_not_sentinel P ->
  search_inv P b s -> links_ok P goal s ->
  open_list_ s = (k_old, x) :: rest ->
  processState P s = Ok (r, s') ->
  search_inv P k_old s' /\ links_ok P goal s' /\
  (forall p, DNode.tag (deref s p) = CLOSED -> deref s' p = deref s p) /\
  DNode.tag (deref s' x) = CLOSED.
Proof.
  intros HI Hrt Hns Hinv Hl Hol Hps.
  split; [by apply (processState_search_inv P b k_old s s' x rest r)|].
  destruct (processState_fresh_step b k_old s s' x rest r HI Hrt Hns Hinv Hol Hps)
    as (Hx & Htn & nbrs & Hen & [(Hto & Hexp & ->)|(Htc & ->)]).
  - set (s1 := popped x rest s) in *.
    pose proof (links_ok_popped goal s x rest Hl Hx Htn) as Hl1. fold s1 in Hl1.
    pose proof (lower_fold_inv
      (fun s0 => links_ok P goal s0 /\ forall p, DNode.tag (deref s1 p) = CLOSED ->
                                        deref s0 p = deref s1 p)
      k_old x nbrs s1 HI Hrt Hns) as Hfold.
    destruct Hfold as [Hl' Hkeep]; try done.
    + intros s0 y He0 Hy0 [Hl0 Hk0] Hncl Hrq.
      pose proof He0 as (Hfr0 & _ & Hx0 & _).
      destruct Hfr0 as (Hc0 & _ & _ & _ & _ & _ & _ & _ & _ & Hpc0).
      split; [by apply (links_ok_requeued goal s0 _ x y)|].
      intros p Hp. rewrite <- (Hk0 p Hp).
      destruct Hrq as (_ & Hoff & _). apply Hoff. intros ->.
      apply Hncl. by rewrite (Hk0 y Hp).
    + split; [done|]. split.
      * intros p Hp. assert (Hpx : x <> p) by (intros <-; congruence).
        rewrite Hkeep.
        -- unfold s1. rewrite deref_popped. by destruct (decide (x = p)).
        -- unfold s1. rewrite deref_popped. by destruct (decide (x = p)).
      * rewrite Hkeep.
        -- unfold s1. rewrite deref_popped. by destruct (decide (x = x)).
        -- unfold s1. rewrite deref_popped. by destruct (decide (x = x)).
  - split; [|split; [done|done]].
    intros q Hq Ht Hne. destruct (Hl q Hq Ht Hne) as (p & Hp & Hep & Hpid & Hcost).
    exists p. split; [done|]. split; [|done].
    apply (enumerated_geom P s); [|done]. apply geom_eq_set_open_list.
Qed.

Lemma processState_n_fresh (goal : Z * Z) (n : nat) (b : D) (s s' : DStar D) :
  0 <= INF P -> index_roundtrip P -> index_not_sentinel P ->
  search_inv P b s -> links_ok P goal s ->
  processState_n P n s = Ok s' ->
  (exists b', search_inv P b' s') /\ links_ok P goal s' /\
  (forall p, DNode.tag (deref s p) = CLOSED -> deref s' p = deref s p).
Proof.
  intros HI Hrt Hns. revert b s.
  induction n as [|n IH]; intros b s Hinv Hl; simpl.
  { intros [= <-]. split; [by exists b|done]. }
  destruct (processState P s) as [[r s1]| |] eqn:Hps; simpl; try done.
  intros Hrun. destruct (open_list_ s) as [|[k_old x] rest] eqn:Hol.
  - rewrite (processState_empty P s Hol) in Hps. injection Hps as _ <-.
    by apply (IH b).
  - destruct (processState_fresh_keeps goal b k_old s s1 x rest r
                HI Hrt Hns Hinv Hl Hol Hps) as (Hinv1 & Hl1 & Hk1 & _).
    destruct (IH k_old s1 Hinv1 Hl1 Hrun) as (Hb & Hl2 & Hk2).
    split; [done|]. split; [done|].
    intros p Hp. rewrite Hk2; [by apply Hk1|]. by rewrite Hk1.
Qed.

Lemma search_start_links_ok (s : DStar D) costs goal :
  valid (reset P (update_costmap P costs s)) goal ->
  links_ok P goal (search_start P s costs goal).
Proof.
  intros Hv q _ Ht Hne. exfalso.
  destruct (search_start_deref P s costs goal q Hv) as [(-> & _)|(_ & Et & _)];
    done.
Qed.

(** X18.  In the search of a fresh goal, after any number of [processState]
    calls: no node tagged CLOSED costs more than a key still in the open list,
    and every node tagged OPEN is in the open list with its cost as key. *)
Theorem fresh_search_settles_below_queue (s s' : DStar D) costs goal (n : nat) :
  0 <= INF P -> index_roundtrip P -> index_not_sentinel P ->
  valid (reset P (update_costmap P costs s)) goal ->
  processState_n P n (search_start P s costs goal) = Ok s' ->
  (forall p e, DNode.tag (deref s' p) = CLOSED -> e ∈ open_list_ s' ->
     d_le (DNode.cost (deref s' p)) (fst e) = true) /\
  (forall p, DNode.tag (deref s' p) = OPEN ->
     (DNode.cost (deref s' p), p) ∈ open_list_ s').
Proof.
  intros HI Hrt Hns Hv Hrun.
  pose proof (search_start_inv P s costs goal HI Hns Hv) as Hinv.
  pose proof (search_start_links_ok s costs goal Hv) as Hl.
  destruct (processState_n_fresh goal n _ _ s' HI Hrt Hns Hinv Hl Hrun)
    as ([b' [Hfr _]] & _).
  destruct Hfr as (_ & _ & _ & _ & _ & Hab & _ & Hop & Hcb & _).
  split.
  - intros p e Hp He. apply (ord_le_trans _ b'); [by apply Hcb|].
    unfold keys_above in Hab. rewrite Forall_forall in Hab. by apply Hab.
  - intros p Hp. destruct (Hop p Hp) as [E Hin]. by rewrite <- E.
Qed.

(** X19.  In the search of a fresh goal a node that is tagged CLOSED is
    settled: no later [processState] call changes its cost, its predecessor,
    its key or its tag. *)
Theorem fresh_search_closed_nodes_final (s s1 s2 : DStar D) costs goal
    (n m : nat) :
  0 <= INF P -> index_roundtrip P -> index_not_sentinel P ->
  valid (reset P (update_costmap P costs s)) goal ->
  processState_n P n (search_start P s costs goal) = Ok s1 ->
  processState_n P m s1 = Ok s2 ->
  forall p, DNode.tag (deref s1 p) = CLOSED -> deref s2 p = deref s1 p.
Proof.
  intros HI Hrt Hns Hv Hrun1 Hrun2.
  pose proof (search_start_inv P s costs goal HI Hns Hv) as Hinv.
  pose proof (search_start_links_ok s costs goal Hv) as Hl.
  destruct (processState_n_fresh goal n _ _ s1 HI Hrt Hns Hinv Hl Hrun1)
    as ([b1 Hinv1] & Hl1 & _).
  by destruct (processState_n_fresh goal m b1 s1 s2 HI Hrt Hns Hinv1 Hl1 Hrun2)
    as (_ & _ & Hk).
Qed.

(** ** The path that a fresh-goal call returns *)

Lemma descends_ext (s s' : DStar D) goal l :
  (forall a b, isCollision P s' a b = isCollision P s a b) ->
  descends P s goal l -> descends P s' goal l.
Proof.
  intros Hcol. induction l as [|n rest IH]; [done|]. simpl.
  intros (H1 & H2 & H3 & H4 & H5 & H6). rewrite Hcol. auto 10.
Qed.

Lemma descends_cons (s : DStar D) goal n rest :
  descends P s goal (n :: rest)
  = (in_grid P (coords n) /\
     index2Grid P (Node.pid n)
     = fst (match rest with
            | [] => (goal, d_of_int 0)
            | m :: _ => (coords m, Node.cost m)
            end) /\
     adjacent8 (fst (match rest with
                     | [] => (goal, d_of_int 0)
                     | m :: _ => (coords m, Node.cost m)
                     end)) (coords n) /\
     isCollision P s (fst (match rest with
                           | [] => (goal, d_of_int 0)
                           | m :: _ => (coords m, Node.cost m)
                           end)) (coords n) = false /\
     Node.cost n
     = d_add (snd (match rest with
                   | [] => (goal, d_of_int 0)
                   | m :: _ => (coords m, Node.cost m)
                   end))
             (d_hypot (fst (fst (match rest with
                                 | [] => (goal, d_of_int 0)
                                 | m :: _ => (coords m, Node.cost m)
                                 end)) - Node.x n)
                      (snd (fst (match rest with
                                 | [] => (goal, d_of_int 0)
                                 | m :: _ => (coords m, Node.cost m)
                                 end)) - Node.y n)) /\
     descends P s goal rest).
Proof. reflexivity. Qed.

Lemma pred_chain_head (s : DStar D) goal p chain :
  pred_chain P s goal p chain ->
  (p = goal /\ chain = []) \/
  (exists rest, chain = DNode.slice (deref s p) :: rest).
Proof. intros [|q rest _ _ _]; [by left|right; by eexists]. Qed.

Lemma pred_chain_descends (s : DStar D) goal p chain :
  index_roundtrip P -> cells_ok P s -> parents_closed s ->
  links_ok P goal s ->
  DNode.cost (deref s goal) = d_of_int 0 ->
  pred_chain P s goal p chain ->
  valid s p -> DNode.tag (deref s p) <> NEW ->
  descends P s goal chain.
Proof.
  intros Hrt Hc Hpc Hl Hg0 Hch.
  induction Hch as [|p chain Hne Hvp Hch IH]; intros Hp Ht; [done|].
  destruct (Hl p Hp Ht Hne) as (p0 & Hp0 & Hen & Hpid & Hcost).
  destruct (cells_ok_deref P s p0 Hc Hp0) as (Ex0 & Ey0 & Ei0).
  destruct (cells_ok_deref P s p Hc Hp) as (Ex & Ey & _).
  destruct (enumerated_adjacent s p0 p Hc Hp0 Hen) as (Hin & Hadj & Hcol).
  assert (Hin0 : in_grid P p0).
  { destruct Hp0 as [m Hm]. by destruct (Hc p0 m Hm). }
  assert (Epp : index2Grid P (DNode.pid (deref s p)) = p0).
  { rewrite Hpid, Ei0, Hrt by apply Hin0. by destruct p0. }
  rewrite Epp in Hch, IH.
  assert (Ht0 : DNode.tag (deref s p0) = CLOSED) by (by apply (Hpc p0 p)).
  assert (Hcoords : coords (DNode.slice (deref s p)) = p).
  { unfold coords. simpl. rewrite Ex, Ey. by destruct p. }
  assert (Hstep : DNode.cost (deref s p)
                  = d_add (DNode.cost (deref s p0))
                          (d_hypot (fst p0 - DNode.x (deref s p))
                                   (snd p0 - DNode.y (deref s p)))).
  { rewrite Hcost. unfold via, getCost. by rewrite Hcol, Ex0, Ey0. }
  assert (Hrest : descends P s goal chain).
  { apply IH; [done|]. by rewrite Ht0. }
  rewrite descends_cons, Hcoords.
  change (Node.pid (DNode.slice (deref s p))) with (DNode.pid (deref s p)).
  change (Node.cost (DNode.slice (deref s p))) with (DNode.cost (deref s p)).
  change (Node.x (DNode.slice (deref s p))) with (DNode.x (deref s p)).
  change (Node.y (DNode.slice (deref s p))) with (DNode.y (deref s p)).
  rewrite Epp.
  destruct (pred_chain_head s goal p0 chain Hch) as [[E1 E2]|[rest E2]].
  - rewrite E2 in Hrest |- *. cbn [fst snd]. rewrite Hstep, <- E1, <- Hg0, <- E1.
    by split_and!.
  - assert (Hc0 : coords (DNode.slice (deref s p0)) = p0).
    { unfold coords. simpl. rewrite Ex0, Ey0. by destruct p0. }
    rewrite E2 in Hrest |- *. rewrite Hc0. cbn [fst snd].
    change (Node.cost (DNode.slice (deref s p0))) with (DNode.cost (deref s p0)).
    by split_and!.
Qed.

(** X20.  The path of a fresh-goal call that returns, read from its last
    element, the start, back to its first: each node's predecessor index names
    the cell of the node before it in the path, and that of the first node
    names the goal cell; each step joins two neighbouring cells of the grid
    that the given cost map does not put in collision; and each node's cost is
    the cost of the node before it in the path, or 0 for the goal, plus the
    length of the step. *)
Theorem fresh_plan_path_descends (fuel : nat) (s s' : DStar D) costs
    start goal r :
  0 <= INF P -> index_roundtrip P -> index_not_sentinel P ->
  fresh_goal s goal = true ->
  plan P fuel s costs start goal = Ok (r, s') ->
  descends P s' goal (reverse (path r)).
Proof.
  intros HI Hrt Hns Hf Hpl.
  destruct (plan_fresh_inv P fuel s s' costs start goal r Hf Hpl)
    as (Hg & s1 & s2 & Hl & He & -> & ->).
  destruct (search_loop_processState_n P fuel _ s1 start Hl) as (n & _ & Hrun).
  pose proof (search_start_inv P s costs goal HI Hns Hg) as Hinv.
  pose proof (search_start_links_ok s costs goal Hg) as Hlk.
  destruct (processState_n_fresh goal n _ _ s1 HI Hrt Hns Hinv Hlk Hrun)
    as ([b1 [Hfr1 _]] & Hl1 & _).
  destruct (search_start_ok P s costs goal Hg) as (_ & Hp0 & _).
  pose proof (search_start_goal_inv P s costs goal HI Hg) as Hgi0.
  destruct (processState_n_goal_inv P goal n _ s1 HI Hns Hp0 Hgi0 Hrun)
    as [(_ & _ & _ & Hg0 & _) _].
  destruct Hfr1 as (Hc1 & _ & _ & _ & _ & _ & _ & _ & _ & Hpc1).
  pose proof (search_loop_closed P fuel _ s1 start Hl) as Hts.
  destruct (extractPath_chain P fuel (set_path [] s1) s2 start goal Hc1 eq_refl He)
    as (_ & Hv & chain & Hpath & Hch).
  pose proof (extractPath_frame P fuel _ s2 start goal He) as [path E].
  simpl. rewrite Hpath, reverse_involutive.
  apply (descends_ext (set_path [] s1)); [by rewrite E|].
  apply (pred_chain_descends (set_path [] s1) goal start chain); try done.
  change (deref (set_path [] s1) start) with (deref s1 start). by rewrite Hts.
Qed.

(** X21.  The expansion set of a fresh-goal call that returns holds the node
    of the start cell and the node of the goal cell, the latter with cost 0
    and no predecessor. *)
Theorem fresh_plan_expands_start_and_goal (fuel : nat) (s s' : DStar D) costs
    start goal r :
  0 <= INF P -> index_roundtrip P -> index_not_sentinel P ->
  fresh_goal s goal = true ->
  plan P fuel s costs start goal = Ok (r, s') ->
  (exists n, n ∈ expand r /\ coords n = start) /\
  (exists n, n ∈ expand r /\ coords n = goal /\
             Node.cost n = d_of_int 0 /\ Node.pid n = -1).
Proof.
  intros HI Hrt Hns Hf Hpl.
  destruct (plan_fresh_inv P fuel s s' costs start goal r Hf Hpl)
    as (Hg & s1 & s2 & Hl & He & -> & ->).
  set (s0 := search_start P s costs goal) in *.
  pose proof (search_start_inv P s costs goal HI Hns Hg) as Hinv.
  pose proof (search_start_links_ok s costs goal Hg) as Hlk.
  destruct (search_start_ok P s costs goal Hg) as (Hc0 & Hp0 & _).
  pose proof (search_start_goal_inv P s costs goal HI Hg) as Hgi0.
  fold s0 in Hinv, Hlk, Hc0, Hp0, Hgi0.
  destruct (search_loop_processState_n P fuel s0 s1 start Hl) as (n & _ & Hrun).
  destruct (processState_n_goal_inv P goal n s0 s1 HI Hns Hp0 Hgi0 Hrun)
    as [(Hc1 & Hvg & _ & Hg0 & Hgp & _) _].
  pose proof (search_loop_closed P fuel s0 s1 start Hl) as Hts.
  assert (Htg : DNode.tag (deref s1 goal) = CLOSED).
  { destruct (search_loop_runs P fuel s0 s1 start Hl) as (r0 & sa & m & Hps & Hm).
    pose proof (search_start_open_list P s costs goal Hg) as Hol. fold s0 in Hol.
    destruct (processState_fresh_keeps goal _ _ s0 sa goal [] r0
                HI Hrt Hns Hinv Hlk Hol Hps) as (Hinva & Hlka & _ & Hta).
    destruct (processState_n_fresh goal m _ sa s1 HI Hrt Hns Hinva Hlka Hm)
      as (_ & _ & Hk).
    by rewrite (Hk goal Hta). }
  pose proof (extractPath_frame P fuel _ s2 start goal He) as [path E].
  assert (Hd : forall q, deref s2 q = deref s1 q) by (by rewrite E).
  assert (Hc2 : cells_ok P s2) by (by rewrite E).
  assert (Hvs : valid s1 start).
  { unfold valid. unfold deref in Hts. by destruct (map_ s1 !! start). }
  simpl. split.
  - exists (DNode.slice (deref s1 start)). split.
    + apply (elem_of_extractExpand P s2 _ Hc2). exists start.
      rewrite Hd. split; [by rewrite E|done].
    + destruct (cells_ok_deref P s1 start Hc1 Hvs) as (Ex & Ey & _).
      unfold coords. simpl. rewrite Ex, Ey. by destruct start.
  - exists (DNode.slice (deref s1 goal)). split.
    + apply (elem_of_extractExpand P s2 _ Hc2). exists goal.
      rewrite Hd. split; [by rewrite E|done].
    + destruct (cells_ok_deref P s1 goal Hc1 Hvg) as (Ex & Ey & _).
      unfold coords. simpl. rewrite Ex, Ey. by destruct goal.
Qed.

End MoreLawfulFacts.

(** * The further properties on the 5 x 3 grid *)

Lemma fixed_planner_well_formed : well_formed FixedRun.P FixedRun.planner.
Proof. apply well_formed_DStar_new. Qed.

Lemma fixed_first_call :
  plan FixedRun.P 10 FixedRun.planner Scenario.detour0 (2, 0) (0, 0)
  = Ok (FixedRun.r1, FixedRun.after1).
Proof. vm_compute. reflexivity. Qed.

Lemma fixed_after1_well_formed : well_formed FixedRun.P FixedRun.after1.
Proof.
  by destruct (plan_well_formed FixedRun.P 10 FixedRun.planner FixedRun.after1
                 Scenario.detour0 (2, 0) (0, 0) FixedRun.r1
                 fixed_planner_well_formed fixed_first_call).
Qed.

Lemma fixed_goal_valid :
  valid (reset FixedRun.P
           (update_costmap FixedRun.P Scenario.detour0 FixedRun.planner)) (0, 0).
Proof. vm_compute. eauto. Qed.

Lemma fixed_INF : 0 <= INF FixedRun.P.
Proof. vm_compute. discriminate. Qed.

Lemma getNeighbours_exact_witness :
  cells_ok FixedRun.P FixedRun.planner /\
  valid FixedRun.planner (1, 1) /\
  getNeighbours FixedRun.P FixedRun.planner (1, 1)
    = Ok [(0, 0); (0, 1); (0, 2); (1, 0); (1, 2); (2, 0); (2, 1); (2, 2)] /\
  NoDup [(0, 0); (0, 1); (0, 2); (1, 0); (1, 2); (2, 0); (2, 1); (2, 2)] /\
  forall q : Z * Z,
    q ∈ [(0, 0); (0, 1); (0, 2); (1, 0); (1, 2); (2, 0); (2, 1); (2, 2)] <->
    in_grid FixedRun.P q /\ adjacent8 (1, 1) q /\
    isCollision FixedRun.P FixedRun.planner (1, 1) q = false.
Proof.
  assert (H1 : cells_ok FixedRun.P FixedRun.planner)
    by apply fixed_planner_well_formed.
  assert (H2 : valid FixedRun.planner (1, 1)) by (vm_compute; eauto).
  assert (H3 : getNeighbours FixedRun.P FixedRun.planner (1, 1)
               = Ok [(0, 0); (0, 1); (0, 2); (1, 0); (1, 2); (2, 0); (2, 1); (2, 2)])
    by (vm_compute; reflexivity).
  split; [exact H1|]. split; [exact H2|]. split; [exact H3|].
  exact (getNeighbours_exact FixedRun.P FixedRun.planner (1, 1) _ H1 H2 H3).
Defined.

Lemma getNeighbours_faults_on_upper_edge_witness :
  cells_ok FixedRun.P FixedRun.planner /\
  grid_full FixedRun.P FixedRun.planner /\
  valid FixedRun.planner (4, 1) /\
  getNeighbours FixedRun.P FixedRun.planner (4, 1) = Fault OutOfBounds.
Proof.
  assert (H1 : cells_ok FixedRun.P FixedRun.planner)
    by apply fixed_planner_well_formed.
  assert (H2 : grid_full FixedRun.P FixedRun.planner)
    by apply fixed_planner_well_formed.
  assert (H3 : valid FixedRun.planner (4, 1)) by (vm_compute; eauto).
  split; [exact H1|]. split; [exact H2|]. split; [exact H3|].
  exact (proj1 (getNeighbours_faults_on_upper_edge FixedRun.P FixedRun.planner
                  (4, 1) H1 H2 H3) (or_introl eq_refl)).
Defined.

Lemma getCost_between_neighbours_witness :
  cells_ok FixedRun.P FixedRun.planner /\
  valid FixedRun.planner (1, 1) /\
  getNeighbours FixedRun.P FixedRun.planner (1, 1)
    = Ok [(0, 0); (0, 1); (0, 2); (1, 0); (1, 2); (2, 0); (2, 1); (2, 2)] /\
  Forall (fun y : Z * Z =>
            adjacent8 (1, 1) y /\
            getCost FixedRun.P FixedRun.planner (1, 1) y
              = d_hypot (1 - fst y) (1 - snd y) /\
            getCost FixedRun.P FixedRun.planner y (1, 1)
              = d_hypot (fst y - 1) (snd y - 1))
         [(0, 0); (0, 1); (0, 2); (1, 0); (1, 2); (2, 0); (2, 1); (2, 2)].
Proof.
  assert (H1 : cells_ok FixedRun.P FixedRun.planner)
    by apply fixed_planner_well_formed.
  assert (H2 : valid FixedRun.planner (1, 1)) by (vm_compute; eauto).
  assert (H3 : getNeighbours FixedRun.P FixedRun.planner (1, 1)
               = Ok [(0, 0); (0, 1); (0, 2); (1, 0); (1, 2); (2, 0); (2, 1); (2, 2)])
    by (vm_compute; reflexivity).
  split; [exact H1|]. split; [exact H2|]. split; [exact H3|].
  exact (getCost_between_neighbours FixedRun.P FixedRun.planner (1, 1) _ H1 H2 H3).
Defined.

Lemma fixed_s0_ok :
  cells_ok FixedRun.P FixedDetour.s0 /\ ptrs_ok FixedDetour.s0.
Proof.
  destruct (search_start_ok FixedRun.P FixedRun.planner Scenario.detour0 (0, 0)
              fixed_goal_valid) as (H1 & H2 & _).
  by split.
Qed.

Lemma fixed_first_step :
  processState FixedRun.P FixedDetour.s0
  = Ok (front_key FixedDetour.s1, FixedDetour.s1).
Proof. vm_compute. reflexivity. Qed.

Lemma processState_writes_neighbourhood_witness :
  cells_ok FixedRun.P FixedDetour.s0 /\
  ptrs_ok FixedDetour.s0 /\
  open_list_ FixedDetour.s0 = [(0, (0, 0))] /\
  processState FixedRun.P FixedDetour.s0
    = Ok (front_key FixedDetour.s1, FixedDetour.s1) /\
  (forall q : Z * Z, q <> (0, 0) -> ~ adjacent8 (0, 0) q ->
     deref FixedDetour.s1 q = deref FixedDetour.s0 q) /\
  (forall q, geo (deref FixedDetour.s1 q) = geo (deref FixedDetour.s0 q)) /\
  (forall q, valid FixedDetour.s1 q <-> valid FixedDetour.s0 q) /\
  global_costmap_ FixedDetour.s1 = global_costmap_ FixedDetour.s0 /\
  goal_ FixedDetour.s1 = goal_ FixedDetour.s0 /\
  path_ FixedDetour.s1 = path_ FixedDetour.s0.
Proof.
  destruct fixed_s0_ok as [H1 H2].
  assert (H3 : open_list_ FixedDetour.s0 = [(0, (0, 0))])
    by (vm_compute; reflexivity).
  split; [exact H1|]. split; [exact H2|]. split; [exact H3|].
  split; [exact fixed_first_step|].
  exact (processState_writes_neighbourhood FixedRun.P FixedDetour.s0
           FixedDetour.s1 _ 0 (0, 0) [] H1 H2 H3 fixed_first_step).
Defined.

Lemma processState_keeps_queue_ok_witness :
  ptrs_ok FixedDetour.s0 /\
  queue_ok FixedDetour.s0 /\
  processState FixedRun.P FixedDetour.s0
    = Ok (front_key FixedDetour.s1, FixedDetour.s1) /\
  queue_ok FixedDetour.s1.
Proof.
  destruct fixed_s0_ok as [_ H1].
  assert (H2 : queue_ok FixedDetour.s0) by apply queue_ok_search_start.
  split; [exact H1|]. split; [exact H2|]. split; [exact fixed_first_step|].
  exact (processState_keeps_queue_ok FixedRun.P FixedDetour.s0 FixedDetour.s1 _
           H1 H2 fixed_first_step).
Defined.

Lemma extractExpand_lists_closed_cells_witness :
  cells_ok FixedRun.P FixedRun.after1 /\
  map coords (extractExpand FixedRun.P FixedRun.after1)
    = [(0, 0); (1, 1); (2, 0); (2, 1)] /\
  map coords (extractExpand FixedRun.P FixedRun.after1)
    = List.filter
        (fun p => Tag_eqb (DNode.tag (deref FixedRun.after1 p)) CLOSED)
        (grid_cells FixedRun.P) /\
  NoDup (map coords (extractExpand FixedRun.P FixedRun.after1)) /\
  forall n, n ∈ extractExpand FixedRun.P FixedRun.after1 <->
    exists p, valid FixedRun.after1 p /\
              DNode.tag (deref FixedRun.after1 p) = CLOSED /\
              n = DNode.slice (deref FixedRun.after1 p).
Proof.
  assert (H1 : cells_ok FixedRun.P FixedRun.after1)
    by apply fixed_after1_well_formed.
  split; [exact H1|]. split; [vm_compute; reflexivity|].
  exact (extractExpand_lists_closed_cells FixedRun.P FixedRun.after1 H1).
Defined.

Lemma plan_keeps_well_formed_witness :
  well_formed FixedRun.P FixedRun.planner /\
  plan FixedRun.P 10 FixedRun.planner Scenario.detour0 (2, 0) (0, 0)
    = Ok (FixedRun.r1, FixedRun.after1) /\
  well_formed FixedRun.P FixedRun.after1 /\
  goal_ FixedRun.after1 = (0, 0) /\
  global_costmap_ FixedRun.after1
    = take (Z.to_nat (ns_ FixedRun.P)) Scenario.detour0 /\
  fresh_goal FixedRun.after1 (0, 0) = false /\
  FixedRun.r1
    = mkPlanResult true (path_ FixedRun.after1)
        (extractExpand FixedRun.P FixedRun.after1).
Proof.
  split; [exact fixed_planner_well_formed|]. split; [exact fixed_first_call|].
  exact (plan_keeps_well_formed FixedRun.P 10 FixedRun.planner FixedRun.after1
           Scenario.detour0 (2, 0) (0, 0) FixedRun.r1
           fixed_planner_well_formed fixed_first_call).
Defined.

Lemma fixed_second_call :
  plan FixedRun.P 10 FixedRun.after1 Scenario.detour1 (2, 0) (0, 0)
  = Ok (FixedDetour.r2, FixedDetour.after2).
Proof. vm_compute. reflexivity. Qed.

Lemma plan_same_goal_path_ends_at_nearest_witness :
  well_formed FixedRun.P FixedRun.after1 /\
  fresh_goal FixedRun.after1 (0, 0) = false /\
  plan FixedRun.P 10 FixedRun.after1 Scenario.detour1 (2, 0) (0, 0)
    = Ok (FixedDetour.r2, FixedDetour.after2) /\
  map coords (path FixedDetour.r2) = [(1, 1); (2, 1); (3, 1); (2, 0)] /\
  exists state,
    getState FixedRun.after1 (2, 0) = Ok state /\
    Forall (fun n => coords n <> (0, 0)) (path FixedDetour.r2) /\
    (state = (0, 0) -> path FixedDetour.r2 = []) /\
    (state <> (0, 0) ->
       exists n_first n_last,
         head (path FixedDetour.r2) = Some n_first /\
         index2Grid FixedRun.P (Node.pid n_first) = (0, 0) /\
         last (path FixedDetour.r2) = Some n_last /\
         coords n_last = state).
Proof.
  assert (H2 : fresh_goal FixedRun.after1 (0, 0) = false)
    by (vm_compute; reflexivity).
  split; [exact fixed_after1_well_formed|]. split; [exact H2|].
  split; [exact fixed_second_call|]. split; [vm_compute; reflexivity|].
  exact (plan_same_goal_path_ends_at_nearest FixedRun.P 10 FixedRun.after1
           FixedDetour.after2 Scenario.detour1 (2, 0) (0, 0) FixedDetour.r2
           fixed_after1_well_formed H2 fixed_second_call).
Defined.

Lemma plan_after_start_on_goal_reads_empty_path_witness :
  fresh_goal FixedRun.planner (0, 0) = true /\
  plan FixedRun.P 10 FixedRun.planner Scenario.detour0 (0, 0) (0, 0)
    = Ok (FixedDetour.on_goal_r, FixedDetour.on_goal_after) /\
  path FixedDetour.on_goal_r = [] /\
  forall fuel' costs' start',
    plan FixedRun.P fuel' FixedDetour.on_goal_after costs' start' (0, 0)
    = Fault OutOfBounds.
Proof.
  assert (H1 : fresh_goal FixedRun.planner (0, 0) = true) by reflexivity.
  assert (H2 : plan FixedRun.P 10 FixedRun.planner Scenario.detour0 (0, 0) (0, 0)
               = Ok (FixedDetour.on_goal_r, FixedDetour.on_goal_after))
    by (vm_compute; reflexivity).
  split; [exact H1|]. split; [exact H2|].
  exact (plan_after_start_on_goal_reads_empty_path FixedRun.P 10 FixedRun.planner
           FixedDetour.on_goal_after Scenario.detour0 (0, 0)
           FixedDetour.on_goal_r H1 H2).
Defined.

Lemma plan_fresh_forgets_history_witness :
  fresh_goal FixedRun.planner (1, 1) = true /\
  fresh_goal FixedRun.after1 (1, 1) = true /\
  plan FixedRun.P 10 FixedRun.planner Scenario.detour0 (2, 0) (1, 1)
    = Ok (FixedDetour.other_r, FixedDetour.other_after) /\
  plan FixedRun.P 10 FixedRun.planner Scenario.detour0 (2, 0) (1, 1)
    = plan FixedRun.P 10 FixedRun.after1 Scenario.detour0 (2, 0) (1, 1).
Proof.
  assert (H1 : fresh_goal FixedRun.planner (1, 1) = true) by reflexivity.
  assert (H2 : fresh_goal FixedRun.after1 (1, 1) = true)
    by (vm_compute; reflexivity).
  split; [exact H1|]. split; [exact H2|]. split; [vm_compute; reflexivity|].
  exact (plan_fresh_forgets_history FixedRun.P 10 FixedRun.planner
           FixedRun.after1 Scenario.detour0 (2, 0) (1, 1) H1 H2).
Defined.

Lemma fresh_plan_returns_off_upper_edge_witness :
  fresh_goal FixedRun.planner (0, 0) = true /\
  plan FixedRun.P 10 FixedRun.planner Scenario.detour0 (2, 0) (0, 0)
    = Ok (FixedRun.r1, FixedRun.after1) /\
  off_upper_edge FixedRun.P (2, 0) /\ off_upper_edge FixedRun.P (0, 0) /\
  Forall (fun n => off_upper_edge FixedRun.P (coords n)) (expand FixedRun.r1).
Proof.
  assert (H1 : fresh_goal FixedRun.planner (0, 0) = true) by reflexivity.
  split; [exact H1|]. split; [exact fixed_first_call|].
  exact (fresh_plan_returns_off_upper_edge FixedRun.P 10 FixedRun.planner
           FixedRun.after1 Scenario.detour0 (2, 0) (0, 0) FixedRun.r1
           H1 fixed_first_call).
Defined.


Lemma fixed_after1_costs_nonneg : costs_nonneg FixedRun.after1.
Proof.
  exact (plan_fresh_costs_nonneg FixedRun.P 10 FixedRun.planner FixedRun.after1
           Scenario.detour0 (2, 0) (0, 0) FixedRun.r1 fixed_INF
           fixed_index_not_sentinel eq_refl fixed_first_call).
Qed.

Lemma modify_returns_with_key_above_cost_witness :
  0 <= INF FixedRun.P /\
  d_le (d_of_int 0) (d_of_int (-1) : Z) = false /\
  ptrs_ok FixedDetour.u2 /\
  valid FixedDetour.u2 (2, 0) /\
  costs_nonneg FixedDetour.u2 /\
  modify FixedRun.P 10 FixedDetour.u2 (2, 0) (1, 1) = Ok FixedDetour.m2 /\
  open_list_ FixedDetour.m2 = [(4828426, (2, 0))] /\
  costs_nonneg FixedDetour.m2 /\
  exists k q rest, open_list_ FixedDetour.m2 = (k, q) :: rest /\
                   d_le (DNode.cost (deref FixedDetour.m2 (2, 0))) k = true.
Proof.
  assert (H2 : d_le (d_of_int 0) (d_of_int (-1) : Z) = false) by reflexivity.
  assert (H3 : ptrs_ok FixedDetour.u2).
  { unfold FixedDetour.u2.
    exact (proj2 (proj2 (well_formed_update_costmap FixedRun.P FixedRun.after1
                           Scenario.detour1 fixed_after1_well_formed))). }
  assert (H4 : valid FixedDetour.u2 (2, 0)) by (vm_compute; eauto).
  assert (H5 : costs_nonneg FixedDetour.u2).
  { unfold FixedDetour.u2.
    exact (costs_nonneg_update_costmap FixedRun.P FixedRun.after1
             Scenario.detour1 fixed_after1_costs_nonneg). }
  assert (H6 : modify FixedRun.P 10 FixedDetour.u2 (2, 0) (1, 1)
               = Ok FixedDetour.m2) by (vm_compute; reflexivity).
  split; [exact fixed_INF|]. split; [exact H2|]. split; [exact H3|].
  split; [exact H4|]. split; [exact H5|]. split; [exact H6|].
  split; [vm_compute; reflexivity|].
  exact (modify_returns_with_key_above_cost FixedRun.P 10 FixedDetour.u2
           FixedDetour.m2 (2, 0) (1, 1) fixed_INF H2 H3 H4 H5 H6).
Defined.

Lemma fixed_three_steps :
  processState_n FixedRun.P 3
    (search_start FixedRun.P FixedRun.planner Scenario.detour0 (0, 0))
  = Ok FixedRun.three_steps.
Proof. vm_compute. reflexivity. Qed.

Lemma fresh_search_settles_below_queue_witness :
  0 <= INF FixedRun.P /\
  index_roundtrip FixedRun.P /\
  index_not_sentinel FixedRun.P /\
  valid (reset FixedRun.P
           (update_costmap FixedRun.P Scenario.detour0 FixedRun.planner)) (0, 0) /\
  processState_n FixedRun.P 3
    (search_start FixedRun.P FixedRun.planner Scenario.detour0 (0, 0))
    = Ok FixedRun.three_steps /\
  (forall p e, DNode.tag (deref FixedRun.three_steps p) = CLOSED ->
     e ∈ open_list_ FixedRun.three_steps ->
     d_le (DNode.cost (deref FixedRun.three_steps p)) (fst e) = true) /\
  (forall p, DNode.tag (deref FixedRun.three_steps p) = OPEN ->
     (DNode.cost (deref FixedRun.three_steps p), p)
     ∈ open_list_ FixedRun.three_steps).
Proof.
  split; [exact fixed_INF|]. split; [exact fixed_index_roundtrip|].
  split; [exact fixed_index_not_sentinel|]. split; [exact fixed_goal_valid|].
  split; [exact fixed_three_steps|].
  exact (fresh_search_settles_below_queue FixedRun.P FixedRun.planner
           FixedRun.three_steps Scenario.detour0 (0, 0) 3 fixed_INF
           fixed_index_roundtrip fixed_index_not_sentinel fixed_goal_valid
           fixed_three_steps).
Defined.

Lemma fixed_one_step :
  processState_n FixedRun.P 1
    (search_start FixedRun.P FixedRun.planner Scenario.detour0 (0, 0))
  = Ok FixedDetour.s1.
Proof. vm_compute. reflexivity. Qed.

Lemma fixed_two_more_steps :
  processState_n FixedRun.P 2 FixedDetour.s1 = Ok FixedRun.three_steps.
Proof. vm_compute. reflexivity. Qed.

Lemma fresh_search_closed_nodes_final_witness :
  0 <= INF FixedRun.P /\
  index_roundtrip FixedRun.P /\
  index_not_sentinel FixedRun.P /\
  valid (reset FixedRun.P
           (update_costmap FixedRun.P Scenario.detour0 FixedRun.planner)) (0, 0) /\
  processState_n FixedRun.P 1
    (search_start FixedRun.P FixedRun.planner Scenario.detour0 (0, 0))
    = Ok FixedDetour.s1 /\
  processState_n FixedRun.P 2 FixedDetour.s1 = Ok FixedRun.three_steps /\
  DNode.tag (deref FixedDetour.s1 (0, 0)) = CLOSED /\
  forall p, DNode.tag (deref FixedDetour.s1 p) = CLOSED ->
    deref FixedRun.three_steps p = deref FixedDetour.s1 p.
Proof.
  split; [exact fixed_INF|]. split; [exact fixed_index_roundtrip|].
  split; [exact fixed_index_not_sentinel|]. split; [exact fixed_goal_valid|].
  split; [exact fixed_one_step|]. split; [exact fixed_two_more_steps|].
  split; [vm_compute; reflexivity|].
  exact (fresh_search_closed_nodes_final FixedRun.P FixedRun.planner
           FixedDetour.s1 FixedRun.three_steps Scenario.detour0 (0, 0) 1 2
           fixed_INF fixed_index_roundtrip fixed_index_not_sentinel
           fixed_goal_valid fixed_one_step fixed_two_more_steps).
Defined.

Lemma fresh_plan_path_descends_witness :
  0 <= INF FixedRun.P /\
  index_roundtrip FixedRun.P /\
  index_not_sentinel FixedRun.P /\
  fresh_goal FixedRun.planner (0, 0) = true /\
  plan FixedRun.P 10 FixedRun.planner Scenario.detour0 (2, 0) (0, 0)
    = Ok (FixedRun.r1, FixedRun.after1) /\
  map (fun n => (coords n, Node.cost n)) (reverse (path FixedRun.r1))
    = [((2, 0), 2828426); ((1, 1), 1414213)] /\
  descends FixedRun.P FixedRun.after1 (0, 0) (reverse (path FixedRun.r1)).
Proof.
  assert (H4 : fresh_goal FixedRun.planner (0, 0) = true) by reflexivity.
  split; [exact fixed_INF|]. split; [exact fixed_index_roundtrip|].
  split; [exact fixed_index_not_sentinel|]. split; [exact H4|].
  split; [exact fixed_first_call|]. split; [vm_compute; reflexivity|].
  exact (fresh_plan_path_descends FixedRun.P 10 FixedRun.planner FixedRun.after1
           Scenario.detour0 (2, 0) (0, 0) FixedRun.r1 fixed_INF
           fixed_index_roundtrip fixed_index_not_sentinel H4 fixed_first_call).
Defined.

Lemma fresh_plan_expands_start_and_goal_witness :
  0 <= INF FixedRun.P /\
  index_roundtrip FixedRun.P /\
  index_not_sentinel FixedRun.P /\
  fresh_goal FixedRun.planner (0, 0) = true /\
  plan FixedRun.P 10 FixedRun.planner Scenario.detour0 (2, 0) (0, 0)
    = Ok (FixedRun.r1, FixedRun.after1) /\
  (exists n, n ∈ expand FixedRun.r1 /\ coords n = (2, 0)) /\
  (exists n, n ∈ expand FixedRun.r1 /\ coords n = (0, 0) /\
             Node.cost n = d_of_int 0 /\ Node.pid n = -1).
Proof.
  assert (H4 : fresh_goal FixedRun.planner (0, 0) = true) by reflexivity.
  split; [exact fixed_INF|]. split; [exact fixed_index_roundtrip|].
  split; [exact fixed_index_not_sentinel|]. split; [exact H4|].
  split; [exact fixed_first_call|].
  exact (fresh_plan_expands_start_and_goal FixedRun.P 10 FixedRun.planner
           FixedRun.after1 Scenario.detour0 (2, 0) (0, 0) FixedRun.r1 fixed_INF
           fixed_index_roundtrip fixed_index_not_sentinel H4 fixed_first_call).
Defined.

Lemma lower_state_lowers_neighbours_witness :
  0 <= INF FixedRun.P /\
  cells_ok FixedRun.P FixedDetour.s0 /\
  ptrs_ok FixedDetour.s0 /\
  costs_nonneg FixedDetour.s0 /\
  nonneg (0 : Z) /\
  open_list_ FixedDetour.s0 = [(0, (0, 0))] /\
  d_eq (0 : Z) (DNode.cost (deref FixedDetour.s0 (0, 0))) = true /\
  processState FixedRun.P FixedDetour.s0
    = Ok (front_key FixedDetour.s1, FixedDetour.s1) /\
  DNode.cost (deref FixedDetour.s1 (0, 0))
    = DNode.cost (deref FixedDetour.s0 (0, 0)) /\
  DNode.pid (deref FixedDetour.s1 (0, 0))
    = DNode.pid (deref FixedDetour.s0 (0, 0)) /\
  DNode.tag (deref FixedDetour.s1 (0, 0)) = CLOSED /\
  forall y, in_grid FixedRun.P y -> adjacent8 (0, 0) y ->
    isCollision FixedRun.P FixedDetour.s0 (0, 0) y = false ->
    lowered FixedRun.P (0, 0) FixedDetour.s1 y.
Proof.
  destruct fixed_s0_ok as [H1 H2].
  assert (H3 : costs_nonneg FixedDetour.s0).
  { by destruct (search_start_goal_inv FixedRun.P FixedRun.planner
                   Scenario.detour0 (0, 0) fixed_INF fixed_goal_valid)
      as (_ & _ & ? & _). }
  assert (H4 : nonneg (0 : Z)) by reflexivity.
  assert (H5 : open_list_ FixedDetour.s0 = [(0, (0, 0))])
    by (vm_compute; reflexivity).
  assert (H6 : d_eq (0 : Z) (DNode.cost (deref FixedDetour.s0 (0, 0))) = true)
    by (vm_compute; reflexivity).
  split; [exact fixed_INF|]. split; [exact H1|]. split; [exact H2|].
  split; [exact H3|]. split; [exact H4|]. split; [exact H5|].
  split; [exact H6|]. split; [exact fixed_first_step|].
  exact (lower_state_lowers_neighbours FixedRun.P FixedDetour.s0 FixedDetour.s1
           _ 0 (0, 0) [] fixed_INF H1 H2 H3 H4 H5 H6 fixed_first_step).
Defined.

Lemma fixed_after1_goal_inv : goal_inv FixedRun.P (0, 0) FixedRun.after1.
Proof.
  exact (plan_fresh_goal_inv FixedRun.P (0, 0) 10 FixedRun.planner FixedRun.after1
           Scenario.detour0 (2, 0) FixedRun.r1 fixed_INF
           fixed_index_not_sentinel eq_refl fixed_first_call).
Qed.

Lemma plan_keeps_goal_settled_witness :
  0 <= INF FixedRun.P /\
  index_not_sentinel FixedRun.P /\
  well_formed FixedRun.P FixedRun.after1 /\
  fresh_goal FixedRun.after1 (0, 0) = false /\
  goal_inv FixedRun.P (0, 0) FixedRun.after1 /\
  plan FixedRun.P 10 FixedRun.after1 Scenario.detour1 (2, 0) (0, 0)
    = Ok (FixedDetour.r2, FixedDetour.after2) /\
  goal_inv FixedRun.P (0, 0) FixedDetour.after2 /\
  DNode.cost (deref FixedDetour.after2 (0, 0)) = d_of_int 0 /\
  DNode.pid (deref FixedDetour.after2 (0, 0)) = -1.
Proof.
  split; [exact fixed_INF|]. split; [exact fixed_index_not_sentinel|].
  split; [exact fixed_after1_well_formed|].
  split; [vm_compute; reflexivity|]. split; [exact fixed_after1_goal_inv|].
  split; [exact fixed_second_call|].
  exact (plan_keeps_goal_settled FixedRun.P 10 FixedRun.after1 FixedDetour.after2
           Scenario.detour1 (2, 0) (0, 0) FixedDetour.r2 fixed_INF
           fixed_index_not_sentinel fixed_after1_well_formed
           (fun _ => fixed_after1_goal_inv) fixed_second_call).
Defined.
